(** * ToRTOS kernel core: scheduler, software timers and IPC

    A shallow embedding of the C sources of ToRTOS (list.c, scheduler.c,
    thread.c, timer.c, ipc.c, service.c, with the constants of tdef.h and
    ToRTOS_Config.h), followed by the properties of the kernel design
    document stated and settled over that embedding.

    Conventions of the embedding.
    - A C integer of width w is a [Z] kept in [0, 2^w) by an explicit
      [wrap8], [wrap16] or [wrap32] at every operation that can leave the
      range.
    - The intrusive circular lists are modelled at pointer level: a [node]
      is the address of a [t_list_t] (a list head or a node embedded in a
      thread or timer) and [links] holds the [next] and [prev] field of
      every node.  Nothing assumes that the lists are well formed.
    - [T_LIST_ENTRY] applied to a node that is not embedded in an object of
      the requested type has no defined behaviour in C; the embedding stops
      with [Fault] there.  C loops over lists take a fuel argument and stop
      with [OutOfFuel] when it is exhausted.
    - A blocking IPC call is followed up to the point where the caller has
      suspended itself and asked for a context switch ([Blocked]); what it
      does after it is resumed depends on the other threads and is not part
      of the embedding.
    - The formatted output of service.c is embedded with the characters as
      their codes and the [double] of [%f] as a primitive binary64 float. *)

From Stdlib Require Import ZArith List Bool Lia.
From Stdlib Require PrimFloat FloatOps SpecFloat Uint63.
Import ListNotations.
Local Open Scope Z_scope.

(** ** Fixed-width integers (tdef.h) *)

Definition wrap8 (x : Z) : Z := x mod 2 ^ 8.
Definition wrap16 (x : Z) : Z := x mod 2 ^ 16.
Definition wrap32 (x : Z) : Z := x mod 2 ^ 32.

(** ** Status codes and constants (tdef.h, ToRTOS_Config.h) *)

Inductive t_status_t : Type :=
| T_OK | T_ERR | T_TIMEOUT | T_BUSY | T_INVALID | T_NULL | T_DELETED
| T_UNSUPPORTED.

Definition TO_LOWER_PRIORITY_NUM_HIGHER_PRIORITY : bool := false.
Definition TO_THREAD_PRIORITY_MAX : Z := 32.
Definition TIMER_USE_OVERFLOW_LIST : bool := true.

Definition TO_THREAD_READY : Z := 0x01.
Definition TO_THREAD_SUSPEND : Z := 0x02.
Definition TO_THREAD_TERMINATED : Z := 0x08.
Definition TO_THREAD_RUNNING : Z := 0x10.
Definition TO_THREAD_DELETED : Z := 0x20.
Definition TO_THREAD_INIT : Z := 0x80.

Definition TO_TIMER_GET_TIME : Z := 0x01.
Definition TO_TIMER_SET_TIME : Z := 0x02.

Definition TO_THREAD_GET_STATUS : Z := 0x01.
Definition TO_THREAD_SET_STATUS : Z := 0x02.
Definition TO_THREAD_GET_PRIORITY : Z := 0x03.
Definition TO_THREAD_SET_PRIORITY : Z := 0x04.

Definition TO_IPC_FLAG_FIFO : Z := 0x00.
Definition TO_IPC_FLAG_PRIO : Z := 0x01.
Definition TO_WAITING_FOREVER : Z := 0xFFFFFFFF.
Definition DUMMY_PRIORITY : Z := 0xFF.
Definition MUTEX_RECURSIVE_COUNT_MAX : Z := 0xFF.

(** ** Tick arithmetic (timer.c) *)

(** [get_tick_diff]: both arms of the [TIMER_USE_OVERFLOW_LIST] switch.
    The arithmetic is unsigned 32-bit, hence the [wrap32]. *)
Definition get_tick_diff (start_tick end_tick : Z) : Z :=
  if TIMER_USE_OVERFLOW_LIST then
    if end_tick >=? start_tick then wrap32 (end_tick - start_tick)
    else wrap32 (end_tick + 0xFFFFFFFF - start_tick)
  else wrap32 (end_tick - start_tick).

(** ** Results of the embedding *)

Inductive result (A : Type) : Type :=
| Ok (a : A)
| Fault
| OutOfFuel.
Arguments Ok {A} a.
Arguments Fault {A}.
Arguments OutOfFuel {A}.

Definition bind {A B : Type} (r : result A) (f : A -> result B) : result B :=
  match r with
  | Ok a => f a
  | Fault => Fault
  | OutOfFuel => OutOfFuel
  end.

Notation "x <- e ;; f" := (bind e (fun x => f))
  (at level 61, e at next level, right associativity).

(** What a kernel call that can block did: it returned a status, or the
    caller is now suspended on a wait list. *)
Inductive outcome : Type :=
| Done (r : t_status_t)
| Blocked.

(** ** Objects and their addresses *)

Inductive timer_ref : Type :=
| thread_timer (t : nat)      (* &thread->timer *)
| user_timer (n : nat).       (* a timer owned by the application *)

Inductive node : Type :=
| ready_list (p : Z)          (* &t_thread_ready_lists[p] *)
| waiting_termination_list    (* &t_thread_waiting_termination_list *)
| wait_list (i : nat)         (* &ipc->wait_list *)
| s_timer_list                (* &s_timer_list[0] *)
| s_overflow_timer_list       (* &s_overflow_timer_list[0] *)
| expired_list                (* the local list of t_timer_check *)
| tlist (t : nat)             (* &thread->tlist *)
| row (tm : timer_ref).       (* &timer->row[0] *)

Definition timer_ref_eq_dec (a b : timer_ref) : {a = b} + {a <> b}.
Proof. decide equality; apply Nat.eq_dec. Defined.

Definition node_eq_dec (a b : node) : {a = b} + {a <> b}.
Proof.
  decide equality;
    first [apply Z.eq_dec | apply Nat.eq_dec | apply timer_ref_eq_dec].
Defined.

Definition option_nat_eqb (a b : option nat) : bool :=
  match a, b with
  | Some x, Some y => Nat.eqb x y
  | None, None => true
  | _, _ => false
  end.

(** Stores are total functions; [upd] is the assignment to one cell. *)
Definition upd {K V : Type} (eq_dec : forall a b : K, {a = b} + {a <> b})
    (f : K -> V) (k : K) (v : V) : K -> V :=
  fun x => if eq_dec x k then v else f x.

(** [T_LIST_ENTRY (node, t_thread_t, tlist)] and
    [T_LIST_ENTRY (node, t_timer_t, row[0])]. *)
Definition T_LIST_ENTRY_thread (n : node) : option nat :=
  match n with tlist t => Some t | _ => None end.

Definition T_LIST_ENTRY_timer (n : node) : option timer_ref :=
  match n with row tm => Some tm | _ => None end.

(** ** Intrusive circular lists (list.c) *)

Record links : Type := {
  next : node -> node;
  prev : node -> node
}.

Definition set_next (a b : node) (h : links) : links :=
  {| next := upd node_eq_dec (next h) a b; prev := prev h |}.

Definition set_prev (a b : node) (h : links) : links :=
  {| next := next h; prev := upd node_eq_dec (prev h) a b |}.

Definition t_list_init (l : node) (h : links) : links :=
  set_next l l (set_prev l l h).

Definition t_list_insert_after (l n : node) (h : links) : links :=
  let h := set_prev (next h l) n h in      (* l->next->prev = n *)
  let h := set_next n (next h l) h in      (* n->next = l->next *)
  let h := set_next l n h in               (* l->next = n *)
  set_prev n l h.                          (* n->prev = l *)

Definition t_list_insert_before (l n : node) (h : links) : links :=
  let h := set_next (prev h l) n h in      (* l->prev->next = n *)
  let h := set_prev n (prev h l) h in      (* n->prev = l->prev *)
  let h := set_prev l n h in               (* l->prev = n *)
  set_next n l h.                          (* n->next = l *)

Definition t_list_delete (d : node) (h : links) : links :=
  let h := set_prev (next h d) (prev h d) h in   (* d->next->prev = d->prev *)
  let h := set_next (prev h d) (next h d) h in   (* d->prev->next = d->next *)
  set_next d d (set_prev d d h).                 (* d->next = d->prev = d *)

Definition t_list_isempty (l : node) (h : links) : bool :=
  if node_eq_dec (next h l) l then true else false.

(** The loop of [t_list_length], from position [p] with [length] counted so
    far. *)
Fixpoint t_list_length_from (fuel : nat) (l p : node) (length : Z)
    (h : links) : result Z :=
  match fuel with
  | O => OutOfFuel
  | S fuel' =>
      if node_eq_dec (next h p) l then Ok length
      else t_list_length_from fuel' l (next h p) (wrap32 (length + 1)) h
  end.

Definition t_list_length (fuel : nat) (l : node) (h : links) : result Z :=
  t_list_length_from fuel l l 0 h.

(** ** Kernel objects (tdef.h) *)

(** [t_thread_t].  The stack, entry point and saved stack pointer are kept
    as plain addresses; the words of the initial stack frame are not part of
    the embedding. *)
Record t_thread_t : Type := {
  psp : Z;
  entry : Z;
  arg : Z;
  stackaddr : Z;
  stacksize : Z;
  current_priority : Z;       (* t_uint8_t *)
  init_priority : Z;          (* t_uint8_t *)
  number_mask : Z;            (* t_uint32_t *)
  init_tick : Z;              (* t_uint32_t *)
  remaining_tick : Z;         (* t_uint32_t *)
  status : Z                  (* t_int32_t *)
}.

(** The functions a timer can call back: the kernel's own
    [timeout_function], or application code. *)
Inductive callback : Type :=
| timeout_function_cb
| user_cb (id : nat).

(** [t_timer_t]; [timer_p] is the callback's argument, a thread handle for
    [timeout_function]. *)
Record t_timer_t : Type := {
  timeout_func : option callback;
  timer_p : option nat;
  timer_init_tick : Z;        (* t_uint32_t *)
  timeout_tick : Z            (* t_uint32_t *)
}.

Inductive t_ipc_type_t : Type :=
| IPC_SEMA | IPC_MUTEX | IPC_RECURSIVE_MUTEX | IPC_QUEUE.

Definition t_ipc_type_eqb (a b : t_ipc_type_t) : bool :=
  match a, b with
  | IPC_SEMA, IPC_SEMA | IPC_MUTEX, IPC_MUTEX
  | IPC_RECURSIVE_MUTEX, IPC_RECURSIVE_MUTEX | IPC_QUEUE, IPC_QUEUE => true
  | _, _ => false
  end.

(** [t_ipc_t].  The two members of the union [u] are kept side by side:
    every function below reads only the member that belongs to the type it
    has checked or was created with. *)
Record t_ipc_t : Type := {
  ipc_type : t_ipc_type_t;
  q_head : Z;                 (* u.queue.head *)
  q_tail : Z;                 (* u.queue.tail *)
  read_from : Z;              (* u.queue.read_from *)
  write_to : Z;               (* u.queue.write_to *)
  holder : option nat;        (* u.sema.holder *)
  recursive : Z;              (* u.sema.recursive, t_uint16_t *)
  original_prio : Z;          (* u.sema.original_prio, t_uint8_t *)
  msg_waiting : Z;            (* t_uint16_t *)
  ipc_length : Z;             (* length, t_uint16_t *)
  item_size : Z;              (* t_uint16_t *)
  ipc_status : Z;             (* status, t_uint8_t *)
  mode : Z                    (* t_uint8_t *)
}.

(** What the kernel hands to code outside the C sources: the context-switch
    primitives and the timer callbacks of the application. *)
Inductive event : Type :=
| first_switch (to : nat)
| normal_switch (from : option nat) (to : nat)
| called (f : callback) (p : option nat).

(** ** Kernel state: the globals of scheduler.c and timer.c, the objects,
    the interrupt mask and the bytes of memory *)

Record kernel : Type := {
  lnk : links;
  threads : nat -> t_thread_t;
  timers : timer_ref -> t_timer_t;
  ipcs : nat -> t_ipc_t;
  mem : Z -> Byte.byte;
  t_current_thread : option nat;
  t_cur_num_of_ready_tasks : Z;         (* t_uint8_t *)
  t_current_priority : Z;               (* t_uint8_t *)
  t_thread_ready_priority_group : Z;    (* t_uint32_t *)
  t_schedulue_suspend : Z;              (* t_uint32_t *)
  s_tick : Z;                           (* t_uint32_t *)
  g_cur_timer_list : node;
  g_overflow_timer_list : node;
  primask : Z;
  trace : list event
}.

Definition set_lnk (v : links) (k : kernel) : kernel :=
  {| lnk := v; threads := threads k; timers := timers k; ipcs := ipcs k;
     mem := mem k; t_current_thread := t_current_thread k;
     t_cur_num_of_ready_tasks := t_cur_num_of_ready_tasks k;
     t_current_priority := t_current_priority k;
     t_thread_ready_priority_group := t_thread_ready_priority_group k;
     t_schedulue_suspend := t_schedulue_suspend k; s_tick := s_tick k;
     g_cur_timer_list := g_cur_timer_list k;
     g_overflow_timer_list := g_overflow_timer_list k;
     primask := primask k; trace := trace k |}.

Definition set_threads (v : nat -> t_thread_t) (k : kernel) : kernel :=
  {| lnk := lnk k; threads := v; timers := timers k; ipcs := ipcs k;
     mem := mem k; t_current_thread := t_current_thread k;
     t_cur_num_of_ready_tasks := t_cur_num_of_ready_tasks k;
     t_current_priority := t_current_priority k;
     t_thread_ready_priority_group := t_thread_ready_priority_group k;
     t_schedulue_suspend := t_schedulue_suspend k; s_tick := s_tick k;
     g_cur_timer_list := g_cur_timer_list k;
     g_overflow_timer_list := g_overflow_timer_list k;
     primask := primask k; trace := trace k |}.

Definition set_timers (v : timer_ref -> t_timer_t) (k : kernel) : kernel :=
  {| lnk := lnk k; threads := threads k; timers := v; ipcs := ipcs k;
     mem := mem k; t_current_thread := t_current_thread k;
     t_cur_num_of_ready_tasks := t_cur_num_of_ready_tasks k;
     t_current_priority := t_current_priority k;
     t_thread_ready_priority_group := t_thread_ready_priority_group k;
     t_schedulue_suspend := t_schedulue_suspend k; s_tick := s_tick k;
     g_cur_timer_list := g_cur_timer_list k;
     g_overflow_timer_list := g_overflow_timer_list k;
     primask := primask k; trace := trace k |}.

Definition set_ipcs (v : nat -> t_ipc_t) (k : kernel) : kernel :=
  {| lnk := lnk k; threads := threads k; timers := timers k; ipcs := v;
     mem := mem k; t_current_thread := t_current_thread k;
     t_cur_num_of_ready_tasks := t_cur_num_of_ready_tasks k;
     t_current_priority := t_current_priority k;
     t_thread_ready_priority_group := t_thread_ready_priority_group k;
     t_schedulue_suspend := t_schedulue_suspend k; s_tick := s_tick k;
     g_cur_timer_list := g_cur_timer_list k;
     g_overflow_timer_list := g_overflow_timer_list k;
     primask := primask k; trace := trace k |}.

Definition set_mem (v : Z -> Byte.byte) (k : kernel) : kernel :=
  {| lnk := lnk k; threads := threads k; timers := timers k; ipcs := ipcs k;
     mem := v; t_current_thread := t_current_thread k;
     t_cur_num_of_ready_tasks := t_cur_num_of_ready_tasks k;
     t_current_priority := t_current_priority k;
     t_thread_ready_priority_group := t_thread_ready_priority_group k;
     t_schedulue_suspend := t_schedulue_suspend k; s_tick := s_tick k;
     g_cur_timer_list := g_cur_timer_list k;
     g_overflow_timer_list := g_overflow_timer_list k;
     primask := primask k; trace := trace k |}.

Definition set_t_current_thread (v : option nat) (k : kernel) : kernel :=
  {| lnk := lnk k; threads := threads k; timers := timers k; ipcs := ipcs k;
     mem := mem k; t_current_thread := v;
     t_cur_num_of_ready_tasks := t_cur_num_of_ready_tasks k;
     t_current_priority := t_current_priority k;
     t_thread_ready_priority_group := t_thread_ready_priority_group k;
     t_schedulue_suspend := t_schedulue_suspend k; s_tick := s_tick k;
     g_cur_timer_list := g_cur_timer_list k;
     g_overflow_timer_list := g_overflow_timer_list k;
     primask := primask k; trace := trace k |}.

Definition set_t_cur_num_of_ready_tasks (v : Z) (k : kernel) : kernel :=
  {| lnk := lnk k; threads := threads k; timers := timers k; ipcs := ipcs k;
     mem := mem k; t_current_thread := t_current_thread k;
     t_cur_num_of_ready_tasks := v;
     t_current_priority := t_current_priority k;
     t_thread_ready_priority_group := t_thread_ready_priority_group k;
     t_schedulue_suspend := t_schedulue_suspend k; s_tick := s_tick k;
     g_cur_timer_list := g_cur_timer_list k;
     g_overflow_timer_list := g_overflow_timer_list k;
     primask := primask k; trace := trace k |}.

Definition set_t_current_priority (v : Z) (k : kernel) : kernel :=
  {| lnk := lnk k; threads := threads k; timers := timers k; ipcs := ipcs k;
     mem := mem k; t_current_thread := t_current_thread k;
     t_cur_num_of_ready_tasks := t_cur_num_of_ready_tasks k;
     t_current_priority := v;
     t_thread_ready_priority_group := t_thread_ready_priority_group k;
     t_schedulue_suspend := t_schedulue_suspend k; s_tick := s_tick k;
     g_cur_timer_list := g_cur_timer_list k;
     g_overflow_timer_list := g_overflow_timer_list k;
     primask := primask k; trace := trace k |}.

Definition set_t_thread_ready_priority_group (v : Z) (k : kernel) : kernel :=
  {| lnk := lnk k; threads := threads k; timers := timers k; ipcs := ipcs k;
     mem := mem k; t_current_thread := t_current_thread k;
     t_cur_num_of_ready_tasks := t_cur_num_of_ready_tasks k;
     t_current_priority := t_current_priority k;
     t_thread_ready_priority_group := v;
     t_schedulue_suspend := t_schedulue_suspend k; s_tick := s_tick k;
     g_cur_timer_list := g_cur_timer_list k;
     g_overflow_timer_list := g_overflow_timer_list k;
     primask := primask k; trace := trace k |}.

Definition set_t_schedulue_suspend (v : Z) (k : kernel) : kernel :=
  {| lnk := lnk k; threads := threads k; timers := timers k; ipcs := ipcs k;
     mem := mem k; t_current_thread := t_current_thread k;
     t_cur_num_of_ready_tasks := t_cur_num_of_ready_tasks k;
     t_current_priority := t_current_priority k;
     t_thread_ready_priority_group := t_thread_ready_priority_group k;
     t_schedulue_suspend := v; s_tick := s_tick k;
     g_cur_timer_list := g_cur_timer_list k;
     g_overflow_timer_list := g_overflow_timer_list k;
     primask := primask k; trace := trace k |}.

Definition set_s_tick (v : Z) (k : kernel) : kernel :=
  {| lnk := lnk k; threads := threads k; timers := timers k; ipcs := ipcs k;
     mem := mem k; t_current_thread := t_current_thread k;
     t_cur_num_of_ready_tasks := t_cur_num_of_ready_tasks k;
     t_current_priority := t_current_priority k;
     t_thread_ready_priority_group := t_thread_ready_priority_group k;
     t_schedulue_suspend := t_schedulue_suspend k; s_tick := v;
     g_cur_timer_list := g_cur_timer_list k;
     g_overflow_timer_list := g_overflow_timer_list k;
     primask := primask k; trace := trace k |}.

Definition set_timer_lists (cur over : node) (k : kernel) : kernel :=
  {| lnk := lnk k; threads := threads k; timers := timers k; ipcs := ipcs k;
     mem := mem k; t_current_thread := t_current_thread k;
     t_cur_num_of_ready_tasks := t_cur_num_of_ready_tasks k;
     t_current_priority := t_current_priority k;
     t_thread_ready_priority_group := t_thread_ready_priority_group k;
     t_schedulue_suspend := t_schedulue_suspend k; s_tick := s_tick k;
     g_cur_timer_list := cur;
     g_overflow_timer_list := over;
     primask := primask k; trace := trace k |}.

Definition set_primask (v : Z) (k : kernel) : kernel :=
  {| lnk := lnk k; threads := threads k; timers := timers k; ipcs := ipcs k;
     mem := mem k; t_current_thread := t_current_thread k;
     t_cur_num_of_ready_tasks := t_cur_num_of_ready_tasks k;
     t_current_priority := t_current_priority k;
     t_thread_ready_priority_group := t_thread_ready_priority_group k;
     t_schedulue_suspend := t_schedulue_suspend k; s_tick := s_tick k;
     g_cur_timer_list := g_cur_timer_list k;
     g_overflow_timer_list := g_overflow_timer_list k;
     primask := v; trace := trace k |}.

Definition emit (e : event) (k : kernel) : kernel :=
  {| lnk := lnk k; threads := threads k; timers := timers k; ipcs := ipcs k;
     mem := mem k; t_current_thread := t_current_thread k;
     t_cur_num_of_ready_tasks := t_cur_num_of_ready_tasks k;
     t_current_priority := t_current_priority k;
     t_thread_ready_priority_group := t_thread_ready_priority_group k;
     t_schedulue_suspend := t_schedulue_suspend k; s_tick := s_tick k;
     g_cur_timer_list := g_cur_timer_list k;
     g_overflow_timer_list := g_overflow_timer_list k;
     primask := primask k; trace := trace k ++ [e] |}.

(** Assignments to one field of one object. *)
Definition with_links (f : links -> links) (k : kernel) : kernel :=
  set_lnk (f (lnk k)) k.

Definition with_thread (t : nat) (f : t_thread_t -> t_thread_t)
    (k : kernel) : kernel :=
  set_threads (upd Nat.eq_dec (threads k) t (f (threads k t))) k.

Definition with_timer (tm : timer_ref) (f : t_timer_t -> t_timer_t)
    (k : kernel) : kernel :=
  set_timers (upd timer_ref_eq_dec (timers k) tm (f (timers k tm))) k.

Definition with_ipc (i : nat) (f : t_ipc_t -> t_ipc_t) (k : kernel) : kernel :=
  set_ipcs (upd Nat.eq_dec (ipcs k) i (f (ipcs k i))) k.

Definition set_current_priority (v : Z) (th : t_thread_t) : t_thread_t :=
  {| psp := psp th; entry := entry th; arg := arg th;
     stackaddr := stackaddr th; stacksize := stacksize th;
     current_priority := v; init_priority := init_priority th;
     number_mask := number_mask th; init_tick := init_tick th;
     remaining_tick := remaining_tick th; status := status th |}.

Definition set_number_mask (v : Z) (th : t_thread_t) : t_thread_t :=
  {| psp := psp th; entry := entry th; arg := arg th;
     stackaddr := stackaddr th; stacksize := stacksize th;
     current_priority := current_priority th;
     init_priority := init_priority th;
     number_mask := v; init_tick := init_tick th;
     remaining_tick := remaining_tick th; status := status th |}.

Definition set_remaining_tick (v : Z) (th : t_thread_t) : t_thread_t :=
  {| psp := psp th; entry := entry th; arg := arg th;
     stackaddr := stackaddr th; stacksize := stacksize th;
     current_priority := current_priority th;
     init_priority := init_priority th;
     number_mask := number_mask th; init_tick := init_tick th;
     remaining_tick := v; status := status th |}.

Definition set_status (v : Z) (th : t_thread_t) : t_thread_t :=
  {| psp := psp th; entry := entry th; arg := arg th;
     stackaddr := stackaddr th; stacksize := stacksize th;
     current_priority := current_priority th;
     init_priority := init_priority th;
     number_mask := number_mask th; init_tick := init_tick th;
     remaining_tick := remaining_tick th; status := v |}.

Definition set_timer_init_tick (v : Z) (tm : t_timer_t) : t_timer_t :=
  {| timeout_func := timeout_func tm; timer_p := timer_p tm;
     timer_init_tick := v; timeout_tick := timeout_tick tm |}.

Definition set_timeout_tick (v : Z) (tm : t_timer_t) : t_timer_t :=
  {| timeout_func := timeout_func tm; timer_p := timer_p tm;
     timer_init_tick := timer_init_tick tm; timeout_tick := v |}.

(** ** Architecture primitives (ToRTOS.h, cpuport.c) *)

(** Modelled from the spec: the bodies of [t_irq_disable] and
    [t_irq_enable] are assembly outside the C sources.  ToRTOS.h declares
    that the first disables interrupts and returns the previous PRIMASK and
    that the second restores the PRIMASK it is given; the design document
    calls the pair a save-restore of the disable mask. *)
Definition t_irq_disable (k : kernel) : Z * kernel :=
  (primask k, set_primask 1 k).

Definition t_irq_enable (disirq : Z) (k : kernel) : kernel :=
  set_primask disirq k.

(** Number of trailing zero bits of a positive number. *)
Fixpoint ctz (p : positive) : Z :=
  match p with
  | xO q => 1 + ctz q
  | _ => 0
  end.

(** [__t_ffs] and [__t_fls]: index, counted from 1, of the lowest and of the
    highest bit set; 0 for 0. *)
Definition __t_ffs (value : Z) : Z :=
  match value with
  | Zpos p => ctz p + 1
  | _ => 0
  end.

Definition __t_fls (value : Z) : Z :=
  if value =? 0 then 0 else Z.log2 value + 1.

(** [t_stack_init]: the returned stack pointer, 8-byte aligned and below a
    frame of 17 words. *)
Definition t_stack_init (stackaddr : Z) : Z :=
  wrap32 (Z.land stackaddr (wrap32 (Z.lnot 7)) - 68).

(** ** Scheduler (scheduler.c) *)

Definition get_highest_ready_priority (ready_group : Z) : Z :=
  if TO_LOWER_PRIORITY_NUM_HIGHER_PRIORITY
  then wrap32 (__t_ffs ready_group - 1)
  else wrap32 (__t_fls ready_group - 1).

Definition t_sched_init (k : kernel) : kernel :=
  let k :=
    fold_left
      (fun k i => with_links (t_list_init (ready_list (Z.of_nat i))) k)
      (seq 0 (Z.to_nat TO_THREAD_PRIORITY_MAX)) k in
  let k := with_links (t_list_init waiting_termination_list) k in
  let k := set_t_schedulue_suspend 0 k in
  set_t_current_thread None k.

Definition t_sched_start (k : kernel) : result kernel :=
  let highest_ready_priority :=
    get_highest_ready_priority (t_thread_ready_priority_group k) in
  match T_LIST_ENTRY_thread
          (next (lnk k) (ready_list highest_ready_priority)) with
  | None => Fault
  | Some next_thread =>
      let k := set_t_current_thread (Some next_thread) k in
      let k :=
        set_t_current_priority
          (current_priority (threads k next_thread)) k in
      let k := with_thread next_thread (set_status TO_THREAD_RUNNING) k in
      let k :=
        with_thread next_thread
          (fun th => set_remaining_tick (init_tick th) th) k in
      Ok (emit (first_switch next_thread) k)
  end.

Definition t_sched_switch (k : kernel) : result kernel :=
  if negb (t_schedulue_suspend k =? 0) then Ok k
  else
    let highest_ready_priority :=
      get_highest_ready_priority (t_thread_ready_priority_group k) in
    if highest_ready_priority >=? TO_THREAD_PRIORITY_MAX then Ok k
    else
      match T_LIST_ENTRY_thread
              (next (lnk k) (ready_list highest_ready_priority)) with
      | None => Fault
      | Some next_thread =>
          if option_nat_eqb (t_current_thread k) (Some next_thread) then Ok k
          else
            let prev_thread := t_current_thread k in
            let k := set_t_current_thread (Some next_thread) k in
            let k :=
              match prev_thread with
              | Some pt =>
                  if status (threads k pt) =? TO_THREAD_RUNNING
                  then with_thread pt (set_status TO_THREAD_READY) k
                  else k
              | None => k
              end in
            let k :=
              with_thread next_thread (set_status TO_THREAD_RUNNING) k in
            let k :=
              set_t_current_priority
                (current_priority (threads k next_thread)) k in
            Ok (emit (normal_switch prev_thread next_thread) k)
      end.

Definition t_sched_suspend (k : kernel) : kernel :=
  set_t_schedulue_suspend (wrap32 (t_schedulue_suspend k + 1)) k.

Definition t_sched_resume (k : kernel) : result kernel :=
  let k := set_t_schedulue_suspend (wrap32 (t_schedulue_suspend k - 1)) k in
  if t_schedulue_suspend k =? 0 then
    if t_cur_num_of_ready_tasks k >? 0 then t_sched_switch k else Ok k
  else Ok k.

Definition t_sched_remove_thread (thread : option nat) (k : kernel)
    : kernel :=
  match thread with
  | None => k
  | Some t =>
      let '(level, k) := t_irq_disable k in
      let k := with_links (t_list_delete (tlist t)) k in
      let k :=
        if t_list_isempty
             (ready_list (current_priority (threads k t))) (lnk k)
        then
          set_t_thread_ready_priority_group
            (Z.land (t_thread_ready_priority_group k)
               (wrap32 (Z.lnot (number_mask (threads k t))))) k
        else k in
      let k :=
        set_t_cur_num_of_ready_tasks
          (wrap8 (t_cur_num_of_ready_tasks k - 1)) k in
      t_irq_enable level k
  end.

Definition t_sched_insert_thread (thread : option nat) (k : kernel)
    : kernel :=
  match thread with
  | None => k
  | Some t =>
      let '(level, k) := t_irq_disable k in
      let k :=
        with_links
          (t_list_insert_before
             (ready_list (current_priority (threads k t))) (tlist t)) k in
      let k :=
        set_t_thread_ready_priority_group
          (Z.lor (t_thread_ready_priority_group k)
             (number_mask (threads k t))) k in
      let k :=
        set_t_cur_num_of_ready_tasks
          (wrap8 (t_cur_num_of_ready_tasks k + 1)) k in
      t_irq_enable level k
  end.

Definition t_thread_rotate_same_prio (fuel : nat) (k : kernel)
    : result kernel :=
  let '(level, k) := t_irq_disable k in
  match t_current_thread k with
  | None => Fault
  | Some cur =>
      len <- t_list_length fuel
               (ready_list (current_priority (threads k cur))) (lnk k) ;;
      if len <=? 1 then Ok (t_irq_enable level k)
      else
        let k := with_links (t_list_delete (tlist cur)) k in
        let k :=
          with_links
            (t_list_insert_before
               (ready_list (current_priority (threads k cur)))
               (tlist cur)) k in
        let k := t_irq_enable level k in
        t_sched_switch k
  end.

(** ** Software timers and the tick (timer.c) *)

Definition TO_TICK : Z := 1000.

Definition t_timer_list_init (k : kernel) : kernel :=
  let k := with_links (t_list_init s_timer_list) k in
  with_links (t_list_init s_overflow_timer_list) k.

Definition s_tick_from_ms (ms : Z) : Z :=
  if ms =? 0 then 0 else wrap32 (ms * TO_TICK) / 1000.

Definition t_tick_get (k : kernel) : Z := s_tick k.

Definition t_timer_init (timer : option timer_ref)
    (timeout_func : option callback) (p : option nat) (tick : Z)
    (k : kernel) : t_status_t * kernel :=
  match timer, timeout_func with
  | Some tm, Some f =>
      let k := with_links (t_list_init (row tm)) k in
      let k :=
        set_timers
          (upd timer_ref_eq_dec (timers k) tm
             {| timeout_func := Some f; timer_p := p;
                timer_init_tick := tick; timeout_tick := 0 |}) k in
      (T_OK, k)
  | _, _ => (T_NULL, k)
  end.

Definition s_timer_remove (tm : timer_ref) (k : kernel) : kernel :=
  let '(level, k) := t_irq_disable k in
  let k := with_links (t_list_delete (row tm)) k in
  t_irq_enable level k.

(** [t_timer_ctrl]: [arg] is the word [arg] points to, [None] for a null
    pointer; the second component of the result is the word written
    through [arg], if any. *)
Definition t_timer_ctrl (timer : option timer_ref) (cmd : Z)
    (arg : option Z) (k : kernel) : result (t_status_t * option Z * kernel) :=
  match timer with
  | None => Ok (T_NULL, None, k)
  | Some tm =>
      if cmd =? TO_TIMER_GET_TIME then
        match arg with
        | Some _ => Ok (T_OK, Some (timer_init_tick (timers k tm)), k)
        | None => Ok (T_OK, None, k)
        end
      else if cmd =? TO_TIMER_SET_TIME then
        match arg with
        | Some v => Ok (T_OK, None, with_timer tm (set_timer_init_tick v) k)
        | None => Fault
        end
      else Ok (T_UNSUPPORTED, None, k)
  end.

Definition t_timer_stop (timer : option timer_ref) (k : kernel)
    : t_status_t * kernel :=
  match timer with
  | None => (T_NULL, k)
  | Some tm => (T_OK, s_timer_remove tm k)
  end.

(** The insertion scan of [t_timer_start]: the node after which the timer
    goes. *)
Fixpoint t_timer_start_scan (fuel : nat) (sentinel p : node) (tick : Z)
    (k : kernel) : result node :=
  match fuel with
  | O => OutOfFuel
  | S fuel' =>
      if node_eq_dec (next (lnk k) p) sentinel then Ok p
      else
        match T_LIST_ENTRY_timer (next (lnk k) p) with
        | None => Fault
        | Some next_timer =>
            if timeout_tick (timers k next_timer) >? tick then Ok p
            else t_timer_start_scan fuel' sentinel (next (lnk k) p) tick k
        end
  end.

Definition t_timer_start (fuel : nat) (timer : option timer_ref)
    (k : kernel) : result (t_status_t * kernel) :=
  match timer with
  | None => Ok (T_NULL, k)
  | Some tm =>
      let '(level, k) := t_irq_disable k in
      let k := s_timer_remove tm k in
      let k :=
        with_timer tm
          (set_timeout_tick
             (wrap32 (t_tick_get k + timer_init_tick (timers k tm)))) k in
      let sentinel :=
        if timeout_tick (timers k tm) >? t_tick_get k
        then g_cur_timer_list k else g_overflow_timer_list k in
      p <- t_timer_start_scan fuel sentinel sentinel
             (timeout_tick (timers k tm)) k ;;
      let k := with_links (t_list_insert_after p (row tm)) k in
      Ok (T_OK, t_irq_enable level k)
  end.

(** [timeout_function]: the wake-up path of sleep and of IPC timeouts. *)
Definition timeout_function (p : option nat) (k : kernel) : result kernel :=
  match p with
  | None => Ok k
  | Some thread =>
      let k := with_links (t_list_delete (tlist thread)) k in
      let k := with_thread thread (set_status TO_THREAD_READY) k in
      let k := t_sched_insert_thread (Some thread) k in
      t_sched_switch k
  end.

(** A call through [timer->timeout_func]: the call is recorded in the
    trace; the body of the kernel's own callback is then run, the body of an
    application callback is outside the kernel. *)
Definition call_timeout_func (f : callback) (p : option nat) (k : kernel)
    : result kernel :=
  let k := emit (called f p) k in
  match f with
  | timeout_function_cb => timeout_function p k
  | user_cb _ => Ok k
  end.

(** First loop of [t_timer_check]: move the expired timers from the head of
    the current list to [expired_list]. *)
Fixpoint t_timer_check_collect (fuel : nat) (k : kernel) : result kernel :=
  match fuel with
  | O => OutOfFuel
  | S fuel' =>
      if t_list_isempty (g_cur_timer_list k) (lnk k) then Ok k
      else
        let node := next (lnk k) (g_cur_timer_list k) in
        match T_LIST_ENTRY_timer node with
        | None => Fault
        | Some timer =>
            if s_tick k >=? timeout_tick (timers k timer) then
              let k := with_links (t_list_delete node) k in
              let k :=
                with_links (t_list_insert_after expired_list node) k in
              t_timer_check_collect fuel' k
            else Ok k
        end
  end.

(** Second loop of [t_timer_check]: empty [expired_list] from its head,
    calling back each timer. *)
Fixpoint t_timer_check_fire (fuel : nat) (k : kernel) : result kernel :=
  match fuel with
  | O => OutOfFuel
  | S fuel' =>
      if t_list_isempty expired_list (lnk k) then Ok k
      else
        let node := next (lnk k) expired_list in
        match T_LIST_ENTRY_timer node with
        | None => Fault
        | Some timer =>
            let k := with_links (t_list_delete node) k in
            k <- match timeout_func (timers k timer) with
                 | Some f => call_timeout_func f (timer_p (timers k timer)) k
                 | None => Ok k
                 end ;;
            t_timer_check_fire fuel' k
        end
  end.

Definition t_timer_check (fuel : nat) (k : kernel) : result kernel :=
  let k := with_links (t_list_init expired_list) k in
  let '(level, k) := t_irq_disable k in
  k <- t_timer_check_collect fuel k ;;
  let k := t_irq_enable level k in
  t_timer_check_fire fuel k.

Definition t_tick_increase (fuel : nat) (k : kernel) : result kernel :=
  let k := set_s_tick (wrap32 (s_tick k + 1)) k in
  let k :=
    if s_tick k =? 0
    then set_timer_lists (g_overflow_timer_list k) (g_cur_timer_list k) k
    else k in
  match t_current_thread k with
  | None => Ok k
  | Some thread =>
      let '(level, k) := t_irq_disable k in
      let k :=
        with_thread thread
          (fun th => set_remaining_tick (wrap32 (remaining_tick th - 1)) th)
          k in
      k <- (if remaining_tick (threads k thread) =? 0 then
              let k :=
                with_thread thread
                  (fun th => set_remaining_tick (init_tick th) th) k in
              let k := t_irq_enable level k in
              t_thread_rotate_same_prio fuel k
            else Ok (t_irq_enable level k)) ;;
      t_timer_check fuel k
  end.

(** ** Thread life cycle (thread.c) *)

Definition _t_thread_create (entry stackaddr stacksize priority arg
    time_slice : Z) (thread : nat) (k : kernel) : kernel :=
  let k := with_links (t_list_init (tlist thread)) k in
  with_thread thread
    (fun th =>
       {| psp := t_stack_init (wrap32 (stackaddr + stacksize));
          entry := entry; arg := arg;
          stackaddr := stackaddr; stacksize := stacksize;
          current_priority := wrap8 priority;
          init_priority := wrap8 priority;
          number_mask := wrap32 (Z.shiftl 1 (wrap8 priority));
          init_tick := time_slice; remaining_tick := time_slice;
          status := status th |}) k.

(** [priority] is a [t_int8_t]; a null [entry] or [stackaddr] is 0. *)
Definition t_thread_create_static (entry stackaddr stacksize priority arg
    time_slice : Z) (thread : option nat) (k : kernel)
    : t_status_t * kernel :=
  match thread with
  | None => (T_NULL, k)
  | Some t =>
      if (entry =? 0) || (stackaddr =? 0) || (stacksize =? 0)
      then (T_NULL, k)
      else if (priority <? 0) || (priority >=? TO_THREAD_PRIORITY_MAX)
      then (T_INVALID, k)
      else if time_slice =? 0 then (T_INVALID, k)
      else
        let k :=
          _t_thread_create entry stackaddr stacksize priority arg
            time_slice t k in
        let '(r, k) :=
          t_timer_init (Some (thread_timer t)) (Some timeout_function_cb)
            (Some t) time_slice k in
        match r with
        | T_OK => (T_OK, with_thread t (set_status TO_THREAD_INIT) k)
        | _ => (T_ERR, k)
        end
  end.

Definition t_thread_startup (thread : option nat) (k : kernel)
    : t_status_t * kernel :=
  match thread with
  | None => (T_NULL, k)
  | Some t =>
      if status (threads k t) =? TO_THREAD_DELETED then (T_ERR, k)
      else
        let '(level, k) := t_irq_disable k in
        let k :=
          with_thread t
            (fun th => set_current_priority (init_priority th) th) k in
        let k := with_thread t (set_status TO_THREAD_READY) k in
        let k :=
          with_thread t (fun th => set_remaining_tick (init_tick th) th) k in
        let k :=
          set_t_thread_ready_priority_group
            (Z.lor (t_thread_ready_priority_group k)
               (number_mask (threads k t))) k in
        let k :=
          with_links
            (t_list_insert_before
               (ready_list (current_priority (threads k t))) (tlist t)) k in
        (T_OK, t_irq_enable level k)
  end.

Definition t_thread_delete (thread : option nat) (k : kernel)
    : t_status_t * kernel :=
  match thread with
  | None => (T_NULL, k)
  | Some t =>
      if status (threads k t) =? TO_THREAD_TERMINATED then (T_OK, k)
      else if status (threads k t) =? TO_THREAD_DELETED then (T_ERR, k)
      else
        let k := t_sched_remove_thread (Some t) k in
        let k := snd (t_timer_stop (Some (thread_timer t)) k) in
        let k := with_thread t (set_status TO_THREAD_TERMINATED) k in
        let k :=
          with_links
            (t_list_insert_before waiting_termination_list (tlist t)) k in
        (T_OK, k)
  end.

Definition t_thread_sleep (fuel : nat) (tick : Z) (k : kernel)
    : result kernel :=
  let k := t_sched_remove_thread (t_current_thread k) k in
  match t_current_thread k with
  | None => Fault
  | Some cur =>
      let k := with_thread cur (set_status TO_THREAD_SUSPEND) k in
      let k := snd (t_timer_stop (Some (thread_timer cur)) k) in
      r <- t_timer_ctrl (Some (thread_timer cur)) TO_TIMER_SET_TIME
             (Some tick) k ;;
      r <- t_timer_start fuel (Some (thread_timer cur)) (snd r) ;;
      t_sched_switch (snd r)
  end.

Definition t_thread_suspend (thread : option nat) (k : kernel)
    : t_status_t * kernel :=
  match thread with
  | None => (T_NULL, k)
  | Some t =>
      let '(level, k) := t_irq_disable k in
      let k := t_sched_remove_thread (Some t) k in
      let k := with_thread t (set_status TO_THREAD_SUSPEND) k in
      (T_OK, t_irq_enable level k)
  end.

(** [t_thread_ctrl]: [arg] is the value [arg] points to, [None] for a null
    pointer; the second component of the result is the value written
    through [arg], if any. *)
Definition t_thread_ctrl (thread : option nat) (cmd : Z) (arg : option Z)
    (k : kernel) : t_status_t * option Z * kernel :=
  match thread with
  | None => (T_NULL, None, k)
  | Some t =>
      if cmd =? TO_THREAD_GET_STATUS then
        match arg with
        | Some _ => (T_OK, Some (status (threads k t)), k)
        | None => (T_OK, None, k)
        end
      else if cmd =? TO_THREAD_GET_PRIORITY then
        match arg with
        | Some _ => (T_OK, Some (current_priority (threads k t)), k)
        | None => (T_OK, None, k)
        end
      else if cmd =? TO_THREAD_SET_PRIORITY then
        match arg with
        | Some v =>
            let k := with_thread t (set_current_priority (wrap8 v)) k in
            let k :=
              with_thread t
                (fun th =>
                   set_number_mask
                     (wrap32 (Z.shiftl 1 (current_priority th))) th) k in
            (T_OK, None, k)
        | None => (T_ERR, None, k)
        end
      else (T_UNSUPPORTED, None, k)
  end.

Definition t_thread_exit (k : kernel) : result kernel :=
  match t_current_thread k with
  | None => Ok k
  | Some cur =>
      let '(level, k) := t_irq_disable k in
      let k := t_sched_remove_thread (Some cur) k in
      let k := snd (t_timer_stop (Some (thread_timer cur)) k) in
      let k := with_thread cur (set_status TO_THREAD_TERMINATED) k in
      let k :=
        with_links
          (t_list_insert_before waiting_termination_list (tlist cur)) k in
      let k := t_irq_enable level k in
      t_sched_switch k
  end.

(** ** IPC: wait lists, semaphore, mutex, queue (ipc.c) *)

Definition set_msg_waiting (v : Z) (o : t_ipc_t) : t_ipc_t :=
  {| ipc_type := ipc_type o; q_head := q_head o; q_tail := q_tail o;
     read_from := read_from o; write_to := write_to o; holder := holder o;
     recursive := recursive o; original_prio := original_prio o;
     msg_waiting := v; ipc_length := ipc_length o;
     item_size := item_size o; ipc_status := ipc_status o; mode := mode o |}.

Definition set_holder (v : option nat) (o : t_ipc_t) : t_ipc_t :=
  {| ipc_type := ipc_type o; q_head := q_head o; q_tail := q_tail o;
     read_from := read_from o; write_to := write_to o; holder := v;
     recursive := recursive o; original_prio := original_prio o;
     msg_waiting := msg_waiting o; ipc_length := ipc_length o;
     item_size := item_size o; ipc_status := ipc_status o; mode := mode o |}.

Definition set_recursive (v : Z) (o : t_ipc_t) : t_ipc_t :=
  {| ipc_type := ipc_type o; q_head := q_head o; q_tail := q_tail o;
     read_from := read_from o; write_to := write_to o; holder := holder o;
     recursive := v; original_prio := original_prio o;
     msg_waiting := msg_waiting o; ipc_length := ipc_length o;
     item_size := item_size o; ipc_status := ipc_status o; mode := mode o |}.

Definition set_original_prio (v : Z) (o : t_ipc_t) : t_ipc_t :=
  {| ipc_type := ipc_type o; q_head := q_head o; q_tail := q_tail o;
     read_from := read_from o; write_to := write_to o; holder := holder o;
     recursive := recursive o; original_prio := v;
     msg_waiting := msg_waiting o; ipc_length := ipc_length o;
     item_size := item_size o; ipc_status := ipc_status o; mode := mode o |}.

Definition set_read_from (v : Z) (o : t_ipc_t) : t_ipc_t :=
  {| ipc_type := ipc_type o; q_head := q_head o; q_tail := q_tail o;
     read_from := v; write_to := write_to o; holder := holder o;
     recursive := recursive o; original_prio := original_prio o;
     msg_waiting := msg_waiting o; ipc_length := ipc_length o;
     item_size := item_size o; ipc_status := ipc_status o; mode := mode o |}.

Definition set_write_to (v : Z) (o : t_ipc_t) : t_ipc_t :=
  {| ipc_type := ipc_type o; q_head := q_head o; q_tail := q_tail o;
     read_from := read_from o; write_to := v; holder := holder o;
     recursive := recursive o; original_prio := original_prio o;
     msg_waiting := msg_waiting o; ipc_length := ipc_length o;
     item_size := item_size o; ipc_status := ipc_status o; mode := mode o |}.


(** The scan of [t_ipc_suspend] in priority mode: the node before which the
    thread is linked. *)
Fixpoint t_ipc_suspend_scan (fuel : nat) (sentinel p : node) (thread : nat)
    (k : kernel) : result node :=
  match fuel with
  | O => OutOfFuel
  | S fuel' =>
      if node_eq_dec (next (lnk k) p) sentinel then Ok p
      else
        match T_LIST_ENTRY_thread (next (lnk k) p) with
        | None => Fault
        | Some next_thread =>
            let higher :=
              if TO_LOWER_PRIORITY_NUM_HIGHER_PRIORITY
              then current_priority (threads k thread)
                   <? current_priority (threads k next_thread)
              else current_priority (threads k thread)
                   >? current_priority (threads k next_thread) in
            if higher then Ok p
            else t_ipc_suspend_scan fuel' sentinel (next (lnk k) p) thread k
        end
  end.

Definition t_ipc_suspend (fuel : nat) (sentinel : option node)
    (thread : option nat) (flag : Z) (k : kernel)
    : result (t_status_t * kernel) :=
  match sentinel, thread with
  | Some s, Some t =>
      let '(level, k) := t_irq_disable k in
      let k := t_sched_remove_thread (Some t) k in
      let k := with_thread t (set_status TO_THREAD_SUSPEND) k in
      k <- (if flag =? TO_IPC_FLAG_FIFO then
              Ok (with_links (t_list_insert_before s (tlist t)) k)
            else if flag =? TO_IPC_FLAG_PRIO then
              p <- t_ipc_suspend_scan fuel s s t k ;;
              Ok (with_links (t_list_insert_before p (tlist t)) k)
            else Ok (with_links (t_list_insert_before s (tlist t)) k)) ;;
      Ok (T_OK, t_irq_enable level k)
  | _, _ => Ok (T_NULL, k)
  end.




(** The part every blocking call repeats once it has found that it cannot
    proceed and that [timeout] is not 0: suspend the caller on the wait
    list, arm its timer for a finite timeout, leave the critical section
    and ask for a switch.  The calling thread is dereferenced, so there has
    to be one. *)
Definition block_current (fuel : nat) (i : nat) (timeout level : Z)
    (k : kernel) : result (outcome * kernel) :=
  match t_current_thread k with
  | None => Fault
  | Some cur =>
      r <- t_ipc_suspend fuel (Some (wait_list i)) (Some cur)
             (mode (ipcs k i)) k ;;
      k <- (if (timeout >? 0)
               && negb (TO_WAITING_FOREVER =? wrap32 timeout) then
              r <- t_timer_ctrl (Some (thread_timer cur)) TO_TIMER_SET_TIME
                     (Some (wrap32 timeout)) (snd r) ;;
              r <- t_timer_start fuel (Some (thread_timer cur)) (snd r) ;;
              Ok (snd r)
            else Ok (snd r)) ;;
      let k := t_irq_enable level k in
      k <- t_sched_switch k ;;
      Ok (Blocked, k)
  end.

(** The wake-up of the first waiter, as the send and receive paths do it.
    The result says whether there was one. *)
Definition wake_first_waiter (i : nat) (k : kernel) : result (bool * kernel) :=
  if negb (t_list_isempty (wait_list i) (lnk k)) then
    match T_LIST_ENTRY_thread (next (lnk k) (wait_list i)) with
    | None => Fault
    | Some th =>
        let k := with_links (t_list_delete (tlist th)) k in
        let k := with_thread th (set_status TO_THREAD_READY) k in
        Ok (true, t_sched_insert_thread (Some th) k)
    end
  else Ok (false, k).

(** *** Semaphore *)

Definition t_sema_create_static (max_count init_count mode : Z)
    (ipc : option nat) (k : kernel) : t_status_t * kernel :=
  match ipc with
  | None => (T_NULL, k)
  | Some i =>
      if max_count =? 0 then (T_NULL, k)
      else
        let k := with_links (t_list_init (wait_list i)) k in
        (T_OK,
         with_ipc i
           (fun o =>
              {| ipc_type := IPC_SEMA; q_head := q_head o;
                 q_tail := q_tail o; read_from := read_from o;
                 write_to := write_to o; holder := None; recursive := 0;
                 original_prio := original_prio o;
                 msg_waiting := init_count; ipc_length := max_count;
                 item_size := 0; ipc_status := 1; mode := mode |}) k)
  end.

Definition t_sema_send (ipc : option nat) (k : kernel)
    : result (t_status_t * kernel) :=
  match ipc with
  | None => Ok (T_NULL, k)
  | Some i =>
      if ipc_status (ipcs k i) =? 0 then Ok (T_DELETED, k)
      else if negb (t_ipc_type_eqb IPC_SEMA (ipc_type (ipcs k i)))
      then Ok (T_INVALID, k)
      else
        let '(level, k) := t_irq_disable k in
        if ipc_status (ipcs k i) =? 0
        then Ok (T_DELETED, t_irq_enable level k)
        else if msg_waiting (ipcs k i) <? ipc_length (ipcs k i) then
          let k :=
            with_ipc i
              (fun o => set_msg_waiting (wrap16 (msg_waiting o + 1)) o) k in
          w <- wake_first_waiter i k ;;
          let '(need_schedule, k) := w in
          let k := t_irq_enable level k in
          k <- (if need_schedule then t_sched_switch k else Ok k) ;;
          Ok (T_OK, k)
        else Ok (T_ERR, k)
  end.

Definition t_sema_recv (fuel : nat) (ipc : option nat) (timeout : Z)
    (k : kernel) : result (outcome * kernel) :=
  match ipc with
  | None => Ok (Done T_NULL, k)
  | Some i =>
      if ipc_status (ipcs k i) =? 0 then Ok (Done T_DELETED, k)
      else if negb (t_ipc_type_eqb IPC_SEMA (ipc_type (ipcs k i)))
      then Ok (Done T_INVALID, k)
      else
        let '(level, k) := t_irq_disable k in
        if ipc_status (ipcs k i) =? 0
        then Ok (Done T_DELETED, t_irq_enable level k)
        else if msg_waiting (ipcs k i) >? 0 then
          let k :=
            with_ipc i
              (fun o => set_msg_waiting (wrap16 (msg_waiting o - 1)) o) k in
          Ok (Done T_OK, t_irq_enable level k)
        else if timeout =? 0 then Ok (Done T_ERR, t_irq_enable level k)
        else block_current fuel i timeout level k
  end.

(** *** Mutex and recursive mutex *)

Definition t_mutex_create_static_base (ipc_type : t_ipc_type_t) (mode : Z)
    (ipc : option nat) (k : kernel) : t_status_t * kernel :=
  match ipc with
  | None => (T_NULL, k)
  | Some i =>
      let k := with_links (t_list_init (wait_list i)) k in
      (T_OK,
       with_ipc i
         (fun o =>
            {| ipc_type := ipc_type; q_head := q_head o;
               q_tail := q_tail o; read_from := read_from o;
               write_to := write_to o; holder := None; recursive := 0;
               original_prio := DUMMY_PRIORITY;
               msg_waiting := 1; ipc_length := 1;
               item_size := 0; ipc_status := 1; mode := mode |}) k)
  end.

Definition t_mutex_send_base (ipc : option nat) (k : kernel)
    : result (t_status_t * kernel) :=
  match ipc with
  | None => Ok (T_NULL, k)
  | Some i =>
      if ipc_status (ipcs k i) =? 0 then Ok (T_DELETED, k)
      else
        let '(level, k) := t_irq_disable k in
        if ipc_status (ipcs k i) =? 0
        then Ok (T_DELETED, t_irq_enable level k)
        else if negb (option_nat_eqb (t_current_thread k)
                        (holder (ipcs k i)))
        then Ok (T_ERR, t_irq_enable level k)
        else
          (* the recursive mutex counts down first *)
          let k :=
            if t_ipc_type_eqb IPC_RECURSIVE_MUTEX (ipc_type (ipcs k i)) then
              if recursive (ipcs k i) >? 0 then
                with_ipc i
                  (fun o => set_recursive (wrap16 (recursive o - 1)) o) k
              else k
            else k in
          if t_ipc_type_eqb IPC_RECURSIVE_MUTEX (ipc_type (ipcs k i))
             && (recursive (ipcs k i) >? 0)
          then Ok (T_OK, t_irq_enable level k)
          else
            (* fully release *)
            let k := with_ipc i (set_msg_waiting 1) k in
            let k := with_ipc i (set_holder None) k in
            (* restore the priority; the calling thread is read only when
               a restore target is recorded *)
            k <- (if negb (original_prio (ipcs k i) =? DUMMY_PRIORITY) then
                    match t_current_thread k with
                    | None => Fault
                    | Some cur =>
                        if negb (current_priority (threads k cur)
                                 =? original_prio (ipcs k i))
                        then
                          let k :=
                            snd (t_thread_ctrl (Some cur)
                                   TO_THREAD_SET_PRIORITY
                                   (Some (original_prio (ipcs k i))) k) in
                          Ok (with_ipc i
                                (set_original_prio DUMMY_PRIORITY) k)
                        else Ok k
                    end
                  else Ok k) ;;
            w <- wake_first_waiter i k ;;
            let '(need_schedule, k) := w in
            let k := t_irq_enable level k in
            k <- (if need_schedule then t_sched_switch k else Ok k) ;;
            Ok (T_OK, k)
  end.

(** The priority-inheritance step of [t_mutex_recv_base]. *)
Definition inherit_priority (i cur : nat) (k : kernel) : kernel :=
  match holder (ipcs k i) with
  | Some h =>
      if (if TO_LOWER_PRIORITY_NUM_HIGHER_PRIORITY
          then current_priority (threads k cur)
               <? current_priority (threads k h)
          else current_priority (threads k cur)
               >? current_priority (threads k h))
      then
        let k :=
          if DUMMY_PRIORITY =? original_prio (ipcs k i)
          then
            with_ipc i
              (set_original_prio (current_priority (threads k h))) k
          else k in
        snd (t_thread_ctrl (Some h) TO_THREAD_SET_PRIORITY
               (Some (current_priority (threads k cur))) k)
      else k
  | None => k
  end.

Definition t_mutex_recv_base (fuel : nat) (ipc : option nat) (timeout : Z)
    (k : kernel) : result (outcome * kernel) :=
  match ipc with
  | None => Ok (Done T_NULL, k)
  | Some i =>
      if ipc_status (ipcs k i) =? 0 then Ok (Done T_DELETED, k)
      else
        let '(level, k) := t_irq_disable k in
        if ipc_status (ipcs k i) =? 0
        then Ok (Done T_DELETED, t_irq_enable level k)
        else if msg_waiting (ipcs k i) =? 1 then
          match t_current_thread k with
          | None => Fault
          | Some cur =>
              let k := with_ipc i (set_msg_waiting 0) k in
              let k := with_ipc i (set_holder (Some cur)) k in
              let k := with_ipc i (set_recursive 1) k in
              let k :=
                with_ipc i
                  (set_original_prio (current_priority (threads k cur))) k in
              Ok (Done T_OK, t_irq_enable level k)
          end
        else if option_nat_eqb (holder (ipcs k i)) (t_current_thread k) then
          let k :=
            if t_ipc_type_eqb IPC_RECURSIVE_MUTEX (ipc_type (ipcs k i)) then
              with_ipc i
                (fun o => set_recursive (wrap16 (recursive o + 1)) o) k
            else k in
          Ok (Done T_OK, t_irq_enable level k)
        else if timeout =? 0 then Ok (Done T_ERR, t_irq_enable level k)
        else
          match t_current_thread k with
          | None => Fault
          | Some cur =>
              block_current fuel i timeout level (inherit_priority i cur k)
          end
  end.

(** *** Bounded message queue *)

(** [__t_memcpy]: byte by byte, lowest address first. *)
Fixpoint __t_memcpy (len : nat) (dst src : Z) (m : Z -> Byte.byte)
    : Z -> Byte.byte :=
  match len with
  | O => m
  | S len' => __t_memcpy len' (dst + 1) (src + 1) (upd Z.eq_dec m dst (m src))
  end.

Definition t_queue_create_static (queue_pool queue_length item_size mode : Z)
    (ipc : option nat) (k : kernel) : t_status_t * kernel :=
  match ipc with
  | None => (T_NULL, k)
  | Some i =>
      if (queue_pool =? 0) || (item_size =? 0) || (queue_length =? 0)
      then (T_NULL, k)
      else
        let k := with_links (t_list_init (wait_list i)) k in
        (T_OK,
         with_ipc i
           (fun o =>
              {| ipc_type := IPC_QUEUE; q_head := queue_pool;
                 q_tail := queue_pool + item_size * queue_length;
                 read_from := queue_pool; write_to := queue_pool;
                 holder := holder o; recursive := recursive o;
                 original_prio := original_prio o;
                 msg_waiting := 0; ipc_length := queue_length;
                 item_size := item_size; ipc_status := 1; mode := mode |}) k)
  end.

(** [t_queue_send] never assigns its local [level] before passing it to
    [t_irq_enable]; [level] stands for the value the local happens to
    hold. *)
Definition t_queue_send (fuel : nat) (ipc : option nat) (data : Z)
    (timeout : Z) (level : Z) (k : kernel) : result (outcome * kernel) :=
  match ipc with
  | None => Ok (Done T_NULL, k)
  | Some i =>
      if ipc_status (ipcs k i) =? 0 then Ok (Done T_DELETED, k)
      else if negb (t_ipc_type_eqb IPC_QUEUE (ipc_type (ipcs k i)))
      then Ok (Done T_INVALID, k)
      else if msg_waiting (ipcs k i) <? ipc_length (ipcs k i) then
        let k :=
          set_mem
            (__t_memcpy (Z.to_nat (item_size (ipcs k i)))
               (write_to (ipcs k i)) data (mem k)) k in
        let k :=
          with_ipc i (fun o => set_write_to (write_to o + item_size o) o) k in
        let k :=
          if write_to (ipcs k i) >=? q_tail (ipcs k i)
          then with_ipc i (fun o => set_write_to (q_head o) o) k
          else k in
        let k :=
          with_ipc i
            (fun o => set_msg_waiting (wrap16 (msg_waiting o + 1)) o) k in
        w <- wake_first_waiter i k ;;
        let '(need_schedule, k) := w in
        let k := t_irq_enable level k in
        k <- (if need_schedule then t_sched_switch k else Ok k) ;;
        Ok (Done T_OK, k)
      else if timeout =? 0 then Ok (Done T_ERR, t_irq_enable level k)
      else
        match t_current_thread k with
        | None => Ok (Done T_UNSUPPORTED, t_irq_enable level k)
        | Some _ => block_current fuel i timeout level k
        end
  end.

(** [t_queue_recv]; [data] is the address the item is copied to. *)
Definition t_queue_recv (fuel : nat) (ipc : option nat) (data : Z)
    (timeout : Z) (k : kernel) : result (outcome * kernel) :=
  match ipc with
  | None => Ok (Done T_NULL, k)
  | Some i =>
      if ipc_status (ipcs k i) =? 0 then Ok (Done T_DELETED, k)
      else if negb (t_ipc_type_eqb IPC_QUEUE (ipc_type (ipcs k i)))
      then Ok (Done T_INVALID, k)
      else
        let '(level, k) := t_irq_disable k in
        if ipc_status (ipcs k i) =? 0
        then Ok (Done T_DELETED, t_irq_enable level k)
        else if msg_waiting (ipcs k i) >? 0 then
          let k :=
            set_mem
              (__t_memcpy (Z.to_nat (item_size (ipcs k i))) data
                 (read_from (ipcs k i)) (mem k)) k in
          let k :=
            with_ipc i
              (fun o => set_read_from (read_from o + item_size o) o) k in
          let k :=
            if read_from (ipcs k i) >=? q_tail (ipcs k i)
            then with_ipc i (fun o => set_read_from (q_head o) o) k
            else k in
          let k :=
            with_ipc i
              (fun o => set_msg_waiting (wrap16 (msg_waiting o - 1)) o) k in
          w <- wake_first_waiter i k ;;
          let k := t_irq_enable level (snd w) in
          k <- t_sched_switch k ;;
          Ok (Done T_OK, k)
        else if timeout =? 0 then Ok (Done T_ERR, t_irq_enable level k)
        else block_current fuel i timeout level k
  end.

(** ** Start-up (board.c) *)

(** The state at reset: the globals are zero, nothing is linked, interrupts
    are enabled.  A node that list.c has not initialised yet is shown
    linked to itself. *)
Definition at_reset : kernel :=
  {| lnk := {| next := fun n => n; prev := fun n => n |};
     threads :=
       fun _ =>
         {| psp := 0; entry := 0; arg := 0; stackaddr := 0; stacksize := 0;
            current_priority := 0; init_priority := 0; number_mask := 0;
            init_tick := 0; remaining_tick := 0; status := 0 |};
     timers :=
       fun _ =>
         {| timeout_func := None; timer_p := None; timer_init_tick := 0;
            timeout_tick := 0 |};
     ipcs :=
       fun _ =>
         {| ipc_type := IPC_SEMA; q_head := 0; q_tail := 0; read_from := 0;
            write_to := 0; holder := None; recursive := 0;
            original_prio := 0; msg_waiting := 0; ipc_length := 0;
            item_size := 0; ipc_status := 0; mode := 0 |};
     mem := fun _ => Byte.x00;
     t_current_thread := None;
     t_cur_num_of_ready_tasks := 0;
     t_current_priority := 0;
     t_thread_ready_priority_group := 0;
     t_schedulue_suspend := 0;
     s_tick := 0;
     g_cur_timer_list := s_timer_list;
     g_overflow_timer_list := s_overflow_timer_list;
     primask := 0;
     trace := [] |}.

Definition TO_IDLE_STACK_SIZE : Z := 256.

(** The idle thread is thread 0. *)
Definition idle_thread : nat := 0%nat.

Definition t_idle_thread_init (idle_thread_entry idle_stack : Z)
    (k : kernel) : t_status_t * kernel :=
  let '(ret, k) :=
    t_thread_create_static idle_thread_entry idle_stack TO_IDLE_STACK_SIZE
      (if TO_LOWER_PRIORITY_NUM_HIGHER_PRIORITY
       then TO_THREAD_PRIORITY_MAX - 1 else 0)
      0 5 (Some idle_thread) k in
  match ret with
  | T_OK => t_thread_startup (Some idle_thread) k
  | _ => (ret, k)
  end.

(** [t_tortos_init], without the banner. *)
Definition t_tortos_init (idle_thread_entry idle_stack : Z) (k : kernel)
    : t_status_t * kernel :=
  let k := t_sched_init k in
  let k := t_timer_list_init k in
  let k := snd (t_idle_thread_init idle_thread_entry idle_stack k) in
  (T_OK, k).

(** * Statements: predicates and scenarios *)

(** ** The ready bitmap *)

Definition ready_bit (p : Z) (k : kernel) : bool :=
  Z.testbit (t_thread_ready_priority_group k) p.

(** Bit [p] of the ready group is set exactly when the ready list of
    priority [p] is not empty. *)
Definition ready_bitmap_inv (k : kernel) : Prop :=
  forall p, 0 <= p < TO_THREAD_PRIORITY_MAX ->
    ready_bit p k = negb (t_list_isempty (ready_list p) (lnk k)).

Definition ready_bitmap_invb (k : kernel) : bool :=
  forallb
    (fun i =>
       Bool.eqb (ready_bit (Z.of_nat i) k)
         (negb (t_list_isempty (ready_list (Z.of_nat i)) (lnk k))))
    (seq 0 (Z.to_nat TO_THREAD_PRIORITY_MAX)).

(** The kernel after [t_tortos_init]: only the idle thread exists. *)
Definition booted : kernel :=
  snd (t_tortos_init 0x08000100 0x20000000 at_reset).

(** A second thread, created at priority 3 and started. *)
Definition worker : nat := 1%nat.

Definition worker_ready : kernel :=
  let k :=
    snd (t_thread_create_static 0x08000200 0x20001000 512 3 0 10
           (Some worker) booted) in
  snd (t_thread_startup (Some worker) k).

(** Its priority is then set to 5 while it sits in the ready list of
    priority 3. *)
Definition worker_boosted : kernel :=
  snd (t_thread_ctrl (Some worker) TO_THREAD_SET_PRIORITY (Some 5)
         worker_ready).

(** ** Suspending and resuming the scheduler *)

Inductive sched_call : Type :=
| call_suspend
| call_resume.

Definition do_sched_call (c : sched_call) (k : kernel) : result kernel :=
  match c with
  | call_suspend => Ok (t_sched_suspend k)
  | call_resume => t_sched_resume k
  end.

Fixpoint run_sched_calls (cs : list sched_call) (k : kernel)
    : result kernel :=
  match cs with
  | [] => Ok k
  | c :: cs' => k' <- do_sched_call c k ;; run_sched_calls cs' k'
  end.

(** Suspends minus resumes, as an integer. *)
Fixpoint suspend_depth (cs : list sched_call) : Z :=
  match cs with
  | [] => 0
  | call_suspend :: cs' => suspend_depth cs' + 1
  | call_resume :: cs' => suspend_depth cs' - 1
  end.

(** The stored counter is the true depth: it has not wrapped. *)
Definition suspend_counter_exact (cs : list sched_call) (k0 : kernel)
    : Prop :=
  exists k, run_sched_calls cs k0 = Ok k /\
            t_schedulue_suspend k = suspend_depth cs.

(** No resume without a suspend before it, and fewer than 2^32 suspends
    pending at any time. *)
Definition balanced (cs : list sched_call) : Prop :=
  forall pre post, cs = pre ++ post -> 0 <= suspend_depth pre < 2 ^ 32.

(** The ready list [t_sched_switch] would pick from starts with a thread. *)
Definition switch_target_ok (k : kernel) : Prop :=
  get_highest_ready_priority (t_thread_ready_priority_group k)
    < TO_THREAD_PRIORITY_MAX ->
  exists t,
    next (lnk k)
      (ready_list
         (get_highest_ready_priority (t_thread_ready_priority_group k)))
    = tlist t.

(** ** Timers that expire on the same tick *)

(** The callbacks that were called, in the order of the calls. *)
Fixpoint callbacks_called (tr : list event) : list callback :=
  match tr with
  | [] => []
  | called f _ :: tr' => f :: callbacks_called tr'
  | _ :: tr' => callbacks_called tr'
  end.

(** The nodes of a list, from the head's [next] to the node before the
    head, as far as the fuel reaches. *)
Fixpoint list_nodes (fuel : nat) (l p : node) (h : links) : list node :=
  match fuel with
  | O => []
  | S fuel' =>
      if node_eq_dec (next h p) l then []
      else next h p :: list_nodes fuel' l (next h p) h
  end.

Definition timer_a : timer_ref := user_timer 0.
Definition timer_b : timer_ref := user_timer 1.

(** After [t_tortos_init] and [t_sched_start], two application timers of
    5 ticks are started at tick 0, [timer_a] first. *)
Definition two_timers_armed : result kernel :=
  k <- t_sched_start booted ;;
  let k := snd (t_timer_init (Some timer_a) (Some (user_cb 0)) None 5 k) in
  let k := snd (t_timer_init (Some timer_b) (Some (user_cb 1)) None 5 k) in
  r <- t_timer_start 8 (Some timer_a) k ;;
  r <- t_timer_start 8 (Some timer_b) (snd r) ;;
  Ok (snd r).

Fixpoint ticks (n fuel : nat) (k : kernel) : result kernel :=
  match n with
  | O => Ok k
  | S n' => k' <- t_tick_increase fuel k ;; ticks n' fuel k'
  end.

(** ** A full semaphore *)

Definition sema1 : nat := 0%nat.

(** A semaphore of capacity 2, created full. *)
Definition full_sema : kernel :=
  snd (t_sema_create_static 2 2 TO_IPC_FLAG_FIFO (Some sema1) booted).

(** ** Mutexes held by the running thread *)

Definition mutex1 : nat := 1%nat.

(** After [t_sched_start] the idle thread runs; it creates a mutex of the
    given type and takes it. *)
Definition mutex_held (ty : t_ipc_type_t) : result kernel :=
  k <- t_sched_start booted ;;
  let k :=
    snd (t_mutex_create_static_base ty TO_IPC_FLAG_FIFO (Some mutex1) k) in
  r <- t_mutex_recv_base 8 (Some mutex1) TO_WAITING_FOREVER k ;;
  Ok (snd r).

(** [n] further acquisitions by the caller, each without waiting. *)
Fixpoint acquire_again (n : nat) (i : nat) (k : kernel) : result kernel :=
  match n with
  | O => Ok k
  | S n' =>
      r <- t_mutex_recv_base 8 (Some i) 0 k ;;
      acquire_again n' i (snd r)
  end.

(** [returns r P]: the call returned, and its result satisfies [P]. *)
Definition returns {A : Type} (r : result A) (P : A -> Prop) : Prop :=
  match r with
  | Ok a => P a
  | _ => False
  end.

(** The state [mutex_held] ends in. *)
Definition holding (ty : t_ipc_type_t) : kernel :=
  match mutex_held ty with
  | Ok k => k
  | _ => booted
  end.

(** ** Releasing a mutex *)

Definition is_thread_node (n : node) : Prop := exists t, n = tlist t.

(** The ready group is a 32-bit word; the ready list of a priority whose
    bit is set starts with a thread, and the ready list of a priority whose
    bit is clear is empty in both directions. *)
Definition ready_lists_ok (k : kernel) : Prop :=
  0 <= t_thread_ready_priority_group k < 2 ^ 32 /\
  forall p, 0 <= p < TO_THREAD_PRIORITY_MAX ->
    (ready_bit p k = true -> is_thread_node (next (lnk k) (ready_list p))) /\
    (ready_bit p k = false ->
     next (lnk k) (ready_list p) = ready_list p /\
     prev (lnk k) (ready_list p) = ready_list p).

(** The thread [th] at the head of the wait list of [i] is not the caller
    [cur]; its node points back to the list head and on to the head or to
    another thread; its priority is in range and its mask is the bit of its
    priority. *)
Definition head_waiter_ok (k : kernel) (i cur th : nat) : Prop :=
  th <> cur /\
  prev (lnk k) (tlist th) = wait_list i /\
  (next (lnk k) (tlist th) = wait_list i \/
   is_thread_node (next (lnk k) (tlist th))) /\
  0 <= current_priority (threads k th) < TO_THREAD_PRIORITY_MAX /\
  number_mask (threads k th) = 2 ^ current_priority (threads k th).

(** The wait list of [i] is empty or starts with such a thread. *)
Definition wait_list_ok (k : kernel) (i cur : nat) : Prop :=
  next (lnk k) (wait_list i) = wait_list i \/
  exists th, next (lnk k) (wait_list i) = tlist th /\
             head_waiter_ok k i cur th.

(** The running thread is the first thread of the highest-priority ready
    list that is not empty. *)
Definition runs_highest_ready (k : kernel) : Prop :=
  exists t,
    t_current_thread k = Some t /\
    next (lnk k)
      (ready_list
         (get_highest_ready_priority (t_thread_ready_priority_group k)))
    = tlist t.

(** The state after the thread [th] was woken up: unlinked from where it
    waited, marked READY and put into its ready list. *)
Definition woken (th : nat) (k : kernel) : kernel :=
  t_sched_insert_thread (Some th)
    (with_thread th (set_status TO_THREAD_READY)
       (with_links (t_list_delete (tlist th)) k)).

(** [ready_lists_ok], as a test. *)
Definition ready_lists_okb (k : kernel) : bool :=
  (0 <=? t_thread_ready_priority_group k)
  && (t_thread_ready_priority_group k <? 2 ^ 32)
  && forallb
       (fun n =>
          let p := Z.of_nat n in
          if ready_bit p k then
            match next (lnk k) (ready_list p) with
            | tlist _ => true
            | _ => false
            end
          else
            (if node_eq_dec (next (lnk k) (ready_list p)) (ready_list p)
             then true else false)
            && (if node_eq_dec (prev (lnk k) (ready_list p)) (ready_list p)
                then true else false))
       (seq 0 (Z.to_nat TO_THREAD_PRIORITY_MAX)).

(** *** Priority inheritance at work

    Two threads besides the idle thread: [low_thread] at priority 3 and
    [high_thread] at priority 5 (the larger number is the higher priority).
    The scheduler starts [high_thread], which goes to sleep for 100 ticks;
    [low_thread] runs and takes the mutex; after 100 ticks [high_thread]
    wakes up, runs, asks for the mutex and blocks, which raises
    [low_thread] to priority 5; [low_thread] runs again, holding the
    mutex.  A timeout of -1 is TO_WAITING_FOREVER as a [t_int32_t]. *)
Definition low_thread : nat := 1%nat.
Definition high_thread : nat := 2%nat.

Definition contention (ty : t_ipc_type_t) : result kernel :=
  let k :=
    snd (t_thread_create_static 0x08000200 0x20001000 512 3 0 10
           (Some low_thread) booted) in
  let k := snd (t_thread_startup (Some low_thread) k) in
  let k :=
    snd (t_thread_create_static 0x08000300 0x20002000 512 5 0 10
           (Some high_thread) k) in
  let k := snd (t_thread_startup (Some high_thread) k) in
  let k :=
    snd (t_mutex_create_static_base ty TO_IPC_FLAG_FIFO (Some mutex1) k) in
  k <- t_sched_start k ;;
  k <- t_thread_sleep 8 100 k ;;
  r <- t_mutex_recv_base 8 (Some mutex1) (-1) k ;;
  k <- ticks 100 8 (snd r) ;;
  r <- t_mutex_recv_base 8 (Some mutex1) (-1) k ;;
  Ok (snd r).

(** The state [contention] ends in. *)
Definition contended (ty : t_ipc_type_t) : kernel :=
  match contention ty with
  | Ok k => k
  | _ => booted
  end.

(** ** The queue as a list of items *)

(** The [n] bytes of memory from [addr] on. *)
Definition item_at (m : Z -> Byte.byte) (addr : Z) (n : nat)
    : list Byte.byte :=
  map (fun j => m (addr + Z.of_nat j)) (seq 0 n).

(** The address of cell [j] of the queue's buffer. *)
Definition slot (o : t_ipc_t) (j : Z) : Z := q_head o + item_size o * j.

(** The valid queue [i] holds the items [q], oldest first: the buffer ends
    at [tail], the fill count is the number of items, the read cursor is at
    some cell [r], the write cursor is at the cell after the youngest item,
    and the items are in the cells from [r] on, wrapping at the end of the
    buffer. *)
Definition queue_holds (k : kernel) (i : nat) (q : list (list Byte.byte))
    : Prop :=
  let o := ipcs k i in
  ipc_type o = IPC_QUEUE /\
  ipc_status o <> 0 /\
  0 < item_size o /\
  0 < ipc_length o < 2 ^ 16 /\
  q_tail o = slot o (ipc_length o) /\
  msg_waiting o = Z.of_nat (length q) /\
  Z.of_nat (length q) <= ipc_length o /\
  exists r,
    0 <= r < ipc_length o /\
    read_from o = slot o r /\
    write_to o = slot o ((r + Z.of_nat (length q)) mod ipc_length o) /\
    forall j, (j < length q)%nat ->
      item_at (mem k) (slot o ((r + Z.of_nat j) mod ipc_length o))
        (Z.to_nat (item_size o))
      = nth j q [].

(** What the threads do with a queue: send the item at [data], receive an
    item to [data], or write a byte of their own memory. *)
Inductive queue_call : Type :=
| q_send (data timeout level : Z)
| q_recv (data timeout : Z)
| q_write (addr : Z) (b : Byte.byte).

(** A run of calls that all succeed, with the items passed to the sends and
    the items delivered by the receives, each in call order; [None] when a
    call does not return T_OK. *)
Fixpoint run_queue_calls (fuel : nat) (i : nat) (cs : list queue_call)
    (k : kernel)
    : option (list (list Byte.byte) * list (list Byte.byte) * kernel) :=
  match cs with
  | [] => Some ([], [], k)
  | q_send data timeout level :: cs' =>
      match t_queue_send fuel (Some i) data timeout level k with
      | Ok (Done T_OK, k1) =>
          match run_queue_calls fuel i cs' k1 with
          | Some (sent, received, k') =>
              Some (item_at (mem k) data (Z.to_nat (item_size (ipcs k i)))
                      :: sent,
                    received, k')
          | None => None
          end
      | _ => None
      end
  | q_recv data timeout :: cs' =>
      match t_queue_recv fuel (Some i) data timeout k with
      | Ok (Done T_OK, k1) =>
          match run_queue_calls fuel i cs' k1 with
          | Some (sent, received, k') =>
              Some (sent,
                    item_at (mem k1) data (Z.to_nat (item_size (ipcs k i)))
                      :: received,
                    k')
          | None => None
          end
      | _ => None
      end
  | q_write addr b :: cs' =>
      run_queue_calls fuel i cs' (set_mem (upd Z.eq_dec (mem k) addr b) k)
  end.

(** The [n] bytes from [addr] on lie outside the buffer [lo, hi). *)
Definition outside (lo hi addr n : Z) : Prop :=
  addr + n <= lo \/ hi <= addr.

(** The memory a call reads or writes for the caller lies outside the
    buffer of the queue. *)
Definition call_outside (lo hi size : Z) (c : queue_call) : Prop :=
  match c with
  | q_send data _ _ => outside lo hi data size
  | q_recv data _ => outside lo hi data size
  | q_write addr _ => outside lo hi addr 1
  end.

(** *** A short run on a queue of two cells of two bytes

    The queue is created in [booted] with its buffer at 0x20003000.  The
    application keeps the item to send at 0x20004000 and receives to
    0x20005000; it sends three different items and receives them, the third
    through the wrapped cursors. *)
Definition queue1 : nat := 2%nat.

Definition queue_demo_calls : list queue_call :=
  [ q_write 0x20004000 Byte.x11; q_write 0x20004001 Byte.x12;
    q_send 0x20004000 0 0;
    q_write 0x20004000 Byte.x21; q_write 0x20004001 Byte.x22;
    q_send 0x20004000 0 0;
    q_recv 0x20005000 0;
    q_write 0x20004000 Byte.x31; q_write 0x20004001 Byte.x32;
    q_send 0x20004000 0 0;
    q_recv 0x20005000 0;
    q_recv 0x20005000 0 ].

Definition queue_demo_start : kernel :=
  snd (t_queue_create_static 0x20003000 2 2 TO_IPC_FLAG_FIFO (Some queue1)
         booted).

(** ** Circular lists as sequences of nodes *)

(** [chain h a l z]: from [a], [next] visits the nodes of [l] in order and
    then [z], and [prev] leads back the same way. *)
Fixpoint chain (h : links) (a : node) (l : list node) (z : node) : Prop :=
  match l with
  | [] => next h a = z /\ prev h z = a
  | x :: l' => next h a = x /\ prev h x = a /\ chain h x l' z
  end.

(** The circular list of head [s] holds exactly the nodes of [l], in that
    order. *)
Definition circular (h : links) (s : node) (l : list node) : Prop :=
  chain h s l s /\ NoDup (s :: l).

(** The timers that the first loop of [t_timer_check] detaches from a list
    of timers [tms], and the ones it leaves. *)
Fixpoint expired_prefix (now : Z) (tk : timer_ref -> t_timer_t)
    (tms : list timer_ref) : list timer_ref :=
  match tms with
  | [] => []
  | tm :: tms' =>
      if now >=? timeout_tick (tk tm)
      then tm :: expired_prefix now tk tms' else []
  end.

Fixpoint unexpired_rest (now : Z) (tk : timer_ref -> t_timer_t)
    (tms : list timer_ref) : list timer_ref :=
  match tms with
  | [] => []
  | tm :: tms' =>
      if now >=? timeout_tick (tk tm)
      then unexpired_rest now tk tms' else tms
  end.


(** The calls that the second loop of [t_timer_check] makes for a timer. *)
Definition timer_calls (tk : timer_ref -> t_timer_t) (tm : timer_ref)
    : list event :=
  match timeout_func (tk tm) with
  | Some f => [called f (timer_p (tk tm))]
  | None => []
  end.

(** Two lists of nodes with no node in common. *)
Definition apart (a b : list node) : Prop :=
  forall n, In n a -> In n b -> False.

(** ** The ready queues as lists of threads *)

(** [q p] lists the threads of the ready list of priority [p], head first:
    every ready list is a circular list of the nodes of its threads, every
    queued thread has the priority of its list and the mask of that
    priority, and the bit of a priority is set exactly when its list has a
    thread. *)
Definition ready_queues (k : kernel) (q : Z -> list nat) : Prop :=
  (forall p, 0 <= p < TO_THREAD_PRIORITY_MAX ->
     circular (lnk k) (ready_list p) (map tlist (q p))) /\
  (forall p t, 0 <= p < TO_THREAD_PRIORITY_MAX -> In t (q p) ->
     current_priority (threads k t) = p /\
     number_mask (threads k t) = 2 ^ p) /\
  (forall p, 0 <= p < TO_THREAD_PRIORITY_MAX ->
     ready_bit p k = match q p with [] => false | _ => true end).

(** The queues with the queue of priority [p] replaced by [l]. *)
Definition with_queue (q : Z -> list nat) (p : Z) (l : list nat)
    : Z -> list nat :=
  upd Z.eq_dec q p l.

(** The queues of [worker_ready]: the idle thread at priority 0 and the
    worker at priority 3. *)
Definition worker_ready_q : Z -> list nat :=
  with_queue (with_queue (fun _ => []) 0 [idle_thread]) 3 [worker].

(** A second worker of priority 3, started after the first; then the
    scheduler is started, which runs the first worker. *)
Definition peer : nat := 2%nat.

Definition two_workers_ready : kernel :=
  let k :=
    snd (t_thread_create_static 0x08000300 0x20002000 512 3 0 10
           (Some peer) worker_ready) in
  snd (t_thread_startup (Some peer) k).

Definition two_workers_running : kernel :=
  match t_sched_start two_workers_ready with
  | Ok k => k
  | _ => two_workers_ready
  end.

Definition two_workers_q : Z -> list nat :=
  with_queue (with_queue (fun _ => []) 0 [idle_thread]) 3 [worker; peer].

(** The worker created but not started. *)
Definition worker_created : kernel :=
  snd (t_thread_create_static 0x08000200 0x20001000 512 3 0 10
         (Some worker) booted).

Definition booted_q : Z -> list nat :=
  with_queue (fun _ => []) 0 [idle_thread].

(** A list of threads that are in no ready queue, such as a wait list or
    the list of terminated threads: its nodes are apart from the nodes of
    every ready queue. *)
Definition unqueued (q : Z -> list nat) (w : list nat) : Prop :=
  forall u p, In u w -> 0 <= p < TO_THREAD_PRIORITY_MAX -> ~ In u (q p).

Definition is_ready_list (n : node) : Prop := exists p, n = ready_list p.

(** The state [t_thread_delete] and [t_thread_exit] leave the thread [t]
    in: out of its ready queue, its timer stopped, TERMINATED and last in
    the list of the threads that wait for their termination. *)
Definition retired (t : nat) (k : kernel) : kernel :=
  let k := t_sched_remove_thread (Some t) k in
  let k := snd (t_timer_stop (Some (thread_timer t)) k) in
  let k := with_thread t (set_status TO_THREAD_TERMINATED) k in
  with_links (t_list_insert_before waiting_termination_list (tlist t)) k.

(** A timer that is in no list: its node is linked to itself. *)
Definition timer_detached (k : kernel) (tm : timer_ref) : Prop :=
  next (lnk k) (row tm) = row tm /\ prev (lnk k) (row tm) = row tm.

(** ** The rest of thread.c and timer.c *)

(** [t_delay] and [t_mdelay]. *)
Definition t_delay (fuel : nat) (tick : Z) (k : kernel) : result kernel :=
  t_thread_sleep fuel tick k.

Definition t_mdelay (fuel : nat) (ms : Z) (k : kernel) : result kernel :=
  let tick := s_tick_from_ms ms in
  t_thread_sleep fuel tick k.

(** The loop of [t_cleanup_waiting_termination_threads]. *)
Fixpoint t_cleanup_loop (fuel : nat) (k : kernel) : result kernel :=
  match fuel with
  | O => OutOfFuel
  | S fuel' =>
      if t_list_isempty waiting_termination_list (lnk k) then Ok k
      else
        match T_LIST_ENTRY_thread (next (lnk k) waiting_termination_list)
        with
        | None => Fault
        | Some thread =>
            let k := with_thread thread (set_status TO_THREAD_DELETED) k in
            let k := with_links (t_list_delete (tlist thread)) k in
            t_cleanup_loop fuel' k
        end
  end.

Definition t_cleanup_waiting_termination_threads (fuel : nat) (k : kernel)
    : result kernel :=
  let '(level, k) := t_irq_disable k in
  k <- t_cleanup_loop fuel k ;;
  Ok (t_irq_enable level k).

(** The loop of [t_thread_restart] over the list of terminated threads,
    from the node [p].  The test [t == thread] compares the thread that
    would hold [p] with [thread] and reads nothing: it holds exactly when
    [p] is the node of [thread]. *)
Fixpoint t_thread_restart_scan (fuel : nat) (p : node) (thread : nat)
    (h : links) : result links :=
  match fuel with
  | O => OutOfFuel
  | S fuel' =>
      if node_eq_dec p waiting_termination_list then Ok h
      else if node_eq_dec p (tlist thread)
           then Ok (t_list_delete (tlist thread) h)
           else t_thread_restart_scan fuel' (next h p) thread h
  end.

Definition t_thread_restart (fuel : nat) (thread : option nat) (k : kernel)
    : result (t_status_t * kernel) :=
  match thread with
  | None => Ok (T_NULL, k)
  | Some t =>
      if negb (status (threads k t) =? TO_THREAD_DELETED) then Ok (T_ERR, k)
      else
        let '(level, k) := t_irq_disable k in
        h <- t_thread_restart_scan fuel
               (next (lnk k) waiting_termination_list) t (lnk k) ;;
        let k := set_lnk h k in
        let k := t_irq_enable level k in
        let k :=
          _t_thread_create (entry (threads k t)) (stackaddr (threads k t))
            (stacksize (threads k t)) (init_priority (threads k t))
            (arg (threads k t))
            (timer_init_tick (timers k (thread_timer t))) t k in
        let k :=
          snd (t_timer_init (Some (thread_timer t))
                 (Some timeout_function_cb) (Some t)
                 (timer_init_tick (timers k (thread_timer t))) k) in
        let k := with_thread t (set_status TO_THREAD_READY) k in
        Ok (t_thread_startup (Some t) k)
  end.

(** The idle thread's entry of board.c, one round of its endless loop. *)
Definition idle_thread_entry_round (fuel : nat) (k : kernel)
    : result kernel :=
  t_cleanup_waiting_termination_threads fuel k.

(** The worker after [t_thread_delete] and a round of the idle thread. *)
Definition worker_reclaimed : kernel :=
  match t_cleanup_waiting_termination_threads 4
          (snd (t_thread_delete (Some worker) worker_ready)) with
  | Ok k => k
  | _ => worker_ready
  end.

(** ** The timer lists as lists of timers *)

(** [c] and [o] list the timers of the current and of the overflow list,
    head first; the two lists share no node and their heads are the two
    list heads of timer.c, in one of the two roles. *)
Definition timer_lists (k : kernel) (c o : list timer_ref) : Prop :=
  circular (lnk k) (g_cur_timer_list k) (map row c) /\
  circular (lnk k) (g_overflow_timer_list k) (map row o) /\
  apart (g_cur_timer_list k :: map row c)
        (g_overflow_timer_list k :: map row o) /\
  (g_cur_timer_list k = s_timer_list /\
   g_overflow_timer_list k = s_overflow_timer_list \/
   g_cur_timer_list k = s_overflow_timer_list /\
   g_overflow_timer_list k = s_timer_list).

(** Where the scan of [t_timer_start] puts a timer due at [tick]: before the
    first timer that is due later. *)
Fixpoint timer_insert (tk : timer_ref -> t_timer_t) (tick : Z)
    (tm : timer_ref) (tms : list timer_ref) : list timer_ref :=
  match tms with
  | [] => [tm]
  | x :: tms' =>
      if timeout_tick (tk x) >? tick then tm :: tms
      else x :: timer_insert tk tick tm tms'
  end.

(** A list of timers in the order of their expiry. *)
Fixpoint due_ordered (tk : timer_ref -> t_timer_t) (tms : list timer_ref)
    : Prop :=
  match tms with
  | [] => True
  | x :: tms' =>
      (forall y, In y tms' -> timeout_tick (tk x) <= timeout_tick (tk y)) /\
      due_ordered tk tms'
  end.

(** After [t_tortos_init], [timer_a] is armed for 5 ticks at tick 0 and
    [timer_b] is set up for 3 ticks, not armed yet. *)
Definition timer_a_armed : kernel :=
  let k := snd (t_timer_init (Some timer_a) (Some (user_cb 0)) None 5 booted) in
  let k := snd (t_timer_init (Some timer_b) (Some (user_cb 1)) None 3 k) in
  match t_timer_start 8 (Some timer_a) k with
  | Ok (_, k) => k
  | _ => booted
  end.

(** The two timers of [two_timers_armed] at tick 5, when both are due. *)
Definition two_timers_due : kernel :=
  match two_timers_armed with
  | Ok k => set_s_tick 5 k
  | _ => booted
  end.

(** The first of the two workers asleep for 5 ticks, the second running. *)
Definition worker_asleep : kernel :=
  match t_thread_sleep 8 5 two_workers_running with
  | Ok k => k
  | _ => two_workers_running
  end.

Definition worker_asleep_q : Z -> list nat :=
  with_queue (with_queue (fun _ => []) 0 [idle_thread]) 3 [peer].

(** The first of the two workers has run for 9 of the 10 ticks of its time
    slice. *)
Definition slice_almost_up : kernel :=
  match ticks 9 8 two_workers_running with
  | Ok k => k
  | _ => two_workers_running
  end.

(** ** Wait lists in priority mode *)

(** The waiters at the head of a wait list that the scan of
    [t_ipc_suspend] passes, those that a thread of priority [prio] does not
    outrank, and the waiters from the first outranked one on. *)
Fixpoint ipc_scan_passed (tk : nat -> t_thread_t) (prio : Z)
    (w : list nat) : list nat :=
  match w with
  | [] => []
  | x :: w' =>
      if prio >? current_priority (tk x) then []
      else x :: ipc_scan_passed tk prio w'
  end.

Fixpoint ipc_scan_left (tk : nat -> t_thread_t) (prio : Z)
    (w : list nat) : list nat :=
  match w with
  | [] => []
  | x :: w' =>
      if prio >? current_priority (tk x) then w
      else ipc_scan_left tk prio w'
  end.

(** The wait list after [t_ipc_suspend] in priority mode: the thread is
    linked before the last waiter the scan passed, or before the head of
    the list when it passed none. *)
Definition ipc_prio_insert (tk : nat -> t_thread_t) (t : nat)
    (w : list nat) : list nat :=
  match rev (ipc_scan_passed tk (current_priority (tk t)) w) with
  | [] => ipc_scan_left tk (current_priority (tk t)) w ++ [t]
  | x :: passed =>
      rev passed ++ t :: x :: ipc_scan_left tk (current_priority (tk t)) w
  end.

(** A semaphore without tokens in priority mode, on which the second of
    two workers of priority 3 waits; a third thread of priority 5 is
    ready. *)
Definition sema_prio : nat := 3%nat.
Definition urgent : nat := 3%nat.

Definition peer_waiting : kernel :=
  let k :=
    snd (t_sema_create_static 1 0 TO_IPC_FLAG_PRIO (Some sema_prio)
           two_workers_ready) in
  let k :=
    snd (t_thread_create_static 0x08000400 0x20003000 512 5 0 10
           (Some urgent) k) in
  let k := snd (t_thread_startup (Some urgent) k) in
  match t_ipc_suspend 8 (Some (wait_list sema_prio)) (Some peer)
          TO_IPC_FLAG_PRIO k with
  | Ok (_, k) => k
  | _ => k
  end.

Definition peer_waiting_q : Z -> list nat :=
  with_queue
    (with_queue (with_queue (fun _ => []) 0 [idle_thread]) 3 [worker])
    5 [urgent].

(** ** A semaphore used without waiting *)

(** Calls on one semaphore that never block: [t_sema_send], and
    [t_sema_recv] with the timeout 0. *)
Inductive sema_call : Type :=
| sema_give
| sema_take.

Definition do_sema_call (fuel : nat) (i : nat) (c : sema_call) (k : kernel)
    : result (outcome * kernel) :=
  match c with
  | sema_give =>
      r <- t_sema_send (Some i) k ;;
      Ok (Done (fst r), snd r)
  | sema_take => t_sema_recv fuel (Some i) 0 k
  end.

Fixpoint run_sema_calls (fuel : nat) (i : nat) (cs : list sema_call)
    (k : kernel) : result (list outcome * kernel) :=
  match cs with
  | [] => Ok ([], k)
  | c :: cs' =>
      r <- do_sema_call fuel i c k ;;
      r' <- run_sema_calls fuel i cs' (snd r) ;;
      Ok (fst r :: fst r', snd r')
  end.

(** A counter between 0 and [max] under the same calls: the results, the
    final count, and whether a give was refused. *)
Fixpoint count_sema_calls (max : Z) (cs : list sema_call) (n : Z)
    : list outcome * Z * bool :=
  match cs with
  | [] => ([], n, false)
  | sema_give :: cs' =>
      let '(rs, n', refused) :=
        count_sema_calls max cs' (if n <? max then n + 1 else n) in
      (Done (if n <? max then T_OK else T_ERR) :: rs, n',
       refused || negb (n <? max))
  | sema_take :: cs' =>
      let '(rs, n', refused) :=
        count_sema_calls max cs' (if n >? 0 then n - 1 else n) in
      (Done (if n >? 0 then T_OK else T_ERR) :: rs, n', refused)
  end.

(** ** Waking all waiters *)


(** ** Formatted output (service.c)

    A character is its code, a value of the 8-bit [char].  A string is the
    list of the bytes at its address; it ends at the first 0 in the list or,
    if there is none, at the end of the list, where the terminator is.
    Nothing is known of the memory behind the end of the list.  The buffer is
    shown by the characters written to it so far: they are written one after
    the other from [buffer] on, so [ptr] is [buffer] plus their number, and
    [end] is [buffer + size - 1]. *)

Definition TO_PRINTF_BUF_SIZE : Z := 128.

(** An argument of the variable argument list, with the type it was passed
    with. *)
Inductive va_arg_t : Type :=
| va_int (v : Z)                    (* int *)
| va_uint (v : Z)                   (* unsigned int *)
| va_str (s : list Z)               (* const char *, the bytes it points to *)
| va_double (f : PrimFloat.float).  (* double *)

(** [va_arg (args, int)] and [va_arg (args, unsigned int)]: the next
    argument has to be of that type or of the other of the two with a value
    that both types have; anything else, and a missing argument, is
    undefined. *)
Definition va_arg_int (args : list va_arg_t)
    : result (Z * list va_arg_t) :=
  match args with
  | va_int v :: args' =>
      if (- 2 ^ 31 <=? v) && (v <? 2 ^ 31) then Ok (v, args') else Fault
  | va_uint v :: args' =>
      if (0 <=? v) && (v <? 2 ^ 31) then Ok (v, args') else Fault
  | _ => Fault
  end.

Definition va_arg_unsigned (args : list va_arg_t)
    : result (Z * list va_arg_t) :=
  match args with
  | va_uint v :: args' =>
      if (0 <=? v) && (v <? 2 ^ 32) then Ok (v, args') else Fault
  | va_int v :: args' =>
      if (0 <=? v) && (v <? 2 ^ 31) then Ok (v, args') else Fault
  | _ => Fault
  end.

Definition va_arg_str (args : list va_arg_t)
    : result (list Z * list va_arg_t) :=
  match args with
  | va_str s :: args' => Ok (s, args')
  | _ => Fault
  end.

Definition va_arg_double (args : list va_arg_t)
    : result (PrimFloat.float * list va_arg_t) :=
  match args with
  | va_double f :: args' => Ok (f, args')
  | _ => Fault
  end.

(** The characters of a string, up to its terminator. *)
Fixpoint c_string (s : list Z) : list Z :=
  match s with
  | [] => []
  | c :: s' => if c =? 0 then [] else c :: c_string s'
  end.

(** [ptr < end]. *)
Definition room (size : Z) (out : list Z) : bool :=
  Z.of_nat (length out) <? size - 1.

(** [if (ptr < end) *ptr++ = c]. *)
Definition put (size : Z) (c : Z) (out : list Z) : list Z :=
  if room size out then out ++ [c] else out.

(** [while (len-- && ptr < end) *ptr++ = temp[len]], with the characters in
    the order they are written in, and the copy loop of [%s]. *)
Fixpoint put_all (size : Z) (cs : list Z) (out : list Z) : list Z :=
  match cs with
  | [] => out
  | c :: cs' => if room size out then put_all size cs' (out ++ [c]) else out
  end.

(** The loops [do { temp[len++] = digit; value /= base; } while (value &&
    len < sizeof (temp))]: the contents of [temp], lowest digit first;
    [n] is what is left of [sizeof (temp)]. *)
Fixpoint digits (n : nat) (base : Z) (digit : Z -> Z) (value : Z)
    : list Z :=
  match n with
  | O => []
  | S n' =>
      digit (value mod base)
      :: (if value / base =? 0 then []
          else digits n' base digit (value / base))
  end.

(** [(char)('0' + digit)] and
    [(char)(digit < 10 ? ('0' + digit) : ('a' + digit - 10))]. *)
Definition dec_digit (digit : Z) : Z := wrap8 (48 + digit).

Definition hex_digit (digit : Z) : Z :=
  wrap8 (if digit <? 10 then 48 + digit else 97 + digit - 10).

(** [(int)f]: the integral part, undefined when it is no [int]; and
    [(double)v] for an [int] that is not negative. *)
Definition int_of_double (f : PrimFloat.float) : result Z :=
  match FloatOps.Prim2SF f with
  | SpecFloat.S754_zero _ => Ok 0
  | SpecFloat.S754_finite s m e =>
      let a := if 0 <=? e then Zpos m * 2 ^ e else Zpos m / 2 ^ (- e) in
      let v := if s then - a else a in
      if (- 2 ^ 31 <=? v) && (v <? 2 ^ 31) then Ok v else Fault
  | _ => Fault
  end.

Definition double_of_int (v : Z) : PrimFloat.float :=
  PrimFloat.of_uint63 (Uint63.of_Z v).

(** The loop of the six decimal places of [%f]. *)
Fixpoint frac_digits (n : nat) (size : Z) (frac_part : PrimFloat.float)
    (out : list Z) : result (list Z) :=
  match n with
  | O => Ok out
  | S n' =>
      if room size out then
        let frac_part := PrimFloat.mul frac_part (double_of_int 10) in
        digit <- int_of_double frac_part ;;
        let out := put size (wrap8 (48 + digit)) out in
        let frac_part := PrimFloat.sub frac_part (double_of_int digit) in
        frac_digits n' size frac_part out
      else Ok out
  end.

(** One conversion: [c] is the character behind the percent sign. *)
Definition t_vsnprintf_conv (size : Z) (c : Z) (args : list va_arg_t)
    (out : list Z) : result (list va_arg_t * list Z) :=
  if c =? 100 then                                   (* 'd' *)
    a <- va_arg_int args ;;
    let '(value, args) := a in
    let out := if value <? 0 then put size 45 out else out in
    if value =? - 2 ^ 31 then Fault                  (* -value overflows *)
    else
      let value := if value <? 0 then - value else value in
      Ok (args, put_all size (rev (digits 12 10 dec_digit value)) out)
  else if c =? 115 then                              (* 's' *)
    a <- va_arg_str args ;;
    let '(str, args) := a in
    Ok (args, put_all size (c_string str) out)
  else if c =? 99 then                               (* 'c' *)
    a <- va_arg_int args ;;
    let '(v, args) := a in
    Ok (args, put size (wrap8 v) out)
  else if c =? 120 then                              (* 'x' *)
    a <- va_arg_unsigned args ;;
    let '(value, args) := a in
    Ok (args, put_all size (rev (digits 16 16 hex_digit value)) out)
  else if c =? 102 then                              (* 'f' *)
    a <- va_arg_double args ;;
    let '(value, args) := a in
    let negative := PrimFloat.ltb value (double_of_int 0) in
    let out := if negative then put size 45 out else out in
    let value := if negative then PrimFloat.opp value else value in
    int_part <- int_of_double value ;;
    let frac_part := PrimFloat.sub value (double_of_int int_part) in
    let out := put_all size (rev (digits 32 10 dec_digit int_part)) out in
    let out := put size 46 out in
    out <- frac_digits 6 size frac_part out ;;
    Ok (args, out)
  else
    Ok (args, put size c (put size 37 out)).

(** The loop of [t_vsnprintf].  A percent sign that is the last character
    of the format has the terminator as its conversion character; [fmt++]
    then steps over the terminator and the loop reads on behind the
    string. *)
Fixpoint t_vsnprintf_loop (size : Z) (fmt : list Z) (args : list va_arg_t)
    (out : list Z) : result (list Z) :=
  match fmt with
  | [] => Ok out
  | c :: fmt' =>
      if c =? 0 then Ok out
      else if negb (room size out) then Ok out
      else if c =? 37 then                           (* '%' *)
        match fmt' with
        | [] => Fault
        | d :: fmt'' =>
            r <- t_vsnprintf_conv size d args out ;;
            t_vsnprintf_loop size fmt'' (fst r) (snd r)
        end
      else t_vsnprintf_loop size fmt' args (put size c out)
  end.

(** [t_vsnprintf]: the characters written from [buffer] on, behind which
    the terminator is written, and the returned length. *)
Definition t_vsnprintf (size : Z) (fmt : list Z) (args : list va_arg_t)
    : result (list Z * Z) :=
  out <- t_vsnprintf_loop size fmt args [] ;;
  Ok (out, Z.of_nat (length out)).

(** [t_printf]: the characters handed to [t_putc], in their order. *)
Definition t_printf (fmt : list Z) (args : list va_arg_t)
    : result (list Z) :=
  r <- t_vsnprintf TO_PRINTF_BUF_SIZE fmt args ;;
  Ok (firstn (Z.to_nat (snd r)) (fst r)).

(** Nothing has been written at [end] or behind it. *)
Definition fits (size : Z) (out : list Z) : Prop :=
  Z.of_nat (length out) <= Z.max 0 (size - 1).

(** The number of characters a buffer of [size] bytes has room for. *)
Definition cut_at (size : Z) : nat := Z.to_nat (size - 1).

(** The number that a string of decimal digits, or of hexadecimal digits
    in lower case, stands for, and the [int] that an optional minus sign
    and decimal digits stand for. *)
Definition decimal_digit_value (c : Z) : Z := c - 48.

Definition hex_digit_value (c : Z) : Z :=
  if c <? 97 then c - 48 else c - 97 + 10.

Fixpoint number_value (base : Z) (digit_value : Z -> Z) (acc : Z)
    (cs : list Z) : Z :=
  match cs with
  | [] => acc
  | c :: cs' =>
      number_value base digit_value (base * acc + digit_value c) cs'
  end.

Definition parse_int (cs : list Z) : Z :=
  match cs with
  | 45 :: cs' => - number_value 10 decimal_digit_value 0 cs'
  | _ => number_value 10 decimal_digit_value 0 cs
  end.

Definition parse_hex (cs : list Z) : Z :=
  number_value 16 hex_digit_value 0 cs.

(** * Properties *)

(** ** Basic facts about the embedding *)

Section Store.

Context {K V : Type} (eq_dec : forall a b : K, {a = b} + {a <> b}).

Lemma upd_same (f : K -> V) k v : upd eq_dec f k v k = v.
Proof. unfold upd. destruct (eq_dec k k); congruence. Qed.

Lemma upd_other (f : K -> V) k v x : x <> k -> upd eq_dec f k v x = f x.
Proof. unfold upd. destruct (eq_dec x k); congruence. Qed.

End Store.

Lemma wrap32_small (x : Z) : 0 <= x < 2 ^ 32 -> wrap32 x = x.
Proof. intros H. unfold wrap32. apply Z.mod_small. exact H. Qed.

Lemma wrap16_small (x : Z) : 0 <= x < 2 ^ 16 -> wrap16 x = x.
Proof. intros H. unfold wrap16. apply Z.mod_small. exact H. Qed.

Lemma wrap8_small (x : Z) : 0 <= x < 2 ^ 8 -> wrap8 x = x.
Proof. intros H. unfold wrap8. apply Z.mod_small. exact H. Qed.

Lemma option_nat_eqb_refl (a : option nat) : option_nat_eqb a a = true.
Proof. destruct a as [n|]; simpl; [apply Nat.eqb_refl | reflexivity]. Qed.

Lemma option_nat_eqb_eq (a b : option nat) :
  option_nat_eqb a b = true <-> a = b.
Proof.
  destruct a as [x|], b as [y|]; simpl; split; intros H;
    try congruence; try reflexivity.
  - apply Nat.eqb_eq in H. congruence.
  - inversion H. apply Nat.eqb_refl.
Qed.

(** What [t_list_insert_before l n] leaves behind, whatever the links were:
    [n] is the last node before [l] in both directions. *)
Lemma t_list_insert_before_next (l n : node) (h : links) :
  next (t_list_insert_before l n h) n = l.
Proof. unfold t_list_insert_before. simpl. apply upd_same. Qed.

Lemma t_list_insert_before_prev (l n : node) (h : links) :
  prev (t_list_insert_before l n h) l = n.
Proof. unfold t_list_insert_before. simpl. apply upd_same. Qed.

Lemma t_list_insert_before_prev_node (l n : node) (h : links) :
  n <> l -> prev (t_list_insert_before l n h) n = prev h l.
Proof.
  intros Hn. unfold t_list_insert_before. simpl.
  rewrite upd_other by exact Hn. apply upd_same.
Qed.

Lemma t_list_insert_before_old_tail (l n : node) (h : links) :
  prev h l <> n -> next (t_list_insert_before l n h) (prev h l) = n.
Proof.
  intros Hn. unfold t_list_insert_before. simpl.
  rewrite upd_other by exact Hn. apply upd_same.
Qed.

(** ** Tick differences *)

(** What [get_tick_diff] computes on 32-bit samples. *)
Lemma get_tick_diff_value (start_tick end_tick : Z) :
  0 <= start_tick < 2 ^ 32 -> 0 <= end_tick < 2 ^ 32 ->
  get_tick_diff start_tick end_tick =
    if end_tick >=? start_tick then end_tick - start_tick
    else end_tick - start_tick + 2 ^ 32 - 1.
Proof.
  intros Hs He. unfold get_tick_diff. simpl.
  destruct (end_tick >=? start_tick) eqn:Hc.
  - apply wrap32_small. apply Z.geb_le in Hc. lia.
  - rewrite Z.geb_leb in Hc. apply Z.leb_gt in Hc.
    rewrite wrap32_small by lia. lia.
Qed.

(** It is the modular difference exactly when the tick did not wrap between
    the two samples. *)
Lemma get_tick_diff_modular_iff (start_tick end_tick : Z) :
  0 <= start_tick < 2 ^ 32 -> 0 <= end_tick < 2 ^ 32 ->
  get_tick_diff start_tick end_tick = wrap32 (end_tick - start_tick) <->
  start_tick <= end_tick.
Proof.
  intros Hs He. rewrite get_tick_diff_value by assumption.
  destruct (end_tick >=? start_tick) eqn:Hc.
  - apply Z.geb_le in Hc. rewrite wrap32_small by lia. split; intros; lia.
  - rewrite Z.geb_leb in Hc. apply Z.leb_gt in Hc.
    assert (Hw : wrap32 (end_tick - start_tick)
                 = end_tick - start_tick + 2 ^ 32).
    { unfold wrap32. symmetry.
      apply (Z.mod_unique (end_tick - start_tick) (2 ^ 32) (-1)); lia. }
    rewrite Hw. split; intros; lia.
Qed.

(** C3 (the code departs from it): the elapsed time between two tick samples
    is meant to be the difference modulo 2^32, end - start + 2^32 after a
    wrap.  At start = 1, end = 0 [get_tick_diff] returns 2^32 - 2, one less
    than the modular difference 2^32 - 1. *)
Theorem get_tick_diff_wrap_is_one_short :
  get_tick_diff 1 0 = 4294967294 /\
  wrap32 (0 - 1) = 4294967295 /\
  0 - 1 + 2 ^ 32 = 4294967295.
Proof. repeat split; reflexivity. Qed.

(** ** The ready bitmap *)

Lemma ready_bitmap_invb_spec (k : kernel) :
  ready_bitmap_invb k = true <-> ready_bitmap_inv k.
Proof.
  unfold ready_bitmap_invb, ready_bitmap_inv. rewrite forallb_forall. split.
  - intros H p Hp.
    specialize (H (Z.to_nat p)).
    rewrite Z2Nat.id in H by lia.
    apply Bool.eqb_prop. apply H.
    apply in_seq. unfold TO_THREAD_PRIORITY_MAX in *. lia.
  - intros H i Hi. apply in_seq in Hi.
    rewrite H; [apply Bool.eqb_reflx|].
    unfold TO_THREAD_PRIORITY_MAX in *. lia.
Qed.

(** C1 (the code departs from it): bit p of the ready group is meant to be
    set exactly when the ready list of priority p is not empty, for every
    sequence of scheduler and thread operations, in particular after
    [t_thread_ctrl] TO_THREAD_SET_PRIORITY on a queued thread followed by
    [t_sched_remove_thread].  The worker thread is started at priority 3,
    its priority is set to 5, and it is removed: the invariant holds up to
    the removal, after which the list of priority 3 is empty and bit 3 is
    still set. *)
Theorem set_priority_then_remove_breaks_ready_bitmap :
  ready_bitmap_inv worker_ready /\
  ready_bitmap_inv worker_boosted /\
  t_list_isempty (ready_list 3)
    (lnk (t_sched_remove_thread (Some worker) worker_boosted)) = true /\
  ready_bit 3 (t_sched_remove_thread (Some worker) worker_boosted) = true /\
  ~ ready_bitmap_inv (t_sched_remove_thread (Some worker) worker_boosted).
Proof.
  split; [apply ready_bitmap_invb_spec; vm_compute; reflexivity|].
  split; [apply ready_bitmap_invb_spec; vm_compute; reflexivity|].
  split; [vm_compute; reflexivity|].
  split; [vm_compute; reflexivity|].
  intros H. apply ready_bitmap_invb_spec in H. vm_compute in H. discriminate.
Qed.

(** ** Thread start-up *)

(** C10: [t_thread_startup] accepts a thread in any state but DELETED, not
    only INIT: it returns T_OK, makes the thread READY, resets the current
    priority to the initial one, reloads the time slice and links the
    thread's node last in the ready list of that priority (the head's
    [prev] is the node, the node's [next] is the head, and the node that was
    last now precedes it).  The only errors are T_NULL for a null pointer
    and T_ERR for a DELETED thread. *)
Theorem t_thread_startup_accepts_any_live_status (k : kernel) (t : nat) :
  status (threads k t) <> TO_THREAD_DELETED ->
  let p := init_priority (threads k t) in
  let k' := snd (t_thread_startup (Some t) k) in
  fst (t_thread_startup (Some t) k) = T_OK /\
  status (threads k' t) = TO_THREAD_READY /\
  current_priority (threads k' t) = p /\
  remaining_tick (threads k' t) = init_tick (threads k t) /\
  next (lnk k') (tlist t) = ready_list p /\
  prev (lnk k') (ready_list p) = tlist t /\
  prev (lnk k') (tlist t) = prev (lnk k) (ready_list p) /\
  (prev (lnk k) (ready_list p) <> tlist t ->
   next (lnk k') (prev (lnk k) (ready_list p)) = tlist t) /\
  (forall thread,
     fst (t_thread_startup thread k) <> T_OK <->
     thread = None \/
     exists u, thread = Some u /\ status (threads k u) = TO_THREAD_DELETED) /\
  t_thread_startup None k = (T_NULL, k) /\
  (forall u, status (threads k u) = TO_THREAD_DELETED ->
             t_thread_startup (Some u) k = (T_ERR, k)).
Proof.
  intros H p k'. subst k'.
  assert (Hdel : forall u, status (threads k u) = TO_THREAD_DELETED ->
                           t_thread_startup (Some u) k = (T_ERR, k)).
  { intros u Hu. unfold t_thread_startup. rewrite Hu. reflexivity. }
  assert (Hlive : forall u, status (threads k u) <> TO_THREAD_DELETED ->
                            fst (t_thread_startup (Some u) k) = T_OK).
  { intros u Hu. unfold t_thread_startup.
    destruct (Z.eqb_spec (status (threads k u)) TO_THREAD_DELETED);
      [contradiction | reflexivity]. }
  assert (Herr : forall thread,
            fst (t_thread_startup thread k) <> T_OK <->
            thread = None \/
            exists u, thread = Some u /\
                      status (threads k u) = TO_THREAD_DELETED).
  { intros [u|]; split.
    - intros Hf. right. exists u. split; [reflexivity|].
      destruct (Z.eq_dec (status (threads k u)) TO_THREAD_DELETED)
        as [Hu|Hu]; [exact Hu|].
      exfalso. apply Hf. apply Hlive. exact Hu.
    - intros [Hn|[v [Hv Hs]]]; [discriminate|].
      inversion Hv; subst v. rewrite (Hdel u Hs). discriminate.
    - intros _. left. reflexivity.
    - intros _. discriminate. }
  split; [apply Hlive; exact H|].
  repeat (match goal with |- _ /\ _ => split end);
    [ .. | exact Herr | reflexivity | exact Hdel ];
    unfold t_thread_startup;
    (destruct (Z.eqb_spec (status (threads k t)) TO_THREAD_DELETED)
       as [E|_]; [contradiction|]);
    cbn; rewrite ?upd_same; cbn; try reflexivity.
  intros Hp. rewrite upd_other by exact Hp. apply upd_same.
Qed.

(** The idle thread, READY since [t_tortos_init], is started once more. *)
Lemma t_thread_startup_accepts_any_live_status_witness :
  status (threads booted idle_thread) = TO_THREAD_READY /\
  fst (t_thread_startup (Some idle_thread) booted) = T_OK.
Proof.
  split; [reflexivity|].
  apply (t_thread_startup_accepts_any_live_status booted idle_thread).
  vm_compute. discriminate.
Defined.

(** ** Suspending and resuming the scheduler *)

Lemma t_sched_switch_suspended (k : kernel) :
  t_schedulue_suspend k <> 0 -> t_sched_switch k = Ok k.
Proof.
  intros H. unfold t_sched_switch.
  destruct (Z.eqb_spec (t_schedulue_suspend k) 0); [contradiction|].
  reflexivity.
Qed.

(** [t_sched_switch] returns when the list it picks from starts with a
    thread, and touches neither the lists, the ready group nor the
    counters. *)
Lemma t_sched_switch_frame (k : kernel) :
  switch_target_ok k ->
  exists k', t_sched_switch k = Ok k' /\
             lnk k' = lnk k /\
             t_thread_ready_priority_group k'
               = t_thread_ready_priority_group k /\
             t_schedulue_suspend k' = t_schedulue_suspend k /\
             t_cur_num_of_ready_tasks k' = t_cur_num_of_ready_tasks k /\
             ipcs k' = ipcs k /\ mem k' = mem k /\ primask k' = primask k.
Proof.
  intros Hok. unfold t_sched_switch.
  destruct (negb (t_schedulue_suspend k =? 0));
    [exists k; repeat split; reflexivity|].
  destruct (get_highest_ready_priority (t_thread_ready_priority_group k)
            >=? TO_THREAD_PRIORITY_MAX) eqn:Hhp;
    [exists k; repeat split; reflexivity|].
  rewrite Z.geb_leb in Hhp. apply Z.leb_gt in Hhp.
  destruct (Hok Hhp) as [t Ht]. rewrite Ht. cbn.
  destruct (option_nat_eqb (t_current_thread k) (Some t));
    [exists k; repeat split; reflexivity|].
  eexists. split; [reflexivity|].
  destruct (t_current_thread k) as [pt|]; cbn;
    [destruct (status (threads k pt) =? TO_THREAD_RUNNING)|];
    repeat split; reflexivity.
Qed.

Lemma suspend_depth_app (pre post : list sched_call) :
  suspend_depth (pre ++ post) = suspend_depth pre + suspend_depth post.
Proof.
  induction pre as [|c pre IH]; simpl; [lia|].
  destruct c; rewrite IH; lia.
Qed.

(** The counter follows the depth as long as the depth stays in range. *)
Lemma run_sched_calls_counter (cs : list sched_call) :
  forall k,
    switch_target_ok k ->
    (forall pre post, cs = pre ++ post ->
       0 <= t_schedulue_suspend k + suspend_depth pre < 2 ^ 32) ->
    exists k', run_sched_calls cs k = Ok k' /\
               t_schedulue_suspend k'
                 = t_schedulue_suspend k + suspend_depth cs /\
               lnk k' = lnk k /\
               t_thread_ready_priority_group k'
                 = t_thread_ready_priority_group k.
Proof.
  induction cs as [|c cs IH]; intros k Hok Hb.
  - exists k. simpl. repeat split; try reflexivity. lia.
  - assert (H1 := Hb [c] cs eq_refl).
    assert (H0 := Hb [] (c :: cs) eq_refl). simpl in H0.
    destruct c; simpl in H1.
    + (* suspend *)
      destruct (IH (t_sched_suspend k)) as [k' [Hr [Hc [Hl Hg]]]].
      { exact Hok. }
      { intros pre post E. subst cs.
        specialize (Hb (call_suspend :: pre) post eq_refl). simpl in Hb.
        cbn. rewrite wrap32_small by lia. lia. }
      exists k'. simpl. rewrite Hr. split; [reflexivity|].
      cbn in Hc. rewrite wrap32_small in Hc by lia.
      repeat split; [lia | exact Hl | exact Hg].
    + (* resume *)
      set (k1 := set_t_schedulue_suspend
                   (wrap32 (t_schedulue_suspend k - 1)) k).
      assert (Hk1 : t_schedulue_suspend k1 = t_schedulue_suspend k - 1).
      { unfold k1. cbn. apply wrap32_small. lia. }
      assert (Hres : exists k2, t_sched_resume k = Ok k2 /\
                       t_schedulue_suspend k2 = t_schedulue_suspend k - 1 /\
                       lnk k2 = lnk k /\
                       t_thread_ready_priority_group k2
                         = t_thread_ready_priority_group k).
      { unfold t_sched_resume. fold k1.
        destruct (t_schedulue_suspend k1 =? 0);
          [destruct (t_cur_num_of_ready_tasks k1 >? 0)|];
          try (exists k1; repeat split; [exact Hk1 | reflexivity ..]).
        destruct (t_sched_switch_frame k1 Hok)
          as [k2 [Hs [Hl [Hg [Hc _]]]]].
        exists k2. repeat split; [exact Hs | congruence | exact Hl | exact Hg]. }
      destruct Hres as [k2 [Hs [Hc2 [Hl2 Hg2]]]].
      destruct (IH k2) as [k' [Hr [Hc [Hl Hg]]]].
      { unfold switch_target_ok in *. rewrite Hl2, Hg2. exact Hok. }
      { intros pre post E. subst cs.
        specialize (Hb (call_resume :: pre) post eq_refl). simpl in Hb.
        lia. }
      exists k'. simpl. rewrite Hs. simpl. rewrite Hr.
      repeat split; [lia | congruence | congruence].
Qed.

(** C9, as amended: from a state with the counter at 0, along every
    sequence of suspend and resume calls in which no resume comes before its
    suspend (and fewer than 2^32 suspends are pending), the calls return and
    the counter is the number of suspends minus the number of resumes, so it
    never wraps; while it is positive [t_sched_switch] does nothing; and the
    resume that brings it back to 0 while [t_cur_num_of_ready_tasks] is
    positive calls [t_sched_switch]. *)
Theorem suspend_resume_balanced (k : kernel) (cs : list sched_call) :
  t_schedulue_suspend k = 0 ->
  switch_target_ok k ->
  balanced cs ->
  exists k',
    run_sched_calls cs k = Ok k' /\
    t_schedulue_suspend k' = suspend_depth cs /\
    0 <= suspend_depth cs /\
    (0 < suspend_depth cs -> t_sched_switch k' = Ok k') /\
    (suspend_depth cs = 1 -> t_cur_num_of_ready_tasks k' > 0 ->
     t_sched_resume k' = t_sched_switch (set_t_schedulue_suspend 0 k')).
Proof.
  intros H0 Hok Hb.
  destruct (run_sched_calls_counter cs k Hok) as [k' [Hr [Hc _]]].
  { intros pre post E. rewrite H0. apply (Hb pre post E). }
  rewrite H0 in Hc. simpl in Hc.
  exists k'. split; [exact Hr|]. split; [exact Hc|].
  split; [apply (Hb cs [] (eq_sym (app_nil_r cs)))|].
  split.
  - intros Hpos. apply t_sched_switch_suspended. lia.
  - intros H1 Hn. unfold t_sched_resume. rewrite Hc, H1. cbn.
    destruct (t_cur_num_of_ready_tasks k' >? 0) eqn:E; [reflexivity|].
    rewrite Z.gtb_ltb in E. apply Z.ltb_ge in E. lia.
Qed.

(** One suspend and its resume, after [t_tortos_init]. *)
Lemma suspend_resume_balanced_witness :
  exists k',
    run_sched_calls [call_suspend; call_resume] booted = Ok k' /\
    t_schedulue_suspend k' = 0.
Proof.
  destruct (suspend_resume_balanced booted [call_suspend; call_resume])
    as [k' [Hr [Hc _]]].
  - reflexivity.
  - intros _. exists idle_thread. reflexivity.
  - intros pre post E.
    destruct pre as [|a [|b [|c pre]]]; simpl in E.
    + simpl. lia.
    + inversion E; subst. simpl. lia.
    + inversion E; subst. simpl. lia.
    + discriminate E.
  - exists k'. split; [exact Hr | exact Hc].
Defined.

(** C9 as stated fails: a resume with no suspend before it, right after
    [t_tortos_init], takes the counter from 0 to 2^32 - 1. *)
Lemma resume_before_suspend_wraps :
  (exists k, run_sched_calls [call_resume] booted = Ok k /\
             t_schedulue_suspend k = 4294967295) /\
  ~ suspend_counter_exact [call_resume] booted.
Proof.
  split.
  - eexists. split; reflexivity.
  - intros [k [Hr Hc]].
    assert (E : run_sched_calls [call_resume] booted
                = Ok (set_t_schedulue_suspend 4294967295 booted))
      by (vm_compute; reflexivity).
    rewrite E in Hr. injection Hr as <-. cbn in Hc. discriminate.
Qed.

(** ** Timer expiry order *)

(** C2 (the code departs from it): the callbacks of the timers that expire
    in one [t_timer_check] are meant to run in list order, that is by
    expiry and, for equal expiries, in the order the timers were started.
    [timer_a] and [timer_b] are started in that order at tick 0 for
    5 ticks and sit in that order in the current list; nothing is called
    during the first four ticks, and the fifth calls the callback of
    [timer_b] before the callback of [timer_a]. *)
Theorem timers_of_one_tick_fire_in_reverse :
  returns two_timers_armed
    (fun k =>
       list_nodes 8 (g_cur_timer_list k) (g_cur_timer_list k) (lnk k)
         = [row timer_a; row timer_b] /\
       timeout_tick (timers k timer_a) = 5 /\
       timeout_tick (timers k timer_b) = 5 /\
       timeout_func (timers k timer_a) = Some (user_cb 0) /\
       timeout_func (timers k timer_b) = Some (user_cb 1)) /\
  returns (k <- two_timers_armed ;; ticks 4 8 k)
    (fun k => s_tick k = 4 /\ callbacks_called (trace k) = []) /\
  returns (k <- two_timers_armed ;; ticks 5 8 k)
    (fun k =>
       s_tick k = 5 /\
       callbacks_called (trace k) = [user_cb 1; user_cb 0]).
Proof. vm_compute. repeat split. Qed.

(** ** Semaphore release *)

(** C4 (the code departs from it): [t_sema_send] is meant to leave the
    critical section it entered on every path.  On a full semaphore, called
    with interrupts enabled, it returns T_ERR and leaves the count alone,
    but the interrupt mask stays set. *)
Theorem t_sema_send_full_leaves_interrupts_masked :
  primask full_sema = 0 /\
  ipc_status (ipcs full_sema sema1) = 1 /\
  ipc_type (ipcs full_sema sema1) = IPC_SEMA /\
  msg_waiting (ipcs full_sema sema1) = ipc_length (ipcs full_sema sema1) /\
  returns (t_sema_send (Some sema1) full_sema)
    (fun r =>
       fst r = T_ERR /\
       msg_waiting (ipcs (snd r) sema1) = msg_waiting (ipcs full_sema sema1) /\
       t_list_isempty (wait_list sema1) (lnk (snd r)) = true /\
       primask (snd r) = 1).
Proof. vm_compute. repeat split. Qed.

(** ** Re-acquisition of a mutex by its owner *)

Lemma set_primask_restore (k : kernel) :
  set_primask (primask k) (set_primask 1 k) = k.
Proof. destruct k; reflexivity. Qed.

(** The branch of [t_mutex_recv_base] taken when the caller already owns
    the mutex. *)
Lemma t_mutex_recv_base_by_owner (fuel : nat) (k : kernel) (i cur : nat)
    (timeout : Z) :
  ipc_status (ipcs k i) <> 0 ->
  msg_waiting (ipcs k i) <> 1 ->
  holder (ipcs k i) = Some cur ->
  t_current_thread k = Some cur ->
  t_mutex_recv_base fuel (Some i) timeout k =
    Ok (Done T_OK,
        t_irq_enable (primask k)
          (if t_ipc_type_eqb IPC_RECURSIVE_MUTEX (ipc_type (ipcs k i))
           then with_ipc i
                  (fun o => set_recursive (wrap16 (recursive o + 1)) o)
                  (set_primask 1 k)
           else set_primask 1 k)).
Proof.
  intros Hs Hm Hh Hc. unfold t_mutex_recv_base.
  destruct (Z.eqb_spec (ipc_status (ipcs k i)) 0) as [E|_]; [contradiction|].
  cbn.
  destruct (Z.eqb_spec (ipc_status (ipcs k i)) 0) as [E|_]; [contradiction|].
  destruct (Z.eqb_spec (msg_waiting (ipcs k i)) 1) as [E|_]; [contradiction|].
  rewrite Hh, Hc. cbn. rewrite Nat.eqb_refl.
  destruct (t_ipc_type_eqb IPC_RECURSIVE_MUTEX (ipc_type (ipcs k i)));
    reflexivity.
Qed.

(** C7, as amended: when the calling thread already owns the mutex,
    [t_mutex_recv_base] returns T_OK for both kinds.  For a non-recursive
    mutex the whole kernel state, so the owner, the recursion count and
    [msg_waiting], is left as it was; for a recursive mutex the recursion
    count is incremented and the owner and [msg_waiting] are left as they
    were. *)
Theorem owner_reacquire_returns_ok (fuel : nat) (k : kernel) (i cur : nat)
    (timeout : Z) :
  ipc_status (ipcs k i) <> 0 ->
  msg_waiting (ipcs k i) = 0 ->
  holder (ipcs k i) = Some cur ->
  t_current_thread k = Some cur ->
  (ipc_type (ipcs k i) = IPC_MUTEX ->
   t_mutex_recv_base fuel (Some i) timeout k = Ok (Done T_OK, k)) /\
  (ipc_type (ipcs k i) = IPC_RECURSIVE_MUTEX ->
   exists k',
     t_mutex_recv_base fuel (Some i) timeout k = Ok (Done T_OK, k') /\
     holder (ipcs k' i) = Some cur /\
     msg_waiting (ipcs k' i) = 0 /\
     recursive (ipcs k' i) = wrap16 (recursive (ipcs k i) + 1)).
Proof.
  intros Hs Hm Hh Hc.
  assert (Hm1 : msg_waiting (ipcs k i) <> 1) by (rewrite Hm; discriminate).
  rewrite (t_mutex_recv_base_by_owner fuel k i cur timeout Hs Hm1 Hh Hc).
  split; intros Ht; rewrite Ht; cbn.
  - unfold t_irq_enable. rewrite set_primask_restore. reflexivity.
  - eexists. split; [reflexivity|]. cbn. rewrite !upd_same. cbn.
    repeat split; assumption.
Qed.

(** The idle thread holds a non-recursive mutex and asks for it again. *)
Lemma owner_reacquire_returns_ok_witness :
  t_mutex_recv_base 8 (Some mutex1) 0 (holding IPC_MUTEX)
  = Ok (Done T_OK, holding IPC_MUTEX).
Proof.
  apply (owner_reacquire_returns_ok 8 (holding IPC_MUTEX) mutex1 idle_thread 0).
  - vm_compute. discriminate.
  - reflexivity.
  - reflexivity.
  - reflexivity.
  - reflexivity.
Defined.

(** C7 as stated fails: the owner of a non-recursive mutex asks for it again
    and gets T_OK, not an error. *)
Lemma nonrecursive_owner_reacquire_is_not_an_error :
  returns (mutex_held IPC_MUTEX)
    (fun k =>
       ipc_type (ipcs k mutex1) = IPC_MUTEX /\
       holder (ipcs k mutex1) = t_current_thread k /\
       t_current_thread k = Some idle_thread) /\
  returns (k <- mutex_held IPC_MUTEX ;; t_mutex_recv_base 8 (Some mutex1) 0 k)
    (fun r => fst r = Done T_OK) /\
  ~ returns
      (k <- mutex_held IPC_MUTEX ;; t_mutex_recv_base 8 (Some mutex1) 0 k)
      (fun r => fst r <> Done T_OK).
Proof.
  split; [vm_compute; repeat split|].
  split; [vm_compute; reflexivity|].
  vm_compute. intros H. apply H. reflexivity.
Qed.

(** ** Recursion depth *)

(** [n] re-acquisitions of a recursive mutex by its owner add [n] to the
    recursion count, modulo 2^16. *)
Lemma acquire_again_counts (i cur : nat) (n : nat) :
  forall k,
    ipc_status (ipcs k i) <> 0 ->
    msg_waiting (ipcs k i) = 0 ->
    holder (ipcs k i) = Some cur ->
    t_current_thread k = Some cur ->
    ipc_type (ipcs k i) = IPC_RECURSIVE_MUTEX ->
    0 <= recursive (ipcs k i) < 2 ^ 16 ->
    returns (acquire_again n i k)
      (fun k' =>
         recursive (ipcs k' i)
           = wrap16 (recursive (ipcs k i) + Z.of_nat n) /\
         holder (ipcs k' i) = Some cur).
Proof.
  induction n as [|n IH]; intros k Hs Hm Hh Hc Ht Hr.
  - simpl. rewrite Z.add_0_r, wrap16_small by exact Hr. auto.
  - assert (Hm1 : msg_waiting (ipcs k i) <> 1) by (rewrite Hm; discriminate).
    cbn [acquire_again].
    rewrite (t_mutex_recv_base_by_owner 8 k i cur 0 Hs Hm1 Hh Hc).
    rewrite Ht. cbn [bind snd t_ipc_type_eqb].
    set (k1 := t_irq_enable (primask k)
                 (with_ipc i
                    (fun o => set_recursive (wrap16 (recursive o + 1)) o)
                    (set_primask 1 k))).
    assert (E : ipcs k1 i
                = set_recursive (wrap16 (recursive (ipcs k i) + 1))
                    (ipcs k i)).
    { unfold k1. cbn. apply upd_same. }
    specialize (IH k1).
    rewrite E in IH. cbn in IH.
    assert (Hk1 : t_current_thread k1 = Some cur) by exact Hc.
    specialize (IH Hs Hm Hh Hk1 Ht).
    assert (Hw : 0 <= wrap16 (recursive (ipcs k i) + 1) < 2 ^ 16)
      by (apply Z.mod_pos_bound; lia).
    specialize (IH Hw).
    destruct (acquire_again n i k1) as [k'| |]; cbn in *; try contradiction.
    destruct IH as [IH1 IH2]. split; [|exact IH2].
    rewrite IH1. unfold wrap16.
    rewrite Zplus_mod_idemp_l. f_equal. lia.
Qed.

(** C8 (the code departs from it): the recursion depth of a recursive mutex
    is meant to saturate at MUTEX_RECURSIVE_COUNT_MAX.  The idle thread
    takes a recursive mutex (depth 1) and takes it again 255 times: the
    depth is 256, above the maximum of 255; after 65535 further
    acquisitions the 16-bit count has wrapped to 0 with the mutex still
    owned. *)
Theorem recursion_depth_is_not_saturated :
  MUTEX_RECURSIVE_COUNT_MAX = 255 /\
  returns (mutex_held IPC_RECURSIVE_MUTEX)
    (fun k =>
       recursive (ipcs k mutex1) = 1 /\
       holder (ipcs k mutex1) = Some idle_thread) /\
  returns (k <- mutex_held IPC_RECURSIVE_MUTEX ;; acquire_again 255 mutex1 k)
    (fun k =>
       recursive (ipcs k mutex1) = 256 /\
       holder (ipcs k mutex1) = Some idle_thread) /\
  returns
    (acquire_again (Z.to_nat 65535) mutex1 (holding IPC_RECURSIVE_MUTEX))
    (fun k =>
       recursive (ipcs k mutex1) = 0 /\
       holder (ipcs k mutex1) = Some idle_thread).
Proof.
  split; [reflexivity|].
  split; [vm_compute; repeat split|].
  split; [vm_compute; repeat split|].
  pose proof (acquire_again_counts mutex1 idle_thread (Z.to_nat 65535)
                (holding IPC_RECURSIVE_MUTEX)) as H.
  assert (Hs : ipc_status (ipcs (holding IPC_RECURSIVE_MUTEX) mutex1) <> 0)
    by (vm_compute; discriminate).
  assert (Hr : 0 <= recursive (ipcs (holding IPC_RECURSIVE_MUTEX) mutex1)
               < 2 ^ 16)
    by (vm_compute; split; [discriminate | reflexivity]).
  specialize (H Hs eq_refl eq_refl eq_refl eq_refl Hr).
  destruct (acquire_again (Z.to_nat 65535) mutex1
              (holding IPC_RECURSIVE_MUTEX)) as [k'| |];
    cbn [returns] in *; try contradiction.
  destruct H as [H1 H2]. split; [|exact H2].
  rewrite H1. vm_compute. reflexivity.
Qed.

(** ** Releasing a mutex *)



Lemma t_sched_switch_effect (k : kernel) :
  switch_target_ok k ->
  exists k', t_sched_switch k = Ok k' /\
             lnk k' = lnk k /\
             t_thread_ready_priority_group k'
               = t_thread_ready_priority_group k /\
             ipcs k' = ipcs k /\
             primask k' = primask k /\
             (forall u, current_priority (threads k' u)
                        = current_priority (threads k u)) /\
             (forall u, status (threads k u) = TO_THREAD_READY ->
                        status (threads k' u) = TO_THREAD_READY \/
                        status (threads k' u) = TO_THREAD_RUNNING) /\
             (t_schedulue_suspend k = 0 ->
              get_highest_ready_priority (t_thread_ready_priority_group k)
                < TO_THREAD_PRIORITY_MAX ->
              runs_highest_ready k').
Proof.
  intros Hok. unfold t_sched_switch, runs_highest_ready.
  destruct (Z.eqb_spec (t_schedulue_suspend k) 0) as [E0|E0]; cbn [negb];
    [|exists k; repeat split; auto; intros; contradiction].
  destruct (get_highest_ready_priority (t_thread_ready_priority_group k)
            >=? TO_THREAD_PRIORITY_MAX) eqn:Hhp.
  { exists k. repeat split; auto. intros _ Hlt.
    rewrite Z.geb_leb in Hhp. apply Z.leb_le in Hhp. lia. }
  rewrite Z.geb_leb in Hhp. apply Z.leb_gt in Hhp.
  destruct (Hok Hhp) as [t Ht]. rewrite Ht. cbn [T_LIST_ENTRY_thread].
  destruct (option_nat_eqb (t_current_thread k) (Some t)) eqn:Hcur.
  { exists k. repeat split; auto. intros _ _. exists t.
    apply option_nat_eqb_eq in Hcur. split; assumption. }
  eexists. split; [reflexivity|].
  destruct (t_current_thread k) as [pt|];
    cbn -[get_highest_ready_priority];
    [destruct (status (threads k pt) =? TO_THREAD_RUNNING);
     cbn -[get_highest_ready_priority]|];
    (refine (conj eq_refl (conj eq_refl (conj eq_refl (conj eq_refl
               (conj _ (conj _ _))))));
     [ intros u; unfold upd; repeat (destruct (Nat.eq_dec _ _)); subst;
       cbn; reflexivity
     | intros u Hu; unfold upd; repeat (destruct (Nat.eq_dec _ _)); subst;
       cbn; auto
     | intros _ _; exists t; split; [reflexivity | exact Ht] ]).
Qed.


Lemma highest_of_lor (g pr : Z) :
  0 <= g < 2 ^ 32 -> 0 <= pr < 32 ->
  let hp := get_highest_ready_priority (Z.lor g (2 ^ pr)) in
  0 <= hp < 32 /\ (Z.testbit g hp = true \/ hp = pr) /\
  0 <= Z.lor g (2 ^ pr) < 2 ^ 32.
Proof.
  intros Hg Hpr hp.
  assert (Hnn : 0 <= Z.lor g (2 ^ pr)) by (apply Z.lor_nonneg; split; [lia | apply Z.pow_nonneg; lia]).
  assert (Hbit : Z.testbit (Z.lor g (2 ^ pr)) pr = true).
  { rewrite Z.lor_spec, Z.pow2_bits_true by lia. apply orb_true_r. }
  assert (Hpos : 0 < Z.lor g (2 ^ pr)).
  { destruct (Z.eq_dec (Z.lor g (2 ^ pr)) 0) as [E|E]; [|lia].
    rewrite E in Hbit. rewrite Z.bits_0 in Hbit. discriminate. }
  assert (Hlog : 0 <= Z.log2 (Z.lor g (2 ^ pr)) < 32).
  { split; [apply Z.log2_nonneg|].
    rewrite Z.log2_lor by (try lia; apply Z.pow_nonneg; lia).
    rewrite Z.log2_pow2 by lia.
    apply Z.max_lub_lt; [|lia].
    destruct (Z.eq_dec g 0) as [->|Hg0]; [reflexivity|].
    apply Z.log2_lt_pow2; lia. }
  assert (Hhp : hp = Z.log2 (Z.lor g (2 ^ pr))).
  { unfold hp, get_highest_ready_priority, __t_fls. simpl.
    destruct (Z.eqb_spec (Z.lor g (2 ^ pr)) 0) as [E|_]; [lia|].
    replace (Z.log2 (Z.lor g (2 ^ pr)) + 1 - 1) with (Z.log2 (Z.lor g (2 ^ pr))) by lia.
    apply wrap32_small. lia. }
  split; [rewrite Hhp; exact Hlog|]. split.
  - assert (Hb : Z.testbit (Z.lor g (2 ^ pr)) hp = true)
      by (rewrite Hhp; apply Z.bit_log2; exact Hpos).
    rewrite Z.lor_spec in Hb. apply orb_true_iff in Hb.
    destruct Hb as [Hb|Hb]; [left; exact Hb|right].
    rewrite Z.pow2_bits_eqb in Hb by lia. apply Z.eqb_eq in Hb. lia.
  - split; [exact Hnn|]. apply Z.log2_lt_pow2; lia.
Qed.
Lemma t_list_delete_next_other (d x : node) (h : links) :
  x <> d -> x <> prev h d -> next (t_list_delete d h) x = next h x.
Proof.
  intros Hd Hp. unfold t_list_delete. cbn.
  rewrite upd_other by exact Hd.
  rewrite upd_other; [reflexivity|].
  unfold upd. destruct (node_eq_dec d (next h d)); exact Hp.
Qed.

Lemma t_list_delete_prev_other (d x : node) (h : links) :
  x <> d -> x <> next h d -> prev (t_list_delete d h) x = prev h x.
Proof.
  intros Hd Hn. unfold t_list_delete. cbn.
  rewrite upd_other by exact Hd.
  rewrite upd_other by exact Hn. reflexivity.
Qed.

Lemma t_list_insert_before_next_other (l n x : node) (h : links) :
  x <> n ->
  next (t_list_insert_before l n h) x
  = if node_eq_dec x (prev h l) then n else next h x.
Proof.
  intros Hn. unfold t_list_insert_before. cbn.
  rewrite upd_other by exact Hn. reflexivity.
Qed.


Lemma woken_ok (k : kernel) (i cur th : nat) :
  ready_lists_ok k ->
  next (lnk k) (wait_list i) = tlist th ->
  head_waiter_ok k i cur th ->
  switch_target_ok (woken th k) /\
  get_highest_ready_priority (t_thread_ready_priority_group (woken th k))
    < TO_THREAD_PRIORITY_MAX /\
  ready_bit (current_priority (threads k th)) (woken th k) = true /\
  prev (lnk (woken th k)) (ready_list (current_priority (threads k th)))
    = tlist th /\
  next (lnk (woken th k)) (tlist th)
    = ready_list (current_priority (threads k th)) /\
  status (threads (woken th k) th) = TO_THREAD_READY /\
  (forall u, current_priority (threads (woken th k) u)
             = current_priority (threads k u)) /\
  ipcs (woken th k) = ipcs k /\
  t_schedulue_suspend (woken th k) = t_schedulue_suspend k /\
  t_current_thread (woken th k) = t_current_thread k.
Proof.
  intros [Hg Hrl] Hhead (Hne & Hprev & Hnext & Hpr & Hmask).
  set (pr := current_priority (threads k th)) in *.
  unfold TO_THREAD_PRIORITY_MAX in *.
  destruct (highest_of_lor (t_thread_ready_priority_group k) pr Hg Hpr)
    as (Hhp & Hsrc & Hrange).
  unfold woken, t_sched_insert_thread, switch_target_ok, ready_bit.
  cbn -[get_highest_ready_priority t_list_delete t_list_insert_before Z.pow].
  rewrite !upd_same.
  cbn -[get_highest_ready_priority t_list_delete t_list_insert_before Z.pow].
  fold pr. rewrite Hmask. fold pr.
  refine (conj _ (conj (proj2 Hhp) (conj _ (conj _ (conj _ (conj eq_refl
           (conj _ (conj eq_refl (conj eq_refl eq_refl))))))))).
  - intros _.
    set (hp := get_highest_ready_priority
                 (Z.lor (t_thread_ready_priority_group k) (2 ^ pr))) in *.
    rewrite t_list_insert_before_next_other by discriminate.
    destruct (node_eq_dec (ready_list hp)
                (prev (t_list_delete (tlist th) (lnk k)) (ready_list pr)))
      as [E|E]; [exists th; reflexivity|].
    rewrite t_list_delete_next_other
      by (try discriminate; rewrite Hprev; discriminate).
    assert (Hkeep : prev (t_list_delete (tlist th) (lnk k)) (ready_list pr)
                    = prev (lnk k) (ready_list pr)).
    { apply t_list_delete_prev_other; [discriminate|].
      destruct Hnext as [Hn|[u Hn]]; rewrite Hn; discriminate. }
    rewrite Hkeep in E.
    destruct (Z.testbit (t_thread_ready_priority_group k) hp) eqn:Hb.
    + apply (proj1 (Hrl hp Hhp)). exact Hb.
    + destruct Hsrc as [Hs|Hs]; [discriminate|].
      exfalso. apply E. rewrite Hs.
      symmetry. apply (proj2 (Hrl pr Hpr)). unfold ready_bit.
      rewrite <- Hs. exact Hb.
  - rewrite Z.lor_spec, Z.pow2_bits_true by lia. apply orb_true_r.
  - apply t_list_insert_before_prev.
  - apply t_list_insert_before_next.
  - intros u. unfold upd. destruct (Nat.eq_dec u th); subst; reflexivity.
Qed.

Lemma ready_lists_ok_ext (k k2 : kernel) :
  lnk k2 = lnk k ->
  t_thread_ready_priority_group k2 = t_thread_ready_priority_group k ->
  ready_lists_ok k -> ready_lists_ok k2.
Proof.
  intros Hl Hg H. unfold ready_lists_ok, ready_bit in *.
  rewrite Hl, Hg. exact H.
Qed.

Lemma wait_list_ok_ext (k k2 : kernel) (i cur : nat) :
  lnk k2 = lnk k ->
  (forall u, u <> cur -> threads k2 u = threads k u) ->
  wait_list_ok k i cur -> wait_list_ok k2 i cur.
Proof.
  intros Hl Ht [H|[th [Hh Hw]]]; unfold wait_list_ok; rewrite Hl;
    [left; exact H|].
  right. exists th. split; [exact Hh|].
  unfold head_waiter_ok in *. rewrite Hl.
  destruct Hw as (Hne & Hw). rewrite (Ht th Hne). split; assumption.
Qed.

Lemma wake_first_waiter_empty (k : kernel) (i : nat) :
  next (lnk k) (wait_list i) = wait_list i ->
  wake_first_waiter i k = Ok (false, k).
Proof.
  intros H. unfold wake_first_waiter, t_list_isempty. rewrite H.
  destruct (node_eq_dec (wait_list i) (wait_list i)); [reflexivity|].
  contradiction.
Qed.

Lemma wake_first_waiter_head (k : kernel) (i th : nat) :
  next (lnk k) (wait_list i) = tlist th ->
  wake_first_waiter i k = Ok (true, woken th k).
Proof.
  intros H. unfold wake_first_waiter, t_list_isempty. rewrite H.
  destruct (node_eq_dec (tlist th) (wait_list i)); [discriminate|].
  reflexivity.
Qed.

(** [t_sched_switch] right after the critical section is left. *)
Lemma t_sched_switch_after_enable (kw : kernel) (level : Z) :
  switch_target_ok kw ->
  exists k', t_sched_switch (t_irq_enable level kw) = Ok k' /\
             lnk k' = lnk kw /\
             t_thread_ready_priority_group k'
               = t_thread_ready_priority_group kw /\
             ipcs k' = ipcs kw /\
             primask k' = level /\
             (forall u, current_priority (threads k' u)
                        = current_priority (threads kw u)) /\
             (forall u, status (threads kw u) = TO_THREAD_READY ->
                        status (threads k' u) = TO_THREAD_READY \/
                        status (threads k' u) = TO_THREAD_RUNNING) /\
             (t_schedulue_suspend kw = 0 ->
              get_highest_ready_priority (t_thread_ready_priority_group kw)
                < TO_THREAD_PRIORITY_MAX ->
              runs_highest_ready k').
Proof.
  intros Hok. exact (t_sched_switch_effect (t_irq_enable level kw) Hok).
Qed.

(** The end of every release path: wake the first waiter, leave the
    critical section, switch if somebody was woken. *)
Lemma release_tail (k : kernel) (i cur : nat) (level : Z) :
  ready_lists_ok k ->
  wait_list_ok k i cur ->
  exists k',
    (w <- wake_first_waiter i k ;;
     let '(need_schedule, k) := w in
     let k := t_irq_enable level k in
     k <- (if need_schedule then t_sched_switch k else Ok k) ;;
     Ok (T_OK, k)) = Ok (T_OK, k') /\
    ipcs k' = ipcs k /\
    primask k' = level /\
    (forall u, current_priority (threads k' u)
               = current_priority (threads k u)) /\
    (t_list_isempty (wait_list i) (lnk k) = true ->
     lnk k' = lnk k /\ t_current_thread k' = t_current_thread k /\
     trace k' = trace k) /\
    (forall th, next (lnk k) (wait_list i) = tlist th ->
       (status (threads k' th) = TO_THREAD_READY \/
        status (threads k' th) = TO_THREAD_RUNNING) /\
       ready_bit (current_priority (threads k th)) k' = true /\
       prev (lnk k') (ready_list (current_priority (threads k th)))
         = tlist th /\
       next (lnk k') (tlist th)
         = ready_list (current_priority (threads k th)) /\
       (t_schedulue_suspend k = 0 -> runs_highest_ready k')).
Proof.
  intros Hrl [Hempty|[th [Hhead Hw]]].
  - rewrite (wake_first_waiter_empty k i Hempty).
    exists (t_irq_enable level k).
    split; [reflexivity|]. split; [reflexivity|]. split; [reflexivity|].
    split; [reflexivity|]. split; [intros _; repeat split|].
    intros th0 Hth. rewrite Hth in Hempty. discriminate.
  - rewrite (wake_first_waiter_head k i th Hhead).
    assert (Hemp : t_list_isempty (wait_list i) (lnk k) = false).
    { unfold t_list_isempty. rewrite Hhead.
      destruct (node_eq_dec (tlist th) (wait_list i)); [discriminate|].
      reflexivity. }
    rewrite Hemp.
    pose proof (woken_ok k i cur th Hrl Hhead Hw) as H.
    generalize dependent (woken th k). intros kw H.
    destruct H
      as (Hok & Hhp & Hbit & Hp & Hn & Hst & Hprio & Hipc & Hsus & Hcur).
    destruct (t_sched_switch_after_enable kw level Hok)
      as (k' & Hsw & Hl' & Hg' & Hi' & Hm' & Hpr' & Hst' & Hrun').
    exists k'. split; [cbn [bind]; rewrite Hsw; reflexivity|].
    split; [rewrite Hi'; exact Hipc|].
    split; [exact Hm'|].
    split; [intros u; rewrite Hpr'; apply Hprio|].
    split; [discriminate|].
    intros th' Hth'. rewrite Hhead in Hth'. inversion Hth'; subst th'.
    split; [apply Hst'; exact Hst|].
    unfold ready_bit. rewrite Hg', Hl'.
    split; [exact Hbit|]. split; [exact Hp|]. split; [exact Hn|].
    intros Hz. apply Hrun'; [rewrite <- Hz; exact Hsus | exact Hhp].
Qed.

Lemma release_finish (k k2 : kernel) (i cur : nat) (p level : Z) :
  lnk k2 = lnk k ->
  t_thread_ready_priority_group k2 = t_thread_ready_priority_group k ->
  t_schedulue_suspend k2 = t_schedulue_suspend k ->
  t_current_thread k2 = Some cur ->
  trace k2 = trace k ->
  (forall u, u <> cur -> threads k2 u = threads k u) ->
  holder (ipcs k2 i) = None ->
  msg_waiting (ipcs k2 i) = 1 ->
  current_priority (threads k2 cur) = p ->
  ready_lists_ok k ->
  wait_list_ok k i cur ->
  exists k',
    (w <- wake_first_waiter i k2 ;;
     let '(need_schedule, k) := w in
     let k := t_irq_enable level k in
     k <- (if need_schedule then t_sched_switch k else Ok k) ;;
     Ok (T_OK, k)) = Ok (T_OK, k') /\
    holder (ipcs k' i) = None /\
    msg_waiting (ipcs k' i) = 1 /\
    current_priority (threads k' cur) = p /\
    primask k' = level /\
    (t_list_isempty (wait_list i) (lnk k) = true ->
     lnk k' = lnk k /\ t_current_thread k' = Some cur /\
     trace k' = trace k) /\
    (forall th, next (lnk k) (wait_list i) = tlist th ->
       (status (threads k' th) = TO_THREAD_READY \/
        status (threads k' th) = TO_THREAD_RUNNING) /\
       ready_bit (current_priority (threads k th)) k' = true /\
       prev (lnk k') (ready_list (current_priority (threads k th)))
         = tlist th /\
       next (lnk k') (tlist th)
         = ready_list (current_priority (threads k th)) /\
       (t_schedulue_suspend k = 0 -> runs_highest_ready k')).
Proof.
  intros Hl Hg Hsus Hcur Htr Hth Hh Hm Hp Hrl Hwl.
  destruct (release_tail k2 i cur level) as (k' & Hrun & Hi & Hpm & Hpr & He & Hw).
  { apply (ready_lists_ok_ext k k2); assumption. }
  { apply (wait_list_ok_ext k k2); assumption. }
  exists k'. split; [exact Hrun|].
  rewrite Hi. split; [exact Hh|]. split; [exact Hm|].
  split; [rewrite Hpr; exact Hp|]. split; [exact Hpm|].
  rewrite Hl, Hsus in *. split.
  - intros Hemp. destruct (He Hemp) as (H1 & H2 & H3).
    rewrite H1, H2, H3. auto.
  - intros th Hhead. destruct (Hw th Hhead) as (H1 & H2 & H3 & H4 & H5).
    assert (Hne : th <> cur).
    { destruct Hwl as [Hemp|[th' [Hh' Hok]]].
      - rewrite Hemp in Hhead. discriminate.
      - rewrite Hh' in Hhead. inversion Hhead; subst th'. apply Hok. }
    rewrite (Hth th Hne) in *. auto.
Qed.

(** The acquisition that [t_mutex_send_base] undoes: on an available mutex
    [t_mutex_recv_base] makes the caller the owner with recursion depth 1
    and saves the caller's current priority as the restore target. *)
Lemma t_mutex_recv_base_acquire (fuel : nat) (k : kernel) (i cur : nat)
    (timeout : Z) :
  ipc_status (ipcs k i) <> 0 ->
  msg_waiting (ipcs k i) = 1 ->
  t_current_thread k = Some cur ->
  exists k',
    t_mutex_recv_base fuel (Some i) timeout k = Ok (Done T_OK, k') /\
    holder (ipcs k' i) = Some cur /\
    recursive (ipcs k' i) = 1 /\
    msg_waiting (ipcs k' i) = 0 /\
    original_prio (ipcs k' i) = current_priority (threads k cur).
Proof.
  intros Hs Hm Hc. unfold t_mutex_recv_base.
  destruct (Z.eqb_spec (ipc_status (ipcs k i)) 0) as [E|_];
    [contradiction|].
  cbn.
  destruct (Z.eqb_spec (ipc_status (ipcs k i)) 0) as [E|_];
    [contradiction|].
  rewrite Hm, Hc. cbn.
  eexists. split; [reflexivity|].
  cbn. rewrite !upd_same. cbn. repeat split.
Qed.

(** A boost by a contender leaves a recorded restore target alone. *)
Lemma inherit_priority_keeps_restore_target (k : kernel) (i c : nat) :
  original_prio (ipcs k i) <> DUMMY_PRIORITY ->
  ipcs (inherit_priority i c k) = ipcs k.
Proof.
  intros Hd. unfold inherit_priority.
  destruct (holder (ipcs k i)) as [h|]; [|reflexivity].
  destruct (if TO_LOWER_PRIORITY_NUM_HIGHER_PRIORITY
            then current_priority (threads k c)
                 <? current_priority (threads k h)
            else current_priority (threads k c)
                 >? current_priority (threads k h)); [|reflexivity].
  destruct (Z.eqb_spec DUMMY_PRIORITY (original_prio (ipcs k i))) as [E|_];
    [symmetry in E; contradiction|].
  reflexivity.
Qed.

Lemma ready_lists_okb_spec (k : kernel) :
  ready_lists_okb k = true -> ready_lists_ok k.
Proof.
  unfold ready_lists_okb, ready_lists_ok. intros H.
  apply andb_true_iff in H. destruct H as [H Hall].
  apply andb_true_iff in H. destruct H as [H0 H1].
  apply Z.leb_le in H0. apply Z.ltb_lt in H1.
  split; [split; assumption|].
  intros p Hp. rewrite forallb_forall in Hall.
  specialize (Hall (Z.to_nat p)). cbv zeta in Hall.
  rewrite Z2Nat.id in Hall by lia.
  assert (Hin : In (Z.to_nat p) (seq 0 (Z.to_nat TO_THREAD_PRIORITY_MAX))).
  { apply in_seq. unfold TO_THREAD_PRIORITY_MAX in *. lia. }
  specialize (Hall Hin).
  destruct (ready_bit p k); split; intros Hb; try discriminate.
  - destruct (next (lnk k) (ready_list p)) as [| | | | | |t|];
      try discriminate.
    exists t. reflexivity.
  - apply andb_true_iff in Hall. destruct Hall as [Ha Hb'].
    destruct (node_eq_dec (next (lnk k) (ready_list p)) (ready_list p));
      [|discriminate].
    destruct (node_eq_dec (prev (lnk k) (ready_list p)) (ready_list p));
      [|discriminate].
    split; assumption.
Qed.

(** C6: when the calling thread owns the mutex (plain or recursive) with
    recursion depth 1 and a restore target [p] is recorded for it (the
    priority [t_mutex_recv_base] saved at acquisition, see
    [t_mutex_recv_base_acquire]), [t_mutex_send_base] returns T_OK; after
    it the mutex has no owner, [msg_waiting] is 1 and the caller's current
    priority is [p], whatever a boost had made of it; interrupts are as
    before.  With an empty wait list nothing else changes.  Otherwise the
    first waiter is READY (or RUNNING, if it was switched to), its bit is
    set and it is last in its ready list, and [t_sched_switch] has run:
    unless the scheduler is suspended the running thread is the head of the
    highest-priority ready list. *)
Theorem mutex_release_outermost (k : kernel) (i cur : nat) (p : Z) :
  ipc_status (ipcs k i) <> 0 ->
  ipc_type (ipcs k i) = IPC_MUTEX \/
  ipc_type (ipcs k i) = IPC_RECURSIVE_MUTEX ->
  t_current_thread k = Some cur ->
  holder (ipcs k i) = Some cur ->
  recursive (ipcs k i) = 1 ->
  original_prio (ipcs k i) = p ->
  0 <= p < TO_THREAD_PRIORITY_MAX ->
  ready_lists_ok k ->
  wait_list_ok k i cur ->
  exists k',
    t_mutex_send_base (Some i) k = Ok (T_OK, k') /\
    holder (ipcs k' i) = None /\
    msg_waiting (ipcs k' i) = 1 /\
    current_priority (threads k' cur) = p /\
    primask k' = primask k /\
    (t_list_isempty (wait_list i) (lnk k) = true ->
     lnk k' = lnk k /\ t_current_thread k' = Some cur /\
     trace k' = trace k) /\
    (forall th, next (lnk k) (wait_list i) = tlist th ->
       (status (threads k' th) = TO_THREAD_READY \/
        status (threads k' th) = TO_THREAD_RUNNING) /\
       ready_bit (current_priority (threads k th)) k' = true /\
       prev (lnk k') (ready_list (current_priority (threads k th)))
         = tlist th /\
       next (lnk k') (tlist th)
         = ready_list (current_priority (threads k th)) /\
       (t_schedulue_suspend k = 0 -> runs_highest_ready k')).
Proof.
  intros Hs Ht Hc Hh Hr Ho Hp Hrl Hwl.
  assert (Hdummy : (p =? DUMMY_PRIORITY) = false).
  { apply Z.eqb_neq. unfold DUMMY_PRIORITY, TO_THREAD_PRIORITY_MAX in *. lia. }
  assert (Hw8 : wrap8 p = p).
  { apply wrap8_small. unfold TO_THREAD_PRIORITY_MAX in *. lia. }
  assert (Hq : forall x, (x =? p) = true -> x = p)
    by (intros x; apply Z.eqb_eq).
  unfold t_mutex_send_base.
  destruct (Z.eqb_spec (ipc_status (ipcs k i)) 0) as [E|_];
    [contradiction|].
  cbn.
  destruct (Z.eqb_spec (ipc_status (ipcs k i)) 0) as [E|_];
    [contradiction|].
  rewrite Hc, Hh. cbn. rewrite Nat.eqb_refl. cbn.
  destruct Ht as [Ht|Ht].
  - rewrite ?Ht. cbn. rewrite ?upd_same. cbn. rewrite ?Ht, ?Ho, ?Hdummy, ?Hc. cbn.
    specialize (Hq (current_priority (threads k cur))).
    destruct (current_priority (threads k cur) =? p); cbn [negb bind].
    + apply (release_finish k); try assumption; try reflexivity.
      * cbn; rewrite ?upd_same; reflexivity.
      * cbn; rewrite ?upd_same; reflexivity.
      * apply Hq. reflexivity.
    + apply (release_finish k); try assumption; try reflexivity.
      * intros u Hu. cbn. rewrite !upd_other by exact Hu. reflexivity.
      * cbn; rewrite ?upd_same; reflexivity.
      * cbn; rewrite ?upd_same; reflexivity.
      * cbn. rewrite !upd_same. cbn. exact Hw8.
  - do 4 (cbn; rewrite ?upd_same, ?Ht, ?Hr, ?Ho, ?Hdummy, ?Hc).
    specialize (Hq (current_priority (threads k cur))).
    destruct (current_priority (threads k cur) =? p); cbn [negb bind].
    + apply (release_finish k); try assumption; try reflexivity.
      * cbn; rewrite ?upd_same; reflexivity.
      * cbn; rewrite ?upd_same; reflexivity.
      * apply Hq. reflexivity.
    + apply (release_finish k); try assumption; try reflexivity.
      * intros u Hu. cbn. rewrite !upd_other by exact Hu. reflexivity.
      * cbn; rewrite ?upd_same; reflexivity.
      * cbn; rewrite ?upd_same; reflexivity.
      * cbn. rewrite !upd_same. cbn. exact Hw8.
Qed.

(** [low_thread], raised to priority 5 by [high_thread] waiting for the
    mutex, releases it: it is back at priority 3 and [high_thread] runs. *)
Lemma mutex_release_outermost_witness :
  current_priority (threads (contended IPC_MUTEX) low_thread) = 5 /\
  exists k',
    t_mutex_send_base (Some mutex1) (contended IPC_MUTEX) = Ok (T_OK, k') /\
    holder (ipcs k' mutex1) = None /\
    msg_waiting (ipcs k' mutex1) = 1 /\
    current_priority (threads k' low_thread) = 3 /\
    runs_highest_ready k'.
Proof.
  split; [reflexivity|].
  destruct (mutex_release_outermost (contended IPC_MUTEX) mutex1 low_thread 3)
    as (k' & Hr & Hh & Hm & Hp & _ & _ & Hw).
  - vm_compute. discriminate.
  - left. reflexivity.
  - reflexivity.
  - reflexivity.
  - reflexivity.
  - reflexivity.
  - vm_compute. split; [discriminate | reflexivity].
  - apply ready_lists_okb_spec. vm_compute. reflexivity.
  - right. exists high_thread. split; [reflexivity|].
    unfold head_waiter_ok.
    split; [discriminate|]. split; [reflexivity|].
    split; [left; reflexivity|].
    split; [vm_compute; split; [discriminate | reflexivity]|].
    reflexivity.
  - exists k'. split; [exact Hr|]. split; [exact Hh|]. split; [exact Hm|].
    split; [exact Hp|].
    apply (Hw high_thread); reflexivity.
Defined.

(** ** The bounded queue *)

Lemma __t_memcpy_other (n : nat) :
  forall dst src m a,
    a < dst \/ dst + Z.of_nat n <= a ->
    __t_memcpy n dst src m a = m a.
Proof.
  induction n as [|n IH]; intros dst src m a Ha; [reflexivity|].
  cbn [__t_memcpy]. rewrite IH by lia.
  apply upd_other. lia.
Qed.

Lemma __t_memcpy_copied (n : nat) :
  forall dst src m j,
    src + Z.of_nat n <= dst \/ dst + Z.of_nat n <= src ->
    0 <= j < Z.of_nat n ->
    __t_memcpy n dst src m (dst + j) = m (src + j).
Proof.
  induction n as [|n IH]; intros dst src m j Hd Hj; [lia|].
  cbn [__t_memcpy].
  destruct (Z.eq_dec j 0) as [->|Hj0].
  - rewrite !Z.add_0_r. rewrite __t_memcpy_other by lia. apply upd_same.
  - replace (dst + j) with (dst + 1 + (j - 1)) by lia.
    rewrite IH by lia.
    rewrite upd_other by lia. f_equal. lia.
Qed.

Lemma item_at_length (m : Z -> Byte.byte) (addr : Z) (n : nat) :
  length (item_at m addr n) = n.
Proof. unfold item_at. rewrite length_map. apply length_seq. Qed.

Lemma item_at_ext (m m' : Z -> Byte.byte) (addr addr' : Z) (n : nat) :
  (forall j, 0 <= j < Z.of_nat n -> m (addr + j) = m' (addr' + j)) ->
  item_at m addr n = item_at m' addr' n.
Proof.
  intros H. unfold item_at. apply map_ext_in. intros j Hj.
  apply in_seq in Hj. apply H. lia.
Qed.

(** A copy between regions that do not overlap moves the item. *)
Lemma item_at_memcpy (m : Z -> Byte.byte) (dst src : Z) (n : nat) :
  src + Z.of_nat n <= dst \/ dst + Z.of_nat n <= src ->
  item_at (__t_memcpy n dst src m) dst n = item_at m src n.
Proof.
  intros Hd. apply item_at_ext. intros j Hj.
  apply __t_memcpy_copied; assumption.
Qed.

(** ... and leaves any region it does not overlap as it was. *)
Lemma item_at_memcpy_other (m : Z -> Byte.byte) (dst src a : Z) (n n' : nat) :
  a + Z.of_nat n' <= dst \/ dst + Z.of_nat n <= a ->
  item_at (__t_memcpy n dst src m) a n' = item_at m a n'.
Proof.
  intros Hd. apply item_at_ext. intros j Hj.
  apply __t_memcpy_other. lia.
Qed.

Lemma t_sched_switch_keeps_data (k k' : kernel) :
  t_sched_switch k = Ok k' -> mem k' = mem k /\ ipcs k' = ipcs k.
Proof.
  unfold t_sched_switch.
  destruct (negb (t_schedulue_suspend k =? 0));
    [intros H; inversion H; auto|].
  destruct (get_highest_ready_priority (t_thread_ready_priority_group k)
            >=? TO_THREAD_PRIORITY_MAX);
    [intros H; inversion H; auto|].
  destruct (T_LIST_ENTRY_thread _) as [t|]; [|discriminate].
  destruct (option_nat_eqb (t_current_thread k) (Some t));
    [intros H; inversion H; auto|].
  intros H. inversion H; subst k'. clear H.
  destruct (t_current_thread k) as [pt|]; cbn;
    [destruct (status (threads k pt) =? TO_THREAD_RUNNING)|]; auto.
Qed.

Lemma wake_first_waiter_keeps_data (i : nat) (k k' : kernel) (b : bool) :
  wake_first_waiter i k = Ok (b, k') -> mem k' = mem k /\ ipcs k' = ipcs k.
Proof.
  unfold wake_first_waiter.
  destruct (negb (t_list_isempty (wait_list i) (lnk k)));
    [|intros H; inversion H; auto].
  destruct (T_LIST_ENTRY_thread _) as [t|]; [|discriminate].
  match goal with
  | |- Ok (true, ?kw) = _ -> _ =>
      assert (Hm : mem kw = mem k) by reflexivity;
      assert (Hi : ipcs kw = ipcs k) by reflexivity;
      generalize dependent kw
  end.
  intros kw Hm Hi H. inversion H; subst k'. auto.
Qed.

Lemma block_current_blocks (fuel i : nat) (timeout level : Z)
    (k k' : kernel) (r : t_status_t) :
  block_current fuel i timeout level k <> Ok (Done r, k').
Proof.
  unfold block_current.
  destruct (t_current_thread k) as [cur|]; [|discriminate].
  destruct (t_ipc_suspend fuel _ _ _ k) as [[s k1]| |]; cbn [bind];
    try discriminate.
  destruct ((timeout >? 0) && negb (TO_WAITING_FOREVER =? wrap32 timeout)).
  - destruct (t_timer_ctrl _ _ _ _) as [[[s2 o2] k2]| |]; cbn [bind];
      try discriminate.
    destruct (t_timer_start _ _ _) as [[s3 k3]| |]; cbn [bind];
      try discriminate.
    destruct (t_sched_switch _) as [k4| |]; cbn [bind]; discriminate.
  - cbn [bind].
    destruct (t_sched_switch _) as [k4| |]; cbn [bind]; discriminate.
Qed.

(** What a successful [t_queue_send] did to the queue and to memory. *)
Lemma t_queue_send_ok (fuel i : nat) (data timeout level : Z)
    (k k' : kernel) :
  ipc_status (ipcs k i) <> 0 ->
  ipc_type (ipcs k i) = IPC_QUEUE ->
  t_queue_send fuel (Some i) data timeout level k = Ok (Done T_OK, k') ->
  msg_waiting (ipcs k i) < ipc_length (ipcs k i) /\
  mem k' = __t_memcpy (Z.to_nat (item_size (ipcs k i)))
             (write_to (ipcs k i)) data (mem k) /\
  ipcs k' i =
    set_msg_waiting (wrap16 (msg_waiting (ipcs k i) + 1))
      (set_write_to
         (if write_to (ipcs k i) + item_size (ipcs k i)
             >=? q_tail (ipcs k i)
          then q_head (ipcs k i)
          else write_to (ipcs k i) + item_size (ipcs k i))
         (ipcs k i)).
Proof.
  intros Hs Ht. unfold t_queue_send.
  destruct (Z.eqb_spec (ipc_status (ipcs k i)) 0) as [E|_];
    [contradiction|].
  rewrite Ht. cbn [t_ipc_type_eqb negb].
  destruct (msg_waiting (ipcs k i) <? ipc_length (ipcs k i)) eqn:Hlt.
  - apply Z.ltb_lt in Hlt.
    match goal with
    | |- bind (wake_first_waiter i ?kq) _ = _ -> _ =>
        assert (Hm : mem kq = __t_memcpy (Z.to_nat (item_size (ipcs k i)))
                           (write_to (ipcs k i)) data (mem k));
        [|assert (Hi : ipcs kq i =
            set_msg_waiting (wrap16 (msg_waiting (ipcs k i) + 1))
              (set_write_to
                 (if write_to (ipcs k i) + item_size (ipcs k i)
                     >=? q_tail (ipcs k i)
                  then q_head (ipcs k i)
                  else write_to (ipcs k i) + item_size (ipcs k i))
                 (ipcs k i)));
          [|generalize dependent kq]]
    end.
    + cbn. rewrite ?upd_same. cbn.
      destruct (_ >=? _); reflexivity.
    + cbn. rewrite ?upd_same. cbn.
      destruct (write_to (ipcs k i) + item_size (ipcs k i)
                >=? q_tail (ipcs k i)); cbn; rewrite ?upd_same; reflexivity.
    + intros kq Hm Hi.
      destruct (wake_first_waiter i kq) as [[b k1]| |] eqn:Hw;
        cbn [bind]; try discriminate.
      destruct (wake_first_waiter_keeps_data i kq k1 b Hw) as [Hm1 Hi1].
      destruct b.
      * destruct (t_sched_switch (t_irq_enable level k1)) as [k2| |] eqn:Hsw;
          cbn [bind]; try discriminate.
        destruct (t_sched_switch_keeps_data _ _ Hsw) as [Hm2 Hi2].
        intros H. inversion H; subst k'.
        rewrite Hm2, Hi2. cbn [t_irq_enable set_primask mem ipcs].
        rewrite Hm1, Hi1. auto.
      * cbn [bind]. intros H. inversion H; subst k'.
        cbn [t_irq_enable set_primask mem ipcs].
        rewrite Hm1, Hi1. auto.
  - destruct (timeout =? 0); [discriminate|].
    destruct (t_current_thread k); [|discriminate].
    intros H. exfalso. exact (block_current_blocks _ _ _ _ _ _ _ H).
Qed.

(** What a successful [t_queue_recv] did to the queue and to memory. *)
Lemma t_queue_recv_ok (fuel i : nat) (data timeout : Z) (k k' : kernel) :
  ipc_status (ipcs k i) <> 0 ->
  ipc_type (ipcs k i) = IPC_QUEUE ->
  t_queue_recv fuel (Some i) data timeout k = Ok (Done T_OK, k') ->
  0 < msg_waiting (ipcs k i) /\
  mem k' = __t_memcpy (Z.to_nat (item_size (ipcs k i))) data
             (read_from (ipcs k i)) (mem k) /\
  ipcs k' i =
    set_msg_waiting (wrap16 (msg_waiting (ipcs k i) - 1))
      (set_read_from
         (if read_from (ipcs k i) + item_size (ipcs k i)
             >=? q_tail (ipcs k i)
          then q_head (ipcs k i)
          else read_from (ipcs k i) + item_size (ipcs k i))
         (ipcs k i)).
Proof.
  intros Hs Ht. unfold t_queue_recv.
  destruct (Z.eqb_spec (ipc_status (ipcs k i)) 0) as [E|_];
    [contradiction|].
  rewrite Ht. cbn [t_ipc_type_eqb negb t_irq_disable].
  cbn [set_primask ipcs].
  destruct (Z.eqb_spec (ipc_status (ipcs k i)) 0) as [E|_];
    [contradiction|].
  destruct (msg_waiting (ipcs k i) >? 0) eqn:Hgt.
  - rewrite Z.gtb_ltb in Hgt. apply Z.ltb_lt in Hgt.
    match goal with
    | |- bind (wake_first_waiter i ?kq) _ = _ -> _ =>
        assert (Hm : mem kq = __t_memcpy (Z.to_nat (item_size (ipcs k i)))
                           data (read_from (ipcs k i)) (mem k));
        [|assert (Hi : ipcs kq i =
            set_msg_waiting (wrap16 (msg_waiting (ipcs k i) - 1))
              (set_read_from
                 (if read_from (ipcs k i) + item_size (ipcs k i)
                     >=? q_tail (ipcs k i)
                  then q_head (ipcs k i)
                  else read_from (ipcs k i) + item_size (ipcs k i))
                 (ipcs k i)));
          [|generalize dependent kq]]
    end.
    + cbn. rewrite ?upd_same. cbn.
      destruct (_ >=? _); reflexivity.
    + cbn. rewrite ?upd_same. cbn.
      destruct (read_from (ipcs k i) + item_size (ipcs k i)
                >=? q_tail (ipcs k i)); cbn; rewrite ?upd_same; reflexivity.
    + intros kq Hm Hi.
      destruct (wake_first_waiter i kq) as [[b k1]| |] eqn:Hw;
        cbn [bind snd]; try discriminate.
      destruct (wake_first_waiter_keeps_data i kq k1 b Hw) as [Hm1 Hi1].
      destruct (t_sched_switch (t_irq_enable (primask k) k1))
        as [k2| |] eqn:Hsw; cbn [bind]; try discriminate.
      destruct (t_sched_switch_keeps_data _ _ Hsw) as [Hm2 Hi2].
      intros H. inversion H; subst k'.
      rewrite Hm2, Hi2. cbn [t_irq_enable set_primask mem ipcs].
      rewrite Hm1, Hi1. auto.
  - destruct (timeout =? 0); [discriminate|].
    intros H. exfalso. exact (block_current_blocks _ _ _ _ _ _ _ H).
Qed.

(** Cursor arithmetic. *)
Lemma succ_mod (x l : Z) :
  0 < l -> (x mod l + 1) mod l = (x + 1) mod l.
Proof. intros Hl. rewrite Zplus_mod_idemp_l. reflexivity. Qed.

Lemma mod_inj_below (r a b l : Z) :
  0 <= a < b -> b < l -> (r + a) mod l <> (r + b) mod l.
Proof.
  intros Ha Hb E.
  assert (H : ((r + b) - (r + a)) mod l = 0).
  { rewrite Zminus_mod, E, Z.sub_diag. apply Z.mod_0_l. lia. }
  replace (r + b - (r + a)) with (b - a) in H by lia.
  rewrite Z.mod_small in H by lia. lia.
Qed.

(** The cell after cell [w], as the cursors compute it. *)
Lemma next_cell (o : t_ipc_t) (w : Z) :
  0 < item_size o -> 0 < ipc_length o ->
  q_tail o = slot o (ipc_length o) ->
  0 <= w < ipc_length o ->
  (if slot o w + item_size o >=? q_tail o then q_head o
   else slot o w + item_size o)
  = slot o ((w + 1) mod ipc_length o).
Proof.
  intros Hs Hl Ht Hw. rewrite Ht. unfold slot.
  destruct (Z.eq_dec (w + 1) (ipc_length o)) as [E|E].
  - rewrite E, Z.mod_same by lia.
    destruct (_ >=? _) eqn:C; [lia|].
    rewrite Z.geb_leb in C. apply Z.leb_gt in C. nia.
  - rewrite Z.mod_small by lia.
    destruct (_ >=? _) eqn:C; [|lia].
    apply Z.geb_le in C. nia.
Qed.

(** Two different cells do not overlap, and every cell is inside the
    buffer. *)
Lemma cells_disjoint (o : t_ipc_t) (a b : Z) :
  0 < item_size o -> 0 <= a -> 0 <= b -> a <> b ->
  slot o a + item_size o <= slot o b \/ slot o b + item_size o <= slot o a.
Proof. intros Hs Ha Hb Hab. unfold slot. nia. Qed.

Lemma cell_inside (o : t_ipc_t) (a : Z) :
  0 < item_size o -> 0 <= a < ipc_length o ->
  q_head o <= slot o a /\
  slot o a + item_size o <= slot o (ipc_length o).
Proof. intros Hs Ha. unfold slot. nia. Qed.

(** A successful send appends the item it was given. *)
Lemma queue_holds_send (fuel i : nat) (data timeout level : Z)
    (k k' : kernel) (q : list (list Byte.byte)) :
  queue_holds k i q ->
  outside (q_head (ipcs k i)) (q_tail (ipcs k i)) data
    (item_size (ipcs k i)) ->
  t_queue_send fuel (Some i) data timeout level k = Ok (Done T_OK, k') ->
  queue_holds k' i
    (q ++ [item_at (mem k) data (Z.to_nat (item_size (ipcs k i)))]) /\
  q_head (ipcs k' i) = q_head (ipcs k i) /\
  q_tail (ipcs k' i) = q_tail (ipcs k i) /\
  item_size (ipcs k' i) = item_size (ipcs k i) /\
  ipc_length (ipcs k' i) = ipc_length (ipcs k i).
Proof.
  unfold queue_holds. cbv zeta.
  intros (Ht & Hs & Hsz & Hl & Htl & Hmw & Hle & r & Hr & Hrf & Hwt & Hit)
         Hout Hsend.
  destruct (t_queue_send_ok fuel i data timeout level k k' Hs Ht Hsend)
    as (Hlt & Hm & Hi).
  set (o := ipcs k i) in *.
  set (n := Z.of_nat (length q)) in *.
  assert (Hw : 0 <= (r + n) mod ipc_length o < ipc_length o) by (apply Z.mod_pos_bound; lia).
  rewrite Hwt in Hi.
  rewrite (next_cell o ((r + n) mod ipc_length o) Hsz (proj1 Hl) Htl Hw) in Hi.
  rewrite succ_mod in Hi by lia.
  rewrite Hi. cbn [ipc_type ipc_status item_size ipc_length q_tail q_head
                   msg_waiting read_from write_to set_msg_waiting
                   set_write_to].
  rewrite length_app. cbn [length].
  replace (Z.of_nat (length q + 1)) with (n + 1) by (unfold n; lia).
  assert (Hslot : forall j,
            slot (set_msg_waiting (wrap16 (msg_waiting o + 1))
                    (set_write_to (slot o ((r + n + 1) mod ipc_length o)) o)) j
            = slot o j) by reflexivity.
  rewrite Hmw in Hlt.
  split; [|auto].
  split; [exact Ht|]. split; [exact Hs|]. split; [exact Hsz|].
  split; [exact Hl|]. split; [rewrite Hslot; exact Htl|].
  split; [rewrite Hmw; apply wrap16_small; lia|]. split; [lia|].
  exists r. split; [exact Hr|]. split; [rewrite Hslot; exact Hrf|].
  split; [rewrite Hslot; f_equal; f_equal; lia|].
  intros j Hj. rewrite Hslot, Hm, Hwt.
  destruct (Nat.eq_dec j (length q)) as [->|Hne].
  - rewrite nth_middle. fold n.
    apply item_at_memcpy.
    destruct (cell_inside o ((r + n) mod ipc_length o) Hsz Hw) as [H1 H2].
    rewrite <- Htl in H2. rewrite Z2Nat.id by lia.
    unfold outside in Hout. lia.
  - assert (Hjn : (j < length q)%nat) by lia.
    rewrite app_nth1 by exact Hjn. rewrite <- (Hit j Hjn).
    apply item_at_memcpy_other. rewrite Z2Nat.id by lia.
    apply cells_disjoint; try assumption.
    + apply Z.mod_pos_bound; lia.
    + lia.
    + apply mod_inj_below; unfold n; lia.
Qed.

(** A successful receive takes the oldest item and delivers it at
    [data]. *)
Lemma queue_holds_recv (fuel i : nat) (data timeout : Z) (k k' : kernel)
    (q : list (list Byte.byte)) :
  queue_holds k i q ->
  outside (q_head (ipcs k i)) (q_tail (ipcs k i)) data
    (item_size (ipcs k i)) ->
  t_queue_recv fuel (Some i) data timeout k = Ok (Done T_OK, k') ->
  exists x q',
    q = x :: q' /\
    item_at (mem k') data (Z.to_nat (item_size (ipcs k i))) = x /\
    queue_holds k' i q' /\
    q_head (ipcs k' i) = q_head (ipcs k i) /\
    q_tail (ipcs k' i) = q_tail (ipcs k i) /\
    item_size (ipcs k' i) = item_size (ipcs k i) /\
    ipc_length (ipcs k' i) = ipc_length (ipcs k i).
Proof.
  unfold queue_holds. cbv zeta.
  intros (Ht & Hs & Hsz & Hl & Htl & Hmw & Hle & r & Hr & Hrf & Hwt & Hit)
         Hout Hrecv.
  destruct (t_queue_recv_ok fuel i data timeout k k' Hs Ht Hrecv)
    as (Hgt & Hm & Hi).
  set (o := ipcs k i) in *.
  destruct q as [|x q']; [cbn in Hmw; lia|].
  exists x, q'. split; [reflexivity|].
  cbn [length] in *.
  set (n := Z.of_nat (length q')) in *.
  assert (Hn : Z.of_nat (S (length q')) = n + 1) by (unfold n; lia).
  rewrite Hn in *.
  destruct (cell_inside o r Hsz Hr) as [Hin1 Hin2]. rewrite <- Htl in Hin2.
  assert (Hfirst : item_at (mem k') data (Z.to_nat (item_size o)) = x).
  { rewrite Hm, Hrf.
    rewrite item_at_memcpy
      by (rewrite Z2Nat.id by lia; unfold outside in Hout; lia).
    specialize (Hit 0%nat ltac:(lia)). cbn [nth] in Hit.
    rewrite <- Hit. f_equal. f_equal.
    rewrite Z.add_0_r. symmetry. apply Z.mod_small. exact Hr. }
  split; [exact Hfirst|].
  rewrite Hrf in Hi.
  rewrite (next_cell o r Hsz (proj1 Hl) Htl Hr) in Hi.
  rewrite Hi. cbn [ipc_type ipc_status item_size ipc_length q_tail q_head
                   msg_waiting read_from write_to set_msg_waiting
                   set_read_from].
  assert (Hslot : forall j,
            slot (set_msg_waiting (wrap16 (msg_waiting o - 1))
                    (set_read_from (slot o ((r + 1) mod ipc_length o)) o)) j
            = slot o j) by reflexivity.
  split; [|auto].
  split; [exact Ht|]. split; [exact Hs|]. split; [exact Hsz|].
  split; [exact Hl|]. split; [rewrite Hslot; exact Htl|].
  split; [rewrite Hmw; replace (n + 1 - 1) with n by lia;
          apply wrap16_small; lia|].
  split; [lia|].
  exists ((r + 1) mod ipc_length o).
  split; [apply Z.mod_pos_bound; lia|].
  split; [rewrite Hslot; reflexivity|].
  split.
  { rewrite Hslot, Hwt. f_equal. rewrite Zplus_mod_idemp_l.
    f_equal. lia. }
  intros j Hj. rewrite Hslot, Hm.
  rewrite Zplus_mod_idemp_l.
  replace (r + 1 + Z.of_nat j) with (r + Z.of_nat (S j)) by lia.
  etransitivity; [|exact (Hit (S j) ltac:(lia))].
  apply item_at_memcpy_other. rewrite Z2Nat.id by lia.
  assert (Hc : 0 <= (r + Z.of_nat (S j)) mod ipc_length o < ipc_length o)
    by (apply Z.mod_pos_bound; lia).
  destruct (cell_inside o _ Hsz Hc) as [H1 H2]. rewrite <- Htl in H2.
  unfold outside in Hout. lia.
Qed.

(** A write outside the buffer leaves the queue as it is. *)
Lemma queue_holds_write (i : nat) (addr : Z) (b : Byte.byte) (k : kernel)
    (q : list (list Byte.byte)) :
  queue_holds k i q ->
  outside (q_head (ipcs k i)) (q_tail (ipcs k i)) addr 1 ->
  queue_holds (set_mem (upd Z.eq_dec (mem k) addr b) k) i q.
Proof.
  unfold queue_holds. cbv zeta. cbn [ipcs set_mem mem].
  intros (Ht & Hs & Hsz & Hl & Htl & Hmw & Hle & r & Hr & Hrf & Hwt & Hit)
         Hout.
  repeat (split; [assumption|]).
  exists r. repeat (split; [assumption|]).
  intros j Hj. rewrite <- (Hit j Hj).
  apply item_at_ext. intros d Hd. apply upd_other.
  assert (Hc : 0 <= (r + Z.of_nat j) mod ipc_length (ipcs k i)
               < ipc_length (ipcs k i))
    by (apply Z.mod_pos_bound; lia).
  destruct (cell_inside (ipcs k i) _ Hsz Hc) as [H1 H2].
  rewrite <- Htl in H2. rewrite Z2Nat.id in Hd by lia.
  unfold outside in Hout. lia.
Qed.

(** The items in the queue at the start followed by the items sent are the
    items received followed by the items left in the queue. *)
Lemma run_queue_calls_fifo (fuel i : nat) (lo hi size : Z)
    (cs : list queue_call) :
  forall k q sent received k',
    queue_holds k i q ->
    q_head (ipcs k i) = lo -> q_tail (ipcs k i) = hi ->
    item_size (ipcs k i) = size ->
    Forall (call_outside lo hi size) cs ->
    run_queue_calls fuel i cs k = Some (sent, received, k') ->
    exists q',
      queue_holds k' i q' /\ q ++ sent = received ++ q' /\
      Forall (fun x => length x = Z.to_nat size) sent /\
      ipc_length (ipcs k' i) = ipc_length (ipcs k i).
Proof.
  induction cs as [|c cs IH]; intros k q sent received k' Hq Hlo Hhi Hsz Hout
    Hrun.
  - cbn in Hrun. inversion Hrun; subst. exists q.
    rewrite app_nil_r. auto.
  - inversion Hout as [|c' cs' Hc Hcs]; subst c' cs'.
    destruct c as [data timeout level|data timeout|addr b];
      cbn [run_queue_calls call_outside] in Hrun, Hc.
    + destruct (t_queue_send fuel (Some i) data timeout level k)
        as [[[[| | | | | | |]|] k1]| |] eqn:Hsend; try discriminate.
      destruct (run_queue_calls fuel i cs k1) as [[[s r] kf]|] eqn:Hrest;
        [|discriminate].
      inversion Hrun; subst sent received k'. clear Hrun.
      rewrite <- Hlo, <- Hhi, <- Hsz in Hc.
      destruct (queue_holds_send fuel i data timeout level k k1 q Hq Hc Hsend)
        as (Hq1 & Hh1 & Ht1 & Hs1 & Hl1).
      destruct (IH k1 _ s r kf Hq1) as (q' & Hq' & Happ & Hall & Hlen);
        try congruence.
      exists q'. split; [exact Hq'|]. split; [|split; [|congruence]].
      * rewrite <- Happ, <- app_assoc. reflexivity.
      * constructor; [|exact Hall]. rewrite item_at_length. congruence.
    + destruct (t_queue_recv fuel (Some i) data timeout k)
        as [[[[| | | | | | |]|] k1]| |] eqn:Hrecv; try discriminate.
      destruct (run_queue_calls fuel i cs k1) as [[[s r] kf]|] eqn:Hrest;
        [|discriminate].
      inversion Hrun; subst sent received k'. clear Hrun.
      rewrite <- Hlo, <- Hhi, <- Hsz in Hc.
      destruct (queue_holds_recv fuel i data timeout k k1 q Hq Hc Hrecv)
        as (x & q0 & Hqx & Hx & Hq1 & Hh1 & Ht1 & Hs1 & Hl1).
      destruct (IH k1 _ s r kf Hq1) as (q' & Hq' & Happ & Hall & Hlen);
        try congruence.
      exists q'. split; [exact Hq'|].
      split; [|split; [exact Hall | congruence]].
      rewrite Hx, Hqx. cbn [app]. rewrite Happ. reflexivity.
    + rewrite <- Hlo, <- Hhi in Hc.
      apply (IH _ q sent received k'
               (queue_holds_write i addr b k q Hq Hc)); assumption.
Qed.

(** A queue that was just created is empty. *)
Lemma queue_holds_created (i : nat) (queue_pool queue_length size mode : Z)
    (k0 : kernel) :
  queue_pool <> 0 -> 0 < size -> 0 < queue_length < 2 ^ 16 ->
  let k :=
    snd (t_queue_create_static queue_pool queue_length size mode (Some i)
           k0) in
  fst (t_queue_create_static queue_pool queue_length size mode (Some i) k0)
    = T_OK /\
  queue_holds k i [] /\
  q_head (ipcs k i) = queue_pool /\
  q_tail (ipcs k i) = queue_pool + size * queue_length /\
  item_size (ipcs k i) = size /\
  ipc_length (ipcs k i) = queue_length.
Proof.
  intros Hp Hs Hl. unfold t_queue_create_static.
  destruct (Z.eqb_spec queue_pool 0) as [E|_]; [contradiction|].
  destruct (Z.eqb_spec size 0) as [E|_]; [lia|].
  destruct (Z.eqb_spec queue_length 0) as [E|_]; [lia|].
  cbn [orb fst snd]. unfold queue_holds.
  cbn. rewrite !upd_same. cbn. unfold slot. cbn.
  split; [reflexivity|]. split; [|auto].
  split; [reflexivity|]. split; [discriminate|]. split; [exact Hs|].
  split; [exact Hl|]. split; [reflexivity|]. split; [reflexivity|].
  split; [lia|].
  exists 0. split; [lia|]. split; [lia|]. split.
  - rewrite Z.mod_0_l by lia. lia.
  - intros j Hj. lia.
Qed.

(** C5: on a queue created with capacity [queue_length] and item size
    [size], along every sequence of successful [t_queue_send] and
    [t_queue_recv] calls (mixed with writes of the callers to their own
    memory, all caller buffers lying outside the queue's buffer), the items
    received are, in order and byte for byte, the first items sent; never
    more items are received than were sent; and the fill count is the
    difference, between 0 and the capacity. *)
Theorem queue_round_trip (fuel i : nat)
    (queue_pool queue_length size mode : Z) (k0 : kernel)
    (cs : list queue_call) (sent received : list (list Byte.byte))
    (k' : kernel) :
  queue_pool <> 0 -> 0 < size -> 0 < queue_length < 2 ^ 16 ->
  Forall
    (call_outside queue_pool (queue_pool + size * queue_length) size) cs ->
  run_queue_calls fuel i cs
    (snd (t_queue_create_static queue_pool queue_length size mode (Some i)
            k0))
  = Some (sent, received, k') ->
  received = firstn (length received) sent /\
  (length received <= length sent)%nat /\
  Forall (fun x => length x = Z.to_nat size) sent /\
  msg_waiting (ipcs k' i)
  = Z.of_nat (length sent) - Z.of_nat (length received) /\
  0 <= msg_waiting (ipcs k' i) <= queue_length.
Proof.
  intros Hp Hs Hl Hout Hrun.
  destruct (queue_holds_created i queue_pool queue_length size mode k0
              Hp Hs Hl) as (_ & Hq & Hh & Ht & Hsz & Hlen).
  destruct (run_queue_calls_fifo fuel i _ _ _ cs _ [] sent received k'
              Hq Hh Ht Hsz Hout Hrun) as (q' & Hq' & Happ & Hall & Hlen').
  cbn [app] in Happ. subst sent.
  rewrite length_app.
  split.
  { rewrite firstn_app, Nat.sub_diag, firstn_all. cbn [firstn].
    rewrite app_nil_r. reflexivity. }
  split; [lia|]. split; [exact Hall|].
  unfold queue_holds in Hq'. cbv zeta in Hq'.
  destruct Hq' as (_ & _ & _ & _ & _ & Hmw & Hle & _).
  rewrite Hmw. rewrite Hlen', Hlen in Hle. lia.
Qed.

(** The run of [queue_demo_calls]. *)
Lemma queue_round_trip_witness :
  match run_queue_calls 8 queue1 queue_demo_calls queue_demo_start with
  | Some (sent, received, _) =>
      sent = [[Byte.x11; Byte.x12]; [Byte.x21; Byte.x22];
              [Byte.x31; Byte.x32]] /\
      received = firstn (length received) sent /\
      length received = 3%nat
  | None => False
  end.
Proof.
  assert (Hsr : option_map fst
                  (run_queue_calls 8 queue1 queue_demo_calls
                     queue_demo_start)
                = Some ([[Byte.x11; Byte.x12]; [Byte.x21; Byte.x22];
                         [Byte.x31; Byte.x32]],
                        [[Byte.x11; Byte.x12]; [Byte.x21; Byte.x22];
                         [Byte.x31; Byte.x32]]))
    by (vm_compute; reflexivity).
  destruct (run_queue_calls 8 queue1 queue_demo_calls queue_demo_start)
    as [[[sent received] k']|] eqn:E; [|discriminate Hsr].
  destruct (queue_round_trip 8 queue1 0x20003000 2 2 TO_IPC_FLAG_FIFO
              booted queue_demo_calls sent received k') as (H1 & _).
  - discriminate.
  - lia.
  - lia.
  - unfold queue_demo_calls.
    repeat (constructor; [cbn; unfold outside; lia|]). constructor.
  - exact E.
  - cbn [option_map fst] in Hsr. inversion Hsr; subst sent received.
    split; [reflexivity|]. split; [exact H1 | reflexivity].
Defined.

(** ** Semaphore release, path by path *)

(** At capacity: T_ERR, and the only change to the kernel state is that
    interrupts end up masked. *)
Lemma t_sema_send_at_capacity (k : kernel) (i : nat) :
  ipc_status (ipcs k i) <> 0 ->
  ipc_type (ipcs k i) = IPC_SEMA ->
  ipc_length (ipcs k i) <= msg_waiting (ipcs k i) ->
  t_sema_send (Some i) k = Ok (T_ERR, set_primask 1 k).
Proof.
  intros Hs Ht Hfull. unfold t_sema_send.
  destruct (Z.eqb_spec (ipc_status (ipcs k i)) 0) as [E|_];
    [contradiction|].
  rewrite Ht. cbn [t_ipc_type_eqb negb t_irq_disable].
  cbn [set_primask ipcs].
  destruct (Z.eqb_spec (ipc_status (ipcs k i)) 0) as [E|_];
    [contradiction|].
  destruct (msg_waiting (ipcs k i) <? ipc_length (ipcs k i)) eqn:Hlt;
    [apply Z.ltb_lt in Hlt; lia|].
  reflexivity.
Qed.

(** Below capacity: T_OK, the count goes up by one, the first waiter (if
    any) is made ready and [t_sched_switch] runs, and interrupts are as
    before. *)
Lemma t_sema_send_with_room (k : kernel) (i cur : nat) :
  ipc_status (ipcs k i) <> 0 ->
  ipc_type (ipcs k i) = IPC_SEMA ->
  0 <= msg_waiting (ipcs k i) < ipc_length (ipcs k i) ->
  ipc_length (ipcs k i) < 2 ^ 16 ->
  ready_lists_ok k ->
  wait_list_ok k i cur ->
  exists k',
    t_sema_send (Some i) k = Ok (T_OK, k') /\
    msg_waiting (ipcs k' i) = msg_waiting (ipcs k i) + 1 /\
    primask k' = primask k /\
    (t_list_isempty (wait_list i) (lnk k) = true -> lnk k' = lnk k) /\
    (forall th, next (lnk k) (wait_list i) = tlist th ->
       (status (threads k' th) = TO_THREAD_READY \/
        status (threads k' th) = TO_THREAD_RUNNING) /\
       ready_bit (current_priority (threads k th)) k' = true /\
       (t_schedulue_suspend k = 0 -> runs_highest_ready k')).
Proof.
  intros Hs Ht Hroom Hlen Hrl Hwl. unfold t_sema_send.
  destruct (Z.eqb_spec (ipc_status (ipcs k i)) 0) as [E|_];
    [contradiction|].
  rewrite Ht. cbn [t_ipc_type_eqb negb t_irq_disable].
  cbn [set_primask ipcs].
  destruct (Z.eqb_spec (ipc_status (ipcs k i)) 0) as [E|_];
    [contradiction|].
  destruct (msg_waiting (ipcs k i) <? ipc_length (ipcs k i)) eqn:Hlt;
    [|apply Z.ltb_ge in Hlt; lia].
  match goal with
  | |- exists k', bind (wake_first_waiter i ?k2) _ = _ /\ _ =>
      assert (Hl2 : lnk k2 = lnk k) by reflexivity;
      assert (Hg2 : t_thread_ready_priority_group k2
                    = t_thread_ready_priority_group k) by reflexivity;
      assert (Ht2 : threads k2 = threads k) by reflexivity;
      assert (Hs2 : t_schedulue_suspend k2 = t_schedulue_suspend k)
        by reflexivity;
      assert (Hm2 : msg_waiting (ipcs k2 i)
                    = wrap16 (msg_waiting (ipcs k i) + 1))
        by (cbn; rewrite upd_same; reflexivity);
      generalize dependent k2
  end.
  intros k2 Hl2 Hg2 Ht2 Hs2 Hm2.
  destruct (release_tail k2 i cur (primask k))
    as (k' & Hrun & Hi & Hpm & Hpr & He & Hw).
  { apply (ready_lists_ok_ext k k2); assumption. }
  { apply (wait_list_ok_ext k k2); [assumption | | assumption].
    intros u _. rewrite Ht2. reflexivity. }
  exists k'. split; [exact Hrun|].
  split; [rewrite Hi, Hm2; apply wrap16_small; lia|].
  split; [exact Hpm|].
  rewrite Hl2, Hs2, Ht2 in *. split.
  - intros Hemp. apply (He Hemp).
  - intros th Hhead. destruct (Hw th Hhead) as (H1 & H2 & _ & _ & H5). auto.
Qed.

(** ** Circular lists *)

(** The list primitives as assignments to [next] and [prev]. *)
Lemma t_list_delete_next (d x : node) (h : links) :
  next (t_list_delete d h) x
  = if node_eq_dec x d then d
    else if node_eq_dec x (prev h d) then next h d else next h x.
Proof.
  unfold t_list_delete, set_next, set_prev, upd. cbn.
  destruct (node_eq_dec x d); [reflexivity|].
  destruct (node_eq_dec d (next h d)); reflexivity.
Qed.

Lemma t_list_delete_prev (d x : node) (h : links) :
  prev (t_list_delete d h) x
  = if node_eq_dec x d then d
    else if node_eq_dec x (next h d) then prev h d else prev h x.
Proof. unfold t_list_delete, set_next, set_prev, upd. reflexivity. Qed.

Lemma t_list_insert_after_next (l n x : node) (h : links) :
  next (t_list_insert_after l n h) x
  = if node_eq_dec x l then n
    else if node_eq_dec x n then next h l else next h x.
Proof. unfold t_list_insert_after, set_next, set_prev, upd. reflexivity. Qed.

Lemma t_list_insert_after_prev (l n x : node) (h : links) :
  prev (t_list_insert_after l n h) x
  = if node_eq_dec x n then l
    else if node_eq_dec x (next h l) then n else prev h x.
Proof. unfold t_list_insert_after, set_next, set_prev, upd. reflexivity. Qed.

Lemma chain_ext (h h' : links) (l : list node) (a z : node) :
  (forall n, In n (a :: l) -> next h' n = next h n) ->
  (forall n, In n (l ++ [z]) -> prev h' n = prev h n) ->
  chain h a l z -> chain h' a l z.
Proof.
  revert a. induction l as [|x l IH]; intros a Hn Hp; cbn [chain].
  - intros [H1 H2]. rewrite Hn by (left; reflexivity).
    rewrite Hp by (left; reflexivity). auto.
  - intros (H1 & H2 & H3).
    rewrite Hn by (left; reflexivity).
    rewrite Hp by (left; reflexivity).
    repeat split; try assumption.
    apply IH; [| |exact H3].
    + intros n Hin. apply Hn. right. exact Hin.
    + intros n Hin. apply Hp. right. exact Hin.
Qed.

Lemma chain_next (h : links) (a z : node) (l : list node) :
  chain h a l z -> next h a = hd z l.
Proof. destruct l; cbn; intros H; apply H. Qed.

Lemma in_snoc (n z : node) (l : list node) :
  In n (l ++ [z]) -> In n (z :: l).
Proof.
  intros Hin. apply in_app_or in Hin.
  destruct Hin as [Hin|[E|[]]]; [right; exact Hin | left; exact E].
Qed.

Ltac pick_branch :=
  repeat match goal with
    | |- context [node_eq_dec ?a ?b] =>
        destruct (node_eq_dec a b) as [?E|?E]
    end.

(** [t_list_delete] of the first node leaves the list of the others. *)
Lemma t_list_delete_head (h : links) (s x : node) (l : list node) :
  circular h s (x :: l) ->
  circular (t_list_delete x h) s l.
Proof.
  intros [(Hsx & Hxs & Hc) Hnd].
  apply NoDup_cons_iff in Hnd. destruct Hnd as [Hs Hnd'].
  apply NoDup_cons_iff in Hnd'. destruct Hnd' as [Hx Hl].
  split.
  2:{ constructor; [|exact Hl].
      intros Hin. apply Hs. right. exact Hin. }
  assert (Hsx' : s <> x) by (intros E; apply Hs; left; auto).
  pose proof (chain_next _ _ _ _ Hc) as Hy.
  destruct l as [|y l].
  - cbn in Hy, Hc. cbn [chain]. destruct Hc as [_ Hps].
    rewrite t_list_delete_next, t_list_delete_prev, Hy, Hxs.
    pick_branch; repeat split; congruence.
  - cbn in Hy. cbn [chain] in Hc |- *. destruct Hc as (_ & Hpy & Hc).
    assert (Hyx : y <> x) by (intros E; apply Hx; left; auto).
    assert (Hys : y <> s) by (intros E; apply Hs; right; left; auto).
    rewrite t_list_delete_next, t_list_delete_prev, Hy, Hxs.
    split; [|split].
    + pick_branch; congruence.
    + pick_branch; congruence.
    + apply (chain_ext h); [| |exact Hc].
      * intros n Hin. rewrite t_list_delete_next, Hxs.
        destruct (node_eq_dec n x) as [E|_];
          [subst n; exfalso; apply Hx; exact Hin|].
        destruct (node_eq_dec n s) as [E|_];
          [subst n; exfalso; apply Hs; right; exact Hin|].
        reflexivity.
      * intros n Hin. apply in_snoc in Hin. rewrite t_list_delete_prev, Hy.
        destruct (node_eq_dec n x) as [E|_].
        { subst n. exfalso. destruct Hin as [E|Hin];
            [apply Hsx'; exact E | apply Hx; right; exact Hin]. }
        destruct (node_eq_dec n y) as [E|_]; [|reflexivity].
        subst n. exfalso. destruct Hin as [E|Hin];
          [apply Hys; symmetry; exact E|].
        apply NoDup_cons_iff in Hl. apply Hl. exact Hin.
Qed.

(** Lists that do not hold [d] or its neighbours are left alone by
    [t_list_delete d]. *)
Lemma t_list_delete_frame (h : links) (d s : node) (l : list node) :
  ~ In d (s :: l) -> ~ In (prev h d) (s :: l) -> ~ In (next h d) (s :: l) ->
  circular h s l -> circular (t_list_delete d h) s l.
Proof.
  intros Hd Hp Hn [Hc Hnd]. split; [|exact Hnd].
  apply (chain_ext h); [| |exact Hc].
  - intros n Hin. rewrite t_list_delete_next.
    pick_branch; try reflexivity; subst n; contradiction.
  - intros n Hin. apply in_snoc in Hin. rewrite t_list_delete_prev.
    pick_branch; try reflexivity; subst n; contradiction.
Qed.

(** [t_list_insert_after] at the head puts the node in front. *)
Lemma t_list_insert_after_head (h : links) (s x : node) (l : list node) :
  ~ In x (s :: l) ->
  circular h s l ->
  circular (t_list_insert_after s x h) s (x :: l).
Proof.
  intros Hx [Hc Hnd].
  assert (Hxs : x <> s) by (intros E; apply Hx; left; auto).
  apply NoDup_cons_iff in Hnd. destruct Hnd as [Hs Hl].
  split.
  2:{ constructor.
      - intros [E|Hin]; [apply Hxs; exact E | apply Hs; exact Hin].
      - constructor; [|exact Hl]. intros Hin. apply Hx. right. exact Hin. }
  pose proof (chain_next _ _ _ _ Hc) as Hy.
  cbn [chain]. rewrite t_list_insert_after_next.
  rewrite !t_list_insert_after_prev. split; [|split].
  - pick_branch; congruence.
  - pick_branch; congruence.
  - destruct l as [|y l].
    + cbn in Hy, Hc. cbn [chain].
      rewrite t_list_insert_after_next, t_list_insert_after_prev, Hy.
      pick_branch; repeat split; congruence.
    + cbn in Hy. cbn [chain] in Hc |- *. destruct Hc as (_ & Hpy & Hc).
      assert (Hyx : y <> x) by (intros E; apply Hx; right; left; auto).
      assert (Hys : y <> s) by (intros E; apply Hs; left; auto).
      rewrite t_list_insert_after_next, t_list_insert_after_prev, Hy.
      split; [|split].
      * pick_branch; congruence.
      * pick_branch; congruence.
      * apply (chain_ext h); [| |exact Hc].
        -- intros n Hin. rewrite t_list_insert_after_next.
           destruct (node_eq_dec n s) as [E|_];
             [subst n; exfalso; apply Hs; exact Hin|].
           destruct (node_eq_dec n x) as [E|_];
             [subst n; exfalso; apply Hx; right; exact Hin|].
           reflexivity.
        -- intros n Hin. apply in_snoc in Hin.
           rewrite t_list_insert_after_prev, Hy.
           destruct (node_eq_dec n x) as [E|_].
           { subst n. exfalso. destruct Hin as [E|Hin];
               [apply Hxs; symmetry; exact E
               | apply Hx; right; right; exact Hin]. }
           destruct (node_eq_dec n y) as [E|_]; [|reflexivity].
           subst n. exfalso. destruct Hin as [E|Hin];
             [apply Hys; symmetry; exact E|].
           apply NoDup_cons_iff in Hl. apply Hl. exact Hin.
Qed.

(** Lists that hold neither the head nor the node are left alone by
    [t_list_insert_after]. *)
Lemma t_list_insert_after_frame (h : links) (e x s : node)
    (l : list node) :
  ~ In x (s :: l) -> ~ In e (s :: l) -> ~ In (next h e) (s :: l) ->
  circular h s l -> circular (t_list_insert_after e x h) s l.
Proof.
  intros Hx He Hn [Hc Hnd]. split; [|exact Hnd].
  apply (chain_ext h); [| |exact Hc].
  - intros n Hin. rewrite t_list_insert_after_next.
    pick_branch; try reflexivity; subst n; contradiction.
  - intros n Hin. apply in_snoc in Hin. rewrite t_list_insert_after_prev.
    pick_branch; try reflexivity; subst n; contradiction.
Qed.

(** ** Timer expiry order, for every list of application timers *)

Lemma set_lnk_same (k : kernel) : set_lnk (lnk k) k = k.
Proof. destruct k; reflexivity. Qed.

Lemma circular_head_next (h : links) (s x : node) (l : list node) :
  circular h s (x :: l) -> next h s = x /\ x <> s.
Proof.
  intros [(Hn & _) Hnd]. split; [exact Hn|].
  apply NoDup_cons_iff in Hnd. intros E. apply (proj1 Hnd). left. exact E.
Qed.

Lemma circular_next_in (h : links) (s : node) (l : list node) :
  circular h s l -> In (next h s) (s :: l).
Proof.
  intros [Hc _]. rewrite (chain_next _ _ _ _ Hc).
  destruct l; cbn; auto.
Qed.

Lemma circular_second_in (h : links) (s x : node) (l : list node) :
  circular h s (x :: l) -> prev h x = s /\ In (next h x) (s :: l).
Proof.
  intros [(_ & Hp & Hc) _]. split; [exact Hp|].
  rewrite (chain_next _ _ _ _ Hc). destruct l; cbn; auto.
Qed.

(** The first loop of [t_timer_check] moves the expired timers at the head
    of the current list to the head of [expired_list], one after the
    other: the last one detached ends up first. *)
Lemma t_timer_check_collect_moves_prefix (tms : list timer_ref) :
  forall (fuel : nat) (k : kernel) (es : list timer_ref),
  (length tms < fuel)%nat ->
  circular (lnk k) (g_cur_timer_list k) (map row tms) ->
  circular (lnk k) expired_list (map row es) ->
  apart (g_cur_timer_list k :: map row tms) (expired_list :: map row es) ->
  exists h',
    t_timer_check_collect fuel k = Ok (set_lnk h' k) /\
    circular h' (g_cur_timer_list k)
      (map row (unexpired_rest (s_tick k) (timers k) tms)) /\
    circular h' expired_list
      (map row (rev (expired_prefix (s_tick k) (timers k) tms) ++ es)) /\
    apart
      (g_cur_timer_list k
         :: map row (unexpired_rest (s_tick k) (timers k) tms))
      (expired_list
         :: map row (rev (expired_prefix (s_tick k) (timers k) tms) ++ es)).
Proof.
  induction tms as [|tm tms IH]; intros fuel k es Hfuel Hcur Hexp Hap;
    (destruct fuel as [|fuel]; [cbn in Hfuel; lia|]);
    cbn [t_timer_check_collect unexpired_rest expired_prefix].
  - exists (lnk k). unfold t_list_isempty.
    pose proof Hcur as [[Hn _] _]. cbn [map] in *. rewrite Hn.
    destruct (node_eq_dec (g_cur_timer_list k) (g_cur_timer_list k))
      as [_|E]; [|congruence].
    rewrite set_lnk_same. cbn [rev app]. auto.
  - cbn [map] in Hcur, Hap.
    destruct (circular_head_next _ _ _ _ Hcur) as [Hn Hne].
    destruct (circular_second_in _ _ _ _ Hcur) as [Hpx Hnx].
    unfold t_list_isempty. rewrite Hn.
    destruct (node_eq_dec (row tm) (g_cur_timer_list k)) as [E|_];
      [contradiction|].
    cbn [T_LIST_ENTRY_timer].
    destruct (s_tick k >=? timeout_tick (timers k tm)) eqn:Hdue.
    + assert (Hx : ~ In (row tm) (g_cur_timer_list k :: map row tms)).
      { destruct Hcur as [_ Hnd]. apply NoDup_cons_iff in Hnd.
        destruct Hnd as [Hs Hnd]. apply NoDup_cons_iff in Hnd.
        intros [E|Hin]; [apply Hne; symmetry; exact E|].
        apply (proj1 Hnd). exact Hin. }
      assert (Hxe : ~ In (row tm) (expired_list :: map row es)).
      { intros Hin. apply (Hap (row tm)); [right; left; reflexivity|].
        exact Hin. }
      assert (Hsub : forall n, In n (g_cur_timer_list k :: map row tms) ->
                               In n (g_cur_timer_list k
                                       :: row tm :: map row tms)).
      { intros n [E|Hin]; [left; exact E | right; right; exact Hin]. }
      pose proof (t_list_delete_head _ _ _ _ Hcur) as Hcur1.
      assert (Hexp1 : circular (t_list_delete (row tm) (lnk k))
                        expired_list (map row es)).
      { apply t_list_delete_frame; [exact Hxe | | | exact Hexp].
        - rewrite Hpx. intros Hin.
          apply (Hap (g_cur_timer_list k)); [left; reflexivity|exact Hin].
        - intros Hin. apply (Hap (next (lnk k) (row tm)));
            [apply Hsub; exact Hnx | exact Hin]. }
      set (h1 := t_list_delete (row tm) (lnk k)) in *.
      assert (Hcur2 : circular (t_list_insert_after expired_list (row tm) h1)
                        (g_cur_timer_list k) (map row tms)).
      { apply t_list_insert_after_frame; [exact Hx | | | exact Hcur1].
        - intros Hin. apply (Hap expired_list);
            [apply Hsub; exact Hin | left; reflexivity].
        - intros Hin. apply (Hap (next h1 expired_list));
            [apply Hsub; exact Hin|].
          apply (circular_next_in _ _ _ Hexp1). }
      pose proof (t_list_insert_after_head _ _ _ _ Hxe Hexp1) as Hexp2.
      destruct (IH fuel
                  (with_links (t_list_insert_after expired_list (row tm))
                     (with_links (t_list_delete (row tm)) k))
                  (tm :: es)) as (h' & Hrun & H1 & H2 & H3).
      * cbn in Hfuel. lia.
      * exact Hcur2.
      * exact Hexp2.
      * intros n Hin1 [E|[E|Hin2]].
        -- apply (Hap n); [apply Hsub; exact Hin1 | left; exact E].
        -- subst n. apply Hx. exact Hin1.
        -- apply (Hap n); [apply Hsub; exact Hin1 | right; exact Hin2].
      * exists h'. cbn [rev]. rewrite <- app_assoc. cbn [app].
        auto.
    + exists (lnk k). rewrite set_lnk_same. cbn [rev app map]. auto.
Qed.

(** The second loop of [t_timer_check] calls back the timers of
    [expired_list] from its head on.  Application callbacks are outside the
    kernel; the kernel's own [timeout_function] is left out here, as it
    runs the scheduler. *)
Lemma t_timer_check_fire_calls_from_head (s : node) (l : list node)
    (es : list timer_ref) :
  forall (fuel : nat) (k : kernel),
  (length es < fuel)%nat ->
  circular (lnk k) expired_list (map row es) ->
  circular (lnk k) s l ->
  apart (s :: l) (expired_list :: map row es) ->
  (forall tm, In tm es ->
     timeout_func (timers k tm) <> Some timeout_function_cb) ->
  exists k',
    t_timer_check_fire fuel k = Ok k' /\
    trace k' = trace k ++ flat_map (timer_calls (timers k)) es /\
    circular (lnk k') s l /\
    t_list_isempty expired_list (lnk k') = true /\
    timers k' = timers k /\
    s_tick k' = s_tick k /\
    g_cur_timer_list k' = g_cur_timer_list k /\
    g_overflow_timer_list k' = g_overflow_timer_list k /\
    primask k' = primask k.
Proof.
  induction es as [|tm es IH]; intros fuel k Hfuel Hexp Hcur Hap Hcb;
    (destruct fuel as [|fuel]; [cbn in Hfuel; lia|]);
    cbn [t_timer_check_fire flat_map].
  - exists k. pose proof Hexp as [[Hn _] _]. cbn [map] in Hn.
    unfold t_list_isempty. rewrite Hn.
    destruct (node_eq_dec expired_list expired_list) as [_|E];
      [|congruence].
    rewrite app_nil_r. auto 10.
  - cbn [map] in Hexp, Hap.
    destruct (circular_head_next _ _ _ _ Hexp) as [Hn Hne].
    destruct (circular_second_in _ _ _ _ Hexp) as [Hpx Hnx].
    unfold t_list_isempty at 1. rewrite Hn.
    destruct (node_eq_dec (row tm) expired_list) as [E|_];
      [contradiction|].
    cbn [T_LIST_ENTRY_timer].
    pose proof (t_list_delete_head _ _ _ _ Hexp) as Hexp1.
    assert (Hcur1 : circular (t_list_delete (row tm) (lnk k)) s l).
    { apply t_list_delete_frame; [| | |exact Hcur].
      - intros Hin. apply (Hap (row tm)); [exact Hin|].
        right; left; reflexivity.
      - rewrite Hpx. intros Hin. apply (Hap expired_list);
          [exact Hin | left; reflexivity].
      - intros Hin. apply (Hap (next (lnk k) (row tm))); [exact Hin|].
        destruct Hnx as [E|Hin']; [left; exact E | right; right; exact Hin']. }
    assert (Hap1 : apart (s :: l) (expired_list :: map row es)).
    { intros n Hin1 [E|Hin2];
        [apply (Hap n); [exact Hin1 | left; exact E]
        | apply (Hap n); [exact Hin1 | right; right; exact Hin2]]. }
    assert (Hcb1 : forall tm', In tm' es ->
              timeout_func (timers k tm') <> Some timeout_function_cb).
    { intros tm' Hin. apply Hcb. right. exact Hin. }
    pose proof (Hcb tm (or_introl eq_refl)) as Hf.
    unfold timer_calls at 1.
    cbn [with_links set_lnk timers].
    destruct (timeout_func (timers k tm)) as [[|id]|].
    + congruence.
    + cbn [call_timeout_func bind].
      destruct (IH fuel
                  (emit (called (user_cb id) (timer_p (timers k tm)))
                     (with_links (t_list_delete (row tm)) k)))
        as (k' & Hrun & Htr & H1 & H2 & H3 & H4 & H5 & H6 & H7);
        [cbn in Hfuel; lia | exact Hexp1 | exact Hcur1 | exact Hap1
        | exact Hcb1 |].
      exists k'. split; [exact Hrun|]. split.
      { rewrite Htr. cbn [emit trace with_links set_lnk timers].
        rewrite <- app_assoc. reflexivity. }
      auto 10.
    + cbn [bind].
      destruct (IH fuel (with_links (t_list_delete (row tm)) k))
        as (k' & Hrun & Htr & H1 & H2 & H3 & H4 & H5 & H6 & H7);
        [cbn in Hfuel; lia | exact Hexp1 | exact Hcur1 | exact Hap1
        | exact Hcb1 |].
      exists k'. split; [exact Hrun|]. split; [exact Htr|]. auto 10.
Qed.

Lemma expired_prefix_incl (now : Z) (tk : timer_ref -> t_timer_t)
    (tms : list timer_ref) (tm : timer_ref) :
  In tm (expired_prefix now tk tms) -> In tm tms.
Proof.
  induction tms as [|a tms IH]; cbn; [auto|].
  destruct (now >=? timeout_tick (tk a)); cbn; [|contradiction].
  intros [E|Hin]; auto.
Qed.

(** One [t_timer_check] over a current list of application timers [tms]:
    the timers of the expired prefix are called back in the reverse of
    their list order, and the others stay in the list. *)
Theorem t_timer_check_calls_newest_first (fuel : nat) (k : kernel)
    (tms : list timer_ref) :
  (length tms < fuel)%nat ->
  g_cur_timer_list k <> expired_list ->
  circular (lnk k) (g_cur_timer_list k) (map row tms) ->
  (forall tm, In tm tms ->
     timeout_func (timers k tm) <> Some timeout_function_cb) ->
  exists k',
    t_timer_check fuel k = Ok k' /\
    trace k'
    = trace k
      ++ flat_map (timer_calls (timers k))
           (rev (expired_prefix (s_tick k) (timers k) tms)) /\
    circular (lnk k') (g_cur_timer_list k')
      (map row (unexpired_rest (s_tick k) (timers k) tms)) /\
    timers k' = timers k /\
    s_tick k' = s_tick k /\
    primask k' = primask k.
Proof.
  intros Hfuel Hse Hcur Hcb. unfold t_timer_check.
  cbn [t_irq_disable].
  assert (Hrows : forall l, ~ In expired_list (map row l)).
  { intros l Hin. apply in_map_iff in Hin.
    destruct Hin as (x & E & _). discriminate E. }
  set (k1 := set_primask 1 (with_links (t_list_init expired_list) k)).
  assert (Hcur1 : circular (lnk k1) (g_cur_timer_list k1) (map row tms)).
  { destruct Hcur as [Hc Hnd]. split; [|exact Hnd].
    apply (chain_ext (lnk k)); [| |exact Hc].
    - intros n Hin. unfold k1, t_list_init. cbn.
      apply upd_other. intros E. subst n.
      destruct Hin as [E|Hin]; [apply Hse; exact E | apply (Hrows _ Hin)].
    - intros n Hin. apply in_snoc in Hin. unfold k1, t_list_init. cbn.
      apply upd_other. intros E. subst n.
      destruct Hin as [E|Hin]; [apply Hse; exact E | apply (Hrows _ Hin)]. }
  assert (Hexp1 : circular (lnk k1) expired_list (map row [])).
  { split; [cbn; auto|]. constructor; [intros []|constructor]. }
  assert (Hap1 : apart (g_cur_timer_list k1 :: map row tms)
                   (expired_list :: map row [])).
  { intros n Hin [E|[]]. subst n.
    destruct Hin as [E|Hin]; [apply Hse; exact E | apply (Hrows _ Hin)]. }
  destruct (t_timer_check_collect_moves_prefix tms fuel k1 [] Hfuel
              Hcur1 Hexp1 Hap1) as (h' & Hrun & H1 & H2 & H3).
  rewrite Hrun. cbn [bind]. rewrite app_nil_r in H2, H3.
  assert (Hs1 : s_tick k1 = s_tick k) by reflexivity.
  assert (Ht1 : timers k1 = timers k) by reflexivity.
  assert (Hg1 : g_cur_timer_list k1 = g_cur_timer_list k) by reflexivity.
  assert (Htr1 : trace k1 = trace k) by reflexivity.
  rewrite Hs1, Ht1, Hg1 in *.
  set (k2 := t_irq_enable (primask (with_links (t_list_init expired_list) k))
               (set_lnk h' k1)).
  destruct (t_timer_check_fire_calls_from_head
              (g_cur_timer_list k)
              (map row (unexpired_rest (s_tick k) (timers k) tms))
              (rev (expired_prefix (s_tick k) (timers k) tms))
              fuel k2)
    as (k' & Hfire & Htr & H4 & _ & H5 & H6 & H7 & _ & H8).
  - rewrite length_rev.
    assert (Hle : forall l, (length (expired_prefix (s_tick k) (timers k) l)
                             <= length l)%nat).
    { induction l as [|a l IHl]; cbn; [lia|].
      destruct (s_tick k >=? timeout_tick (timers k a)); cbn; lia. }
    specialize (Hle tms). lia.
  - exact H2.
  - exact H1.
  - exact H3.
  - intros tm Hin. apply in_rev in Hin.
    apply expired_prefix_incl in Hin. apply (Hcb tm Hin).
  - exists k'. split; [exact Hfire|].
    split; [exact Htr|]. split; [rewrite H7; exact H4|].
    split; [exact H5|]. split; [exact H6 | exact H8].
Qed.

(** The two timers of the scenario above meet the conditions of
    [t_timer_check_calls_newest_first]. *)
Lemma two_timers_armed_circular :
  returns two_timers_armed
    (fun k =>
       g_cur_timer_list k <> expired_list /\
       circular (lnk k) (g_cur_timer_list k) (map row [timer_a; timer_b]) /\
       (forall tm, In tm [timer_a; timer_b] ->
          timeout_func (timers k tm) <> Some timeout_function_cb)).
Proof.
  vm_compute. split; [discriminate|]. split.
  - split; [repeat split|].
    repeat (constructor; [cbn; intuition discriminate|]). constructor.
  - intros tm [E|[E|[]]]; subst tm; discriminate.
Qed.

(** ** The ready bitmap along insertions and removals *)

Lemma t_list_insert_before_next_eq (l n x : node) (h : links) :
  next (t_list_insert_before l n h) x
  = if node_eq_dec x n then l
    else if node_eq_dec x (prev h l) then n else next h x.
Proof. unfold t_list_insert_before, set_next, set_prev, upd. reflexivity. Qed.

Lemma t_list_insert_before_prev_eq (l n x : node) (h : links) :
  prev (t_list_insert_before l n h) x
  = if node_eq_dec x l then n
    else if node_eq_dec x n then prev h l else prev h x.
Proof. unfold t_list_insert_before, set_next, set_prev, upd. reflexivity. Qed.

Lemma last_default (x a b : node) (l : list node) :
  last (x :: l) a = last (x :: l) b.
Proof.
  revert x. induction l as [|y l IH]; intros x; [reflexivity|].
  change (last (y :: l) a = last (y :: l) b). apply IH.
Qed.

Lemma last_in (a : node) (l : list node) : In (last l a) (a :: l).
Proof.
  revert a. induction l as [|x l IH]; intros a; [left; reflexivity|].
  right. rewrite (last_default x a x).
  replace (last (x :: l) x) with (last l x) by (destruct l; reflexivity).
  apply IH.
Qed.

Lemma chain_prev (h : links) (a z : node) (l : list node) :
  chain h a l z -> prev h z = last l a.
Proof.
  revert a. induction l as [|x l IH]; intros a; cbn [chain].
  - intros [_ H]. exact H.
  - intros (_ & _ & H). rewrite (IH _ H).
    destruct l as [|y l]; [reflexivity|].
    change (last (y :: l) x = last (y :: l) a). apply last_default.
Qed.

Lemma chain_app (h : links) (a x z : node) (l1 l2 : list node) :
  chain h a (l1 ++ x :: l2) z <-> chain h a l1 x /\ chain h x l2 z.
Proof.
  revert a. induction l1 as [|b l1 IH]; intros a; cbn [app chain].
  - destruct l2; cbn [chain]; tauto.
  - rewrite IH. tauto.
Qed.

(** The neighbours of a member of a circular list. *)
Lemma circular_member (h : links) (s x : node) (l1 l2 : list node) :
  circular h s (l1 ++ x :: l2) ->
  prev h x = last l1 s /\ next h x = hd s l2.
Proof.
  intros [Hc _]. apply chain_app in Hc. destruct Hc as [H1 H2].
  split; [apply (chain_prev _ _ _ _ H1) | apply (chain_next _ _ _ _ H2)].
Qed.

Lemma hd_in (s : node) (l : list node) : In (hd s l) (s :: l).
Proof. destruct l; cbn; auto. Qed.

(** [t_list_delete] of a member leaves the list of the others, in the
    same order. *)
Lemma chain_delete (h : links) (x z : node) (l1 l2 : list node) :
  forall a,
  chain h a (l1 ++ x :: l2) z ->
  NoDup (a :: l1 ++ x :: l2) ->
  ~ In z (l1 ++ x :: l2) ->
  chain (t_list_delete x h) a (l1 ++ l2) z.
Proof.
  induction l1 as [|b l1 IH]; intros a Hc Hnd Hz.
  - cbn [app] in *. destruct Hc as (Hax & Hxa & Hc).
    apply NoDup_cons_iff in Hnd. destruct Hnd as [Ha Hnd].
    apply NoDup_cons_iff in Hnd. destruct Hnd as [Hx Hl2].
    assert (Hax' : a <> x) by (intros E; apply Ha; left; auto).
    assert (Hzx : z <> x) by (intros E; apply Hz; left; auto).
    pose proof (chain_next _ _ _ _ Hc) as Hy.
    destruct l2 as [|y l2]; cbn [hd] in Hy; cbn [chain] in Hc |- *.
    + rewrite t_list_delete_next, t_list_delete_prev, Hxa, Hy.
      pick_branch; repeat split; congruence.
    + destruct Hc as (_ & Hyx & Hc).
      assert (Hy' : y <> x) by (intros E; apply Hx; left; auto).
      rewrite t_list_delete_next, t_list_delete_prev, Hxa, Hy.
      split; [|split].
      * pick_branch; congruence.
      * pick_branch; congruence.
      * apply (chain_ext h); [| |exact Hc].
        -- intros n Hin. rewrite t_list_delete_next, Hxa.
           destruct (node_eq_dec n x) as [E|_];
             [subst n; exfalso; apply Hx; exact Hin|].
           destruct (node_eq_dec n a) as [E|_];
             [subst n; exfalso; apply Ha; right; exact Hin|].
           reflexivity.
        -- intros n Hin. apply in_snoc in Hin.
           rewrite t_list_delete_prev, Hy.
           destruct (node_eq_dec n x) as [E|_].
           { subst n. exfalso. destruct Hin as [E|Hin];
               [apply Hzx; exact E | apply Hx; right; exact Hin]. }
           destruct (node_eq_dec n y) as [E|_]; [|reflexivity].
           subst n. exfalso. destruct Hin as [E|Hin].
           ++ apply Hz. right. left. symmetry. exact E.
           ++ apply NoDup_cons_iff in Hl2. apply Hl2. exact Hin.
  - cbn [app] in *. cbn [chain] in Hc |- *.
    destruct Hc as (Hab & Hba & Hc).
    apply NoDup_cons_iff in Hnd. destruct Hnd as [Ha Hnd].
    pose proof Hc as Hc'. apply chain_app in Hc'.
    destruct Hc' as [H1 H2].
    pose proof (chain_prev _ _ _ _ H1) as Hpx.
    pose proof (chain_next _ _ _ _ H2) as Hnx.
    assert (Hax : a <> x).
    { intros E. apply Ha. right. apply in_or_app. right. left. auto. }
    assert (Hbx : b <> x).
    { intros E. apply NoDup_cons_iff in Hnd. apply (proj1 Hnd).
      apply in_or_app. right. left. auto. }
    rewrite t_list_delete_next, t_list_delete_prev, Hpx, Hnx.
    split; [|split].
    + destruct (node_eq_dec a x) as [E|_]; [contradiction|].
      destruct (node_eq_dec a (last l1 b)) as [E|_]; [|exact Hab].
      exfalso. apply Ha. rewrite E.
      destruct (last_in b l1) as [E'|Hin]; [left; exact E'|].
      right. apply in_or_app. left. exact Hin.
    + destruct (node_eq_dec b x) as [E|_]; [contradiction|].
      destruct (node_eq_dec b (hd z l2)) as [E|_]; [|exact Hba].
      exfalso. destruct (hd_in z l2) as [E'|Hin].
      * apply Hz. left. congruence.
      * apply NoDup_cons_iff in Hnd. apply (proj1 Hnd).
        apply in_or_app. right. right. rewrite E. exact Hin.
    + apply IH; [exact Hc | exact Hnd|].
      intros Hin. apply Hz. right. exact Hin.
Qed.

Lemma NoDup_remove_mid (s x : node) (l1 l2 : list node) :
  NoDup (s :: l1 ++ x :: l2) -> NoDup (s :: l1 ++ l2).
Proof.
  intros H. apply NoDup_cons_iff in H. destruct H as [Hs H].
  constructor.
  - intros Hin. apply Hs. apply in_app_or in Hin. apply in_or_app.
    destruct Hin as [Hin|Hin]; [left; exact Hin | right; right; exact Hin].
  - apply (NoDup_remove_1 _ _ _ H).
Qed.

Lemma t_list_delete_member (h : links) (s x : node) (l1 l2 : list node) :
  circular h s (l1 ++ x :: l2) ->
  circular (t_list_delete x h) s (l1 ++ l2).
Proof.
  intros [Hc Hnd]. split; [|apply (NoDup_remove_mid _ _ _ _ Hnd)].
  apply chain_delete; [exact Hc | exact Hnd|].
  apply NoDup_cons_iff in Hnd. apply Hnd.
Qed.

(** [t_list_insert_before] at the head puts the node last. *)
Lemma chain_insert_before (h : links) (s x : node) (l : list node) :
  forall a,
  chain h a l s ->
  NoDup (a :: l) -> ~ In s l -> ~ In x (a :: l) -> x <> s ->
  chain (t_list_insert_before s x h) a (l ++ [x]) s.
Proof.
  induction l as [|b l IH]; intros a Hc Hnd Hs Hx Hxs.
  - cbn [app chain] in *. destruct Hc as [Hn Hp].
    assert (Hax : a <> x) by (intros E; apply Hx; left; auto).
    rewrite !t_list_insert_before_next_eq, !t_list_insert_before_prev_eq.
    rewrite Hp. pick_branch; repeat split; congruence.
  - cbn [app chain] in Hc |- *. destruct Hc as (Hab & Hba & Hc).
    pose proof (chain_prev _ _ _ _ Hc) as Hps.
    apply NoDup_cons_iff in Hnd. destruct Hnd as [Ha Hnd].
    rewrite t_list_insert_before_next_eq, t_list_insert_before_prev_eq.
    rewrite Hps. split; [|split].
    + destruct (node_eq_dec a x) as [E|_];
        [exfalso; apply Hx; left; auto|].
      destruct (node_eq_dec a (last l b)) as [E|_]; [|exact Hab].
      exfalso. apply Ha. rewrite E. apply last_in.
    + destruct (node_eq_dec b s) as [E|_];
        [exfalso; apply Hs; left; auto|].
      destruct (node_eq_dec b x) as [E|_]; [|exact Hba].
      exfalso. apply Hx. right. left. exact E.
    + apply IH; [exact Hc | exact Hnd | | | exact Hxs].
      * intros Hin. apply Hs. right. exact Hin.
      * intros Hin. apply Hx. right. exact Hin.
Qed.

Lemma t_list_insert_before_tail (h : links) (s x : node) (l : list node) :
  ~ In x (s :: l) ->
  circular h s l ->
  circular (t_list_insert_before s x h) s (l ++ [x]).
Proof.
  intros Hx [Hc Hnd]. pose proof Hnd as Hnd'.
  apply NoDup_cons_iff in Hnd'. destruct Hnd' as [Hs Hl]. split.
  - apply chain_insert_before; try assumption.
    intros E. apply Hx. left. auto.
  - constructor.
    + intros Hin. apply in_app_or in Hin.
      destruct Hin as [Hin|[E|[]]]; [apply Hs; exact Hin|].
      apply Hx. left. auto.
    + apply NoDup_app; [exact Hl | repeat constructor; intros [] |].
      intros n Hin [E|[]]. subst n. apply Hx. right. exact Hin.
Qed.

Lemma t_list_insert_before_frame (h : links) (s x s' : node)
    (l : list node) :
  ~ In x (s' :: l) -> ~ In s (s' :: l) -> ~ In (prev h s) (s' :: l) ->
  circular h s' l -> circular (t_list_insert_before s x h) s' l.
Proof.
  intros Hx Hs Hp [Hc Hnd]. split; [|exact Hnd].
  apply (chain_ext h); [| |exact Hc].
  - intros n Hin. rewrite t_list_insert_before_next_eq.
    pick_branch; try reflexivity; subst n; contradiction.
  - intros n Hin. apply in_snoc in Hin. rewrite t_list_insert_before_prev_eq.
    pick_branch; try reflexivity; subst n; contradiction.
Qed.

Lemma testbit_set (g p i : Z) :
  0 <= p -> Z.testbit (Z.lor g (2 ^ p)) i = Z.testbit g i || (p =? i).
Proof.
  intros Hp. rewrite Z.lor_spec, Z.pow2_bits_eqb by exact Hp. reflexivity.
Qed.

Lemma testbit_clear (g p i : Z) :
  0 <= p -> 0 <= i < 32 ->
  Z.testbit (Z.land g (wrap32 (Z.lnot (2 ^ p)))) i
  = Z.testbit g i && negb (p =? i).
Proof.
  intros Hp Hi. rewrite Z.land_spec. unfold wrap32.
  rewrite Z.mod_pow2_bits_low by lia.
  rewrite Z.lnot_spec by lia. rewrite Z.pow2_bits_eqb by lia. reflexivity.
Qed.

Lemma in_map_tlist (t : nat) (l : list nat) :
  In (tlist t) (map tlist l) -> In t l.
Proof.
  intros Hin. apply in_map_iff in Hin. destruct Hin as (u & E & Hin).
  inversion E. subst u. exact Hin.
Qed.

(** With [ready_queues], the bitmap invariant holds. *)
Lemma ready_queues_bitmap (k : kernel) (q : Z -> list nat) :
  ready_queues k q -> ready_bitmap_inv k.
Proof.
  intros (Hc & _ & Hb) p Hp. rewrite (Hb p Hp).
  destruct (Hc p Hp) as [Hch _]. unfold t_list_isempty.
  rewrite (chain_next _ _ _ _ Hch).
  destruct (q p) as [|t l]; cbn [map hd].
  - destruct (node_eq_dec (ready_list p) (ready_list p)) as [_|E];
      [reflexivity | congruence].
  - destruct (node_eq_dec (tlist t) (ready_list p)) as [E|_];
      [discriminate E | reflexivity].
Qed.

(** The nodes of two different ready queues are apart. *)
Lemma ready_queues_apart (k : kernel) (q : Z -> list nat) (p p' : Z)
    (n : node) :
  ready_queues k q ->
  0 <= p < TO_THREAD_PRIORITY_MAX -> 0 <= p' < TO_THREAD_PRIORITY_MAX ->
  p <> p' ->
  In n (ready_list p :: map tlist (q p)) ->
  ~ In n (ready_list p' :: map tlist (q p')).
Proof.
  intros (_ & Hpr & _) Hp Hp' Hne [E|Hin] [E'|Hin']; subst.
  - inversion E'. congruence.
  - apply in_map_iff in Hin'. destruct Hin' as (u & E & _). discriminate E.
  - apply in_map_iff in Hin. destruct Hin as (u & E & _). discriminate E.
  - apply in_map_iff in Hin. destruct Hin as (u & E & Hin). subst n.
    apply in_map_tlist in Hin'.
    destruct (Hpr p u Hp Hin) as [E1 _].
    destruct (Hpr p' u Hp' Hin') as [E2 _]. congruence.
Qed.

Lemma t_sched_insert_thread_fields (k : kernel) (t : nat) :
  lnk (t_sched_insert_thread (Some t) k)
  = t_list_insert_before (ready_list (current_priority (threads k t)))
      (tlist t) (lnk k) /\
  threads (t_sched_insert_thread (Some t) k) = threads k /\
  t_thread_ready_priority_group (t_sched_insert_thread (Some t) k)
  = Z.lor (t_thread_ready_priority_group k) (number_mask (threads k t)).
Proof. repeat split. Qed.

Lemma t_sched_remove_thread_fields (k : kernel) (t : nat) :
  lnk (t_sched_remove_thread (Some t) k) = t_list_delete (tlist t) (lnk k) /\
  threads (t_sched_remove_thread (Some t) k) = threads k /\
  t_thread_ready_priority_group (t_sched_remove_thread (Some t) k)
  = if t_list_isempty (ready_list (current_priority (threads k t)))
         (t_list_delete (tlist t) (lnk k))
    then Z.land (t_thread_ready_priority_group k)
           (wrap32 (Z.lnot (number_mask (threads k t))))
    else t_thread_ready_priority_group k.
Proof.
  unfold t_sched_remove_thread, t_irq_disable, t_irq_enable.
  cbn [with_links set_lnk set_primask lnk threads
       t_thread_ready_priority_group].
  destruct (t_list_isempty (ready_list (current_priority (threads k t)))
              (t_list_delete (tlist t) (lnk k))); repeat split.
Qed.

(** [t_sched_insert_thread] of a thread that is in no ready queue puts it
    last in the queue of its priority, and the bitmap follows. *)
Theorem t_sched_insert_thread_keeps_ready_queues (k : kernel)
    (q : Z -> list nat) (t : nat) (p : Z) :
  ready_queues k q ->
  0 <= p < TO_THREAD_PRIORITY_MAX ->
  current_priority (threads k t) = p ->
  number_mask (threads k t) = 2 ^ p ->
  (forall p', 0 <= p' < TO_THREAD_PRIORITY_MAX -> ~ In t (q p')) ->
  ready_queues (t_sched_insert_thread (Some t) k)
    (with_queue q p (q p ++ [t])).
Proof.
  intros Hq Hp Hcp Hmask Hout.
  destruct (t_sched_insert_thread_fields k t) as (El & Et & Eg).
  pose proof Hq as (Hc & Hpr & Hb).
  unfold ready_queues, ready_bit, with_queue. rewrite El, Et, Eg, Hcp, Hmask.
  split; [|split].
  - intros p' Hp'. unfold upd. destruct (Z.eq_dec p' p) as [E|Hne].
    + subst p'. rewrite map_app. cbn [map].
      apply t_list_insert_before_tail; [|apply (Hc p Hp)].
      intros [E|Hin]; [discriminate E|].
      apply in_map_tlist in Hin. apply (Hout p Hp Hin).
    + apply t_list_insert_before_frame; [| | |apply (Hc p' Hp')].
      * intros [E|Hin]; [discriminate E|].
        apply in_map_tlist in Hin. apply (Hout p' Hp' Hin).
      * apply (ready_queues_apart k q p p'); auto. left. reflexivity.
      * apply (ready_queues_apart k q p p'); auto.
        destruct (Hc p Hp) as [Hch _].
        rewrite (chain_prev _ _ _ _ Hch). apply last_in.
  - intros p' t' Hp'. unfold upd. destruct (Z.eq_dec p' p) as [E|Hne].
    + subst p'. intros Hin. apply in_app_or in Hin.
      destruct Hin as [Hin|[E|[]]]; [apply (Hpr p t' Hp Hin)|].
      subst t'. auto.
    + apply (Hpr p' t' Hp').
  - intros p' Hp'. rewrite testbit_set by lia. fold (ready_bit p' k).
    rewrite (Hb p' Hp'). unfold upd.
    destruct (Z.eq_dec p' p) as [E|Hne].
    + subst p'. rewrite Z.eqb_refl, orb_true_r.
      destruct (q p); reflexivity.
    + destruct (Z.eqb_spec p p') as [E|_]; [congruence|].
      apply orb_false_r.
Qed.

(** [t_sched_remove_thread] of a queued thread takes it out of the queue of
    its priority, and the bitmap follows. *)
Theorem t_sched_remove_thread_keeps_ready_queues (k : kernel)
    (q : Z -> list nat) (t : nat) (p : Z) (l1 l2 : list nat) :
  ready_queues k q ->
  0 <= p < TO_THREAD_PRIORITY_MAX ->
  q p = l1 ++ t :: l2 ->
  ready_queues (t_sched_remove_thread (Some t) k)
    (with_queue q p (l1 ++ l2)).
Proof.
  intros Hq Hp Hqp.
  destruct (t_sched_remove_thread_fields k t) as (El & Et & Eg).
  pose proof Hq as (Hc & Hpr & Hb).
  assert (Hin : In t (q p)).
  { rewrite Hqp. apply in_or_app. right. left. reflexivity. }
  destruct (Hpr p t Hp Hin) as [Hcp Hmask].
  pose proof (Hc p Hp) as Hcirc. rewrite Hqp, map_app in Hcirc.
  cbn [map] in Hcirc.
  pose proof (t_list_delete_member _ _ _ _ _ Hcirc) as Hnew.
  destruct (circular_member _ _ _ _ _ Hcirc) as [Hpx Hnx].
  rewrite Hcp, Hmask in Eg.
  assert (Hemp : t_list_isempty (ready_list p)
                   (t_list_delete (tlist t) (lnk k))
                 = match l1 ++ l2 with [] => true | _ => false end).
  { destruct Hnew as [Hch _]. unfold t_list_isempty.
    rewrite (chain_next _ _ _ _ Hch). rewrite <- map_app.
    destruct (l1 ++ l2) as [|u l]; cbn [map hd].
    - destruct (node_eq_dec (ready_list p) (ready_list p)) as [_|E];
      [reflexivity | congruence].
    - destruct (node_eq_dec (tlist u) (ready_list p)) as [E|_];
        [discriminate E | reflexivity]. }
  rewrite Hemp in Eg.
  unfold ready_queues, ready_bit, with_queue. rewrite El, Et, Eg.
  split; [|split].
  - intros p' Hp'. unfold upd. destruct (Z.eq_dec p' p) as [E|Hne].
    + subst p'. rewrite map_app. exact Hnew.
    + assert (Hmem : forall n,
                In n (ready_list p :: map tlist (q p)) ->
                ~ In n (ready_list p' :: map tlist (q p'))).
      { intros n Hn. apply (ready_queues_apart k q p p'); auto. }
      apply t_list_delete_frame; [| | |apply (Hc p' Hp')].
      * apply Hmem. right. apply in_map. exact Hin.
      * apply Hmem. rewrite Hpx, Hqp, map_app.
        destruct (last_in (ready_list p) (map tlist l1)) as [E|Hl];
          [left; exact E|].
        right. apply in_or_app. left. exact Hl.
      * apply Hmem. rewrite Hnx, Hqp, map_app.
        destruct (hd_in (ready_list p) (map tlist l2)) as [E|Hl];
          [left; exact E|].
        right. apply in_or_app. right. right. exact Hl.
  - intros p' t' Hp'. unfold upd. destruct (Z.eq_dec p' p) as [E|Hne].
    + subst p'. intros Hin'. apply (Hpr p t' Hp). rewrite Hqp.
      apply in_app_or in Hin'. apply in_or_app.
      destruct Hin' as [H|H]; [left; exact H | right; right; exact H].
    + apply (Hpr p' t' Hp').
  - intros p' Hp'. unfold upd. destruct (Z.eq_dec p' p) as [E|Hne].
    + subst p'. destruct (l1 ++ l2) as [|u l] eqn:El12.
      * rewrite testbit_clear by (unfold TO_THREAD_PRIORITY_MAX in Hp; lia).
        rewrite Z.eqb_refl. apply andb_false_r.
      * fold (ready_bit p k). rewrite (Hb p Hp), Hqp.
        destruct l1; reflexivity.
    + fold (ready_bit p' k).
      destruct (l1 ++ l2) as [|u l].
      * rewrite testbit_clear
          by (unfold TO_THREAD_PRIORITY_MAX in Hp, Hp'; lia).
        fold (ready_bit p' k).
        destruct (Z.eqb_spec p p') as [E|_]; [congruence|].
        rewrite andb_true_r. apply (Hb p' Hp').
      * apply (Hb p' Hp').
Qed.

(** [TO_THREAD_SET_PRIORITY] on a thread that is in no ready queue leaves
    the queues as they are. *)
Lemma t_thread_ctrl_set_priority_unqueued (k : kernel) (q : Z -> list nat)
    (t : nat) (v : Z) :
  ready_queues k q ->
  (forall p, 0 <= p < TO_THREAD_PRIORITY_MAX -> ~ In t (q p)) ->
  ready_queues
    (snd (t_thread_ctrl (Some t) TO_THREAD_SET_PRIORITY (Some v) k)) q.
Proof.
  intros (Hc & Hpr & Hb) Hout. split; [|split].
  - exact Hc.
  - intros p u Hp Hin.
    assert (Hne : u <> t) by (intros E; subst u; apply (Hout p Hp Hin)).
    cbn. rewrite !upd_other by exact Hne. apply (Hpr p u Hp Hin).
  - exact Hb.
Qed.

Lemma priority_cases (p : Z) :
  0 <= p < TO_THREAD_PRIORITY_MAX ->
  In p (map Z.of_nat (seq 0 (Z.to_nat TO_THREAD_PRIORITY_MAX))).
Proof.
  intros Hp. apply in_map_iff. exists (Z.to_nat p).
  split; [lia|]. apply in_seq. unfold TO_THREAD_PRIORITY_MAX in *. lia.
Qed.

(** After [t_tortos_init] the idle thread is alone in the queue of
    priority 0. *)
Lemma booted_ready_queues :
  ready_queues booted (with_queue (fun _ => []) 0 [idle_thread]).
Proof.
  split; [|split].
  - intros p Hp. apply priority_cases in Hp. cbn in Hp.
    repeat (destruct Hp as [Hp|Hp];
            [subst p; split;
             [vm_compute; repeat split
             | repeat (constructor; [cbn; intuition discriminate|]);
               constructor]|]).
    destruct Hp.
  - intros p t Hp Hin. unfold with_queue, upd in Hin.
    destruct (Z.eq_dec p 0) as [E|_]; [|destruct Hin].
    destruct Hin as [E'|[]]. subst p t. vm_compute. split; reflexivity.
  - intros p Hp. apply priority_cases in Hp. cbn in Hp.
    repeat (destruct Hp as [Hp|Hp]; [subst p; reflexivity|]).
    destruct Hp.
Qed.

(** * Further properties of the kernel *)

(** ** Circular lists: any position *)

Lemma NoDup_app_apart (A : Type) (a b : list A) (x : A) :
  NoDup (a ++ b) -> In x a -> ~ In x b.
Proof.
  induction a as [|y a IH]; intros Hnd Hin Hb; [destruct Hin|].
  cbn [app] in Hnd. apply NoDup_cons_iff in Hnd. destruct Hnd as [Hy Hnd].
  destruct Hin as [E|Hin].
  - subst y. apply Hy. apply in_or_app. right. exact Hb.
  - apply (IH Hnd Hin Hb).
Qed.

Lemma NoDup_app_swap (A : Type) (a b : list A) :
  NoDup (a ++ b) -> NoDup (b ++ a).
Proof.
  intros Hnd. apply NoDup_app.
  - apply (NoDup_app_remove_l _ _ Hnd).
  - apply (NoDup_app_remove_r _ _ Hnd).
  - intros x Hb Ha. apply (NoDup_app_apart _ _ _ _ Hnd Ha Hb).
Qed.

(** A circular list read from another of its nodes. *)
Lemma circular_rotate (h : links) (s x : node) (l1 l2 : list node) :
  circular h s (l1 ++ x :: l2) -> circular h x (l2 ++ s :: l1).
Proof.
  intros [Hc Hnd]. apply chain_app in Hc. destruct Hc as [H1 H2]. split.
  - apply chain_app. split; assumption.
  - change (NoDup ((x :: l2) ++ (s :: l1))).
    apply NoDup_app_swap. exact Hnd.
Qed.

Lemma t_list_insert_after_member (h : links) (s x n : node)
    (l1 l2 : list node) :
  circular h s (l1 ++ x :: l2) ->
  ~ In n (s :: l1 ++ x :: l2) ->
  circular (t_list_insert_after x n h) s (l1 ++ x :: n :: l2).
Proof.
  intros Hc Hn. apply circular_rotate in Hc.
  assert (Hn' : ~ In n (x :: l2 ++ s :: l1)).
  { intros Hin. apply Hn.
    change (In n ((s :: l1) ++ (x :: l2))). apply in_or_app.
    change (In n ((x :: l2) ++ (s :: l1))) in Hin. apply in_app_or in Hin.
    tauto. }
  pose proof (t_list_insert_after_head _ _ _ _ Hn' Hc) as H.
  change (circular (t_list_insert_after x n h) x ((n :: l2) ++ s :: l1)) in H.
  apply circular_rotate in H. exact H.
Qed.

Lemma t_list_insert_before_member (h : links) (s x n : node)
    (l1 l2 : list node) :
  circular h s (l1 ++ x :: l2) ->
  ~ In n (s :: l1 ++ x :: l2) ->
  circular (t_list_insert_before x n h) s (l1 ++ n :: x :: l2).
Proof.
  intros Hc Hn. apply circular_rotate in Hc.
  assert (Hn' : ~ In n (x :: l2 ++ s :: l1)).
  { intros Hin. apply Hn.
    change (In n ((s :: l1) ++ (x :: l2))). apply in_or_app.
    change (In n ((x :: l2) ++ (s :: l1))) in Hin. apply in_app_or in Hin.
    tauto. }
  pose proof (t_list_insert_before_tail _ _ _ _ Hn' Hc) as H.
  rewrite <- app_assoc in H. cbn [app] in H.
  apply circular_rotate in H. rewrite <- app_assoc in H. exact H.
Qed.

(** ** list.c *)

(** [t_list_insert_before] and [t_list_insert_after], at the head of a
    circular list and at any of its nodes: the new node becomes the last or
    the first member, or the neighbour of the node on that side; the other
    members keep their order. *)
Theorem t_list_insert_positions (h : links) (s n : node) (l : list node) :
  circular h s l ->
  ~ In n (s :: l) ->
  circular (t_list_insert_before s n h) s (l ++ [n]) /\
  circular (t_list_insert_after s n h) s (n :: l) /\
  (forall l1 x l2, l = l1 ++ x :: l2 ->
     circular (t_list_insert_before x n h) s (l1 ++ n :: x :: l2) /\
     circular (t_list_insert_after x n h) s (l1 ++ x :: n :: l2)).
Proof.
  intros Hc Hn. split; [|split].
  - apply t_list_insert_before_tail; assumption.
  - apply t_list_insert_after_head; assumption.
  - intros l1 x l2 E. subst l. split.
    + apply t_list_insert_before_member; assumption.
    + apply t_list_insert_after_member; assumption.
Qed.

(** Three threads queued one after the other on an empty ready list. *)
Lemma t_list_insert_positions_witness :
  circular
    (t_list_insert_before (ready_list 0) (tlist 3)
       (t_list_insert_before (ready_list 0) (tlist 2)
          (t_list_insert_before (ready_list 0) (tlist 1)
             (t_list_init (ready_list 0) (lnk at_reset)))))
    (ready_list 0) [tlist 1; tlist 2; tlist 3].
Proof.
  assert (H0 : circular (t_list_init (ready_list 0) (lnk at_reset))
                 (ready_list 0) []).
  { split; [split; reflexivity|]. repeat constructor. intros []. }
  assert (H1 := proj1 (t_list_insert_positions _ _ (tlist 1) _ H0
                         ltac:(cbn; intuition discriminate))).
  assert (H2 := proj1 (t_list_insert_positions _ _ (tlist 2) _ H1
                         ltac:(cbn; intuition discriminate))).
  exact (proj1 (t_list_insert_positions _ _ (tlist 3) _ H2
                  ltac:(cbn; intuition discriminate))).
Defined.

Lemma t_list_delete_self (h : links) (d : node) :
  next (t_list_delete d h) d = d /\ prev (t_list_delete d h) d = d.
Proof.
  rewrite t_list_delete_next, t_list_delete_prev.
  destruct (node_eq_dec d d) as [_|E]; [auto | congruence].
Qed.

(** [t_list_delete] of a node that is linked to itself changes nothing. *)
Lemma t_list_delete_detached (h : links) (d : node) :
  next h d = d -> prev h d = d ->
  forall n, next (t_list_delete d h) n = next h n /\
            prev (t_list_delete d h) n = prev h n.
Proof.
  intros Hn Hp n. rewrite t_list_delete_next, t_list_delete_prev, Hn, Hp.
  destruct (node_eq_dec n d) as [E|_]; [subst n; auto|]. auto.
Qed.

(** [t_list_delete] of a member of a circular list: the others stay, in
    their order; the node is left linked to itself, so that deleting it
    once more changes nothing. *)
Theorem t_list_delete_unlinks (h : links) (s x : node) (l1 l2 : list node) :
  circular h s (l1 ++ x :: l2) ->
  circular (t_list_delete x h) s (l1 ++ l2) /\
  next (t_list_delete x h) x = x /\
  prev (t_list_delete x h) x = x /\
  (forall n,
     next (t_list_delete x (t_list_delete x h)) n
     = next (t_list_delete x h) n /\
     prev (t_list_delete x (t_list_delete x h)) n
     = prev (t_list_delete x h) n).
Proof.
  intros Hc. destruct (t_list_delete_self h x) as [Hn Hp].
  split; [apply t_list_delete_member; exact Hc|].
  split; [exact Hn|]. split; [exact Hp|].
  apply t_list_delete_detached; assumption.
Qed.

(** The second of the three threads is taken out. *)
Lemma t_list_delete_unlinks_witness :
  circular
    (t_list_delete (tlist 2)
       (t_list_insert_before (ready_list 0) (tlist 3)
          (t_list_insert_before (ready_list 0) (tlist 2)
             (t_list_insert_before (ready_list 0) (tlist 1)
                (t_list_init (ready_list 0) (lnk at_reset))))))
    (ready_list 0) [tlist 1; tlist 3].
Proof.
  apply (t_list_delete_unlinks _ (ready_list 0) (tlist 2) [tlist 1] [tlist 3]).
  split; [vm_compute; repeat split|].
  repeat (constructor; [cbn; intuition discriminate|]). constructor.
Defined.

Lemma t_list_length_from_chain (h : links) (s : node) (l : list node) :
  forall (fuel : nat) (p : node) (acc : Z),
  chain h p l s -> ~ In s l ->
  (length l < fuel)%nat ->
  0 <= acc -> acc + Z.of_nat (length l) < 2 ^ 32 ->
  t_list_length_from fuel s p acc h = Ok (acc + Z.of_nat (length l)).
Proof.
  induction l as [|x l IH]; intros fuel p acc Hc Hs Hfuel Hacc Hlt;
    (destruct fuel as [|fuel]; [cbn in Hfuel; lia|]);
    cbn [t_list_length_from].
  - destruct Hc as [Hn _]. rewrite Hn.
    destruct (node_eq_dec s s) as [_|E]; [|congruence].
    cbn [length]. rewrite Z.add_0_r. reflexivity.
  - destruct Hc as (Hn & _ & Hc). rewrite Hn.
    destruct (node_eq_dec x s) as [E|_];
      [exfalso; apply Hs; left; exact E|].
    cbn [length] in *.
    rewrite (IH fuel x (wrap32 (acc + 1))).
    + rewrite wrap32_small by lia. f_equal. lia.
    + exact Hc.
    + intros Hin. apply Hs. right. exact Hin.
    + lia.
    + rewrite wrap32_small by lia. lia.
    + rewrite wrap32_small by lia. lia.
Qed.

(** [t_list_length] counts the members of a circular list and
    [t_list_isempty] says whether there is none. *)
Theorem t_list_length_counts (h : links) (s : node) (l : list node)
    (fuel : nat) :
  circular h s l ->
  (length l < fuel)%nat ->
  Z.of_nat (length l) < 2 ^ 32 ->
  t_list_length fuel s h = Ok (Z.of_nat (length l)) /\
  t_list_isempty s h = match l with [] => true | _ => false end.
Proof.
  intros [Hc Hnd] Hfuel Hlt. split.
  - unfold t_list_length.
    rewrite (t_list_length_from_chain h s l fuel s 0 Hc); [reflexivity| | | |].
    + apply NoDup_cons_iff in Hnd. apply Hnd.
    + exact Hfuel.
    + lia.
    + lia.
  - unfold t_list_isempty. rewrite (chain_next _ _ _ _ Hc).
    destruct l as [|x l]; cbn [hd].
    + destruct (node_eq_dec s s) as [_|E]; [reflexivity | congruence].
    + destruct (node_eq_dec x s) as [E|_]; [|reflexivity].
      exfalso. apply NoDup_cons_iff in Hnd. apply (proj1 Hnd).
      left. exact E.
Qed.

Lemma t_list_length_counts_witness :
  t_list_length 4 (ready_list 0)
    (t_list_insert_before (ready_list 0) (tlist 3)
       (t_list_insert_before (ready_list 0) (tlist 2)
          (t_list_insert_before (ready_list 0) (tlist 1)
             (t_list_init (ready_list 0) (lnk at_reset)))))
  = Ok 3.
Proof.
  apply (t_list_length_counts _ (ready_list 0) [tlist 1; tlist 2; tlist 3] 4).
  - split; [vm_compute; repeat split|].
    repeat (constructor; [cbn; intuition discriminate|]). constructor.
  - cbn. lia.
  - cbn. lia.
Defined.

(** ** Priorities, ticks and stack frames *)

(** [get_highest_ready_priority] of a ready group with a bit set is the
    position of its highest set bit, below [TO_THREAD_PRIORITY_MAX]; of an
    empty group it is [2^32 - 1], which [t_sched_switch] rejects. *)
Theorem get_highest_ready_priority_top_bit (g : Z) :
  0 < g < 2 ^ 32 ->
  0 <= get_highest_ready_priority g < TO_THREAD_PRIORITY_MAX /\
  Z.testbit g (get_highest_ready_priority g) = true /\
  (forall p, get_highest_ready_priority g < p -> Z.testbit g p = false) /\
  get_highest_ready_priority 0 = 2 ^ 32 - 1.
Proof.
  intros Hg. unfold get_highest_ready_priority.
  cbn [TO_LOWER_PRIORITY_NUM_HIGHER_PRIORITY]. unfold __t_fls.
  destruct (Z.eqb_spec g 0) as [E|_]; [lia|].
  replace (Z.log2 g + 1 - 1) with (Z.log2 g) by lia.
  assert (Hlog : 0 <= Z.log2 g < 32).
  { split; [apply Z.log2_nonneg|]. apply Z.log2_lt_pow2; lia. }
  rewrite wrap32_small by lia.
  split; [unfold TO_THREAD_PRIORITY_MAX; lia|].
  split; [apply Z.bit_log2; lia|].
  split; [intros p Hp; apply Z.bits_above_log2; lia | reflexivity].
Qed.

(** Bits 0 and 3 set: priority 3 is picked. *)
Lemma get_highest_ready_priority_top_bit_witness :
  get_highest_ready_priority 9 = 3 /\
  Z.testbit 9 (get_highest_ready_priority 9) = true.
Proof.
  split; [reflexivity|].
  apply (get_highest_ready_priority_top_bit 9). lia.
Defined.

(** [s_tick_from_ms] is exact up to 4294967 ms; from 4294968 ms on the
    product [ms * TO_TICK] wraps and the result is smaller than [ms]. *)
Theorem s_tick_from_ms_range (ms : Z) :
  0 <= ms < 2 ^ 32 ->
  (ms <= 4294967 -> s_tick_from_ms ms = ms) /\
    (4294967 < ms -> s_tick_from_ms ms <= 4294967) /\
    s_tick_from_ms 4294968 = 0.
Proof.
  intros Hms. unfold s_tick_from_ms, TO_TICK.
  split; [|split].
  - intros Hle. destruct (Z.eqb_spec ms 0) as [E|_]; [lia|].
    rewrite wrap32_small by lia. apply Z.div_mul. lia.
  - intros Hgt. destruct (Z.eqb_spec ms 0) as [E|_]; [lia|].
    unfold wrap32.
    pose proof (Z.mod_pos_bound (ms * 1000) (2 ^ 32) ltac:(lia)) as Hb.
    apply Z.lt_succ_r. apply Z.div_lt_upper_bound; lia.
  - reflexivity.
Qed.

Lemma s_tick_from_ms_range_witness :
  s_tick_from_ms 250 = 250.
Proof. apply (s_tick_from_ms_range 250); lia. Defined.

Lemma land_align8 (x : Z) :
  0 <= x < 2 ^ 32 -> Z.land x (wrap32 (Z.lnot 7)) = x - x mod 8.
Proof.
  intros Hx.
  replace (wrap32 (Z.lnot 7)) with (Z.shiftl (Z.ones 29) 3) by reflexivity.
  replace (x - x mod 8) with (Z.shiftl (Z.shiftr x 3) 3).
  2:{ rewrite Z.shiftl_mul_pow2, Z.shiftr_div_pow2 by lia.
      change (2 ^ 3) with 8. pose proof (Z.div_mod x 8 ltac:(lia)). lia. }
  apply Z.bits_inj'. intros i Hi.
  rewrite Z.land_spec, !Z.shiftl_spec by lia.
  destruct (Z.ltb_spec i 3) as [Hlt|Hge].
  - rewrite (Z.testbit_neg_r _ (i - 3)) by lia.
    rewrite (Z.testbit_neg_r _ (i - 3)) by lia. apply andb_false_r.
  - rewrite Z.shiftr_spec by lia. replace (i - 3 + 3) with i by lia.
    destruct (Z.ltb_spec i 32) as [Hlt|Hge32].
    + rewrite Z.ones_spec_low by lia. apply andb_true_r.
    + rewrite Z.ones_spec_high by lia. rewrite andb_false_r.
      symmetry. destruct (Z.eq_dec x 0) as [->|Hx0]; [apply Z.bits_0|].
      apply Z.bits_above_log2; [lia|].
      apply Z.lt_le_trans with 32; [|lia]. apply Z.log2_lt_pow2; lia.
Qed.

(** The initial stack pointer that [t_stack_init] gives a thread created
    with [t_thread_create_static]: 68 bytes (the 17 words of the frame)
    below the 8-byte aligned top of the stack, so 4 modulo 8.  With a stack
    of 75 bytes or more the frame is inside the stack buffer; the size is
    not checked, and with less than 68 bytes the frame starts below the
    buffer. *)
Theorem t_thread_create_static_frame (entry stackaddr stacksize priority
    arg time_slice : Z) (t : nat) (k : kernel) :
  entry <> 0 -> 76 <= stackaddr -> 0 < stacksize ->
  stackaddr + stacksize < 2 ^ 32 ->
  0 <= priority < TO_THREAD_PRIORITY_MAX -> time_slice <> 0 ->
  exists k',
    t_thread_create_static entry stackaddr stacksize priority arg
      time_slice (Some t) k = (T_OK, k') /\
    psp (threads k' t)
    = stackaddr + stacksize - (stackaddr + stacksize) mod 8 - 68 /\
    psp (threads k' t) mod 8 = 4 /\
    (75 <= stacksize ->
     stackaddr <= psp (threads k' t) /\
    psp (threads k' t) + 68 <= stackaddr + stacksize) /\
    (stacksize < 68 -> psp (threads k' t) < stackaddr).
Proof.
  intros He Hsa Hss Htop Hp Hts. unfold t_thread_create_static.
  destruct (Z.eqb_spec entry 0) as [E|_]; [contradiction|].
  destruct (Z.eqb_spec stackaddr 0) as [E|_]; [lia|].
  destruct (Z.eqb_spec stacksize 0) as [E|_]; [lia|].
  cbn [orb].
  destruct (Z.ltb_spec priority 0) as [E|_]; [lia|].
  destruct (Z.geb_spec priority TO_THREAD_PRIORITY_MAX) as [E|_]; [lia|].
  cbn [orb].
  destruct (Z.eqb_spec time_slice 0) as [E|_]; [contradiction|].
  eexists. split; [reflexivity|].
  cbn -[t_stack_init wrap32 Z.modulo]. rewrite !upd_same.
  cbn -[t_stack_init wrap32 Z.modulo].
  unfold t_stack_init. rewrite (wrap32_small (stackaddr + stacksize)) by lia.
  rewrite land_align8 by lia.
  pose proof (Z.mod_pos_bound (stackaddr + stacksize) 8 ltac:(lia)) as Hm.
  rewrite wrap32_small by lia.
  split; [reflexivity|]. split.
  - replace (stackaddr + stacksize - (stackaddr + stacksize) mod 8 - 68)
      with (4 + (((stackaddr + stacksize) / 8) - 9) * 8)
      by (pose proof (Z.div_mod (stackaddr + stacksize) 8 ltac:(lia)); lia).
    rewrite Z.mod_add by lia. reflexivity.
  - split; intros H; lia.
Qed.

(** The idle thread's stack: 256 bytes at 0x20000000. *)
Lemma t_thread_create_static_frame_witness :
  exists k',
    t_thread_create_static 0x08000100 0x20000000 256 0 0 5 (Some idle_thread)
      at_reset = (T_OK, k') /\
    psp (threads k' idle_thread) = 0x20000000 + 256 - 68.
Proof.
  destruct (t_thread_create_static_frame 0x08000100 0x20000000 256 0 0 5
              idle_thread at_reset)
    as (k' & Hr & Hpsp & _); try (unfold TO_THREAD_PRIORITY_MAX; lia).
  exists k'. split; [exact Hr|]. rewrite Hpsp. reflexivity.
Defined.

(** ** The scheduler over the ready queues *)

Lemma ready_queues_ext (k k' : kernel) (q : Z -> list nat) :
  lnk k' = lnk k ->
  t_thread_ready_priority_group k' = t_thread_ready_priority_group k ->
  (forall u, current_priority (threads k' u) = current_priority (threads k u)
             /\ number_mask (threads k' u) = number_mask (threads k u)) ->
  ready_queues k q -> ready_queues k' q.
Proof.
  intros Hl Hg Hu (Hc & Hpr & Hb). unfold ready_queues, ready_bit.
  rewrite Hl, Hg. split; [exact Hc|]. split; [|exact Hb].
  intros p t Hp Hin. destruct (Hu t) as [E1 E2]. rewrite E1, E2.
  apply (Hpr p t Hp Hin).
Qed.

(** The head of the queue that [get_highest_ready_priority] selects. *)
Lemma ready_queues_highest (k : kernel) (q : Z -> list nat) :
  ready_queues k q ->
  0 < t_thread_ready_priority_group k < 2 ^ 32 ->
  0 <= get_highest_ready_priority (t_thread_ready_priority_group k)
    < TO_THREAD_PRIORITY_MAX /\
  q (get_highest_ready_priority (t_thread_ready_priority_group k)) <> [] /\
  (forall p,
     get_highest_ready_priority (t_thread_ready_priority_group k) < p
       < TO_THREAD_PRIORITY_MAX ->
     q p = []).
Proof.
  intros (Hc & Hpr & Hb) Hg.
  unfold get_highest_ready_priority.
  cbn [TO_LOWER_PRIORITY_NUM_HIGHER_PRIORITY]. unfold __t_fls.
  destruct (Z.eqb_spec (t_thread_ready_priority_group k) 0) as [E|_]; [lia|].
  replace (Z.log2 (t_thread_ready_priority_group k) + 1 - 1)
    with (Z.log2 (t_thread_ready_priority_group k)) by lia.
  assert (Hlog : 0 <= Z.log2 (t_thread_ready_priority_group k) < 32).
  { split; [apply Z.log2_nonneg|]. apply Z.log2_lt_pow2; lia. }
  rewrite wrap32_small by lia.
  assert (Hr : 0 <= Z.log2 (t_thread_ready_priority_group k)
               < TO_THREAD_PRIORITY_MAX)
    by (unfold TO_THREAD_PRIORITY_MAX; lia).
  split; [exact Hr|]. split.
  - intros E. pose proof (Hb _ Hr) as H. rewrite E in H.
    unfold ready_bit in H. rewrite Z.bit_log2 in H by lia. discriminate.
  - intros p Hp. assert (Hp' : 0 <= p < TO_THREAD_PRIORITY_MAX) by lia.
    pose proof (Hb p Hp') as H. unfold ready_bit in H.
    rewrite Z.bits_above_log2 in H by lia.
    destruct (q p); [reflexivity | discriminate].
Qed.

Lemma ready_queues_head (k : kernel) (q : Z -> list nat) (p : Z) (t : nat)
    (rest : list nat) :
  ready_queues k q -> 0 <= p < TO_THREAD_PRIORITY_MAX ->
  q p = t :: rest ->
  next (lnk k) (ready_list p) = tlist t.
Proof.
  intros (Hc & _) Hp E. destruct (Hc p Hp) as [Hch _].
  rewrite E in Hch. cbn [map chain] in Hch. apply Hch.
Qed.

Lemma t_sched_switch_over_queues (k : kernel) (q : Z -> list nat)
    (t : nat) (rest : list nat) :
  ready_queues k q ->
  0 < t_thread_ready_priority_group k < 2 ^ 32 ->
  t_schedulue_suspend k = 0 ->
  q (get_highest_ready_priority (t_thread_ready_priority_group k))
    = t :: rest ->
  exists k',
    t_sched_switch k = Ok k' /\
    t_current_thread k' = Some t /\
    ready_queues k' q /\
    (forall p,
       get_highest_ready_priority (t_thread_ready_priority_group k) < p
         < TO_THREAD_PRIORITY_MAX ->
       q p = []) /\
    (t_current_thread k = Some t -> k' = k) /\
    (t_current_thread k <> Some t ->
     status (threads k' t) = TO_THREAD_RUNNING /\
     t_current_priority k'
       = get_highest_ready_priority (t_thread_ready_priority_group k) /\
     trace k' = trace k ++ [normal_switch (t_current_thread k) t] /\
     (forall u, t_current_thread k = Some u -> u <> t ->
        status (threads k' u)
        = if status (threads k u) =? TO_THREAD_RUNNING
          then TO_THREAD_READY else status (threads k u))).
Proof.
  intros Hq Hg Hs Ehd.
  destruct (ready_queues_highest k q Hq Hg) as (Hr & _ & Hhigher).
  pose proof (ready_queues_head k q _ t rest Hq Hr Ehd) as Hnext.
  pose proof Hq as (_ & Hpr & _).
  assert (Hin : In t (q (get_highest_ready_priority
                            (t_thread_ready_priority_group k))))
    by (rewrite Ehd; left; reflexivity).
  destruct (Hpr _ t Hr Hin) as [Hcp _].
  unfold t_sched_switch. rewrite Hs. cbn [Z.eqb negb].
  destruct (Z.geb_spec
              (get_highest_ready_priority (t_thread_ready_priority_group k))
              TO_THREAD_PRIORITY_MAX) as [E|_]; [lia|].
  rewrite Hnext. cbn [T_LIST_ENTRY_thread].
  destruct (option_nat_eqb (t_current_thread k) (Some t)) eqn:Hcur.
  - apply option_nat_eqb_eq in Hcur. exists k.
    split; [reflexivity|]. split; [exact Hcur|]. split; [exact Hq|].
    split; [exact Hhigher|]. split; [reflexivity|].
    intros Hne. contradiction.
  - assert (Hne : t_current_thread k <> Some t).
    { intros E. apply option_nat_eqb_eq in E. congruence. }
    clear Hcur.
    destruct (t_current_thread k) as [pt|] eqn:Ecur;
      [assert (Hpt : pt <> t) by congruence;
       cbn [threads set_t_current_thread];
       destruct (status (threads k pt) =? TO_THREAD_RUNNING) eqn:Est|];
      (eexists; split; [reflexivity|];
       split; [reflexivity|];
       split;
       [apply (ready_queues_ext k); [reflexivity | reflexivity | | exact Hq];
        intros u; cbn; unfold upd;
        repeat (destruct (Nat.eq_dec _ _)); subst; cbn; auto|];
       split; [exact Hhigher|];
       split; [intros E; congruence|];
       intros _;
       split; [cbn; rewrite upd_same; reflexivity|];
       split;
       [cbn -[get_highest_ready_priority]; rewrite upd_same;
        cbn -[get_highest_ready_priority]; unfold upd;
        repeat (destruct (Nat.eq_dec _ _)); subst;
        cbn -[get_highest_ready_priority]; try congruence; exact Hcp|];
       split; [reflexivity|];
       intros u Eu Hut; inversion Eu; subst; cbn; unfold upd;
       repeat (destruct (Nat.eq_dec _ _)); subst; cbn;
       rewrite ?Est; try congruence; reflexivity).
Qed.

(** [t_sched_switch] over well-formed ready queues with a ready thread.
    While the scheduler is suspended it does nothing.  Otherwise the
    first thread of the highest-priority queue that is not empty becomes
    the running thread; nothing changes if it already is; if not, it is
    marked RUNNING, the thread that ran goes back to READY if it was
    RUNNING, and the context switch is requested.  The ready queues are not
    touched. *)
Theorem t_sched_switch_runs_head (k : kernel) (q : Z -> list nat)
    (t : nat) (rest : list nat) :
  ready_queues k q ->
  0 < t_thread_ready_priority_group k < 2 ^ 32 ->
  q (get_highest_ready_priority (t_thread_ready_priority_group k))
    = t :: rest ->
  (t_schedulue_suspend k <> 0 -> t_sched_switch k = Ok k) /\
  (t_schedulue_suspend k = 0 ->
   exists k',
     t_sched_switch k = Ok k' /\
     t_current_thread k' = Some t /\
     ready_queues k' q /\
     (forall p,
        get_highest_ready_priority (t_thread_ready_priority_group k) < p
          < TO_THREAD_PRIORITY_MAX ->
        q p = []) /\
     (t_current_thread k = Some t -> k' = k) /\
     (t_current_thread k <> Some t ->
      status (threads k' t) = TO_THREAD_RUNNING /\
      t_current_priority k'
        = get_highest_ready_priority (t_thread_ready_priority_group k) /\
      trace k' = trace k ++ [normal_switch (t_current_thread k) t] /\
      (forall u, t_current_thread k = Some u -> u <> t ->
         status (threads k' u)
         = if status (threads k u) =? TO_THREAD_RUNNING
           then TO_THREAD_READY else status (threads k u)))).
Proof.
  intros Hq Hg Ehd. split.
  - intros Hs. apply t_sched_switch_suspended. exact Hs.
  - intros Hs. apply (t_sched_switch_over_queues k q t rest); assumption.
Qed.

Ltac ready_queues_by_cases :=
  split; [|split];
  [ let p := fresh "p" in
    let Hp := fresh "Hp" in
    intros p Hp; apply priority_cases in Hp; cbn in Hp;
    repeat (destruct Hp as [Hp|Hp];
            [subst p; split;
             [vm_compute; repeat split
             | repeat (constructor; [cbn; intuition discriminate|]);
               constructor]|]);
    destruct Hp
  | let p := fresh "p" in
    let t := fresh "t" in
    let Hp := fresh "Hp" in
    let Hin := fresh "Hin" in
    intros p t Hp Hin; apply priority_cases in Hp; cbn in Hp;
    repeat (destruct Hp as [Hp|Hp];
            [subst p; cbn in Hin;
             repeat (destruct Hin as [Hin|Hin];
                     [subst t; vm_compute; split; reflexivity|]);
             destruct Hin|]);
    destruct Hp
  | let p := fresh "p" in
    let Hp := fresh "Hp" in
    intros p Hp; apply priority_cases in Hp; cbn in Hp;
    repeat (destruct Hp as [Hp|Hp]; [subst p; reflexivity|]);
    destruct Hp ].

Lemma worker_ready_queues : ready_queues worker_ready worker_ready_q.
Proof. ready_queues_by_cases. Qed.

(** Before [t_sched_start], with the worker ready at priority 3: the switch
    picks the worker. *)
Lemma t_sched_switch_runs_head_witness :
  exists k',
    t_sched_switch worker_ready = Ok k' /\
    t_current_thread k' = Some worker.
Proof.
  destruct (proj2 (t_sched_switch_runs_head worker_ready worker_ready_q
                     worker [] worker_ready_queues
                     ltac:(vm_compute; split; reflexivity) eq_refl) eq_refl)
    as (k' & H1 & H2 & _).
  exists k'. split; assumption.
Defined.

(** [t_sched_start] over well-formed ready queues with a ready thread: the
    first thread of the highest-priority queue that is not empty is made
    the running thread, with a full time slice, and the first context
    switch is requested. *)
Theorem t_sched_start_runs_head (k : kernel) (q : Z -> list nat)
    (t : nat) (rest : list nat) :
  ready_queues k q ->
  0 < t_thread_ready_priority_group k < 2 ^ 32 ->
  q (get_highest_ready_priority (t_thread_ready_priority_group k))
    = t :: rest ->
  exists k',
    t_sched_start k = Ok k' /\
    t_current_thread k' = Some t /\
    status (threads k' t) = TO_THREAD_RUNNING /\
    remaining_tick (threads k' t) = init_tick (threads k t) /\
    t_current_priority k'
      = get_highest_ready_priority (t_thread_ready_priority_group k) /\
    trace k' = trace k ++ [first_switch t] /\
    ready_queues k' q /\
    (forall p,
       get_highest_ready_priority (t_thread_ready_priority_group k) < p
         < TO_THREAD_PRIORITY_MAX ->
       q p = []).
Proof.
  intros Hq Hg Ehd.
  destruct (ready_queues_highest k q Hq Hg) as (Hr & _ & Hhigher).
  pose proof (ready_queues_head k q _ t rest Hq Hr Ehd) as Hnext.
  pose proof Hq as (_ & Hpr & _).
  assert (Hin : In t (q (get_highest_ready_priority
                            (t_thread_ready_priority_group k))))
    by (rewrite Ehd; left; reflexivity).
  destruct (Hpr _ t Hr Hin) as [Hcp _].
  unfold t_sched_start. rewrite Hnext. cbn [T_LIST_ENTRY_thread].
  eexists. split; [reflexivity|].
  split; [reflexivity|].
  split; [cbn; rewrite !upd_same; reflexivity|].
  split; [cbn; rewrite !upd_same; reflexivity|].
  split; [cbn -[get_highest_ready_priority]; exact Hcp|].
  split; [reflexivity|].
  split; [|exact Hhigher].
  apply (ready_queues_ext k); [reflexivity | reflexivity | | exact Hq].
  intros u. cbn. unfold upd.
  repeat (destruct (Nat.eq_dec _ _)); subst; cbn; auto.
Qed.

(** After [t_tortos_init] only the idle thread is ready: it is started. *)
Lemma t_sched_start_runs_head_witness :
  exists k',
    t_sched_start booted = Ok k' /\
    t_current_thread k' = Some idle_thread /\
    status (threads k' idle_thread) = TO_THREAD_RUNNING.
Proof.
  destruct (t_sched_start_runs_head booted
              (with_queue (fun _ => []) 0 [idle_thread]) idle_thread []
              booted_ready_queues ltac:(vm_compute; split; reflexivity)
              eq_refl)
    as (k' & H1 & H2 & H3 & _).
  exists k'. split; [exact H1|]. split; assumption.
Defined.

Lemma with_queue_same (q : Z -> list nat) (p : Z) (l : list nat) :
  with_queue q p l p = l.
Proof. unfold with_queue. apply upd_same. Qed.

Lemma with_queue_other (q : Z -> list nat) (p p' : Z) (l : list nat) :
  p' <> p -> with_queue q p l p' = q p'.
Proof. intros H. unfold with_queue. apply upd_other. exact H. Qed.

(** A thread is in at most one ready queue, and once there. *)
Lemma ready_queues_once (k : kernel) (q : Z -> list nat) (p : Z) :
  ready_queues k q -> 0 <= p < TO_THREAD_PRIORITY_MAX -> NoDup (q p).
Proof.
  intros (Hc & _) Hp. destruct (Hc p Hp) as [_ Hnd].
  apply NoDup_cons_iff in Hnd. destruct Hnd as [_ Hnd].
  revert Hnd. generalize (q p). intros l. induction l as [|a l IH]; intros H.
  - constructor.
  - cbn [map] in H. apply NoDup_cons_iff in H. destruct H as [Ha H].
    constructor; [|apply IH; exact H].
    intros Hin. apply Ha. apply in_map. exact Hin.
Qed.

(** [t_sched_insert_thread] of a thread that is in no ready queue: it is
    put last in the queue of its priority, the bit of that priority is set,
    the other queues and bits stay, the count of ready tasks goes up by one
    (modulo 256) and the interrupt mask is restored. *)
Theorem t_sched_insert_thread_enqueues (k : kernel) (q : Z -> list nat)
    (t : nat) (p : Z) :
  ready_queues k q ->
  0 <= p < TO_THREAD_PRIORITY_MAX ->
  current_priority (threads k t) = p ->
  number_mask (threads k t) = 2 ^ p ->
  (forall p', 0 <= p' < TO_THREAD_PRIORITY_MAX -> ~ In t (q p')) ->
  ready_queues (t_sched_insert_thread (Some t) k)
    (with_queue q p (q p ++ [t])) /\
  ready_bit p (t_sched_insert_thread (Some t) k) = true /\
  t_cur_num_of_ready_tasks (t_sched_insert_thread (Some t) k)
  = wrap8 (t_cur_num_of_ready_tasks k + 1) /\
  primask (t_sched_insert_thread (Some t) k) = primask k /\
  threads (t_sched_insert_thread (Some t) k) = threads k.
Proof.
  intros Hq Hp Hcp Hm Hout.
  pose proof (t_sched_insert_thread_keeps_ready_queues k q t p Hq Hp Hcp Hm
                Hout) as Hq'.
  split; [exact Hq'|]. split.
  - destruct Hq' as (_ & _ & Hb). rewrite (Hb p Hp), with_queue_same.
    destruct (q p); reflexivity.
  - split; [reflexivity|]. split; reflexivity.
Qed.

(** [t_sched_remove_thread] of a queued thread: it leaves the queue of its
    priority, the others keep their order; the bit of the priority is
    cleared exactly when the queue is left empty; the count of ready tasks
    goes down by one (modulo 256). *)
Theorem t_sched_remove_thread_dequeues (k : kernel) (q : Z -> list nat)
    (t : nat) (p : Z) (l1 l2 : list nat) :
  ready_queues k q ->
  0 <= p < TO_THREAD_PRIORITY_MAX ->
  q p = l1 ++ t :: l2 ->
  ready_queues (t_sched_remove_thread (Some t) k)
    (with_queue q p (l1 ++ l2)) /\
  ready_bit p (t_sched_remove_thread (Some t) k)
  = match l1 ++ l2 with [] => false | _ => true end /\
  next (lnk (t_sched_remove_thread (Some t) k)) (tlist t) = tlist t /\
  prev (lnk (t_sched_remove_thread (Some t) k)) (tlist t) = tlist t /\
  t_cur_num_of_ready_tasks (t_sched_remove_thread (Some t) k)
  = wrap8 (t_cur_num_of_ready_tasks k - 1) /\
  primask (t_sched_remove_thread (Some t) k) = primask k /\
  threads (t_sched_remove_thread (Some t) k) = threads k.
Proof.
  intros Hq Hp Hqp.
  pose proof (t_sched_remove_thread_keeps_ready_queues k q t p l1 l2 Hq Hp
                Hqp) as Hq'.
  destruct (t_sched_remove_thread_fields k t) as (El & Et & Eg).
  split; [exact Hq'|]. split.
  - destruct Hq' as (_ & _ & Hb). rewrite (Hb p Hp), with_queue_same.
    reflexivity.
  - rewrite El. destruct (t_list_delete_self (lnk k) (tlist t)) as [Hn Hpv].
    split; [exact Hn|]. split; [exact Hpv|].
    split; [|split; [|exact Et]].
    + unfold t_sched_remove_thread, t_irq_disable, t_irq_enable.
      cbn [with_links set_lnk set_primask lnk threads
           t_thread_ready_priority_group t_cur_num_of_ready_tasks].
      destruct (t_list_isempty _ _); reflexivity.
    + unfold t_sched_remove_thread, t_irq_disable, t_irq_enable.
      cbn [with_links set_lnk set_primask lnk threads
           t_thread_ready_priority_group t_cur_num_of_ready_tasks].
      destruct (t_list_isempty _ _); reflexivity.
Qed.

Lemma ready_queues_same (k : kernel) (q q' : Z -> list nat) :
  (forall p, q' p = q p) -> ready_queues k q -> ready_queues k q'.
Proof.
  intros E (Hc & Hpr & Hb). split; [|split].
  - intros p Hp. rewrite E. apply (Hc p Hp).
  - intros p t Hp. rewrite E. apply (Hpr p t Hp).
  - intros p Hp. rewrite E. apply (Hb p Hp).
Qed.

Lemma irq_around_links (k : kernel) (f g : links -> links) :
  t_irq_enable (primask k) (with_links f (with_links g (set_primask 1 k)))
  = with_links f (with_links g k).
Proof. destruct k; reflexivity. Qed.

(** What [t_thread_rotate_same_prio] does to the lists when it rotates. *)
Lemma rotate_relinks (k : kernel) (q : Z -> list nat) (cur : nat) (p : Z)
    (l1 l2 : list nat) :
  ready_queues k q ->
  0 <= p < TO_THREAD_PRIORITY_MAX ->
  q p = l1 ++ cur :: l2 ->
  l1 ++ l2 <> [] ->
  ready_queues
    (with_links (t_list_insert_before (ready_list p) (tlist cur))
       (with_links (t_list_delete (tlist cur)) k))
    (with_queue q p (l1 ++ l2 ++ [cur])).
Proof.
  intros Hq Hp Hqp Hne.
  pose proof Hq as (_ & Hpr & Hb).
  assert (Hin : In cur (q p))
    by (rewrite Hqp; apply in_or_app; right; left; reflexivity).
  destruct (Hpr p cur Hp Hin) as [Hcp Hm].
  pose proof (t_sched_remove_thread_keeps_ready_queues k q cur p l1 l2
                Hq Hp Hqp) as Hrem.
  destruct (t_sched_remove_thread_fields k cur) as (El & Et & Eg).
  assert (Hout : forall p', 0 <= p' < TO_THREAD_PRIORITY_MAX ->
                 ~ In cur (with_queue q p (l1 ++ l2) p')).
  { intros p' Hp'. destruct (Z.eq_dec p' p) as [E|Hpp].
    - subst p'. rewrite with_queue_same.
      pose proof (ready_queues_once k q p Hq Hp) as Hnd. rewrite Hqp in Hnd.
      apply (NoDup_remove_2 _ _ _ Hnd).
    - rewrite with_queue_other by exact Hpp. intros Hin'.
      destruct (Hpr p' cur Hp' Hin') as [E _]. congruence. }
  pose proof (t_sched_insert_thread_keeps_ready_queues
                (t_sched_remove_thread (Some cur) k)
                (with_queue q p (l1 ++ l2)) cur p Hrem Hp
                ltac:(rewrite Et; exact Hcp) ltac:(rewrite Et; exact Hm)
                Hout) as Hins.
  destruct (t_sched_insert_thread_fields
              (t_sched_remove_thread (Some cur) k) cur) as (El' & Et' & _).
  rewrite Et, Hcp in El'. rewrite El in El'.
  destruct Hins as (Hc' & Hpr' & _).
  split; [|split].
  - intros p' Hp'. specialize (Hc' p' Hp'). rewrite El' in Hc'.
    cbn [with_links set_lnk lnk].
    destruct (Z.eq_dec p' p) as [E|Hpp].
    + subst p'. rewrite !with_queue_same in *.
      rewrite <- app_assoc in Hc'. exact Hc'.
    + rewrite !with_queue_other in * by exact Hpp. exact Hc'.
  - intros p' t Hp' Hin'. cbn [with_links set_lnk threads].
    apply (Hpr p' t Hp').
    destruct (Z.eq_dec p' p) as [E|Hpp].
    + subst p'. rewrite with_queue_same in Hin'. rewrite Hqp.
      rewrite app_assoc in Hin'. apply in_app_or in Hin'.
      destruct Hin' as [Hin'|[E|[]]].
      * apply in_app_or in Hin'. apply in_or_app.
        destruct Hin' as [H|H]; [left; exact H | right; right; exact H].
      * subst t. apply in_or_app. right. left. reflexivity.
    + rewrite with_queue_other in Hin' by exact Hpp. exact Hin'.
  - intros p' Hp'. unfold ready_bit.
    cbn [with_links set_lnk t_thread_ready_priority_group].
    fold (ready_bit p' k). rewrite (Hb p' Hp').
    destruct (Z.eq_dec p' p) as [E|Hpp].
    + subst p'. rewrite with_queue_same, Hqp.
      destruct l1; [|reflexivity]. cbn [app].
      destruct l2; [contradiction Hne; reflexivity | reflexivity].
    + rewrite with_queue_other by exact Hpp. reflexivity.
Qed.

(** [t_thread_rotate_same_prio] over well-formed ready queues.  If the
    running thread is alone in the queue of its priority, nothing changes.
    Otherwise it is moved to the tail of that queue and [t_sched_switch]
    is run; when the thread was at the head of the highest-priority queue
    and the scheduler is not suspended, the thread that was behind it runs
    next. *)
Theorem t_thread_rotate_same_prio_round_robin (k : kernel)
    (q : Z -> list nat) (cur : nat) (p : Z) (l1 l2 : list nat)
    (fuel : nat) :
  ready_queues k q ->
  t_current_thread k = Some cur ->
  0 <= p < TO_THREAD_PRIORITY_MAX ->
  q p = l1 ++ cur :: l2 ->
  (length (q p) < fuel)%nat ->
  Z.of_nat (length (q p)) < 2 ^ 32 ->
  (l1 ++ l2 = [] -> t_thread_rotate_same_prio fuel k = Ok k) /\
  (l1 ++ l2 <> [] ->
   exists k1,
     t_thread_rotate_same_prio fuel k = t_sched_switch k1 /\
     ready_queues k1 (with_queue q p (l1 ++ l2 ++ [cur])) /\
     k1 = set_lnk (lnk k1) k) /\
  (forall nxt l2',
     l1 = [] -> l2 = nxt :: l2' ->
     t_schedulue_suspend k = 0 ->
     0 < t_thread_ready_priority_group k < 2 ^ 32 ->
     p = get_highest_ready_priority (t_thread_ready_priority_group k) ->
     exists k',
       t_thread_rotate_same_prio fuel k = Ok k' /\
       t_current_thread k' = Some nxt /\
       status (threads k' nxt) = TO_THREAD_RUNNING /\
       ready_queues k' (with_queue q p (l2 ++ [cur]))).
Proof.
  intros Hq Hcur Hp Hqp Hfuel Hlen.
  pose proof Hq as (Hc & Hpr & Hb).
  assert (Hin : In cur (q p))
    by (rewrite Hqp; apply in_or_app; right; left; reflexivity).
  destruct (Hpr p cur Hp Hin) as [Hcp Hm].
  assert (Hlenq : t_list_length fuel (ready_list p) (lnk k)
                  = Ok (Z.of_nat (length (q p)))).
  { destruct (Hc p Hp) as [Hch Hnd]. unfold t_list_length.
    rewrite (t_list_length_from_chain (lnk k) (ready_list p)
               (map tlist (q p)) fuel (ready_list p) 0 Hch);
      rewrite ?length_map; try lia; [reflexivity|].
    apply NoDup_cons_iff in Hnd. apply Hnd. }
  assert (Hrot : l1 ++ l2 <> [] ->
            t_thread_rotate_same_prio fuel k
            = t_sched_switch
                (with_links
                   (t_list_insert_before (ready_list p) (tlist cur))
                   (with_links (t_list_delete (tlist cur)) k))).
  { intros Hne. unfold t_thread_rotate_same_prio, t_irq_disable.
    cbn [t_current_thread set_primask]. rewrite Hcur.
    cbn [threads set_primask lnk]. rewrite Hcp, Hlenq. cbn [bind].
    assert (Hgt : (Z.of_nat (length (q p)) <=? 1) = false).
    { apply Z.leb_gt. rewrite Hqp, length_app. cbn [length].
      destruct l1; [destruct l2; [contradiction Hne; reflexivity|]|];
        cbn [length]; lia. }
    rewrite Hgt.
    change (current_priority
              (threads (with_links (t_list_delete (tlist cur))
                          (set_primask 1 k)) cur))
      with (current_priority (threads k cur)).
    rewrite ?Hcp.
    f_equal; try apply irq_around_links. }
  split; [|split].
  - intros Hnil. unfold t_thread_rotate_same_prio, t_irq_disable.
    cbn [t_current_thread set_primask]. rewrite Hcur.
    cbn [threads set_primask lnk]. rewrite Hcp, Hlenq. cbn [bind].
    assert (Hle : (Z.of_nat (length (q p)) <=? 1) = true).
    { apply Z.leb_le. rewrite Hqp, length_app. cbn [length].
      apply app_eq_nil in Hnil. destruct Hnil as [-> ->]. cbn. lia. }
    rewrite Hle. unfold t_irq_enable. rewrite set_primask_restore.
    reflexivity.
  - intros Hne. eexists. split; [apply (Hrot Hne)|]. split.
    + apply rotate_relinks; assumption.
    + reflexivity.
  - intros nxt l2' E1 E2 Hs Hg Ehp. subst l1 l2. cbn [app] in *.
    rewrite Hrot by discriminate.
    pose proof (rotate_relinks k q cur p [] (nxt :: l2') Hq Hp Hqp
                  ltac:(discriminate)) as Hq1.
    cbn [app] in Hq1.
    destruct (t_sched_switch_over_queues _ _ nxt (l2' ++ [cur]) Hq1)
      as (k' & Hrun & Hc' & Hq' & _ & Hsame & Hdiff).
    + exact Hg.
    + exact Hs.
    + cbn [with_links set_lnk t_thread_ready_priority_group].
      rewrite <- Ehp. apply with_queue_same.
    + exists k'. split; [exact Hrun|]. split; [exact Hc'|].
      split; [|exact Hq'].
      assert (Hnc : nxt <> cur).
      { pose proof (ready_queues_once k q p Hq Hp) as Hnd.
        rewrite Hqp in Hnd. apply NoDup_cons_iff in Hnd.
        intros E. apply (proj1 Hnd). left. exact E. }
      apply Hdiff. cbn [with_links set_lnk t_current_thread].
      rewrite Hcur. congruence.
Qed.

Lemma two_workers_running_queues :
  ready_queues two_workers_running two_workers_q.
Proof. ready_queues_by_cases. Qed.

(** Two workers of priority 3, the first running: after the rotation the
    second runs. *)
Lemma t_thread_rotate_same_prio_round_robin_witness :
  exists k',
    t_thread_rotate_same_prio 8 two_workers_running = Ok k' /\
    t_current_thread k' = Some peer.
Proof.
  destruct (t_thread_rotate_same_prio_round_robin two_workers_running
              two_workers_q worker 3 [] [peer] 8
              two_workers_running_queues eq_refl
              ltac:(unfold TO_THREAD_PRIORITY_MAX; lia) eq_refl
              ltac:(cbn; lia) ltac:(cbn; lia))
    as (_ & _ & H).
  destruct (H peer [] eq_refl eq_refl eq_refl
              ltac:(vm_compute; split; reflexivity) eq_refl)
    as (k' & H1 & H2 & _).
  exists k'. split; assumption.
Defined.

Lemma worker_created_queues : ready_queues worker_created booted_q.
Proof. ready_queues_by_cases. Qed.

(** The worker, created at priority 3, is put into the ready queues. *)
Lemma t_sched_insert_thread_enqueues_witness :
  ready_queues (t_sched_insert_thread (Some worker) worker_created)
    (with_queue booted_q 3 (booted_q 3 ++ [worker])) /\
  ready_bit 3 (t_sched_insert_thread (Some worker) worker_created) = true.
Proof.
  destruct (t_sched_insert_thread_enqueues worker_created booted_q worker 3
              worker_created_queues
              ltac:(unfold TO_THREAD_PRIORITY_MAX; lia) eq_refl eq_refl)
    as (H1 & H2 & _).
  - intros p' Hp' Hin. unfold booted_q, with_queue, upd in Hin.
    destruct (Z.eq_dec p' 0); [|destruct Hin].
    destruct Hin as [E|[]]. discriminate E.
  - split; assumption.
Defined.

(** The worker, alone at priority 3, is taken out again. *)
Lemma t_sched_remove_thread_dequeues_witness :
  ready_queues (t_sched_remove_thread (Some worker) worker_ready)
    (with_queue worker_ready_q 3 []) /\
  ready_bit 3 (t_sched_remove_thread (Some worker) worker_ready) = false.
Proof.
  destruct (t_sched_remove_thread_dequeues worker_ready worker_ready_q
              worker 3 [] [] worker_ready_queues
              ltac:(unfold TO_THREAD_PRIORITY_MAX; lia) eq_refl)
    as (H1 & H2 & _).
  split; assumption.
Defined.

(** ** Thread life cycle over the ready queues *)

Lemma ready_queues_frame (k k' : kernel) (q : Z -> list nat) :
  (forall p n, 0 <= p < TO_THREAD_PRIORITY_MAX ->
     In n (ready_list p :: map tlist (q p)) ->
     next (lnk k') n = next (lnk k) n /\ prev (lnk k') n = prev (lnk k) n) ->
  (forall p, 0 <= p < TO_THREAD_PRIORITY_MAX ->
     ready_bit p k' = ready_bit p k) ->
  (forall p u, 0 <= p < TO_THREAD_PRIORITY_MAX -> In u (q p) ->
     current_priority (threads k' u) = current_priority (threads k u) /\
     number_mask (threads k' u) = number_mask (threads k u)) ->
  ready_queues k q -> ready_queues k' q.
Proof.
  intros Hl Hg Hu (Hc & Hpr & Hb). split; [|split].
  - intros p Hp. destruct (Hc p Hp) as [Hch Hnd]. split; [|exact Hnd].
    apply (chain_ext (lnk k)); [| |exact Hch].
    + intros n Hin. apply (Hl p n Hp Hin).
    + intros n Hin. apply in_snoc in Hin. apply (Hl p n Hp Hin).
  - intros p t Hp Hin. destruct (Hu p t Hp Hin) as [E1 E2].
    rewrite E1, E2. apply (Hpr p t Hp Hin).
  - intros p Hp. rewrite (Hg p Hp). apply (Hb p Hp).
Qed.

Lemma not_queued_node (q : Z -> list nat) (t : nat) (p : Z) (n : node) :
  ~ In t (q p) -> In n (ready_list p :: map tlist (q p)) -> n <> tlist t.
Proof.
  intros Hout [E|Hin] E'; subst n; [discriminate E'|].
  apply Hout. apply in_map_tlist. exact Hin.
Qed.

(** The thread a successful [t_thread_create_static] leaves behind. *)
Lemma t_thread_create_static_ok (entry stackaddr stacksize priority arg
    time_slice : Z) (t : nat) (k : kernel) :
  entry <> 0 -> stackaddr <> 0 -> stacksize <> 0 ->
  0 <= priority < TO_THREAD_PRIORITY_MAX -> time_slice <> 0 ->
  exists k',
    t_thread_create_static entry stackaddr stacksize priority arg
      time_slice (Some t) k = (T_OK, k') /\
    status (threads k' t) = TO_THREAD_INIT /\
    current_priority (threads k' t) = priority /\
    init_priority (threads k' t) = priority /\
    number_mask (threads k' t) = 2 ^ priority /\
    init_tick (threads k' t) = time_slice /\
    remaining_tick (threads k' t) = time_slice /\
    timers k' (thread_timer t)
    = {| timeout_func := Some timeout_function_cb; timer_p := Some t;
         timer_init_tick := time_slice; timeout_tick := 0 |} /\
    (forall u, u <> t -> threads k' u = threads k u) /\
    (forall n, n <> tlist t -> n <> row (thread_timer t) ->
       next (lnk k') n = next (lnk k) n /\
       prev (lnk k') n = prev (lnk k) n) /\
    next (lnk k') (tlist t) = tlist t /\
    prev (lnk k') (tlist t) = tlist t /\
    t_thread_ready_priority_group k' = t_thread_ready_priority_group k /\
    t_cur_num_of_ready_tasks k' = t_cur_num_of_ready_tasks k /\
    t_current_thread k' = t_current_thread k /\
    t_schedulue_suspend k' = t_schedulue_suspend k /\
    primask k' = primask k.
Proof.
  intros He Hsa Hss Hp Hts. unfold t_thread_create_static.
  destruct (Z.eqb_spec entry 0) as [E|_]; [contradiction|].
  destruct (Z.eqb_spec stackaddr 0) as [E|_]; [contradiction|].
  destruct (Z.eqb_spec stacksize 0) as [E|_]; [contradiction|].
  cbn [orb].
  destruct (Z.ltb_spec priority 0) as [E|_]; [lia|].
  destruct (Z.geb_spec priority TO_THREAD_PRIORITY_MAX) as [E|_]; [lia|].
  cbn [orb].
  destruct (Z.eqb_spec time_slice 0) as [E|_]; [contradiction|].
  assert (Hw8 : wrap8 priority = priority)
    by (apply wrap8_small; unfold TO_THREAD_PRIORITY_MAX in Hp; lia).
  assert (Hmask : wrap32 (Z.shiftl 1 priority) = 2 ^ priority).
  { rewrite Z.shiftl_1_l. apply wrap32_small.
    unfold TO_THREAD_PRIORITY_MAX in Hp. split; [apply Z.pow_nonneg; lia|].
    apply Z.pow_lt_mono_r; lia. }
  eexists. split; [reflexivity|].
  cbn -[t_stack_init wrap32 wrap8 Z.shiftl Z.pow].
  rewrite !upd_same. cbn -[t_stack_init wrap32 wrap8 Z.shiftl Z.pow].
  rewrite Hw8, Hmask.
  repeat (split; [reflexivity|]).
  split.
  { intros u Hu. rewrite !upd_other by exact Hu. reflexivity. }
  split.
  { intros n Hn1 Hn2. unfold upd.
    destruct (node_eq_dec n (row (thread_timer t))) as [E|_];
      [contradiction|].
    destruct (node_eq_dec n (tlist t)) as [E|_]; [contradiction|].
    split; reflexivity. }
  unfold upd.
  destruct (node_eq_dec (tlist t) (row (thread_timer t))) as [E|_];
    [discriminate E|].
  destruct (node_eq_dec (tlist t) (tlist t)) as [_|E]; [|congruence].
  repeat split.
Qed.

(** A thread created with [t_thread_create_static] and started with
    [t_thread_startup]: it is READY with a full time slice and last in the
    ready queue of its priority, whose bit is set; the other queues are as
    before.  The count of ready tasks is not changed by it. *)
Theorem thread_create_then_startup_enqueues (entry stackaddr stacksize
    priority arg time_slice : Z) (t : nat) (k : kernel)
    (q : Z -> list nat) :
  ready_queues k q ->
  (forall p, 0 <= p < TO_THREAD_PRIORITY_MAX -> ~ In t (q p)) ->
  entry <> 0 -> stackaddr <> 0 -> stacksize <> 0 ->
  0 <= priority < TO_THREAD_PRIORITY_MAX -> time_slice <> 0 ->
  exists k1 k2,
    t_thread_create_static entry stackaddr stacksize priority arg
      time_slice (Some t) k = (T_OK, k1) /\
    t_thread_startup (Some t) k1 = (T_OK, k2) /\
    ready_queues k1 q /\
    ready_queues k2 (with_queue q priority (q priority ++ [t])) /\
    status (threads k2 t) = TO_THREAD_READY /\
    current_priority (threads k2 t) = priority /\
    remaining_tick (threads k2 t) = time_slice /\
    t_cur_num_of_ready_tasks k2 = t_cur_num_of_ready_tasks k /\
    primask k2 = primask k.
Proof.
  intros Hq Hout He Hsa Hss Hp Hts.
  destruct (t_thread_create_static_ok entry stackaddr stacksize priority arg
              time_slice t k He Hsa Hss Hp Hts)
    as (k1 & Hcr & Hst & Hcp & Hip & Hm & Hit & Hrt & Htm & Hoth & Hlnk
        & Hn & Hpv & Hg & Hcnt & _ & _ & Hpm).
  assert (Hq1 : ready_queues k1 q).
  { apply (ready_queues_frame k); [| | |exact Hq].
    - intros p n Hp' Hin. apply Hlnk.
      + apply (not_queued_node q t p n (Hout p Hp') Hin).
      + destruct Hin as [E|Hin]; [subst n; discriminate|].
        apply in_map_iff in Hin. destruct Hin as (u & E & _). subst n.
        discriminate.
    - intros p Hp'. unfold ready_bit. rewrite Hg. reflexivity.
    - intros p u Hp' Hin. rewrite Hoth; [auto|].
      intros E. subst u. apply (Hout p Hp' Hin). }
  exists k1. unfold t_thread_startup. rewrite Hst.
  cbn [Z.eqb TO_THREAD_INIT TO_THREAD_DELETED Pos.eqb].
  eexists. split; [exact Hcr|]. split; [reflexivity|]. split; [exact Hq1|].
  split.
  { pose proof (t_sched_insert_thread_keeps_ready_queues k1 q t priority
                  Hq1 Hp Hcp Hm Hout) as Hins.
    destruct (t_sched_insert_thread_fields k1 t) as (El & Et & Eg).
    apply (ready_queues_frame (t_sched_insert_thread (Some t) k1));
      [| | |exact Hins].
    - intros p n _ _. rewrite El. cbn. rewrite !upd_same. cbn.
      rewrite Hip. rewrite Hcp. split; reflexivity.
    - intros p _. unfold ready_bit. rewrite Eg. cbn. rewrite !upd_same.
      cbn. unfold upd. destruct (Nat.eq_dec t t) as [_|E]; [|congruence].
      reflexivity.
    - intros p u _ _. rewrite Et. destruct (Nat.eq_dec u t) as [E|Hne].
      + subst u. cbn. repeat (rewrite upd_same; cbn). rewrite Hip, Hcp.
        auto.
      + cbn. rewrite !upd_other by exact Hne. auto. }
  cbn. rewrite !upd_same. cbn.
  split; [reflexivity|]. split; [rewrite Hip; reflexivity|].
  split; [exact Hit|]. split; [exact Hcnt|]. exact Hpm.
Qed.

(** After [t_tortos_init]: a worker is created at priority 3 and started. *)
Lemma thread_create_then_startup_enqueues_witness :
  exists k1 k2,
    t_thread_create_static 0x08000200 0x20001000 512 3 0 10 (Some worker)
      booted = (T_OK, k1) /\
    t_thread_startup (Some worker) k1 = (T_OK, k2) /\
    status (threads k2 worker) = TO_THREAD_READY /\
    ready_queues k2 (with_queue booted_q 3 (booted_q 3 ++ [worker])).
Proof.
  destruct (thread_create_then_startup_enqueues 0x08000200 0x20001000 512 3
              0 10 worker booted booted_q booted_ready_queues)
    as (k1 & k2 & H1 & H2 & _ & H4 & H5 & _);
    try (unfold TO_THREAD_PRIORITY_MAX; lia).
  - intros p' Hp' Hin. unfold booted_q, with_queue, upd in Hin.
    destruct (Z.eq_dec p' 0); [|destruct Hin].
    destruct Hin as [E|[]]. discriminate E.
  - exists k1, k2. auto.
Defined.

Lemma circular_ext (h h' : links) (s : node) (l : list node) :
  (forall n, In n (s :: l) ->
     next h' n = next h n /\ prev h' n = prev h n) ->
  circular h s l -> circular h' s l.
Proof.
  intros He [Hc Hnd]. split; [|exact Hnd].
  apply (chain_ext h); [| |exact Hc].
  - intros n Hin. apply (He n Hin).
  - intros n Hin. apply in_snoc in Hin. apply (He n Hin).
Qed.

(** The neighbours of a member, or of the head, of a circular list are in
    the list. *)
Lemma circular_neighbours (h : links) (s x : node) (l : list node) :
  circular h s l -> In x (s :: l) ->
  In (next h x) (s :: l) /\ In (prev h x) (s :: l).
Proof.
  intros Hc [E|Hin].
  - subst x. destruct Hc as [Hch _]. split.
    + rewrite (chain_next _ _ _ _ Hch). apply hd_in.
    + rewrite (chain_prev _ _ _ _ Hch). apply last_in.
  - apply in_split in Hin. destruct Hin as (l1 & l2 & E). subst l.
    destruct (circular_member _ _ _ _ _ Hc) as [Hp Hn]. split.
    + rewrite Hn. destruct (hd_in s l2) as [E|H]; [left; exact E|].
      right. apply in_or_app. right. right. exact H.
    + rewrite Hp. destruct (last_in s l1) as [E|H]; [left; exact E|].
      right. apply in_or_app. left. exact H.
Qed.

(** Two circular lists with no node in common: unlinking a member of the
    first, or inserting a new node next to a node of the first, leaves the
    second as it is. *)
Lemma t_list_delete_apart (h : links) (s x s' : node) (l l' : list node) :
  circular h s l -> In x l ->
  apart (s :: l) (s' :: l') ->
  circular h s' l' -> circular (t_list_delete x h) s' l'.
Proof.
  intros Hc Hin Hap Hc'.
  destruct (circular_neighbours h s x l Hc (or_intror Hin)) as [Hn Hp].
  apply t_list_delete_frame; [| | |exact Hc'].
  - intros H. apply (Hap x); [right; exact Hin | exact H].
  - intros H. apply (Hap _ Hp H).
  - intros H. apply (Hap _ Hn H).
Qed.

Lemma t_list_insert_before_apart (h : links) (s x y s' : node)
    (l l' : list node) :
  circular h s l -> In y (s :: l) ->
  ~ In x (s' :: l') ->
  apart (s :: l) (s' :: l') ->
  circular h s' l' -> circular (t_list_insert_before y x h) s' l'.
Proof.
  intros Hc Hin Hx Hap Hc'.
  destruct (circular_neighbours h s y l Hc Hin) as [_ Hp].
  apply t_list_insert_before_frame; [exact Hx | | |exact Hc'].
  - intros H. apply (Hap y Hin H).
  - intros H. apply (Hap _ Hp H).
Qed.

Lemma t_list_insert_after_apart (h : links) (s x y s' : node)
    (l l' : list node) :
  circular h s l -> In y (s :: l) ->
  ~ In x (s' :: l') ->
  apart (s :: l) (s' :: l') ->
  circular h s' l' -> circular (t_list_insert_after y x h) s' l'.
Proof.
  intros Hc Hin Hx Hap Hc'.
  destruct (circular_neighbours h s y l Hc Hin) as [Hn _].
  apply t_list_insert_after_frame; [exact Hx | | |exact Hc'].
  - intros H. apply (Hap y Hin H).
  - intros H. apply (Hap _ Hn H).
Qed.

Lemma unqueued_apart (q : Z -> list nat) (w : list nat) (s : node) (p : Z) :
  unqueued q w -> ~ is_ready_list s -> 0 <= p < TO_THREAD_PRIORITY_MAX ->
  (forall t, s <> tlist t) ->
  apart (ready_list p :: map tlist (q p)) (s :: map tlist w).
Proof.
  intros Hu Hs Hp Hst n [E|Hin] [E'|Hin']; subst.
  - apply Hs. exists p. reflexivity.
  - apply in_map_iff in Hin'. destruct Hin' as (u & E & _). discriminate E.
  - apply in_map_iff in Hin. destruct Hin as (u & E & _).
    apply (Hst u). symmetry. exact E.
  - apply in_map_iff in Hin. destruct Hin as (u & E & Hin). subst n.
    apply in_map_tlist in Hin'. apply (Hu u p Hin' Hp Hin).
Qed.

Lemma apart_sym (a b : list node) : apart a b -> apart b a.
Proof. intros H n Hb Ha. apply (H n Ha Hb). Qed.

Lemma unqueued_after_remove (q : Z -> list nat) (w : list nat) (p : Z)
    (l1 l2 : list nat) (t : nat) :
  unqueued q w -> q p = l1 ++ t :: l2 ->
  unqueued (with_queue q p (l1 ++ l2)) w.
Proof.
  intros Hu Hqp u p' Hin Hp'. destruct (Z.eq_dec p' p) as [E|Hne].
  - subst p'. rewrite with_queue_same. intros H.
    apply (Hu u p Hin Hp'). rewrite Hqp. apply in_app_or in H.
    apply in_or_app. destruct H as [H|H]; [left; exact H|right; right; exact H].
  - rewrite with_queue_other by exact Hne. apply (Hu u p' Hin Hp').
Qed.

Lemma t_sched_remove_thread_rest (k : kernel) (t : nat) :
  t_cur_num_of_ready_tasks (t_sched_remove_thread (Some t) k)
  = wrap8 (t_cur_num_of_ready_tasks k - 1) /\
  t_current_thread (t_sched_remove_thread (Some t) k) = t_current_thread k /\
  t_schedulue_suspend (t_sched_remove_thread (Some t) k)
  = t_schedulue_suspend k /\
  primask (t_sched_remove_thread (Some t) k) = primask k /\
  trace (t_sched_remove_thread (Some t) k) = trace k /\
  timers (t_sched_remove_thread (Some t) k) = timers k /\
  ipcs (t_sched_remove_thread (Some t) k) = ipcs k /\
  s_tick (t_sched_remove_thread (Some t) k) = s_tick k /\
  g_cur_timer_list (t_sched_remove_thread (Some t) k) = g_cur_timer_list k /\
  g_overflow_timer_list (t_sched_remove_thread (Some t) k)
  = g_overflow_timer_list k.
Proof.
  unfold t_sched_remove_thread, t_irq_disable, t_irq_enable.
  cbn [with_links set_lnk set_primask lnk threads
       t_thread_ready_priority_group t_cur_num_of_ready_tasks].
  destruct (t_list_isempty _ _); repeat split.
Qed.

Lemma retire_removed_fields (k1 : kernel) (t : nat) :
  lnk (with_links
         (t_list_insert_before waiting_termination_list (tlist t))
         (with_thread t (set_status TO_THREAD_TERMINATED)
            (snd (t_timer_stop (Some (thread_timer t)) k1))))
  = t_list_insert_before waiting_termination_list (tlist t)
      (t_list_delete (row (thread_timer t)) (lnk k1)) /\
  threads (with_links
             (t_list_insert_before waiting_termination_list (tlist t))
             (with_thread t (set_status TO_THREAD_TERMINATED)
                (snd (t_timer_stop (Some (thread_timer t)) k1))))
  = upd Nat.eq_dec (threads k1) t
      (set_status TO_THREAD_TERMINATED (threads k1 t)) /\
  with_links
    (t_list_insert_before waiting_termination_list (tlist t))
    (with_thread t (set_status TO_THREAD_TERMINATED)
       (snd (t_timer_stop (Some (thread_timer t)) k1)))
  = set_threads
      (upd Nat.eq_dec (threads k1) t
         (set_status TO_THREAD_TERMINATED (threads k1 t)))
      (set_lnk
         (t_list_insert_before waiting_termination_list (tlist t)
            (t_list_delete (row (thread_timer t)) (lnk k1))) k1).
Proof. destruct k1; repeat split. Qed.

Lemma retired_fields (k : kernel) (t : nat) :
  lnk (retired t k)
  = t_list_insert_before waiting_termination_list (tlist t)
      (t_list_delete (row (thread_timer t))
         (t_list_delete (tlist t) (lnk k))) /\
  threads (retired t k)
  = upd Nat.eq_dec (threads k) t
      (set_status TO_THREAD_TERMINATED (threads k t)) /\
  t_thread_ready_priority_group (retired t k)
  = t_thread_ready_priority_group (t_sched_remove_thread (Some t) k) /\
  t_cur_num_of_ready_tasks (retired t k)
  = wrap8 (t_cur_num_of_ready_tasks k - 1) /\
  t_current_thread (retired t k) = t_current_thread k /\
  t_schedulue_suspend (retired t k) = t_schedulue_suspend k /\
  primask (retired t k) = primask k /\
  trace (retired t k) = trace k.
Proof.
  destruct (t_sched_remove_thread_fields k t) as (El & Et & _).
  destruct (t_sched_remove_thread_rest k t)
    as (R1 & R2 & R3 & R4 & R5 & _).
  unfold retired. cbv zeta.
  destruct (retire_removed_fields (t_sched_remove_thread (Some t) k) t)
    as (_ & _ & E).
  rewrite E. clear E.
  generalize dependent (t_sched_remove_thread (Some t) k). intros k1.
  intros El Et R1 R2 R3 R4 R5.
  cbn [set_threads set_lnk lnk threads t_thread_ready_priority_group
       t_cur_num_of_ready_tasks t_current_thread t_schedulue_suspend
       primask trace].
  rewrite El, Et, R1, R2, R3, R4, R5. repeat split.
Qed.

Lemma retired_ok (k : kernel) (q : Z -> list nat) (t : nat) (p : Z)
    (l1 l2 w : list nat) :
  ready_queues k q ->
  0 <= p < TO_THREAD_PRIORITY_MAX ->
  q p = l1 ++ t :: l2 ->
  circular (lnk k) waiting_termination_list (map tlist w) ->
  unqueued q w ->
  timer_detached k (thread_timer t) ->
  ready_queues (retired t k) (with_queue q p (l1 ++ l2)) /\
  circular (lnk (retired t k)) waiting_termination_list
    (map tlist (w ++ [t])) /\
  status (threads (retired t k) t) = TO_THREAD_TERMINATED /\
  (forall u, u <> t -> threads (retired t k) u = threads k u) /\
  current_priority (threads (retired t k) t)
  = current_priority (threads k t) /\
  timer_detached (retired t k) (thread_timer t) /\
  t_cur_num_of_ready_tasks (retired t k)
  = wrap8 (t_cur_num_of_ready_tasks k - 1) /\
  t_current_thread (retired t k) = t_current_thread k /\
  t_schedulue_suspend (retired t k) = t_schedulue_suspend k /\
  primask (retired t k) = primask k /\
  trace (retired t k) = trace k.
Proof.
  intros Hq Hp Hqp Hw Hu [Htn Htp].
  pose proof Hq as (Hc & Hpr & Hb).
  assert (Hin : In t (q p))
    by (rewrite Hqp; apply in_or_app; right; left; reflexivity).
  pose proof (t_sched_remove_thread_keeps_ready_queues k q t p l1 l2 Hq Hp
                Hqp) as Hq1.
  destruct (t_sched_remove_thread_fields k t) as (El & Et & Eg).
  destruct (retired_fields k t)
    as (Hl4 & Hth & Rg & Rcnt & Rcur & Rsus & Rpm & Rtr).
  rewrite <- El in Hl4.
  generalize dependent (retired t k). intros kr Hl4 Hth Rg Rcnt Rcur Rsus
    Rpm Rtr.
  generalize dependent (t_sched_remove_thread (Some t) k).
  intros k1 Hq1 El Et Eg Hl4 Rg.
  set (q1 := with_queue q p (l1 ++ l2)) in *.
  assert (Hu1 : unqueued q1 w)
    by (apply (unqueued_after_remove q w p l1 l2 t); assumption).
  assert (Hwt : ~ is_ready_list waiting_termination_list)
    by (intros [x E]; discriminate E).
  assert (Hwt' : forall u, waiting_termination_list <> tlist u)
    by (intros u E; discriminate E).
  (* the list of terminated threads, after the removal *)
  assert (Hw1 : circular (lnk k1) waiting_termination_list (map tlist w)).
  { rewrite El.
    apply (t_list_delete_apart (lnk k) (ready_list p) (tlist t)
             waiting_termination_list (map tlist (q p)) (map tlist w));
      [apply (Hc p Hp) | apply in_map; exact Hin | | exact Hw].
    apply unqueued_apart; assumption. }
  (* the timer node is still detached *)
  assert (Hrow : forall n, In n (ready_list p :: map tlist (q p)) ->
                   n <> row (thread_timer t)).
  { intros n [E|H] E'; subst n; [discriminate E'|].
    apply in_map_iff in H. destruct H as (u & E & _). discriminate E. }
  destruct (circular_neighbours (lnk k) (ready_list p) (tlist t)
              (map tlist (q p)) (Hc p Hp)
              (or_intror (in_map tlist _ _ Hin))) as [Hnx Hpx].
  assert (Hd1 : next (lnk k1) (row (thread_timer t)) = row (thread_timer t)
                /\ prev (lnk k1) (row (thread_timer t))
                   = row (thread_timer t)).
  { rewrite El, t_list_delete_next, t_list_delete_prev.
    destruct (node_eq_dec (row (thread_timer t)) (tlist t)) as [E|_];
      [discriminate E|].
    destruct (node_eq_dec (row (thread_timer t)) (prev (lnk k) (tlist t)))
      as [E|_]; [exfalso; apply (Hrow _ Hpx); auto|].
    destruct (node_eq_dec (row (thread_timer t)) (next (lnk k) (tlist t)))
      as [E|_]; [exfalso; apply (Hrow _ Hnx); auto|].
    auto. }
  assert (Hsame : forall n,
            next (t_list_delete (row (thread_timer t)) (lnk k1)) n
            = next (lnk k1) n /\
            prev (t_list_delete (row (thread_timer t)) (lnk k1)) n
            = prev (lnk k1) n).
  { apply t_list_delete_detached; apply Hd1. }
  assert (Hw2 : circular (t_list_delete (row (thread_timer t)) (lnk k1))
                  waiting_termination_list (map tlist w)).
  { apply (circular_ext (lnk k1)); [intros n _; apply Hsame | exact Hw1]. }
  assert (Htw : ~ In (tlist t) (waiting_termination_list :: map tlist w)).
  { intros [E|H]; [discriminate E|]. apply in_map_tlist in H.
    apply (Hu t p H Hp Hin). }
  assert (Hnd : NoDup (q p)) by (apply (ready_queues_once k q p Hq Hp)).
  assert (Hout1 : forall p', 0 <= p' < TO_THREAD_PRIORITY_MAX ->
                  ~ In t (q1 p')).
  { intros p' Hp'. unfold q1. destruct (Z.eq_dec p' p) as [E|Hne].
    - subst p'. rewrite with_queue_same. rewrite Hqp in Hnd.
      apply (NoDup_remove_2 _ _ _ Hnd).
    - rewrite with_queue_other by exact Hne. intros H.
      destruct (Hpr p' t Hp' H) as [E1 _].
      destruct (Hpr p t Hp Hin) as [E2 _]. congruence. }
  split.
  { destruct Hq1 as (Hc1 & Hpr1 & Hb1). split; [|split].
    - intros p' Hp'. rewrite Hl4.
      apply (t_list_insert_before_apart _ waiting_termination_list (tlist t)
               waiting_termination_list (ready_list p')
               (map tlist w) (map tlist (q1 p')));
        [exact Hw2 | left; reflexivity | | |].
      + intros [E|H]; [discriminate E|]. apply in_map_tlist in H.
        apply (Hout1 p' Hp' H).
      + apply apart_sym. apply unqueued_apart; assumption.
      + apply (circular_ext (lnk k1)); [intros n _; apply Hsame|].
        apply (Hc1 p' Hp').
    - intros p' u Hp' Hu'. rewrite Hth.
      assert (Hut : u <> t).
      { intros E. subst u. apply (Hout1 p' Hp' Hu'). }
      rewrite upd_other by exact Hut. rewrite <- Et.
      apply (Hpr1 p' u Hp' Hu').
    - intros p' Hp'. rewrite <- (Hb1 p' Hp'). unfold ready_bit.
      rewrite Rg. reflexivity. }
  split.
  { rewrite Hl4, map_app. cbn [map].
    apply t_list_insert_before_tail; [exact Htw | exact Hw2]. }
  split; [rewrite Hth, upd_same; reflexivity|].
  split; [intros u Hut; rewrite Hth, upd_other by exact Hut; reflexivity|].
  split; [rewrite Hth, upd_same; reflexivity|].
  split.
  { unfold timer_detached. rewrite Hl4.
    rewrite t_list_insert_before_next_eq, t_list_insert_before_prev_eq.
    destruct (Hsame (row (thread_timer t))) as [E1 E2].
    destruct Hd1 as [D1 D2].
    destruct (node_eq_dec (row (thread_timer t)) (tlist t)) as [E|_];
      [discriminate E|].
    destruct (node_eq_dec (row (thread_timer t)) waiting_termination_list)
      as [E|_]; [discriminate E|].
    destruct (node_eq_dec (row (thread_timer t))
                (prev (t_list_delete (row (thread_timer t)) (lnk k1))
                   waiting_termination_list)) as [E|_].
    - exfalso.
      destruct (circular_neighbours _ _ waiting_termination_list _ Hw2
                  (or_introl eq_refl)) as [_ Hpw].
      rewrite <- E in Hpw. destruct Hpw as [E'|H]; [discriminate E'|].
      apply in_map_iff in H. destruct H as (u & E' & _). discriminate E'.
    - rewrite E1, E2. auto. }
  auto.
Qed.

(** [t_thread_delete] of a thread that is in a ready queue and whose timer
    is not armed: the thread leaves its queue (the bit of its priority
    follows), is marked TERMINATED and is put last in the list of the
    threads that wait for their termination; the other queues and threads
    stay.  On a thread that is already TERMINATED the call returns T_OK,
    and on a DELETED one T_ERR, both without any effect. *)
Theorem t_thread_delete_retires (k : kernel) (q : Z -> list nat) (t : nat)
    (p : Z) (l1 l2 w : list nat) :
  ready_queues k q ->
  0 <= p < TO_THREAD_PRIORITY_MAX ->
  q p = l1 ++ t :: l2 ->
  circular (lnk k) waiting_termination_list (map tlist w) ->
  unqueued q w ->
  timer_detached k (thread_timer t) ->
  status (threads k t) <> TO_THREAD_TERMINATED ->
  status (threads k t) <> TO_THREAD_DELETED ->
  exists k',
    t_thread_delete (Some t) k = (T_OK, k') /\
    ready_queues k' (with_queue q p (l1 ++ l2)) /\
    circular (lnk k') waiting_termination_list (map tlist (w ++ [t])) /\
    status (threads k' t) = TO_THREAD_TERMINATED /\
    (forall u, u <> t -> threads k' u = threads k u) /\
    primask k' = primask k /\
    t_thread_delete (Some t) k' = (T_OK, k').
Proof.
  intros Hq Hp Hqp Hw Hu Htm Hs1 Hs2.
  destruct (retired_ok k q t p l1 l2 w Hq Hp Hqp Hw Hu Htm)
    as (H1 & H2 & H3 & H4 & _ & _ & _ & _ & _ & H5 & _).
  exists (retired t k). unfold t_thread_delete at 1.
  destruct (Z.eqb_spec (status (threads k t)) TO_THREAD_TERMINATED)
    as [E|_]; [contradiction|].
  destruct (Z.eqb_spec (status (threads k t)) TO_THREAD_DELETED)
    as [E|_]; [contradiction|].
  split; [reflexivity|]. split; [exact H1|]. split; [exact H2|].
  split; [exact H3|]. split; [exact H4|]. split; [exact H5|].
  unfold t_thread_delete. rewrite H3. reflexivity.
Qed.

(** The worker, ready at priority 3, is deleted. *)
Lemma t_thread_delete_retires_witness :
  exists k',
    t_thread_delete (Some worker) worker_ready = (T_OK, k') /\
    status (threads k' worker) = TO_THREAD_TERMINATED /\
    circular (lnk k') waiting_termination_list [tlist worker].
Proof.
  destruct (t_thread_delete_retires worker_ready worker_ready_q worker 3
              [] [] [] worker_ready_queues
              ltac:(unfold TO_THREAD_PRIORITY_MAX; lia) eq_refl)
    as (k' & H1 & _ & H3 & H4 & _).
  - split; [split; reflexivity|]. repeat constructor. intros [].
  - intros u p' [].
  - split; reflexivity.
  - vm_compute. discriminate.
  - vm_compute. discriminate.
  - exists k'. split; [exact H1|]. split; [exact H4 | exact H3].
Defined.

Lemma t_thread_exit_as_retired (k : kernel) (t : nat) :
  t_current_thread k = Some t ->
  t_thread_exit k = t_sched_switch (retired t k).
Proof.
  intros Hc. unfold t_thread_exit. rewrite Hc. f_equal.
  unfold retired, t_sched_remove_thread, t_timer_stop, s_timer_remove,
    t_irq_disable, t_irq_enable.
  cbn [with_links set_lnk set_primask lnk threads snd fst primask
       t_thread_ready_priority_group t_cur_num_of_ready_tasks].
  destruct (t_list_isempty _ _); destruct k; reflexivity.
Qed.

(** [t_thread_exit] with the running thread in a ready queue and its timer
    not armed: the thread is retired as by [t_thread_delete] and
    [t_sched_switch] runs; when the scheduler is not suspended, the first
    thread of the highest-priority queue that is left not empty is another
    thread, and it is made the running one. *)
Theorem t_thread_exit_retires (k : kernel) (q : Z -> list nat) (t : nat)
    (p : Z) (l1 l2 w : list nat) :
  t_current_thread k = Some t ->
  ready_queues k q ->
  0 <= p < TO_THREAD_PRIORITY_MAX ->
  q p = l1 ++ t :: l2 ->
  circular (lnk k) waiting_termination_list (map tlist w) ->
  unqueued q w ->
  timer_detached k (thread_timer t) ->
  t_thread_exit k = t_sched_switch (retired t k) /\
  ready_queues (retired t k) (with_queue q p (l1 ++ l2)) /\
  circular (lnk (retired t k)) waiting_termination_list
    (map tlist (w ++ [t])) /\
  status (threads (retired t k) t) = TO_THREAD_TERMINATED /\
  primask (retired t k) = primask k /\
  (forall nxt rest,
     t_schedulue_suspend k = 0 ->
     0 < t_thread_ready_priority_group (retired t k) < 2 ^ 32 ->
     with_queue q p (l1 ++ l2)
       (get_highest_ready_priority
          (t_thread_ready_priority_group (retired t k))) = nxt :: rest ->
     exists k',
       t_thread_exit k = Ok k' /\
       t_current_thread k' = Some nxt /\
       nxt <> t /\
       status (threads k' nxt) = TO_THREAD_RUNNING /\
       status (threads k' t) = TO_THREAD_TERMINATED).
Proof.
  intros Hcur Hq Hp Hqp Hw Hu Htm.
  destruct (retired_ok k q t p l1 l2 w Hq Hp Hqp Hw Hu Htm)
    as (H1 & H2 & H3 & H4 & _ & _ & _ & Hc & Hs & H5 & _).
  split; [apply t_thread_exit_as_retired; exact Hcur|].
  split; [exact H1|]. split; [exact H2|]. split; [exact H3|].
  split; [exact H5|].
  intros nxt rest Hs0 Hg Eh.
  destruct (ready_queues_highest _ _ H1 Hg) as (Hr & _ & _).
  assert (Hnt : nxt <> t).
  { intros E. subst nxt.
    assert (Hin : In t (with_queue q p (l1 ++ l2)
                          (get_highest_ready_priority
                             (t_thread_ready_priority_group (retired t k)))))
      by (rewrite Eh; left; reflexivity).
    pose proof Hq as (_ & Hpr & _).
    destruct (Z.eq_dec (get_highest_ready_priority
                          (t_thread_ready_priority_group (retired t k))) p)
      as [E|Hpp].
    - rewrite E, with_queue_same in Hin.
      pose proof (ready_queues_once k q p Hq Hp) as Hnd. rewrite Hqp in Hnd.
      apply (NoDup_remove_2 _ _ _ Hnd Hin).
    - rewrite with_queue_other in Hin by exact Hpp.
      destruct (Hpr _ t Hr Hin) as [E1 _].
      assert (Hin' : In t (q p))
        by (rewrite Hqp; apply in_or_app; right; left; reflexivity).
      destruct (Hpr p t Hp Hin') as [E2 _]. congruence. }
  destruct (t_sched_switch_over_queues (retired t k) _ nxt rest H1 Hg
              ltac:(rewrite Hs; exact Hs0) Eh)
    as (k' & Hrun & Hc' & _ & _ & _ & Hdiff).
  destruct Hdiff as (Hst & _ & _ & Hprev).
  { rewrite Hc, Hcur. congruence. }
  exists k'. rewrite (t_thread_exit_as_retired k t Hcur).
  split; [exact Hrun|]. split; [exact Hc'|]. split; [exact Hnt|].
  split; [exact Hst|].
  rewrite (Hprev t); [|rewrite Hc; exact Hcur | congruence].
  rewrite H3. reflexivity.
Qed.

(** The first of two workers of priority 3 exits while it runs: the second
    one runs. *)
Lemma t_thread_exit_retires_witness :
  exists k',
    t_thread_exit two_workers_running = Ok k' /\
    t_current_thread k' = Some peer /\
    status (threads k' worker) = TO_THREAD_TERMINATED.
Proof.
  destruct (t_thread_exit_retires two_workers_running two_workers_q worker
              3 [] [peer] [] eq_refl two_workers_running_queues
              ltac:(unfold TO_THREAD_PRIORITY_MAX; lia) eq_refl)
    as (_ & _ & _ & _ & _ & H).
  - split; [split; reflexivity|]. repeat constructor. intros [].
  - intros u p' [].
  - split; reflexivity.
  - destruct (H peer [] eq_refl ltac:(vm_compute; split; reflexivity)
                eq_refl) as (k' & H1 & H2 & _ & _ & H5).
    exists k'. split; [exact H1|]. split; [exact H2 | exact H5].
Defined.

(** ** Reclaiming and restarting threads *)

Lemma t_cleanup_loop_ok (w : list nat) :
  forall (fuel : nat) (k : kernel),
  circular (lnk k) waiting_termination_list (map tlist w) ->
  (length w < fuel)%nat ->
  exists k',
    t_cleanup_loop fuel k = Ok k' /\
    circular (lnk k') waiting_termination_list [] /\
    (forall u, In u w ->
       threads k' u = set_status TO_THREAD_DELETED (threads k u) /\
       next (lnk k') (tlist u) = tlist u /\
       prev (lnk k') (tlist u) = tlist u) /\
    (forall u, ~ In u w -> threads k' u = threads k u) /\
    (forall n, n <> waiting_termination_list -> ~ In n (map tlist w) ->
       next (lnk k') n = next (lnk k) n /\
       prev (lnk k') n = prev (lnk k) n) /\
    k' = set_threads (threads k') (set_lnk (lnk k') k).
Proof.
  induction w as [|u w IH]; intros fuel k Hc Hfuel;
    (destruct fuel as [|fuel]; [cbn in Hfuel; lia|]);
    cbn [t_cleanup_loop].
  - exists k. pose proof Hc as [[Hn _] _]. cbn [map] in *.
    unfold t_list_isempty. rewrite Hn.
    destruct (node_eq_dec waiting_termination_list waiting_termination_list)
      as [_|E]; [|congruence].
    split; [reflexivity|]. split; [exact Hc|].
    split; [intros x []|]. split; [auto|]. split; [auto|].
    destruct k; reflexivity.
  - cbn [map] in Hc.
    destruct (circular_head_next _ _ _ _ Hc) as [Hn Hne].
    unfold t_list_isempty. rewrite Hn.
    destruct (node_eq_dec (tlist u) waiting_termination_list) as [E|_];
      [discriminate E|].
    cbn [T_LIST_ENTRY_thread].
    pose proof (t_list_delete_head _ _ _ _ Hc) as Hc1.
    pose proof Hc as [_ Hnd].
    apply NoDup_cons_iff in Hnd. destruct Hnd as [_ Hnd].
    apply NoDup_cons_iff in Hnd. destruct Hnd as [Hu _].
    assert (Huw : ~ In u w).
    { intros H. apply Hu. apply in_map. exact H. }
    destruct (IH fuel
                (with_links (t_list_delete (tlist u))
                   (with_thread u (set_status TO_THREAD_DELETED) k)))
      as (k' & Hrun & He & Hin & Hout & Hfr & Hk');
      [exact Hc1 | cbn in Hfuel; lia|].
    exists k'. split; [exact Hrun|]. split; [exact He|].
    destruct (circular_second_in _ _ _ _ Hc) as [Hpu Hnu].
    split; [|split; [|split]].
    + intros x [E|Hx].
      * subst x. rewrite (Hout u Huw). cbn [with_links set_lnk threads
          with_thread set_threads]. rewrite upd_same.
        split; [reflexivity|].
        destruct (Hfr (tlist u)) as [E1 E2];
          [discriminate | exact Hu|].
        rewrite E1, E2. cbn [with_links set_lnk lnk with_thread set_threads].
        apply t_list_delete_self.
      * destruct (Hin x Hx) as (E1 & E2 & E3). rewrite E1.
        cbn [with_links set_lnk threads with_thread set_threads].
        assert (Hxu : x <> u) by (intros E; subst x; contradiction).
        rewrite upd_other by exact Hxu. auto.
    + intros x Hx. rewrite Hout by (intros H; apply Hx; right; exact H).
      cbn [with_links set_lnk threads with_thread set_threads].
      apply upd_other. intros E. subst x. apply Hx. left. reflexivity.
    + intros n Hn1 Hn2. destruct (Hfr n Hn1) as [E1 E2].
      { intros H. apply Hn2. right. exact H. }
      rewrite E1, E2. cbn [with_links set_lnk lnk with_thread set_threads].
      rewrite t_list_delete_next, t_list_delete_prev, Hpu.
      destruct (node_eq_dec n (tlist u)) as [E|_];
        [exfalso; apply Hn2; left; auto|].
      destruct (node_eq_dec n waiting_termination_list) as [E|_];
        [contradiction|].
      destruct (node_eq_dec n (next (lnk k) (tlist u))) as [E|_];
        [|auto].
      exfalso. rewrite <- E in Hnu. destruct Hnu as [E'|H];
        [apply Hn1; auto | apply Hn2; right; exact H].
    + rewrite Hk' at 1. destruct k; reflexivity.
Qed.

(** [t_cleanup_waiting_termination_threads] on a well-formed list of
    terminated threads: every thread of the list ends up DELETED with its
    node unlinked, the list is left empty, the other threads and the ready
    queues are not touched, and the interrupt mask is restored. *)
Theorem t_cleanup_reclaims_all (k : kernel) (w : list nat) (fuel : nat) :
  circular (lnk k) waiting_termination_list (map tlist w) ->
  (length w < fuel)%nat ->
  exists k',
    t_cleanup_waiting_termination_threads fuel k = Ok k' /\
    circular (lnk k') waiting_termination_list [] /\
    (forall u, In u w ->
       status (threads k' u) = TO_THREAD_DELETED /\
       next (lnk k') (tlist u) = tlist u /\
       prev (lnk k') (tlist u) = tlist u) /\
    (forall u, ~ In u w -> threads k' u = threads k u) /\
    (forall q, ready_queues k q -> unqueued q w -> ready_queues k' q) /\
    primask k' = primask k.
Proof.
  intros Hc Hfuel. unfold t_cleanup_waiting_termination_threads.
  cbn [t_irq_disable].
  destruct (t_cleanup_loop_ok w fuel (set_primask 1 k) Hc Hfuel)
    as (k' & Hrun & He & Hin & Hout & Hfr & Hk').
  rewrite Hrun. cbn [bind]. eexists. split; [reflexivity|].
  cbn [t_irq_enable set_primask lnk threads primask].
  split; [exact He|]. split.
  { intros u Hu. destruct (Hin u Hu) as (E1 & E2 & E3). rewrite E1.
    auto. }
  split; [exact Hout|]. split; [|reflexivity].
  intros q Hq Huq.
  apply (ready_queues_frame k); [| | |exact Hq].
  - intros p n Hp Hn. cbn [t_irq_enable set_primask lnk]. apply Hfr.
    + intros E. subst n. destruct Hn as [E|Hn]; [discriminate E|].
      apply in_map_iff in Hn. destruct Hn as (u & E & _). discriminate E.
    + intros Hnw. destruct Hn as [E|Hn].
      * subst n. apply in_map_iff in Hnw. destruct Hnw as (u & E & _).
        discriminate E.
      * apply in_map_iff in Hn. destruct Hn as (u & E & Hu). subst n.
        apply in_map_tlist in Hnw. apply (Huq u p Hnw Hp Hu).
  - intros p Hp. unfold ready_bit.
    cbn [t_irq_enable set_primask t_thread_ready_priority_group].
    rewrite Hk'. reflexivity.
  - intros p u Hp Hu. cbn [t_irq_enable set_primask threads].
    rewrite Hout; [auto|]. intros Hw. apply (Huq u p Hw Hp Hu).
Qed.

(** The worker is deleted and the idle thread reclaims it. *)
Lemma t_cleanup_reclaims_all_witness :
  exists k',
    t_cleanup_waiting_termination_threads 4
      (snd (t_thread_delete (Some worker) worker_ready)) = Ok k' /\
    status (threads k' worker) = TO_THREAD_DELETED /\
    circular (lnk k') waiting_termination_list [].
Proof.
  destruct (t_cleanup_reclaims_all
              (snd (t_thread_delete (Some worker) worker_ready)) [worker] 4)
    as (k' & H1 & H2 & H3 & _).
  - split; [vm_compute; repeat split|].
    repeat (constructor; [cbn; intuition discriminate|]). constructor.
  - cbn. lia.
  - exists k'. split; [exact H1|]. split; [|exact H2].
    apply (H3 worker). left. reflexivity.
Defined.

(** [t_thread_startup] of a thread that is in no ready queue and whose
    mask is the bit of its initial priority. *)
Lemma t_thread_startup_enqueues (k : kernel) (q : Z -> list nat) (t : nat)
    (p : Z) :
  ready_queues k q ->
  (forall p', 0 <= p' < TO_THREAD_PRIORITY_MAX -> ~ In t (q p')) ->
  0 <= p < TO_THREAD_PRIORITY_MAX ->
  init_priority (threads k t) = p ->
  number_mask (threads k t) = 2 ^ p ->
  status (threads k t) <> TO_THREAD_DELETED ->
  exists k',
    t_thread_startup (Some t) k = (T_OK, k') /\
    ready_queues k' (with_queue q p (q p ++ [t])) /\
    lnk k' = t_list_insert_before (ready_list p) (tlist t) (lnk k) /\
    threads k' t
    = set_remaining_tick (init_tick (threads k t))
        (set_status TO_THREAD_READY
           (set_current_priority p (threads k t))) /\
    (forall u, u <> t -> threads k' u = threads k u) /\
    t_cur_num_of_ready_tasks k' = t_cur_num_of_ready_tasks k /\
    t_current_thread k' = t_current_thread k /\
    timers k' = timers k /\
    primask k' = primask k.
Proof.
  intros Hq Hout Hp Hip Hm Hs. unfold t_thread_startup.
  destruct (Z.eqb_spec (status (threads k t)) TO_THREAD_DELETED) as [E|_];
    [contradiction|].
  eexists. split; [reflexivity|].
  cbn [t_irq_disable t_irq_enable with_thread with_links set_threads set_lnk
       set_primask set_t_thread_ready_priority_group threads lnk primask
       t_thread_ready_priority_group t_cur_num_of_ready_tasks
       t_current_thread timers].
  rewrite !upd_same.
  cbn [set_status set_remaining_tick set_current_priority current_priority
       init_priority number_mask init_tick status].
  rewrite Hip.
  split.
  2:{ split; [reflexivity|]. split; [reflexivity|].
      split; [|repeat split].
      intros u Hu. rewrite !upd_other by exact Hu. reflexivity. }
  pose proof (t_sched_insert_thread_keeps_ready_queues
                (with_thread t (set_current_priority p) k) q t p) as Hins.
  destruct (t_sched_insert_thread_fields
              (with_thread t (set_current_priority p) k) t)
    as (El & Et & Eg).
  assert (Hq0 : ready_queues (with_thread t (set_current_priority p) k) q).
  { apply (ready_queues_frame k); [auto | reflexivity | | exact Hq].
    intros p' u Hp' Hu. cbn [with_thread set_threads threads].
    rewrite upd_other; [auto|]. intros E. subst u. apply (Hout p' Hp' Hu). }
  specialize (Hins Hq0 Hp).
  cbn [with_thread set_threads threads] in Hins, El, Et, Eg.
  rewrite upd_same in Hins, El, Eg.
  cbn [set_current_priority current_priority number_mask] in Hins, El, Eg.
  specialize (Hins eq_refl Hm Hout).
  apply (ready_queues_frame
           (t_sched_insert_thread (Some t)
              (with_thread t (set_current_priority p) k)));
    [| | |exact Hins].
  - intros p' n _ _. rewrite El. auto.
  - intros p' _. unfold ready_bit. rewrite Eg.
    cbn [t_irq_enable with_links with_thread set_threads set_lnk
         set_primask set_t_thread_ready_priority_group threads lnk
         t_thread_ready_priority_group].
    rewrite ?upd_same. reflexivity.
  - intros p' u _ _. rewrite Et.
    cbn [t_irq_enable with_links with_thread set_threads set_lnk
         set_primask set_t_thread_ready_priority_group threads lnk
         t_thread_ready_priority_group].
    destruct (Nat.eq_dec u t) as [E|Hne].
    + subst u. rewrite ?upd_same.
      cbn [set_status set_remaining_tick set_current_priority
           current_priority init_priority number_mask].
      rewrite ?Hip. auto.
    + rewrite !upd_other by exact Hne. auto.
Qed.

Lemma t_thread_restart_scan_absent (h : links) (t : nat) (l : list node) :
  forall (fuel : nat) (a : node),
  chain h a l waiting_termination_list ->
  ~ In waiting_termination_list l ->
  ~ In (tlist t) l ->
  (length l < fuel)%nat ->
  t_thread_restart_scan fuel (hd waiting_termination_list l) t h = Ok h.
Proof.
  induction l as [|x l IH]; intros fuel a Hc Hw Ht Hfuel;
    (destruct fuel as [|fuel]; [cbn in Hfuel; lia|]);
    cbn [t_thread_restart_scan hd].
  - destruct (node_eq_dec waiting_termination_list waiting_termination_list)
      as [_|E]; [reflexivity | congruence].
  - destruct (node_eq_dec x waiting_termination_list) as [E|_];
      [exfalso; apply Hw; left; exact E|].
    destruct (node_eq_dec x (tlist t)) as [E|_];
      [exfalso; apply Ht; left; exact E|].
    destruct Hc as (_ & _ & Hc). rewrite (chain_next _ _ _ _ Hc).
    apply (IH fuel x Hc).
    + intros H. apply Hw. right. exact H.
    + intros H. apply Ht. right. exact H.
    + cbn in Hfuel. lia.
Qed.

Lemma irq_around_set_lnk (k : kernel) :
  t_irq_enable (primask k) (set_lnk (lnk k) (set_primask 1 k)) = k.
Proof. destruct k; reflexivity. Qed.

(** [t_thread_restart] of a DELETED thread that is in no list: the thread
    is set up again from the fields it kept and started, so it is READY at
    its initial priority and last in the ready queue of that priority.  Its
    time slice is reloaded from [init_tick] of its timer, which holds the
    duration of its last sleep or timed wait if there was one.  A thread
    that is not DELETED is refused with T_ERR, without any effect. *)
Theorem t_thread_restart_requeues (k : kernel) (q : Z -> list nat)
    (t : nat) (p : Z) (w : list nat) (fuel : nat) :
  status (threads k t) = TO_THREAD_DELETED ->
  ready_queues k q ->
  (forall p', 0 <= p' < TO_THREAD_PRIORITY_MAX -> ~ In t (q p')) ->
  circular (lnk k) waiting_termination_list (map tlist w) ->
  ~ In t w ->
  unqueued q w ->
  (length w < fuel)%nat ->
  init_priority (threads k t) = p ->
  0 <= p < TO_THREAD_PRIORITY_MAX ->
  (exists k',
     t_thread_restart fuel (Some t) k = Ok (T_OK, k') /\
     ready_queues k' (with_queue q p (q p ++ [t])) /\
     circular (lnk k') waiting_termination_list (map tlist w) /\
     status (threads k' t) = TO_THREAD_READY /\
     current_priority (threads k' t) = p /\
     init_tick (threads k' t)
     = timer_init_tick (timers k (thread_timer t)) /\
     remaining_tick (threads k' t)
     = timer_init_tick (timers k (thread_timer t)) /\
     timer_detached k' (thread_timer t) /\
     (forall u, u <> t -> threads k' u = threads k u) /\
     primask k' = primask k) /\
  (forall k0 u, status (threads k0 u) <> TO_THREAD_DELETED ->
     t_thread_restart fuel (Some u) k0 = Ok (T_ERR, k0)).
Proof.
  intros Hs Hq Hout Hw Htw Huq Hfuel Hip Hp. split.
  2:{ intros k0 u Hne. unfold t_thread_restart.
      destruct (Z.eqb_spec (status (threads k0 u)) TO_THREAD_DELETED)
        as [E|_]; [contradiction | reflexivity]. }
  unfold t_thread_restart. rewrite Hs.
  cbn [Z.eqb TO_THREAD_DELETED Pos.eqb negb t_irq_disable].
  cbn [set_primask lnk].
  pose proof Hw as [Hch Hnd].
  rewrite (chain_next _ _ _ _ Hch).
  rewrite (t_thread_restart_scan_absent (lnk k) t (map tlist w) fuel
             waiting_termination_list Hch).
  2:{ apply NoDup_cons_iff in Hnd. apply Hnd. }
  2:{ intros H. apply Htw. apply in_map_tlist. exact H. }
  2:{ rewrite length_map. exact Hfuel. }
  cbn [bind]. rewrite irq_around_set_lnk.
  assert (Hw8 : wrap8 p = p)
    by (apply wrap8_small; unfold TO_THREAD_PRIORITY_MAX in Hp; lia).
  assert (Hmask : wrap32 (Z.shiftl 1 p) = 2 ^ p).
  { rewrite Z.shiftl_1_l. apply wrap32_small.
    unfold TO_THREAD_PRIORITY_MAX in Hp. split; [apply Z.pow_nonneg; lia|].
    apply Z.pow_lt_mono_r; lia. }
  match goal with
  | |- exists k', Ok (t_thread_startup (Some t) ?kd) = _ /\ _ =>
      assert (Hd :
        threads kd t
        = {| psp := t_stack_init
                      (wrap32 (stackaddr (threads k t)
                               + stacksize (threads k t)));
             entry := entry (threads k t); arg := arg (threads k t);
             stackaddr := stackaddr (threads k t);
             stacksize := stacksize (threads k t);
             current_priority := p; init_priority := p;
             number_mask := 2 ^ p;
             init_tick := timer_init_tick (timers k (thread_timer t));
             remaining_tick := timer_init_tick (timers k (thread_timer t));
             status := TO_THREAD_READY |} /\
        (forall u, u <> t -> threads kd u = threads k u) /\
        (forall n, n <> tlist t -> n <> row (thread_timer t) ->
           next (lnk kd) n = next (lnk k) n /\
           prev (lnk kd) n = prev (lnk k) n) /\
        timer_detached kd (thread_timer t) /\
        t_thread_ready_priority_group kd = t_thread_ready_priority_group k /\
        primask kd = primask k);
      [|generalize dependent kd; intros kx Hd]
  end.
  { cbn -[t_stack_init wrap32 wrap8 Z.shiftl Z.pow].
    rewrite !upd_same. cbn -[t_stack_init wrap32 wrap8 Z.shiftl Z.pow].
    rewrite Hip, Hw8, Hmask.
    split; [reflexivity|]. split.
    { intros u Hu. rewrite !upd_other by exact Hu. reflexivity. }
    split.
    { intros n Hn1 Hn2. unfold upd.
      destruct (node_eq_dec n (row (thread_timer t))) as [E|_];
        [contradiction|].
      destruct (node_eq_dec n (tlist t)) as [E|_]; [contradiction|].
      split; reflexivity. }
    split; [|split; reflexivity].
    split; cbn; apply upd_same. }
  destruct Hd as (Hdt & Hdo & Hdl & Hdtm & Hdg & Hdp).
  assert (Hqd : ready_queues kx q).
  { apply (ready_queues_frame k); [| | |exact Hq].
    - intros p' n Hp' Hin. apply Hdl.
      + apply (not_queued_node q t p' n (Hout p' Hp') Hin).
      + destruct Hin as [E|Hin]; [subst n; discriminate|].
        apply in_map_iff in Hin. destruct Hin as (u & E & _). subst n.
        discriminate.
    - intros p' Hp'. unfold ready_bit. rewrite Hdg. reflexivity.
    - intros p' u Hp' Hin. rewrite Hdo; [auto|].
      intros E. subst u. apply (Hout p' Hp' Hin). }
  destruct (t_thread_startup_enqueues kx q t p Hqd Hout Hp)
    as (k' & Hrun & Hq' & Hl' & Ht' & Ho' & _ & _ & _ & Hp');
    try (rewrite Hdt; reflexivity).
  { rewrite Hdt. cbn. discriminate. }
  exists k'. rewrite Hrun. split; [reflexivity|]. split; [exact Hq'|].
  assert (Hwd : circular (lnk kx) waiting_termination_list (map tlist w)).
  { apply (circular_ext (lnk k)); [|exact Hw].
    intros n Hin. apply Hdl.
    - intros E. subst n. destruct Hin as [E|Hin]; [discriminate E|].
      apply Htw. apply in_map_tlist. exact Hin.
    - intros E. subst n. destruct Hin as [E|Hin]; [discriminate E|].
      apply in_map_iff in Hin. destruct Hin as (u & E & _). discriminate E. }
  split.
  { rewrite Hl'.
    destruct Hqd as (Hcd & _).
    apply (t_list_insert_before_apart (lnk kx) (ready_list p) (tlist t)
             (ready_list p) waiting_termination_list
             (map tlist (q p)) (map tlist w));
      [apply (Hcd p Hp) | left; reflexivity | | | exact Hwd].
    - intros [E|H]; [discriminate E|]. apply Htw. apply in_map_tlist.
      exact H.
    - apply unqueued_apart; try assumption.
      + intros [x E]. discriminate E.
      + intros u E. discriminate E. }
  rewrite Ht', Hdt. cbn.
  split; [reflexivity|]. split; [reflexivity|]. split; [reflexivity|].
  split; [reflexivity|]. split.
  { unfold timer_detached. rewrite Hl'.
    rewrite t_list_insert_before_next_eq, t_list_insert_before_prev_eq.
    destruct Hdtm as [D1 D2].
    destruct (node_eq_dec (row (thread_timer t)) (tlist t)) as [E|_];
      [discriminate E|].
    destruct (node_eq_dec (row (thread_timer t)) (ready_list p)) as [E|_];
      [discriminate E|].
    destruct (node_eq_dec (row (thread_timer t))
                (prev (lnk kx) (ready_list p))) as [E|_]; [|auto].
    exfalso. destruct Hqd as (Hcd & _).
    destruct (circular_neighbours _ _ (ready_list p) _ (Hcd p Hp)
                (or_introl eq_refl)) as [_ Hpw].
    rewrite <- E in Hpw. destruct Hpw as [E'|H]; [discriminate E'|].
    apply in_map_iff in H. destruct H as (u & E' & _). discriminate E'. }
  split; [|congruence].
  intros u Hu. rewrite (Ho' u Hu). apply (Hdo u Hu).
Qed.

Lemma worker_reclaimed_queues : ready_queues worker_reclaimed booted_q.
Proof. ready_queues_by_cases. Qed.

(** The worker, deleted and reclaimed, is restarted: it is ready again at
    priority 3, with the time slice of 10 ticks that its timer kept. *)
Lemma t_thread_restart_requeues_witness :
  status (threads worker_reclaimed worker) = TO_THREAD_DELETED /\
  exists k',
    t_thread_restart 4 (Some worker) worker_reclaimed = Ok (T_OK, k') /\
    status (threads k' worker) = TO_THREAD_READY /\
    init_tick (threads k' worker) = 10 /\
    ready_queues k' (with_queue booted_q 3 (booted_q 3 ++ [worker])).
Proof.
  split; [reflexivity|].
  destruct (t_thread_restart_requeues worker_reclaimed booted_q worker 3 []
              4 eq_refl worker_reclaimed_queues) as [(k' & H) _].
  - intros p' Hp' Hin. unfold booted_q, with_queue, upd in Hin.
    destruct (Z.eq_dec p' 0); [|destruct Hin].
    destruct Hin as [E|[]]. discriminate E.
  - split; [split; reflexivity|]. repeat constructor. intros [].
  - intros [].
  - intros u p' [].
  - cbn. lia.
  - reflexivity.
  - unfold TO_THREAD_PRIORITY_MAX. lia.
  - destruct H as (H1 & H2 & _ & H4 & _ & H6 & _).
    exists k'. split; [exact H1|]. split; [exact H4|].
    split; [rewrite H6; reflexivity | exact H2].
Defined.

(** [t_thread_ctrl]: a priority set with TO_THREAD_SET_PRIORITY is read
    back by TO_THREAD_GET_PRIORITY, and the mask follows it.  The value is
    not checked against [TO_THREAD_PRIORITY_MAX], and neither the lists nor
    the ready group are touched: a thread that is queued stays in the
    queue of its old priority.  Every other command, TO_THREAD_SET_STATUS
    included, is answered with T_UNSUPPORTED. *)
Theorem t_thread_ctrl_priority_round_trip (k : kernel) (t : nat) (v x : Z) :
  0 <= v < 256 ->
  exists k',
    t_thread_ctrl (Some t) TO_THREAD_SET_PRIORITY (Some v) k
    = (T_OK, None, k') /\
    t_thread_ctrl (Some t) TO_THREAD_GET_PRIORITY (Some x) k'
    = (T_OK, Some v, k') /\
    (v < 32 -> number_mask (threads k' t) = 2 ^ v) /\
    status (threads k' t) = status (threads k t) /\
    (forall u, u <> t -> threads k' u = threads k u) /\
    lnk k' = lnk k /\
    t_thread_ready_priority_group k' = t_thread_ready_priority_group k /\
    (forall cmd arg,
       cmd <> TO_THREAD_GET_STATUS -> cmd <> TO_THREAD_GET_PRIORITY ->
       cmd <> TO_THREAD_SET_PRIORITY ->
       t_thread_ctrl (Some t) cmd arg k = (T_UNSUPPORTED, None, k)) /\
    t_thread_ctrl (Some t) TO_THREAD_SET_STATUS (Some x) k
    = (T_UNSUPPORTED, None, k).
Proof.
  intros Hv. eexists. split; [reflexivity|].
  assert (Hw : wrap8 v = v) by (apply wrap8_small; lia).
  split.
  { unfold t_thread_ctrl.
    cbn -[wrap8 wrap32 Z.shiftl]. rewrite !upd_same.
    cbn -[wrap8 wrap32 Z.shiftl]. rewrite Hw. reflexivity. }
  split.
  { intros Hlt. cbn -[wrap8 wrap32 Z.shiftl Z.pow]. rewrite !upd_same.
    cbn -[wrap8 wrap32 Z.shiftl Z.pow]. rewrite Hw, Z.shiftl_1_l.
    apply wrap32_small. split; [apply Z.pow_nonneg; lia|].
    apply Z.pow_lt_mono_r; lia. }
  split; [cbn -[wrap8 wrap32 Z.shiftl]; rewrite !upd_same; reflexivity|].
  split.
  { intros u Hu. cbn -[wrap8 wrap32 Z.shiftl].
    rewrite !upd_other by exact Hu. reflexivity. }
  split; [reflexivity|]. split; [reflexivity|]. split; [|reflexivity].
  intros cmd a H1 H2 H3. unfold t_thread_ctrl.
  destruct (Z.eqb_spec cmd TO_THREAD_GET_STATUS) as [E|_]; [contradiction|].
  destruct (Z.eqb_spec cmd TO_THREAD_GET_PRIORITY) as [E|_];
    [contradiction|].
  destruct (Z.eqb_spec cmd TO_THREAD_SET_PRIORITY) as [E|_];
    [contradiction|].
  reflexivity.
Qed.

Lemma t_thread_ctrl_priority_round_trip_witness :
  exists k',
    t_thread_ctrl (Some worker) TO_THREAD_SET_PRIORITY (Some 5) worker_ready
    = (T_OK, None, k') /\
    t_thread_ctrl (Some worker) TO_THREAD_GET_PRIORITY (Some 0) k'
    = (T_OK, Some 5, k').
Proof.
  destruct (t_thread_ctrl_priority_round_trip worker_ready worker 5 0
              ltac:(lia)) as (k' & H1 & H2 & _).
  exists k'. split; assumption.
Defined.

(** ** Software timers over the timer lists *)

Lemma remove_mid (tm : timer_ref) (l1 l2 : list timer_ref) :
  NoDup (l1 ++ tm :: l2) ->
  remove timer_ref_eq_dec tm (l1 ++ tm :: l2) = l1 ++ l2.
Proof.
  intros Hnd. rewrite remove_app. cbn [remove].
  destruct (timer_ref_eq_dec tm tm) as [_|E]; [|congruence].
  pose proof (NoDup_remove_2 _ _ _ Hnd) as Hn.
  rewrite !notin_remove; [reflexivity| |];
    intros Hin; apply Hn; apply in_or_app; auto.
Qed.

Lemma in_map_row (tm : timer_ref) (l : list timer_ref) :
  In (row tm) (map row l) -> In tm l.
Proof.
  intros Hin. apply in_map_iff in Hin. destruct Hin as (x & E & Hin).
  inversion E. subst x. exact Hin.
Qed.

Lemma NoDup_rows (s : node) (l : list timer_ref) :
  NoDup (s :: map row l) -> NoDup l.
Proof.
  intros Hnd. apply NoDup_cons_iff in Hnd. destruct Hnd as [_ Hnd].
  apply NoDup_map_inv in Hnd. exact Hnd.
Qed.

Lemma timer_lists_heads (k : kernel) (c o : list timer_ref) :
  timer_lists k c o ->
  (forall x, g_cur_timer_list k <> row x) /\
  (forall x, g_overflow_timer_list k <> row x) /\
  (forall t, g_cur_timer_list k <> tlist t) /\
  (forall t, g_overflow_timer_list k <> tlist t) /\
  (forall p, g_cur_timer_list k <> ready_list p) /\
  (forall p, g_overflow_timer_list k <> ready_list p) /\
  g_cur_timer_list k <> expired_list.
Proof.
  intros (_ & _ & _ & [[E1 E2]|[E1 E2]]); rewrite E1, E2;
    repeat split; intros; discriminate.
Qed.

(** Unlinking a timer that is in one of two lists that share no node, or
    in no list: the list that holds it loses it, and a list that does not
    hold it is kept. *)
Lemma timer_delete_keeps (h : links) (s s' s0 : node)
    (c o : list timer_ref) (l0 : list node) (tm : timer_ref) :
  circular h s (map row c) ->
  circular h s' (map row o) ->
  In tm c \/ In tm o \/ (next h (row tm) = row tm /\ prev h (row tm) = row tm) ->
  apart (s :: map row c) (s0 :: l0) ->
  apart (s' :: map row o) (s0 :: l0) ->
  circular h s0 l0 ->
  circular (t_list_delete (row tm) h) s0 l0.
Proof.
  intros Hc Ho [H|[H|[Hn Hp]]] Ha Ha' H0.
  - apply (t_list_delete_apart h s (row tm) s0 (map row c)); auto.
    apply in_map. exact H.
  - apply (t_list_delete_apart h s' (row tm) s0 (map row o)); auto.
    apply in_map. exact H.
  - pose proof (t_list_delete_detached h (row tm) Hn Hp) as Hsame.
    apply (circular_ext h); auto.
Qed.

Lemma timer_lists_delete (h : links) (s s' : node) (c o : list timer_ref)
    (tm : timer_ref) :
  circular h s (map row c) ->
  circular h s' (map row o) ->
  apart (s :: map row c) (s' :: map row o) ->
  In tm c \/ In tm o \/ (next h (row tm) = row tm /\ prev h (row tm) = row tm) ->
  circular (t_list_delete (row tm) h) s
    (map row (remove timer_ref_eq_dec tm c)) /\
  circular (t_list_delete (row tm) h) s'
    (map row (remove timer_ref_eq_dec tm o)).
Proof.
  intros Hc Ho Hap Hin.
  assert (Hcase : In tm c \/ (~ In tm c /\ In tm o) \/
                  (~ In tm c /\ ~ In tm o /\
                   next h (row tm) = row tm /\ prev h (row tm) = row tm)).
  { destruct (in_dec timer_ref_eq_dec tm c) as [H1|H1]; [auto|].
    destruct (in_dec timer_ref_eq_dec tm o) as [H2|H2]; [auto|].
    destruct Hin as [H|[H|H]]; [contradiction|contradiction|].
    right; right. tauto. }
  destruct Hcase as [H1|[[H1 H2]|(H1 & H2 & Hn & Hp)]].
  - assert (H2 : ~ In tm o).
    { intros H2. apply (Hap (row tm)); right; apply in_map; assumption. }
    rewrite (notin_remove _ o tm H2).
    destruct (in_split _ _ H1) as (l1 & l2 & E). subst c.
    rewrite remove_mid by (apply (NoDup_rows s); apply Hc).
    rewrite map_app in *. cbn [map] in *. split.
    + apply t_list_delete_member. exact Hc.
    + apply (t_list_delete_apart h s (row tm) s'
               (map row l1 ++ row tm :: map row l2)); auto.
      apply in_or_app. right. left. reflexivity.
  - rewrite (notin_remove _ c tm H1).
    destruct (in_split _ _ H2) as (l1 & l2 & E). subst o.
    rewrite remove_mid by (apply (NoDup_rows s'); apply Ho).
    rewrite map_app in *. cbn [map] in *. split.
    + apply (t_list_delete_apart h s' (row tm) s
               (map row l1 ++ row tm :: map row l2)); auto.
      * apply in_or_app. right. left. reflexivity.
      * apply apart_sym. exact Hap.
    + apply t_list_delete_member. exact Ho.
  - rewrite (notin_remove _ c tm H1), (notin_remove _ o tm H2).
    pose proof (t_list_delete_detached h (row tm) Hn Hp) as Hsame.
    split; [apply (circular_ext h) | apply (circular_ext h)]; auto.
Qed.

(** The scan of [t_timer_start], from a node of the list on: it stops at
    the last of the timers that are due no later than [tick]. *)
Lemma t_timer_start_scan_stops (k : kernel) (s : node) (tick : Z)
    (tm : timer_ref) :
  forall (l : list timer_ref) (fuel : nat) (p : node),
  chain (lnk k) p (map row l) s ->
  (forall x, s <> row x) ->
  (length l < fuel)%nat ->
  exists l1 l2,
    l = l1 ++ l2 /\
    t_timer_start_scan fuel s p tick k = Ok (last (map row l1) p) /\
    timer_insert (timers k) tick tm l = l1 ++ tm :: l2.
Proof.
  induction l as [|x l IH]; intros fuel p Hc Hs Hfuel;
    (destruct fuel as [|fuel]; [cbn in Hfuel; lia|]);
    cbn [t_timer_start_scan timer_insert map chain] in *.
  - destruct Hc as [Hn _]. rewrite Hn.
    destruct (node_eq_dec s s) as [_|E]; [|congruence].
    exists [], []. auto.
  - destruct Hc as (Hn & _ & Hc). rewrite Hn.
    destruct (node_eq_dec (row x) s) as [E|_];
      [exfalso; apply (Hs x); symmetry; exact E|].
    cbn [T_LIST_ENTRY_timer].
    destruct (timeout_tick (timers k x) >? tick).
    + exists [], (x :: l). auto.
    + destruct (IH fuel (row x) Hc Hs) as (l1 & l2 & E & Hrun & Hins);
        [cbn in Hfuel; lia|].
      exists (x :: l1), l2. subst l. split; [reflexivity|].
      split; [|cbn [app]; rewrite Hins; reflexivity].
      rewrite Hrun. f_equal. cbn [map].
      destruct (map row l1) eqn:El1; [reflexivity|].
      cbn [last]. apply last_default.
Qed.

(** Insertion behind the last node of a prefix of a circular list. *)
Lemma t_list_insert_after_last (h : links) (s n : node)
    (l1 l2 : list node) :
  circular h s (l1 ++ l2) ->
  ~ In n (s :: l1 ++ l2) ->
  circular (t_list_insert_after (last l1 s) n h) s (l1 ++ n :: l2).
Proof.
  intros Hc Hn.
  destruct l1 as [|a l1].
  - cbn [last app] in *. apply t_list_insert_after_head; assumption.
  - destruct (@exists_last _ (a :: l1)) as (l1' & x & E); [discriminate|].
    rewrite E in *. rewrite last_last. rewrite <- app_assoc in *.
    cbn [app] in *.
    apply t_list_insert_after_member; assumption.
Qed.

Lemma timer_insert_ext (tk tk' : timer_ref -> t_timer_t) (tick : Z)
    (tm : timer_ref) (l : list timer_ref) :
  (forall x, In x l -> timeout_tick (tk' x) = timeout_tick (tk x)) ->
  timer_insert tk' tick tm l = timer_insert tk tick tm l.
Proof.
  induction l as [|x l IH]; intros H; cbn [timer_insert]; [reflexivity|].
  rewrite (H x (or_introl eq_refl)).
  rewrite IH; [reflexivity|]. intros y Hy. apply H. right. exact Hy.
Qed.

Lemma due_ordered_ext (tk tk' : timer_ref -> t_timer_t)
    (l : list timer_ref) :
  (forall x, In x l -> timeout_tick (tk' x) = timeout_tick (tk x)) ->
  due_ordered tk l -> due_ordered tk' l.
Proof.
  induction l as [|x l IH]; intros H; cbn [due_ordered]; [auto|].
  intros [Hx Hl]. split.
  - intros y Hy. rewrite (H x (or_introl eq_refl)), (H y (or_intror Hy)).
    apply Hx. exact Hy.
  - apply IH; [|exact Hl]. intros y Hy. apply H. right. exact Hy.
Qed.

Lemma due_ordered_remove (tk : timer_ref -> t_timer_t) (tm : timer_ref)
    (l : list timer_ref) :
  due_ordered tk l -> due_ordered tk (remove timer_ref_eq_dec tm l).
Proof.
  induction l as [|x l IH]; cbn [due_ordered remove]; [auto|].
  intros [Hx Hl]. destruct (timer_ref_eq_dec tm x) as [_|_]; [auto|].
  cbn [due_ordered]. split; [|auto].
  intros y Hy. apply Hx. apply in_remove in Hy. apply Hy.
Qed.

Lemma timer_insert_in (tk : timer_ref -> t_timer_t) (tick : Z)
    (tm y : timer_ref) (l : list timer_ref) :
  In y (timer_insert tk tick tm l) <-> y = tm \/ In y l.
Proof.
  induction l as [|x l IH]; cbn [timer_insert].
  - cbn. intuition congruence.
  - destruct (timeout_tick (tk x) >? tick); cbn [In].
    + intuition congruence.
    + rewrite IH. intuition congruence.
Qed.

(** Insertion before the first timer that is due later keeps a list in the
    order of expiry. *)
Lemma timer_insert_ordered (tk : timer_ref -> t_timer_t) (tm : timer_ref)
    (l : list timer_ref) :
  due_ordered tk l ->
  due_ordered tk (timer_insert tk (timeout_tick (tk tm)) tm l).
Proof.
  induction l as [|x l IH]; cbn [due_ordered timer_insert].
  - intros _. split; [intros y []|exact I].
  - intros [Hx Hl].
    destruct (timeout_tick (tk x) >? timeout_tick (tk tm)) eqn:E.
    + cbn [due_ordered]. split; [|split; assumption].
      intros y [Ey|Hy]; [subst y; lia|].
      specialize (Hx y Hy). lia.
    + cbn [due_ordered]. split; [|apply IH; exact Hl].
      intros y Hy. apply timer_insert_in in Hy.
      destruct Hy as [Ey|Hy]; [subst y; lia | apply Hx; exact Hy].
Qed.

(** The state in which [t_timer_start] scans for the place of the timer. *)
Lemma t_timer_start_steps (fuel : nat) (k : kernel) (tm : timer_ref) :
  exists k2,
    t_timer_start fuel (Some tm) k
    = (p <- t_timer_start_scan fuel
              (if timeout_tick (timers k2 tm) >? s_tick k
               then g_cur_timer_list k else g_overflow_timer_list k)
              (if timeout_tick (timers k2 tm) >? s_tick k
               then g_cur_timer_list k else g_overflow_timer_list k)
              (timeout_tick (timers k2 tm)) k2 ;;
       Ok (T_OK,
           t_irq_enable (primask k)
             (with_links (t_list_insert_after p (row tm)) k2))) /\
    lnk k2 = t_list_delete (row tm) (lnk k) /\
    timeout_tick (timers k2 tm)
    = wrap32 (s_tick k + timer_init_tick (timers k tm)) /\
    timer_init_tick (timers k2 tm) = timer_init_tick (timers k tm) /\
    timeout_func (timers k2 tm) = timeout_func (timers k tm) /\
    timer_p (timers k2 tm) = timer_p (timers k tm) /\
    (forall x, x <> tm -> timers k2 x = timers k x) /\
    threads k2 = threads k /\
    s_tick k2 = s_tick k /\
    g_cur_timer_list k2 = g_cur_timer_list k /\
    g_overflow_timer_list k2 = g_overflow_timer_list k /\
    trace k2 = trace k /\
    t_thread_ready_priority_group k2 = t_thread_ready_priority_group k /\
    t_current_thread k2 = t_current_thread k /\
    t_schedulue_suspend k2 = t_schedulue_suspend k /\
    t_cur_num_of_ready_tasks k2 = t_cur_num_of_ready_tasks k.
Proof.
  eexists. split; [unfold t_timer_start; cbn [t_irq_disable]; reflexivity|].
  cbn. rewrite upd_same. cbn.
  repeat split. intros x Hx. apply upd_other. exact Hx.
Qed.

Lemma timer_lists_apart (s s' : node) (c o c' o' : list timer_ref)
    (tm : timer_ref) :
  apart (s :: map row c) (s' :: map row o) ->
  (forall x, s <> row x) -> (forall x, s' <> row x) ->
  (forall y, In y c' -> y = tm \/ In y c) ->
  (forall y, In y o' -> In y o /\ y <> tm) ->
  apart (s :: map row c') (s' :: map row o').
Proof.
  intros Hap Hs Hs' Hc Ho n [E1|H1] [E2|H2].
  - apply (Hap s); [left; reflexivity | left; congruence].
  - subst n. apply in_map_iff in H2. destruct H2 as (y & E & _).
    apply (Hs y). symmetry. exact E.
  - subst n. apply in_map_iff in H1. destruct H1 as (y & E & _).
    apply (Hs' y). symmetry. exact E.
  - apply in_map_iff in H1. destruct H1 as (y & E & Hy). subst n.
    apply in_map_row in H2. destruct (Ho y H2) as [Hyo Hne].
    destruct (Hc y Hy) as [Ey|Hyc]; [contradiction|].
    apply (Hap (row y)); right; apply in_map; assumption.
Qed.

(** Placing a timer in a list: it gets there where the scan stopped, and a
    list that shares no node with that list is kept. *)
Lemma timer_lists_place (k2 : kernel) (s : node) (a : list timer_ref)
    (tm : timer_ref) (fuel : nat) (tick : Z) :
  circular (lnk k2) s (map row a) ->
  (forall x, s <> row x) ->
  ~ In tm a ->
  (length a < fuel)%nat ->
  exists p,
    t_timer_start_scan fuel s s tick k2 = Ok p /\
    circular (t_list_insert_after p (row tm) (lnk k2)) s
      (map row (timer_insert (timers k2) tick tm a)) /\
    (forall s0 l0,
       circular (lnk k2) s0 l0 ->
       apart (s :: map row a) (s0 :: l0) ->
       ~ In (row tm) (s0 :: l0) ->
       circular (t_list_insert_after p (row tm) (lnk k2)) s0 l0).
Proof.
  intros Ha Hs Hna Hfuel.
  destruct (t_timer_start_scan_stops k2 s tick tm a fuel s)
    as (l1 & l2 & E & Hrun & Hins); [apply Ha | exact Hs | exact Hfuel |].
  exists (last (map row l1) s). split; [exact Hrun|].
  assert (Hrow : ~ In (row tm) (s :: map row a)).
  { intros [E'|Hin]; [apply (Hs tm); exact E'|].
    apply Hna. apply in_map_row. exact Hin. }
  split.
  - rewrite Hins, map_app. cbn [map].
    apply t_list_insert_after_last; rewrite <- map_app, <- E; assumption.
  - intros s0 l0 H0 Hap Hn0.
    apply (t_list_insert_after_apart (lnk k2) s (row tm)
             (last (map row l1) s) s0 (map row a)); auto.
    pose proof (last_in s (map row l1)) as Hin.
    destruct Hin as [E'|Hin]; [left; exact E'|]. right.
    subst a. rewrite map_app. apply in_or_app. left. exact Hin.
Qed.

(** [t_timer_start] over the two timer lists, with what it leaves as it
    is. *)
Lemma t_timer_start_over_lists (fuel : nat) (k : kernel)
    (tm : timer_ref) (c o : list timer_ref) :
  timer_lists k c o ->
  In tm c \/ In tm o \/ timer_detached k tm ->
  (length c < fuel)%nat -> (length o < fuel)%nat ->
  0 <= s_tick k < 2 ^ 32 ->
  0 <= timer_init_tick (timers k tm) < 2 ^ 32 ->
  exists k' c' o',
    t_timer_start fuel (Some tm) k = Ok (T_OK, k') /\
    timer_lists k' c' o' /\
    timeout_tick (timers k' tm)
    = wrap32 (s_tick k + timer_init_tick (timers k tm)) /\
    (0 < timer_init_tick (timers k tm) ->
     s_tick k + timer_init_tick (timers k tm) < 2 ^ 32 ->
     c' = timer_insert (timers k)
            (s_tick k + timer_init_tick (timers k tm)) tm
            (remove timer_ref_eq_dec tm c) /\
     o' = remove timer_ref_eq_dec tm o) /\
    (timer_init_tick (timers k tm) = 0 \/
     2 ^ 32 <= s_tick k + timer_init_tick (timers k tm) ->
     c' = remove timer_ref_eq_dec tm c /\
     o' = timer_insert (timers k)
            (wrap32 (s_tick k + timer_init_tick (timers k tm))) tm
            (remove timer_ref_eq_dec tm o)) /\
    timer_init_tick (timers k' tm) = timer_init_tick (timers k tm) /\
    (forall x, x <> tm -> timers k' x = timers k x) /\
    (s_tick k' = s_tick k /\
     primask k' = primask k /\
     trace k' = trace k /\
     threads k' = threads k /\
     t_thread_ready_priority_group k' = t_thread_ready_priority_group k /\
     t_current_thread k' = t_current_thread k /\
     t_schedulue_suspend k' = t_schedulue_suspend k /\
     t_cur_num_of_ready_tasks k' = t_cur_num_of_ready_tasks k) /\
    (forall s0 l0,
       circular (lnk k) s0 l0 ->
       apart (g_cur_timer_list k :: map row c) (s0 :: l0) ->
       apart (g_overflow_timer_list k :: map row o) (s0 :: l0) ->
       ~ In (row tm) (s0 :: l0) ->
       circular (lnk k') s0 l0).
Proof.
  intros Hl Hin Hfc Hfo Ht Hi.
  destruct (timer_lists_heads k c o Hl) as (Hsc & Hso & _).
  destruct Hl as (Hc & Ho & Hap & Hheads).
  destruct (t_timer_start_steps fuel k tm)
    as (k2 & Hrun & Hlnk & Hto & Hit & _ & _ & Hoth & Hth & Hst & Hgc & Hgo
        & Htr & Hgr & Hct & Hss & Hnum).
  rewrite Hrun. clear Hrun.
  destruct (timer_lists_delete (lnk k) _ _ c o tm Hc Ho Hap Hin)
    as [Hc1 Ho1].
  assert (Hthird : forall s0 l0,
            circular (lnk k) s0 l0 ->
            apart (g_cur_timer_list k :: map row c) (s0 :: l0) ->
            apart (g_overflow_timer_list k :: map row o) (s0 :: l0) ->
            circular (lnk k2) s0 l0).
  { intros s0 l0 H0 Ha Ha'. rewrite Hlnk.
    apply (timer_delete_keeps (lnk k) (g_cur_timer_list k)
             (g_overflow_timer_list k) s0 c o l0 tm); auto. }
  rewrite <- Hlnk in Hc1, Ho1.
  set (c1 := remove timer_ref_eq_dec tm c) in *.
  set (o1 := remove timer_ref_eq_dec tm o) in *.
  assert (Hnc : ~ In tm c1) by apply remove_In.
  assert (Hno : ~ In tm o1) by apply remove_In.
  assert (Hlc : (length c1 < fuel)%nat).
  { pose proof (remove_length_le timer_ref_eq_dec c tm). unfold c1. lia. }
  assert (Hlo : (length o1 < fuel)%nat).
  { pose proof (remove_length_le timer_ref_eq_dec o tm). unfold o1. lia. }
  assert (Hsubc : forall n, In n (g_cur_timer_list k :: map row c1) ->
                            In n (g_cur_timer_list k :: map row c)).
  { intros n [E|Hn]; [left; exact E|]. right.
    apply in_map_iff in Hn. destruct Hn as (y & E & Hy). subst n.
    apply in_map. apply in_remove in Hy. apply Hy. }
  assert (Hsubo : forall n, In n (g_overflow_timer_list k :: map row o1) ->
                            In n (g_overflow_timer_list k :: map row o)).
  { intros n [E|Hn]; [left; exact E|]. right.
    apply in_map_iff in Hn. destruct Hn as (y & E & Hy). subst n.
    apply in_map. apply in_remove in Hy. apply Hy. }
  assert (Hap1 : apart (g_cur_timer_list k :: map row c1)
                   (g_overflow_timer_list k :: map row o1)).
  { intros n H1 H2. apply (Hap n); auto. }
  assert (Hrc : ~ In (row tm) (g_cur_timer_list k :: map row c1)).
  { intros [E|Hn]; [apply (Hsc tm); exact E|].
    apply in_map_row in Hn. contradiction. }
  assert (Hro : ~ In (row tm) (g_overflow_timer_list k :: map row o1)).
  { intros [E|Hn]; [apply (Hso tm); exact E|].
    apply in_map_row in Hn. contradiction. }
  assert (Hext : forall l, ~ In tm l ->
            forall x, In x l ->
              timeout_tick (timers k2 x) = timeout_tick (timers k x)).
  { intros l Hl x Hx. rewrite Hoth; [reflexivity|].
    intros E. subst x. contradiction. }
  rewrite Hto.
  destruct (wrap32 (s_tick k + timer_init_tick (timers k tm)) >? s_tick k)
    eqn:Ecmp.
  - destruct (timer_lists_place k2 _ c1 tm fuel
                (wrap32 (s_tick k + timer_init_tick (timers k tm)))
                Hc1 Hsc Hnc Hlc)
      as (p & Hscan & Hc2 & Hfr).
    rewrite Hscan. cbn [bind].
    eexists. exists
      (timer_insert (timers k2)
         (wrap32 (s_tick k + timer_init_tick (timers k tm))) tm c1), o1.
    split; [reflexivity|].
    unfold timer_lists.
    cbn [t_irq_enable with_links set_lnk set_primask lnk timers s_tick
         primask trace g_cur_timer_list g_overflow_timer_list threads
         t_thread_ready_priority_group t_current_thread t_schedulue_suspend
         t_cur_num_of_ready_tasks].
    rewrite Hgc, Hgo.
    split.
    { split; [exact Hc2|]. split; [apply Hfr; auto|].
      split; [|exact Hheads].
      apply (timer_lists_apart _ _ c1 o1 _ o1 tm); auto.
      - intros y Hy. apply timer_insert_in in Hy. exact Hy.
      - intros y Hy. split; [exact Hy|]. intros E. subst y. contradiction. }
    split; [exact Hto|]. split.
    { intros H0 Hlt. unfold wrap32.
      rewrite Z.mod_small by lia. split; [|reflexivity].
      apply timer_insert_ext. apply Hext. exact Hnc. }
    split.
    { intros Hcase. exfalso. unfold wrap32 in Ecmp.
      apply Z.gtb_lt in Ecmp. destruct Hcase as [E0|Hge].
      - rewrite E0, Z.add_0_r, Z.mod_small in Ecmp; lia.
      - replace (s_tick k + timer_init_tick (timers k tm))
          with (s_tick k + timer_init_tick (timers k tm) - 2 ^ 32
                + 1 * 2 ^ 32) in Ecmp by lia.
        rewrite Z.mod_add, Z.mod_small in Ecmp; lia. }
    split; [exact Hit|]. split; [exact Hoth|].
    split; [repeat split; assumption|].
    intros s0 l0 H0 Ha Ha' Hn0. apply Hfr; auto.
    intros n H1 H2. apply (Ha n); auto.
  - destruct (timer_lists_place k2 _ o1 tm fuel
                (wrap32 (s_tick k + timer_init_tick (timers k tm)))
                Ho1 Hso Hno Hlo)
      as (p & Hscan & Ho2 & Hfr).
    rewrite Hscan. cbn [bind].
    eexists. exists c1,
      (timer_insert (timers k2)
         (wrap32 (s_tick k + timer_init_tick (timers k tm))) tm o1).
    split; [reflexivity|].
    unfold timer_lists.
    cbn [t_irq_enable with_links set_lnk set_primask lnk timers s_tick
         primask trace g_cur_timer_list g_overflow_timer_list threads
         t_thread_ready_priority_group t_current_thread t_schedulue_suspend
         t_cur_num_of_ready_tasks].
    rewrite Hgc, Hgo.
    split.
    { split; [apply Hfr; auto; apply apart_sym; exact Hap1|].
      split; [exact Ho2|].
      split; [|exact Hheads].
      apply apart_sym.
      apply (timer_lists_apart _ _ o1 c1 _ c1 tm); auto.
      - apply apart_sym. exact Hap1.
      - intros y Hy. apply timer_insert_in in Hy. exact Hy.
      - intros y Hy. split; [exact Hy|]. intros E. subst y. contradiction. }
    split; [exact Hto|]. split.
    { intros H0 Hlt. exfalso. unfold wrap32 in Ecmp.
      rewrite Z.mod_small in Ecmp by lia.
      rewrite Z.gtb_ltb, Z.ltb_ge in Ecmp. lia. }
    split.
    { intros _. split; [reflexivity|].
      apply timer_insert_ext. apply Hext. exact Hno. }
    split; [exact Hit|]. split; [exact Hoth|].
    split; [repeat split; assumption|].
    intros s0 l0 H0 Ha Ha' Hn0. apply Hfr; auto.
    intros n H1 H2. apply (Ha' n); auto.
Qed.

(** [t_timer_start] over the two timer lists.  The timer is first taken
    out of the list it is in, if any.  Its expiry is the tick plus its
    duration modulo 2^32; when that is later than the tick (a duration that
    is not 0 and no wrap-around) it goes to the current list and otherwise,
    also for the duration 0, to the overflow list.  In that list it is put
    before the first timer that is due later, hence behind the timers due
    on the same tick, and a list in the order of expiry stays so. *)
Theorem t_timer_start_inserts_by_expiry (fuel : nat) (k : kernel)
    (tm : timer_ref) (c o : list timer_ref) :
  timer_lists k c o ->
  In tm c \/ In tm o \/ timer_detached k tm ->
  (length c < fuel)%nat -> (length o < fuel)%nat ->
  0 <= s_tick k < 2 ^ 32 ->
  0 <= timer_init_tick (timers k tm) < 2 ^ 32 ->
  exists k' c' o',
    t_timer_start fuel (Some tm) k = Ok (T_OK, k') /\
    timer_lists k' c' o' /\
    timeout_tick (timers k' tm)
    = wrap32 (s_tick k + timer_init_tick (timers k tm)) /\
    (0 < timer_init_tick (timers k tm) ->
     s_tick k + timer_init_tick (timers k tm) < 2 ^ 32 ->
     c' = timer_insert (timers k)
            (s_tick k + timer_init_tick (timers k tm)) tm
            (remove timer_ref_eq_dec tm c) /\
     o' = remove timer_ref_eq_dec tm o) /\
    (timer_init_tick (timers k tm) = 0 \/
     2 ^ 32 <= s_tick k + timer_init_tick (timers k tm) ->
     c' = remove timer_ref_eq_dec tm c /\
     o' = timer_insert (timers k)
            (wrap32 (s_tick k + timer_init_tick (timers k tm))) tm
            (remove timer_ref_eq_dec tm o)) /\
    (due_ordered (timers k) c -> due_ordered (timers k') c') /\
    (due_ordered (timers k) o -> due_ordered (timers k') o') /\
    timer_init_tick (timers k' tm) = timer_init_tick (timers k tm) /\
    (forall x, x <> tm -> timers k' x = timers k x) /\
    s_tick k' = s_tick k /\
    primask k' = primask k /\
    trace k' = trace k.
Proof.
  intros Hl Hin Hfc Hfo Ht Hi.
  destruct (t_timer_start_over_lists fuel k tm c o Hl Hin Hfc Hfo Ht Hi)
    as (k' & c' & o' & Hrun & Hl' & Hto & Hcur & Hov & Hit & Hoth
        & (Hst & Hpm & Htr & _) & _).
  exists k', c', o'.
  split; [exact Hrun|]. split; [exact Hl'|]. split; [exact Hto|].
  split; [exact Hcur|]. split; [exact Hov|].
  assert (Hrem : forall l, due_ordered (timers k) l ->
            due_ordered (timers k') (remove timer_ref_eq_dec tm l)).
  { intros l H. apply (due_ordered_ext (timers k)).
    - intros x Hx. rewrite Hoth; [reflexivity|].
      intros E. subst x. apply (remove_In _ _ _ Hx).
    - apply due_ordered_remove. exact H. }
  assert (Hins : forall l tick, due_ordered (timers k) l ->
            tick = timeout_tick (timers k' tm) ->
            due_ordered (timers k')
              (timer_insert (timers k) tick tm
                 (remove timer_ref_eq_dec tm l))).
  { intros l tick H E. subst tick.
    rewrite <- (timer_insert_ext (timers k) (timers k')).
    - apply timer_insert_ordered. apply Hrem. exact H.
    - intros x Hx. rewrite Hoth; [reflexivity|].
      intros E. subst x. apply (remove_In _ _ _ Hx). }
  assert (Hcase : (0 < timer_init_tick (timers k tm) /\
                   s_tick k + timer_init_tick (timers k tm) < 2 ^ 32) \/
                  (timer_init_tick (timers k tm) = 0 \/
                   2 ^ 32 <= s_tick k + timer_init_tick (timers k tm)))
    by lia.
  destruct Hcase as [[H0 Hlt]|Hcase].
  - destruct (Hcur H0 Hlt) as [Ec Eo]. subst c' o'.
    split; [|split; [apply Hrem|auto 10]].
    intros H. apply Hins; [exact H|]. rewrite Hto. unfold wrap32.
    rewrite Z.mod_small by lia. reflexivity.
  - destruct (Hov Hcase) as [Ec Eo]. subst c' o'.
    split; [apply Hrem|]. split; [|auto 10].
    intros H. apply Hins; [exact H|]. rewrite Hto. reflexivity.
Qed.

Lemma timer_a_armed_lists : timer_lists timer_a_armed [timer_a] [].
Proof.
  unfold timer_lists. split; [|split; [|split]].
  - split; [vm_compute; repeat split|].
    repeat (constructor; [cbn; intuition discriminate|]). constructor.
  - split; [vm_compute; repeat split|].
    repeat (constructor; [cbn; intuition discriminate|]). constructor.
  - intros n [E|[E|[]]] [E'|[]]; subst n; discriminate.
  - left. split; reflexivity.
Qed.

Lemma t_timer_start_inserts_by_expiry_witness :
  exists k',
    t_timer_start 8 (Some timer_b) timer_a_armed = Ok (T_OK, k') /\
    timer_lists k' [timer_b; timer_a] [] /\
    timeout_tick (timers k' timer_b) = 3.
Proof.
  destruct (t_timer_start_inserts_by_expiry 8 timer_a_armed timer_b
              [timer_a] [])
    as (k' & c' & o' & Hrun & Hl & Hto & Hcur & _).
  - exact timer_a_armed_lists.
  - right; right. vm_compute. split; reflexivity.
  - cbn. lia.
  - cbn. lia.
  - vm_compute. split; [discriminate | reflexivity].
  - vm_compute. split; [discriminate | reflexivity].
  - destruct Hcur as [Ec Eo]; [vm_compute; reflexivity ..|].
    assert (E1 : c' = [timer_b; timer_a])
      by (rewrite Ec; vm_compute; reflexivity).
    assert (E2 : o' = []) by (rewrite Eo; vm_compute; reflexivity).
    rewrite E1, E2 in Hl.
    exists k'. split; [exact Hrun|]. split; [exact Hl|].
    rewrite Hto. vm_compute. reflexivity.
Defined.

(** [t_timer_stop] takes the timer out of the timer list it is in, keeping
    the others in their order, and leaves it linked to itself, so that
    stopping a timer that is not armed, or stopping twice, changes no
    list.  Durations and expiries are not touched. *)
Theorem t_timer_stop_disarms (k : kernel) (tm : timer_ref)
    (c o : list timer_ref) :
  timer_lists k c o ->
  In tm c \/ In tm o \/ timer_detached k tm ->
  exists k',
    t_timer_stop (Some tm) k = (T_OK, k') /\
    timer_lists k' (remove timer_ref_eq_dec tm c)
      (remove timer_ref_eq_dec tm o) /\
    timer_detached k' tm /\
    (due_ordered (timers k) c ->
     due_ordered (timers k') (remove timer_ref_eq_dec tm c)) /\
    (forall n,
       next (lnk (snd (t_timer_stop (Some tm) k'))) n = next (lnk k') n /\
       prev (lnk (snd (t_timer_stop (Some tm) k'))) n = prev (lnk k') n) /\
    timers k' = timers k /\
    s_tick k' = s_tick k /\
    primask k' = primask k /\
    trace k' = trace k.
Proof.
  intros Hl Hin.
  destruct (timer_lists_heads k c o Hl) as (Hsc & Hso & _).
  destruct Hl as (Hc & Ho & Hap & Hheads).
  destruct (timer_lists_delete (lnk k) _ _ c o tm Hc Ho Hap Hin)
    as [Hc1 Ho1].
  destruct (t_list_delete_self (lnk k) (row tm)) as [Hn Hp].
  eexists. split; [reflexivity|].
  unfold timer_lists, timer_detached.
  cbn [t_timer_stop snd s_timer_remove t_irq_disable t_irq_enable
       with_links set_lnk set_primask lnk timers s_tick primask trace
       g_cur_timer_list g_overflow_timer_list].
  split.
  { split; [exact Hc1|]. split; [exact Ho1|]. split; [|exact Hheads].
    apply (timer_lists_apart _ _ c o _ _ tm); auto.
    - intros y Hy. right. apply in_remove in Hy. apply Hy.
    - intros y Hy. apply in_remove in Hy. exact Hy. }
  split; [split; assumption|].
  split; [apply due_ordered_remove|].
  split; [apply t_list_delete_detached; assumption|].
  repeat split.
Qed.

Lemma t_timer_stop_disarms_witness :
  exists k',
    t_timer_stop (Some timer_a) timer_a_armed = (T_OK, k') /\
    timer_lists k' [] [] /\
    timer_detached k' timer_a.
Proof.
  destruct (t_timer_stop_disarms timer_a_armed timer_a [timer_a] [])
    as (k' & Hrun & Hl & Hd & _).
  - exact timer_a_armed_lists.
  - left. left. reflexivity.
  - exists k'. split; [exact Hrun|]. split; [|exact Hd].
    assert (E : remove timer_ref_eq_dec timer_a [timer_a] = [])
      by (vm_compute; reflexivity).
    rewrite E in Hl. exact Hl.
Defined.

(** One [t_timer_check] over a current list of application timers, from the
    first on: the timers at the head of the list that are due are called
    back once each, the one nearest to the head last, and are no longer
    armed; from the first timer that is not due on the list is kept. *)
Theorem t_timer_check_fires_due_prefix (fuel : nat) (k : kernel)
    (tms : list timer_ref) :
  (length tms < fuel)%nat ->
  g_cur_timer_list k <> expired_list ->
  circular (lnk k) (g_cur_timer_list k) (map row tms) ->
  (forall tm, In tm tms ->
     timeout_func (timers k tm) <> Some timeout_function_cb) ->
  exists k',
    t_timer_check fuel k = Ok k' /\
    trace k'
    = trace k
      ++ flat_map (timer_calls (timers k))
           (rev (expired_prefix (s_tick k) (timers k) tms)) /\
    circular (lnk k') (g_cur_timer_list k')
      (map row (unexpired_rest (s_tick k) (timers k) tms)) /\
    tms = expired_prefix (s_tick k) (timers k) tms
          ++ unexpired_rest (s_tick k) (timers k) tms /\
    (forall tm, In tm (expired_prefix (s_tick k) (timers k) tms) ->
       timeout_tick (timers k tm) <= s_tick k) /\
    (forall tm rest,
       unexpired_rest (s_tick k) (timers k) tms = tm :: rest ->
       s_tick k < timeout_tick (timers k tm)) /\
    timers k' = timers k /\
    s_tick k' = s_tick k /\
    primask k' = primask k.
Proof.
  intros Hfuel Hse Hcur Hcb.
  destruct (t_timer_check_calls_newest_first fuel k tms Hfuel Hse Hcur Hcb)
    as (k' & Hrun & Htr & Hc & Htm & Hst & Hpm).
  exists k'. split; [exact Hrun|]. split; [exact Htr|]. split; [exact Hc|].
  split; [|split; [|split; [|auto]]].
  - clear. induction tms as [|a l IH]; cbn; [reflexivity|].
    destruct (s_tick k >=? timeout_tick (timers k a)); cbn; [|reflexivity].
    f_equal. exact IH.
  - clear. induction tms as [|a l IH]; cbn; [intros tm []|].
    destruct (s_tick k >=? timeout_tick (timers k a)) eqn:E; cbn;
      [|intros tm []].
    intros tm [Ea|Hin]; [subst tm; apply Z.geb_le in E; lia | auto].
  - clear. induction tms as [|a l IH]; cbn; [discriminate|].
    destruct (s_tick k >=? timeout_tick (timers k a)) eqn:E; [exact IH|].
    intros tm rest Eq. inversion Eq. subst.
    rewrite Z.geb_leb, Z.leb_gt in E. exact E.
Qed.

Lemma t_timer_check_fires_due_prefix_witness :
  exists k',
    t_timer_check 8 two_timers_due = Ok k' /\
    callbacks_called (trace k')
    = callbacks_called (trace two_timers_due) ++ [user_cb 1; user_cb 0] /\
    circular (lnk k') (g_cur_timer_list k') [].
Proof.
  destruct (t_timer_check_fires_due_prefix 8 two_timers_due
              [timer_a; timer_b])
    as (k' & Hrun & Htr & Hc & _).
  - cbn. lia.
  - vm_compute. discriminate.
  - split; [vm_compute; repeat split|].
    repeat (constructor; [cbn; intuition discriminate|]). constructor.
  - intros tm [E|[E|[]]]; subst tm; vm_compute; discriminate.
  - exists k'. split; [exact Hrun|]. split.
    + rewrite Htr. vm_compute. reflexivity.
    + assert (E : unexpired_rest (s_tick two_timers_due)
                    (timers two_timers_due) [timer_a; timer_b] = [])
        by (vm_compute; reflexivity).
      rewrite E in Hc. exact Hc.
Defined.

(** [t_timer_ctrl]: a duration written with TO_TIMER_SET_TIME is read back
    by TO_TIMER_GET_TIME.  Setting it does not re-arm the timer: its expiry
    and the lists are as before, so the new duration counts from the next
    [t_timer_start].  TO_TIMER_SET_TIME reads through [arg] without a check
    for a null pointer; any other command is refused without effect. *)
Theorem t_timer_ctrl_time_round_trip (k : kernel) (tm : timer_ref)
    (v old : Z) :
  exists k1,
    t_timer_ctrl (Some tm) TO_TIMER_SET_TIME (Some v) k
    = Ok (T_OK, None, k1) /\
    t_timer_ctrl (Some tm) TO_TIMER_GET_TIME (Some old) k1
    = Ok (T_OK, Some v, k1) /\
    timeout_tick (timers k1 tm) = timeout_tick (timers k tm) /\
    lnk k1 = lnk k /\
    (forall x, x <> tm -> timers k1 x = timers k x) /\
    t_timer_ctrl (Some tm) TO_TIMER_SET_TIME None k = Fault /\
    t_timer_ctrl (Some tm) TO_TIMER_GET_TIME None k = Ok (T_OK, None, k) /\
    (forall cmd a, cmd <> TO_TIMER_GET_TIME -> cmd <> TO_TIMER_SET_TIME ->
       t_timer_ctrl (Some tm) cmd a k = Ok (T_UNSUPPORTED, None, k)) /\
    (forall cmd a, t_timer_ctrl None cmd a k = Ok (T_NULL, None, k)).
Proof.
  eexists. split; [reflexivity|].
  split; [cbn; rewrite upd_same; reflexivity|].
  split; [cbn; rewrite upd_same; reflexivity|].
  split; [reflexivity|].
  split; [intros x Hx; cbn; apply upd_other; exact Hx|].
  split; [reflexivity|]. split; [reflexivity|]. split; [|reflexivity].
  intros cmd a H1 H2. unfold t_timer_ctrl.
  destruct (cmd =? TO_TIMER_GET_TIME) eqn:E1;
    [apply Z.eqb_eq in E1; contradiction|].
  destruct (cmd =? TO_TIMER_SET_TIME) eqn:E2;
    [apply Z.eqb_eq in E2; contradiction|].
  reflexivity.
Qed.

(** ** Sleeping *)

Lemma t_sched_switch_keeps_timers (k k' : kernel) :
  t_sched_switch k = Ok k' ->
  lnk k' = lnk k /\ timers k' = timers k /\ s_tick k' = s_tick k /\
  g_cur_timer_list k' = g_cur_timer_list k /\
  g_overflow_timer_list k' = g_overflow_timer_list k /\
  primask k' = primask k /\
  t_cur_num_of_ready_tasks k' = t_cur_num_of_ready_tasks k.
Proof.
  unfold t_sched_switch.
  destruct (negb (t_schedulue_suspend k =? 0));
    [intros H; inversion H; auto 10|].
  destruct (get_highest_ready_priority (t_thread_ready_priority_group k)
            >=? TO_THREAD_PRIORITY_MAX);
    [intros H; inversion H; auto 10|].
  destruct (T_LIST_ENTRY_thread _) as [t|]; [|discriminate].
  destruct (option_nat_eqb (t_current_thread k) (Some t));
    [intros H; inversion H; auto 10|].
  intros H. inversion H; subst k'. clear H.
  destruct (t_current_thread k) as [pt|]; cbn;
    [destruct (status (threads k pt) =? TO_THREAD_RUNNING)|]; auto 10.
Qed.

(** Ready queues that are linked as before, under the same ready group and
    priorities. *)
Lemma ready_queues_links (k k' : kernel) (q : Z -> list nat) :
  (forall p, 0 <= p < TO_THREAD_PRIORITY_MAX ->
     circular (lnk k') (ready_list p) (map tlist (q p))) ->
  t_thread_ready_priority_group k' = t_thread_ready_priority_group k ->
  (forall u, current_priority (threads k' u) = current_priority (threads k u)
             /\ number_mask (threads k' u) = number_mask (threads k u)) ->
  ready_queues k q -> ready_queues k' q.
Proof.
  intros Hc Hg Hu (_ & Hpr & Hb). split; [exact Hc|]. split.
  - intros p t Hp Hin. destruct (Hu t) as [E1 E2]. rewrite E1, E2.
    apply (Hpr p t Hp Hin).
  - intros p Hp. unfold ready_bit. rewrite Hg. apply (Hb p Hp).
Qed.

(** The highest priority that has a ready thread is the one that
    [get_highest_ready_priority] reads off the ready group. *)
Lemma ready_queues_highest_is (k : kernel) (q : Z -> list nat) (hp : Z) :
  ready_queues k q ->
  0 <= t_thread_ready_priority_group k < 2 ^ 32 ->
  0 <= hp < TO_THREAD_PRIORITY_MAX ->
  q hp <> [] ->
  (forall p, hp < p < TO_THREAD_PRIORITY_MAX -> q p = []) ->
  0 < t_thread_ready_priority_group k /\
  get_highest_ready_priority (t_thread_ready_priority_group k) = hp.
Proof.
  intros Hq Hg Hhp Hne Habove.
  assert (H0 : 0 < t_thread_ready_priority_group k).
  { destruct (Z.eq_dec (t_thread_ready_priority_group k) 0) as [E|]; [|lia].
    pose proof Hq as (_ & _ & Hb). specialize (Hb hp Hhp).
    unfold ready_bit in Hb. rewrite E, Z.bits_0 in Hb.
    destruct (q hp); [congruence | discriminate]. }
  split; [exact H0|].
  destruct (ready_queues_highest k q Hq (conj H0 (proj2 Hg)))
    as (Hr & Hn & Hab).
  destruct (Z.lt_trichotomy
              (get_highest_ready_priority (t_thread_ready_priority_group k))
              hp) as [Hlt|[E|Hgt]]; [|exact E|].
  - exfalso. apply Hne. apply Hab. lia.
  - exfalso. apply Hn. apply Habove. lia.
Qed.

Lemma ready_group_after_remove (k : kernel) (t : nat) :
  0 <= t_thread_ready_priority_group k < 2 ^ 32 ->
  0 <= t_thread_ready_priority_group (t_sched_remove_thread (Some t) k)
    < 2 ^ 32.
Proof.
  intros Hg. destruct (t_sched_remove_thread_fields k t) as (_ & _ & E).
  rewrite E. destruct (t_list_isempty _ _); [|exact Hg].
  assert (Hw : 0 <= wrap32 (Z.lnot (number_mask (threads k t))))
    by (unfold wrap32; apply Z.mod_pos_bound; lia).
  assert (Hnn : 0 <= Z.land (t_thread_ready_priority_group k)
                       (wrap32 (Z.lnot (number_mask (threads k t)))))
    by (apply Z.land_nonneg; lia).
  split; [exact Hnn|].
  destruct (Z.eq_dec (Z.land (t_thread_ready_priority_group k)
                        (wrap32 (Z.lnot (number_mask (threads k t))))) 0)
    as [E0|Hne]; [rewrite E0; lia|].
  assert (Hg0 : 0 < t_thread_ready_priority_group k).
  { destruct (Z.eq_dec (t_thread_ready_priority_group k) 0) as [E0|]; [|lia].
    rewrite E0, Z.land_0_l in Hne. congruence. }
  apply Z.log2_lt_pow2; [lia|].
  pose proof (Z.log2_land (t_thread_ready_priority_group k)
                (wrap32 (Z.lnot (number_mask (threads k t))))
                (proj1 Hg) Hw) as Hl.
  assert (Hlg : Z.log2 (t_thread_ready_priority_group k) < 32)
    by (apply Z.log2_lt_pow2; lia).
  lia.
Qed.

(** The state in which [t_thread_sleep] starts the timer of the thread. *)
Lemma t_thread_sleep_steps (fuel : nat) (tick : Z) (k : kernel)
    (cur : nat) :
  t_current_thread k = Some cur ->
  exists kD,
    t_thread_sleep fuel tick k
    = (r <- t_timer_start fuel (Some (thread_timer cur)) kD ;;
       t_sched_switch (snd r)) /\
    lnk kD
    = t_list_delete (row (thread_timer cur))
        (lnk (t_sched_remove_thread (Some cur) k)) /\
    threads kD cur
    = set_status TO_THREAD_SUSPEND
        (threads (t_sched_remove_thread (Some cur) k) cur) /\
    (forall u, u <> cur ->
       threads kD u = threads (t_sched_remove_thread (Some cur) k) u) /\
    timer_init_tick (timers kD (thread_timer cur)) = tick /\
    (forall x, x <> thread_timer cur ->
       timers kD x = timers (t_sched_remove_thread (Some cur) k) x) /\
    t_thread_ready_priority_group kD
    = t_thread_ready_priority_group (t_sched_remove_thread (Some cur) k) /\
    t_current_thread kD
    = t_current_thread (t_sched_remove_thread (Some cur) k) /\
    t_schedulue_suspend kD
    = t_schedulue_suspend (t_sched_remove_thread (Some cur) k) /\
    s_tick kD = s_tick (t_sched_remove_thread (Some cur) k) /\
    g_cur_timer_list kD
    = g_cur_timer_list (t_sched_remove_thread (Some cur) k) /\
    g_overflow_timer_list kD
    = g_overflow_timer_list (t_sched_remove_thread (Some cur) k) /\
    primask kD = primask (t_sched_remove_thread (Some cur) k) /\
    trace kD = trace (t_sched_remove_thread (Some cur) k) /\
    t_cur_num_of_ready_tasks kD
    = t_cur_num_of_ready_tasks (t_sched_remove_thread (Some cur) k).
Proof.
  intros Hcur. unfold t_thread_sleep. rewrite Hcur.
  destruct (t_sched_remove_thread_rest k cur) as (_ & Hc & _).
  rewrite Hc, Hcur. rewrite Hcur in Hc. revert Hc.
  generalize (t_sched_remove_thread (Some cur) k). intros kA Hc.
  eexists. split.
  { unfold t_timer_ctrl.
    change (TO_TIMER_SET_TIME =? TO_TIMER_GET_TIME) with false.
    change (TO_TIMER_SET_TIME =? TO_TIMER_SET_TIME) with true.
    cbn [bind snd]. reflexivity. }
  cbn. rewrite !upd_same. cbn.
  repeat split; try exact Hc; intros x Hx; apply upd_other; exact Hx.
Qed.

Lemma ready_timer_apart (k : kernel) (q : Z -> list nat)
    (c o : list timer_ref) (p : Z) :
  timer_lists k c o ->
  apart (g_cur_timer_list k :: map row c)
    (ready_list p :: map tlist (q p)) /\
  apart (g_overflow_timer_list k :: map row o)
    (ready_list p :: map tlist (q p)).
Proof.
  intros Hl.
  destruct (timer_lists_heads k c o Hl) as (_ & _ & H1 & H2 & H3 & H4 & _).
  split; intros n [E|Hn] [E'|Hn']; subst;
    try (apply in_map_iff in Hn; destruct Hn as (x & Ex & _));
    try (apply in_map_iff in Hn'; destruct Hn' as (y & Ey & _));
    subst; try discriminate;
    first [ apply (H3 p); congruence | apply (H4 p); congruence
          | apply (H1 y); congruence | apply (H2 y); congruence ].
Qed.

(** Unlinking a queued thread leaves a timer and its list as they are. *)
Lemma t_list_delete_thread_keeps_timers (k : kernel) (q : Z -> list nat)
    (c o : list timer_ref) (p : Z) (t : nat) (tm : timer_ref) :
  ready_queues k q -> 0 <= p < TO_THREAD_PRIORITY_MAX -> In t (q p) ->
  timer_lists k c o ->
  circular (t_list_delete (tlist t) (lnk k)) (g_cur_timer_list k)
    (map row c) /\
  circular (t_list_delete (tlist t) (lnk k)) (g_overflow_timer_list k)
    (map row o) /\
  (timer_detached k tm ->
   next (t_list_delete (tlist t) (lnk k)) (row tm) = row tm /\
   prev (t_list_delete (tlist t) (lnk k)) (row tm) = row tm).
Proof.
  intros Hq Hp Hin Hl.
  destruct (ready_timer_apart k q c o p Hl) as [Ha Ha'].
  pose proof Hq as (Hc & _). specialize (Hc p Hp).
  destruct Hl as (Hcc & Hco & _).
  assert (Hint : In (tlist t) (map tlist (q p))) by (apply in_map; exact Hin).
  split; [|split].
  - apply (t_list_delete_apart (lnk k) (ready_list p) (tlist t) _
             (map tlist (q p))); auto.
    apply apart_sym. exact Ha.
  - apply (t_list_delete_apart (lnk k) (ready_list p) (tlist t) _
             (map tlist (q p))); auto.
    apply apart_sym. exact Ha'.
  - intros [Hn Hpv].
    destruct (circular_neighbours _ _ (tlist t) _ Hc (or_intror Hint))
      as [Hnx Hpx].
    assert (Hno : forall n, In n (ready_list p :: map tlist (q p)) ->
                            row tm <> n).
    { intros n [E|Hn'] E'; subst n; [discriminate|].
      apply in_map_iff in Hn'. destruct Hn' as (y & Ey & _). discriminate. }
    rewrite t_list_delete_next, t_list_delete_prev.
    destruct (node_eq_dec (row tm) (tlist t)) as [E|_]; [discriminate|].
    destruct (node_eq_dec (row tm) (prev (lnk k) (tlist t))) as [E|_];
      [exfalso; apply (Hno _ Hpx); exact E|].
    destruct (node_eq_dec (row tm) (next (lnk k) (tlist t))) as [E|_];
      [exfalso; apply (Hno _ Hnx); exact E|].
    split; assumption.
Qed.

Lemma timer_lists_after_delete (k k' : kernel) (c o : list timer_ref)
    (tm : timer_ref) :
  timer_lists k c o ->
  In tm c \/ In tm o \/ timer_detached k tm ->
  lnk k' = t_list_delete (row tm) (lnk k) ->
  g_cur_timer_list k' = g_cur_timer_list k ->
  g_overflow_timer_list k' = g_overflow_timer_list k ->
  timer_lists k' (remove timer_ref_eq_dec tm c)
    (remove timer_ref_eq_dec tm o) /\
  timer_detached k' tm.
Proof.
  intros Hl Hin El Ec Eo.
  destruct (timer_lists_heads k c o Hl) as (Hsc & Hso & _).
  destruct Hl as (Hc & Ho & Hap & Hheads).
  destruct (timer_lists_delete (lnk k) _ _ c o tm Hc Ho Hap Hin)
    as [Hc1 Ho1].
  unfold timer_lists, timer_detached. rewrite El, Ec, Eo.
  split; [|apply t_list_delete_self].
  split; [exact Hc1|]. split; [exact Ho1|]. split; [|exact Hheads].
  apply (timer_lists_apart _ _ c o _ _ tm); auto.
  - intros y Hy. right. apply in_remove in Hy. apply Hy.
  - intros y Hy. apply in_remove in Hy. exact Hy.
Qed.

(** [t_thread_sleep], and so [t_delay] and [t_mdelay], called by the
    running thread: the thread leaves its ready queue and is marked
    SUSPEND, its timer is set to the given number of ticks and armed for
    the tick plus that number modulo 2^32, and the first thread of the
    highest-priority queue that is left with a thread runs.  For a number
    that is not 0 and does not carry the expiry over the wrap-around, the
    timer is in the current list, at its place in the order of expiry; a
    sleep of 0 ticks arms the timer in the overflow list, for the tick at
    which the tick counter has come round again. *)
Theorem t_thread_sleep_arms_timer_and_yields (fuel : nat) (k : kernel)
    (q : Z -> list nat) (cur nxt : nat) (p hp : Z)
    (l1 l2 rest : list nat) (c o : list timer_ref) (tick : Z) :
  t_current_thread k = Some cur ->
  ready_queues k q ->
  0 <= p < TO_THREAD_PRIORITY_MAX ->
  q p = l1 ++ cur :: l2 ->
  timer_lists k c o ->
  In (thread_timer cur) c \/ In (thread_timer cur) o \/
  timer_detached k (thread_timer cur) ->
  (length c < fuel)%nat -> (length o < fuel)%nat ->
  0 <= s_tick k < 2 ^ 32 ->
  0 <= tick < 2 ^ 32 ->
  t_schedulue_suspend k = 0 ->
  0 <= t_thread_ready_priority_group k < 2 ^ 32 ->
  0 <= hp < TO_THREAD_PRIORITY_MAX ->
  with_queue q p (l1 ++ l2) hp = nxt :: rest ->
  (forall p', hp < p' < TO_THREAD_PRIORITY_MAX ->
     with_queue q p (l1 ++ l2) p' = []) ->
  exists k' c' o',
    t_thread_sleep fuel tick k = Ok k' /\
    ready_queues k' (with_queue q p (l1 ++ l2)) /\
    status (threads k' cur) = TO_THREAD_SUSPEND /\
    timer_lists k' c' o' /\
    timeout_tick (timers k' (thread_timer cur)) = wrap32 (s_tick k + tick) /\
    (0 < tick -> s_tick k + tick < 2 ^ 32 ->
     c' = timer_insert (timers k) (s_tick k + tick) (thread_timer cur)
            (remove timer_ref_eq_dec (thread_timer cur) c) /\
     o' = remove timer_ref_eq_dec (thread_timer cur) o) /\
    (tick = 0 \/ 2 ^ 32 <= s_tick k + tick ->
     c' = remove timer_ref_eq_dec (thread_timer cur) c /\
     o' = timer_insert (timers k) (wrap32 (s_tick k + tick))
            (thread_timer cur)
            (remove timer_ref_eq_dec (thread_timer cur) o)) /\
    t_current_thread k' = Some nxt /\
    nxt <> cur /\
    status (threads k' nxt) = TO_THREAD_RUNNING /\
    trace k' = trace k ++ [normal_switch (Some cur) nxt] /\
    t_cur_num_of_ready_tasks k' = wrap8 (t_cur_num_of_ready_tasks k - 1).
Proof.
  intros Hcur Hq Hp Hqp Hl Hin Hfc Hfo Ht Htick Hs0 Hg Hhp Ehd Habove.
  set (tm := thread_timer cur) in *.
  set (q' := with_queue q p (l1 ++ l2)) in *.
  assert (Hinq : In cur (q p))
    by (rewrite Hqp; apply in_or_app; right; left; reflexivity).
  (* the thread is in no queue any more *)
  assert (Hout : forall p', 0 <= p' < TO_THREAD_PRIORITY_MAX ->
                            ~ In cur (q' p')).
  { intros p' Hp' Hin'. unfold q' in Hin'.
    destruct (Z.eq_dec p' p) as [E|Hpp].
    - subst p'. rewrite with_queue_same in Hin'.
      pose proof (ready_queues_once k q p Hq Hp) as Hnd. rewrite Hqp in Hnd.
      apply (NoDup_remove_2 _ _ _ Hnd Hin').
    - rewrite with_queue_other in Hin' by exact Hpp.
      pose proof Hq as (_ & Hpr & _).
      destruct (Hpr _ cur Hp' Hin') as [E1 _].
      destruct (Hpr p cur Hp Hinq) as [E2 _]. congruence. }
  assert (Hnc : nxt <> cur).
  { intros E. subst nxt. apply (Hout hp Hhp). rewrite Ehd. left. reflexivity. }
  (* after [t_sched_remove_thread] *)
  pose proof (t_sched_remove_thread_keeps_ready_queues k q cur p l1 l2
                Hq Hp Hqp) as HqA.
  fold q' in HqA.
  pose proof (ready_group_after_remove k cur Hg) as HgA.
  destruct (t_sched_remove_thread_fields k cur) as (HlA & HtA & _).
  destruct (t_sched_remove_thread_rest k cur)
    as (HnumA & HcA & HsA & HpmA & HtrA & HtmA & _ & HstA & HgcA & HgoA).
  destruct (t_list_delete_thread_keeps_timers k q c o p cur tm Hq Hp Hinq Hl)
    as (HccA & HcoA & HdetA).
  rewrite <- HlA in HccA, HcoA, HdetA.
  destruct (t_thread_sleep_steps fuel tick k cur Hcur)
    as (kD & Hrun & HlD & HthD & HthoD & HitD & HtmoD & HgrD & HcD & HsD
        & HstD & HgcD & HgoD & HpmD & HtrD & HnumD).
  fold tm in Hrun, HlD, HitD, HtmoD.
  rewrite Hrun. clear Hrun.
  set (kA := t_sched_remove_thread (Some cur) k) in *. clearbody kA.
  assert (HlsA : timer_lists kA c o).
  { pose proof Hl as (_ & _ & Hap & Hheads).
    unfold timer_lists. rewrite HgcA, HgoA. auto. }
  assert (HinA : In tm c \/ In tm o \/ timer_detached kA tm).
  { destruct Hin as [H|[H|H]]; [auto | auto |].
    right; right. apply HdetA. exact H. }
  destruct (timer_lists_after_delete kA kD c o tm HlsA HinA HlD HgcD HgoD)
    as [HlsD HdetD].
  set (c1 := remove timer_ref_eq_dec tm c) in *.
  set (o1 := remove timer_ref_eq_dec tm o) in *.
  assert (Hnc1 : ~ In tm c1) by apply remove_In.
  assert (Hno1 : ~ In tm o1) by apply remove_In.
  (* [t_timer_start] *)
  destruct (t_timer_start_over_lists fuel kD tm c1 o1 HlsD
              (or_intror (or_intror HdetD)))
    as (k4 & c' & o' & Hrun4 & Hl4 & Hto4 & Hcur4 & Hov4 & _ & Hoth4
        & (Hst4 & Hpm4 & Htr4 & Hth4 & Hgr4 & Hc4 & Hs4 & Hnum4) & Hfr4).
  { pose proof (remove_length_le timer_ref_eq_dec c tm). unfold c1. lia. }
  { pose proof (remove_length_le timer_ref_eq_dec o tm). unfold o1. lia. }
  { rewrite HstD, HstA. exact Ht. }
  { rewrite HitD. exact Htick. }
  rewrite Hrun4. cbn [bind snd].
  rewrite HitD, HstD, HstA in Hto4, Hcur4, Hov4.
  assert (Htk : forall l, ~ In tm l -> forall x, In x l ->
            timeout_tick (timers kD x) = timeout_tick (timers k x)).
  { intros l Hn x Hx. rewrite HtmoD, HtmA; [reflexivity|].
    intros E. subst x. contradiction. }
  (* the ready queues are as [t_sched_remove_thread] left them *)
  assert (Hq4 : ready_queues k4 q').
  { apply (ready_queues_links kA k4 q'); [| | |exact HqA].
    - intros p' Hp'.
      destruct (ready_timer_apart kA q' c o p' HlsA) as [Ha Ha'].
      destruct (ready_timer_apart kD q' c1 o1 p' HlsD) as [Hb Hb'].
      pose proof HqA as (HcA' & _). specialize (HcA' p' Hp').
      pose proof HlsA as (HccA' & HcoA' & _).
      apply Hfr4; auto.
      + rewrite HlD.
        apply (timer_delete_keeps (lnk kA) (g_cur_timer_list kA)
                 (g_overflow_timer_list kA) _ c o _ tm); auto.
      + intros [E|Hn]; [discriminate|].
        apply in_map_iff in Hn. destruct Hn as (y & Ey & _). discriminate.
    - rewrite Hgr4, HgrD. reflexivity.
    - intros u. rewrite Hth4.
      destruct (Nat.eq_dec u cur) as [E|Hne].
      + subst u. rewrite HthD. split; reflexivity.
      + rewrite (HthoD u Hne). split; reflexivity. }
  (* [t_sched_switch] *)
  assert (Hg4 : 0 <= t_thread_ready_priority_group k4 < 2 ^ 32)
    by (rewrite Hgr4, HgrD; exact HgA).
  destruct (ready_queues_highest_is k4 q' hp Hq4 Hg4 Hhp) as [H0 Ehp];
    [rewrite Ehd; discriminate | exact Habove |].
  destruct (t_sched_switch_over_queues k4 q' nxt rest Hq4
              (conj H0 (proj2 Hg4)))
    as (k' & Hrun' & Hcur' & Hq' & _ & _ & Hdiff).
  { rewrite Hs4, HsD, HsA. exact Hs0. }
  { rewrite Ehp. exact Ehd. }
  assert (Hc4' : t_current_thread k4 = Some cur)
    by (rewrite Hc4, HcD, HcA; exact Hcur).
  destruct Hdiff as (Hst' & _ & Htr' & Hprev);
    [rewrite Hc4'; congruence|].
  destruct (t_sched_switch_keeps_timers k4 k' Hrun')
    as (El & Etm & Est & Egc & Ego & Epm & Enum).
  exists k', c', o'. split; [exact Hrun'|]. split; [exact Hq'|].
  split.
  { rewrite (Hprev cur Hc4' (not_eq_sym Hnc)), Hth4, HthD. reflexivity. }
  split.
  { unfold timer_lists. rewrite El, Egc, Ego. exact Hl4. }
  split; [rewrite Etm; exact Hto4|].
  split.
  { intros H1 H2. destruct (Hcur4 H1 H2) as [Ec Eo]. subst c' o'.
    rewrite (notin_remove _ c1 tm Hnc1), (notin_remove _ o1 tm Hno1).
    split; [|reflexivity].
    apply timer_insert_ext. apply Htk. exact Hnc1. }
  split.
  { intros H1. destruct (Hov4 H1) as [Ec Eo]. subst c' o'.
    rewrite (notin_remove _ c1 tm Hnc1), (notin_remove _ o1 tm Hno1).
    split; [reflexivity|].
    apply timer_insert_ext. apply Htk. exact Hno1. }
  split; [exact Hcur'|]. split; [exact Hnc|]. split; [exact Hst'|].
  split.
  { rewrite Htr', Htr4, HtrD, HtrA, Hc4'. reflexivity. }
  rewrite Enum, Hnum4, HnumD. exact HnumA.
Qed.

Lemma two_workers_running_timer_lists :
  timer_lists two_workers_running [] [].
Proof.
  unfold timer_lists. split; [|split; [|split]].
  - split; [vm_compute; repeat split|]. repeat constructor. intros [].
  - split; [vm_compute; repeat split|]. repeat constructor. intros [].
  - intros n [E|[]] [E'|[]]; subst n; discriminate.
  - left. split; reflexivity.
Qed.

(** The first of two workers of priority 3 sleeps for 5 ticks at tick 0:
    the second one runs, and the timer of the first is due at tick 5. *)
Lemma t_thread_sleep_arms_timer_and_yields_witness :
  exists k',
    t_thread_sleep 8 5 two_workers_running = Ok k' /\
    t_current_thread k' = Some peer /\
    status (threads k' worker) = TO_THREAD_SUSPEND /\
    timer_lists k' [thread_timer worker] [] /\
    timeout_tick (timers k' (thread_timer worker)) = 5.
Proof.
  destruct (t_thread_sleep_arms_timer_and_yields 8 two_workers_running
              two_workers_q worker peer 3 3 [] [peer] []
              [] [] 5 eq_refl two_workers_running_queues
              ltac:(unfold TO_THREAD_PRIORITY_MAX; lia) eq_refl
              two_workers_running_timer_lists)
    as (k' & c' & o' & Hrun & _ & Hst & Hl & Hto & Hc & _ & Hcur & _).
  - right; right. vm_compute. split; reflexivity.
  - cbn. lia.
  - cbn. lia.
  - vm_compute. split; [discriminate | reflexivity].
  - lia.
  - reflexivity.
  - vm_compute. split; [discriminate | reflexivity].
  - unfold TO_THREAD_PRIORITY_MAX. lia.
  - reflexivity.
  - intros p' Hp'. unfold two_workers_q, with_queue, upd.
    repeat (destruct (Z.eq_dec _ _); [lia|]). reflexivity.
  - destruct Hc as [Ec Eo]; [lia | vm_compute; reflexivity |].
    assert (E1 : c' = [thread_timer worker])
      by (rewrite Ec; vm_compute; reflexivity).
    assert (E2 : o' = []) by (rewrite Eo; vm_compute; reflexivity).
    rewrite E1, E2 in Hl.
    exists k'. split; [exact Hrun|]. split; [exact Hcur|].
    split; [exact Hst|]. split; [exact Hl|].
    rewrite Hto. vm_compute. reflexivity.
Defined.

(** ** Waking a thread *)

(** Unlinking a node of a circular list, its head or a member, keeps a list
    that shares no node with it. *)
Lemma t_list_delete_on_list (h : links) (s x s' : node)
    (l l' : list node) :
  circular h s l -> In x (s :: l) ->
  apart (s :: l) (s' :: l') ->
  circular h s' l' -> circular (t_list_delete x h) s' l'.
Proof.
  intros Hc [E|Hin] Hap Hc'.
  - subst x. destruct l as [|y l].
    + destruct Hc as [[Hn Hp] _].
      pose proof (t_list_delete_detached h s Hn Hp) as Hsame.
      apply (circular_ext h); auto.
    + pose proof (circular_rotate h s y [] l Hc) as Hr. cbn [app] in Hr.
      apply (t_list_delete_apart h y s s' (l ++ [s])); auto.
      * apply in_or_app. right. left. reflexivity.
      * intros n Hn Hn'. apply (Hap n); [|exact Hn'].
        destruct Hn as [E|Hn]; [right; left; exact E|].
        apply in_app_or in Hn. destruct Hn as [Hn|[E|[]]];
          [right; right; exact Hn | left; exact E].
  - apply (t_list_delete_apart h s x s' l); auto.
Qed.

Lemma t_sched_switch_others (k k' : kernel) (u : nat) :
  t_sched_switch k = Ok k' ->
  t_current_thread k <> Some u -> t_current_thread k' <> Some u ->
  threads k' u = threads k u.
Proof.
  unfold t_sched_switch.
  destruct (negb (t_schedulue_suspend k =? 0));
    [intros H; inversion H; auto|].
  destruct (get_highest_ready_priority (t_thread_ready_priority_group k)
            >=? TO_THREAD_PRIORITY_MAX);
    [intros H; inversion H; auto|].
  destruct (T_LIST_ENTRY_thread _) as [t|]; [|discriminate].
  destruct (option_nat_eqb (t_current_thread k) (Some t));
    [intros H; inversion H; auto|].
  intros H. inversion H; subst k'. clear H.
  destruct (t_current_thread k) as [pt|]; cbn;
    [destruct (status (threads k pt) =? TO_THREAD_RUNNING); cbn|];
    intros H1 H2;
    repeat (rewrite upd_other by congruence); reflexivity.
Qed.

(** [timeout_function], the callback of the timer of a thread that sleeps
    or waits with a timeout: the thread is taken off the list its node is
    on, marked READY and appended to the ready queue of its priority;
    then the first thread of the highest-priority queue that has one runs,
    which is the woken thread exactly when it is alone at a priority above
    all other ready threads. *)
Theorem timeout_function_wakes (k : kernel) (q : Z -> list nat)
    (t nxt : nat) (p hp : Z) (rest : list nat) (s : node)
    (l : list node) :
  ready_queues k q ->
  (forall p', 0 <= p' < TO_THREAD_PRIORITY_MAX -> ~ In t (q p')) ->
  circular (lnk k) s l ->
  In (tlist t) (s :: l) ->
  (forall p', 0 <= p' < TO_THREAD_PRIORITY_MAX ->
     apart (s :: l) (ready_list p' :: map tlist (q p'))) ->
  0 <= p < TO_THREAD_PRIORITY_MAX ->
  current_priority (threads k t) = p ->
  number_mask (threads k t) = 2 ^ p ->
  0 <= t_thread_ready_priority_group k < 2 ^ 32 ->
  t_schedulue_suspend k = 0 ->
  t_current_thread k <> Some t ->
  0 <= hp < TO_THREAD_PRIORITY_MAX ->
  with_queue q p (q p ++ [t]) hp = nxt :: rest ->
  (forall p', hp < p' < TO_THREAD_PRIORITY_MAX ->
     with_queue q p (q p ++ [t]) p' = []) ->
  exists k',
    timeout_function (Some t) k = Ok k' /\
    ready_queues k' (with_queue q p (q p ++ [t])) /\
    t_current_thread k' = Some nxt /\
    status (threads k' t)
    = (if Nat.eq_dec nxt t then TO_THREAD_RUNNING else TO_THREAD_READY) /\
    (forall l1 l2, l = l1 ++ tlist t :: l2 ->
       circular (lnk k') s (l1 ++ l2)) /\
    t_cur_num_of_ready_tasks k' = wrap8 (t_cur_num_of_ready_tasks k + 1) /\
    timers k' = timers k /\
    primask k' = primask k.
Proof.
  intros Hq Hout Hs Hin Hap Hp Ecp Enm Hg Hs0 Hnot Hhp Ehd Habove.
  unfold timeout_function.
  set (k1 := with_links (t_list_delete (tlist t)) k).
  set (k2 := with_thread t (set_status TO_THREAD_READY) k1).
  assert (Hq1 : ready_queues k1 q).
  { apply (ready_queues_links k k1 q); [| | |exact Hq].
    - intros p' Hp'. pose proof Hq as (Hc & _).
      apply (t_list_delete_on_list (lnk k) s (tlist t) _ l); auto.
    - reflexivity.
    - intros u. split; reflexivity. }
  assert (Hq2 : ready_queues k2 q).
  { apply (ready_queues_ext k1 k2 q); [reflexivity | reflexivity | |exact Hq1].
    intros u. unfold k2, with_thread. cbn [threads set_threads].
    unfold upd. destruct (Nat.eq_dec u t) as [E|_]; [subst u|];
      split; reflexivity. }
  assert (Ecp2 : current_priority (threads k2 t) = p).
  { unfold k2, k1. cbn. rewrite upd_same. cbn. exact Ecp. }
  assert (Enm2 : number_mask (threads k2 t) = 2 ^ p).
  { unfold k2, k1. cbn. rewrite upd_same. cbn. exact Enm. }
  pose proof (t_sched_insert_thread_keeps_ready_queues k2 q t p Hq2 Hp
                Ecp2 Enm2 Hout) as Hq3.
  destruct (t_sched_insert_thread_fields k2 t) as (Hl3 & Ht3 & Hg3).
  assert (Hrest3 :
            t_current_thread (t_sched_insert_thread (Some t) k2)
            = t_current_thread k /\
            t_schedulue_suspend (t_sched_insert_thread (Some t) k2)
            = t_schedulue_suspend k /\
            t_cur_num_of_ready_tasks (t_sched_insert_thread (Some t) k2)
            = wrap8 (t_cur_num_of_ready_tasks k + 1) /\
            timers (t_sched_insert_thread (Some t) k2) = timers k /\
            primask (t_sched_insert_thread (Some t) k2) = primask k)
    by (repeat split).
  destruct Hrest3 as (Hc3 & Hs3 & Hnum3 & Htm3 & Hpm3).
  assert (Hst3 : status (threads (t_sched_insert_thread (Some t) k2) t)
                 = TO_THREAD_READY).
  { rewrite Ht3. unfold k2. cbn. rewrite upd_same. reflexivity. }
  assert (Hlists3 : forall l1 l2, l = l1 ++ tlist t :: l2 ->
            circular (lnk (t_sched_insert_thread (Some t) k2)) s (l1 ++ l2)).
  { intros l1 l2 E. rewrite Hl3, Ecp2. subst l.
    pose proof Hq1 as (Hc1 & _).
    apply (t_list_insert_before_apart _ (ready_list p) (tlist t)
             (ready_list p) s (map tlist (q p))).
    - apply Hc1. exact Hp.
    - left. reflexivity.
    - destruct Hs as [_ Hnd].
      intros [E|Hn].
      + subst s. apply NoDup_cons_iff in Hnd. apply (proj1 Hnd).
        apply in_or_app. right. left. reflexivity.
      + apply NoDup_cons_iff in Hnd. destruct Hnd as [_ Hnd].
        apply (NoDup_remove_2 _ _ _ Hnd Hn).
    - intros n Hn Hn'. apply (Hap p Hp n); [|exact Hn].
      destruct Hn' as [E|Hn']; [left; exact E|]. right.
      apply in_app_or in Hn'. apply in_or_app.
      destruct Hn' as [H|H]; [left; exact H | right; right; exact H].
    - apply (t_list_delete_member (lnk k) s (tlist t) l1 l2). exact Hs. }
  assert (Hg3' : 0 <= t_thread_ready_priority_group
                        (t_sched_insert_thread (Some t) k2) < 2 ^ 32).
  { rewrite Hg3, Enm2.
    apply (highest_of_lor (t_thread_ready_priority_group k) p Hg).
    unfold TO_THREAD_PRIORITY_MAX in Hp. exact Hp. }
  generalize dependent (t_sched_insert_thread (Some t) k2).
  intros k3 Hq3 Hl3 Ht3 Hg3 Hc3 Hs3 Hnum3 Htm3 Hpm3 Hst3 Hlists3 Hg3'.
  destruct (ready_queues_highest_is k3 _ hp Hq3 Hg3' Hhp) as [H0 Ehp];
    [rewrite Ehd; discriminate | exact Habove |].
  destruct (t_sched_switch_over_queues k3 _ nxt rest Hq3
              (conj H0 (proj2 Hg3')))
    as (k' & Hrun' & Hcur' & Hq' & _ & Hsame & Hdiff).
  { rewrite Hs3. exact Hs0. }
  { rewrite Ehp. exact Ehd. }
  destruct (t_sched_switch_keeps_timers k3 k' Hrun')
    as (El & Etm & _ & _ & _ & Epm & Enum).
  exists k'. split; [exact Hrun'|]. split; [exact Hq'|].
  split; [exact Hcur'|]. split.
  { destruct (Nat.eq_dec nxt t) as [E|Hne].
    - subst nxt. destruct Hdiff as (Hst' & _); [|exact Hst'].
      rewrite Hc3. exact Hnot.
    - rewrite (t_sched_switch_others k3 k' t Hrun'); [exact Hst3| |].
      + rewrite Hc3. exact Hnot.
      + rewrite Hcur'. congruence. }
  split; [intros l1 l2 E; rewrite El; apply Hlists3; exact E|].
  split; [rewrite Enum; exact Hnum3|].
  split; [rewrite Etm; exact Htm3 | rewrite Epm; exact Hpm3].
Qed.

Lemma worker_asleep_queues : ready_queues worker_asleep worker_asleep_q.
Proof. ready_queues_by_cases. Qed.

(** The sleeping worker is woken while its peer of the same priority runs:
    it is queued behind the peer, which keeps running. *)
Lemma timeout_function_wakes_witness :
  exists k',
    timeout_function (Some worker) worker_asleep = Ok k' /\
    ready_queues k' (with_queue worker_asleep_q 3 [peer; worker]) /\
    t_current_thread k' = Some peer /\
    status (threads k' worker) = TO_THREAD_READY.
Proof.
  destruct (timeout_function_wakes worker_asleep worker_asleep_q worker peer
              3 3 [worker] (tlist worker) [] worker_asleep_queues)
    as (k' & Hrun & Hq & Hcur & Hst & _).
  - intros p' Hp'. unfold worker_asleep_q, with_queue, upd.
    repeat (destruct (Z.eq_dec _ _); cbn; [intuition discriminate|]).
    intros [].
  - split; [vm_compute; split; reflexivity|]. repeat constructor. intros [].
  - left. reflexivity.
  - intros p' Hp' n [E|[]] [E'|Hn]; subst n; [discriminate|].
    apply in_map_tlist in Hn. revert Hn.
    unfold worker_asleep_q, with_queue, upd.
    repeat (destruct (Z.eq_dec _ _); cbn; [intuition discriminate|]).
    intros [].
  - unfold TO_THREAD_PRIORITY_MAX. lia.
  - reflexivity.
  - reflexivity.
  - vm_compute. split; [discriminate | reflexivity].
  - reflexivity.
  - vm_compute. discriminate.
  - unfold TO_THREAD_PRIORITY_MAX. lia.
  - reflexivity.
  - intros p' Hp'. unfold worker_asleep_q, with_queue, upd.
    repeat (destruct (Z.eq_dec _ _); [lia|]). reflexivity.
  - exists k'. split; [exact Hrun|]. split; [exact Hq|].
    split; [exact Hcur|]. rewrite Hst. reflexivity.
Defined.

(** ** The tick *)

(** [t_timer_check] when no timer of the current list is due: only the
    local list of expired timers is set up. *)
Lemma t_timer_check_none_due (fuel : nat) (k : kernel)
    (tms : list timer_ref) :
  circular (lnk k) (g_cur_timer_list k) (map row tms) ->
  g_cur_timer_list k <> expired_list ->
  (forall tm rest, tms = tm :: rest ->
     s_tick k < timeout_tick (timers k tm)) ->
  t_timer_check (S fuel) k = Ok (with_links (t_list_init expired_list) k).
Proof.
  intros Hc Hne Hdue. unfold t_timer_check. cbn [t_irq_disable].
  assert (Hnext : forall n, n <> expired_list ->
            next (t_list_init expired_list (lnk k)) n = next (lnk k) n).
  { intros n Hn. unfold t_list_init. cbn. apply upd_other. exact Hn. }
  assert (Hcol : t_timer_check_collect (S fuel)
                   (set_primask 1 (with_links (t_list_init expired_list) k))
                 = Ok (set_primask 1
                         (with_links (t_list_init expired_list) k))).
  { cbn [t_timer_check_collect]. unfold t_list_isempty.
    cbn [lnk set_primask with_links set_lnk g_cur_timer_list].
    rewrite (Hnext _ Hne).
    destruct tms as [|tm rest].
    - destruct Hc as [[Hn _] _]. cbn [map] in Hn. rewrite Hn.
      destruct (node_eq_dec (g_cur_timer_list k) (g_cur_timer_list k));
        [reflexivity | congruence].
    - destruct (circular_head_next _ _ _ _ Hc) as [Hn Hx]. rewrite Hn.
      destruct (node_eq_dec (row tm) (g_cur_timer_list k)) as [E|_];
        [contradiction|].
      cbn [T_LIST_ENTRY_timer].
      change (s_tick (set_primask 1
                        (with_links (t_list_init expired_list) k)))
        with (s_tick k).
      change (timers (set_primask 1
                        (with_links (t_list_init expired_list) k)))
        with (timers k).
      specialize (Hdue tm rest eq_refl).
      destruct (s_tick k >=? timeout_tick (timers k tm)) eqn:E;
        [apply Z.geb_le in E; lia | reflexivity]. }
  assert (Hself : next (t_list_init expired_list (lnk k)) expired_list
                  = expired_list)
    by (vm_compute; destruct (node_eq_dec expired_list expired_list);
        [reflexivity | congruence]).
  rewrite Hcol. cbn [bind t_timer_check_fire]. unfold t_list_isempty.
  cbn [lnk set_primask with_links set_lnk t_irq_enable primask].
  rewrite Hself.
  destruct (node_eq_dec expired_list expired_list); [|congruence].
  reflexivity.
Qed.

(** [t_thread_rotate_same_prio] when the running thread has company in the
    queue of its priority, and when it has none. *)
Lemma t_thread_rotate_same_prio_moves (k : kernel) (q : Z -> list nat)
    (cur : nat) (p : Z) (l1 l2 : list nat) (fuel : nat) :
  ready_queues k q ->
  t_current_thread k = Some cur ->
  0 <= p < TO_THREAD_PRIORITY_MAX ->
  q p = l1 ++ cur :: l2 ->
  (length (q p) < fuel)%nat ->
  Z.of_nat (length (q p)) < 2 ^ 32 ->
  (l1 ++ l2 = [] -> t_thread_rotate_same_prio fuel k = Ok k) /\
  (l1 ++ l2 <> [] ->
   t_thread_rotate_same_prio fuel k
   = t_sched_switch
       (with_links (t_list_insert_before (ready_list p) (tlist cur))
          (with_links (t_list_delete (tlist cur)) k))).
Proof.
  intros Hq Hcur Hp Hqp Hfuel Hlen.
  pose proof Hq as (Hc & Hpr & Hb).
  assert (Hin : In cur (q p))
    by (rewrite Hqp; apply in_or_app; right; left; reflexivity).
  destruct (Hpr p cur Hp Hin) as [Hcp Hm].
  assert (Hlenq : t_list_length fuel (ready_list p) (lnk k)
                  = Ok (Z.of_nat (length (q p)))).
  { destruct (Hc p Hp) as [Hch Hnd]. unfold t_list_length.
    rewrite (t_list_length_from_chain (lnk k) (ready_list p)
               (map tlist (q p)) fuel (ready_list p) 0 Hch);
      rewrite ?length_map; try lia; [reflexivity|].
    apply NoDup_cons_iff in Hnd. apply Hnd. }
  split.
  - intros Hnil. unfold t_thread_rotate_same_prio, t_irq_disable.
    cbn [t_current_thread set_primask]. rewrite Hcur.
    cbn [threads set_primask lnk]. rewrite Hcp, Hlenq. cbn [bind].
    assert (Hle : (Z.of_nat (length (q p)) <=? 1) = true).
    { apply Z.leb_le. rewrite Hqp, length_app. cbn [length].
      apply app_eq_nil in Hnil. destruct Hnil as [-> ->]. cbn. lia. }
    rewrite Hle. unfold t_irq_enable. rewrite set_primask_restore.
    reflexivity.
  - intros Hne. unfold t_thread_rotate_same_prio, t_irq_disable.
    cbn [t_current_thread set_primask]. rewrite Hcur.
    cbn [threads set_primask lnk]. rewrite Hcp, Hlenq. cbn [bind].
    assert (Hgt : (Z.of_nat (length (q p)) <=? 1) = false).
    { apply Z.leb_gt. rewrite Hqp, length_app. cbn [length].
      destruct l1; [destruct l2; [contradiction Hne; reflexivity|]|];
        cbn [length]; lia. }
    rewrite Hgt.
    change (current_priority
              (threads (with_links (t_list_delete (tlist cur))
                          (set_primask 1 k)) cur))
      with (current_priority (threads k cur)).
    rewrite ?Hcp.
    f_equal; try apply irq_around_links.
Qed.

(** The two states [t_tick_increase] can hand to the time-slice rotation
    and to [t_timer_check]: the tick counted and the time slice of the
    running thread counted down, and the same with the slice reloaded. *)
Lemma t_tick_increase_steps (fuel : nat) (k : kernel) (cur : nat) :
  t_current_thread k = Some cur ->
  0 <= s_tick k -> s_tick k + 1 < 2 ^ 32 ->
  t_tick_increase fuel k
  = (k1 <- (if wrap32 (remaining_tick (threads k cur) - 1) =? 0
            then t_thread_rotate_same_prio fuel
                   (with_thread cur
                      (fun th => set_remaining_tick (init_tick th) th)
                      (with_thread cur
                         (fun th =>
                            set_remaining_tick
                              (wrap32 (remaining_tick th - 1)) th)
                         (set_s_tick (s_tick k + 1) k)))
            else Ok (with_thread cur
                       (fun th =>
                          set_remaining_tick
                            (wrap32 (remaining_tick th - 1)) th)
                       (set_s_tick (s_tick k + 1) k))) ;;
     t_timer_check fuel k1).
Proof.
  intros Hcur H0 H1. unfold t_tick_increase.
  rewrite wrap32_small by lia.
  cbn [s_tick set_s_tick].
  destruct (Z.eqb_spec (s_tick k + 1) 0) as [E|_]; [lia|].
  cbn [t_current_thread set_s_tick]. rewrite Hcur.
  cbn [t_irq_disable]. 
  cbn [with_thread threads set_threads set_primask set_s_tick].
  rewrite upd_same. cbn [remaining_tick set_remaining_tick].
  destruct (wrap32 (remaining_tick (threads k cur) - 1) =? 0);
    reflexivity.
Qed.

Lemma t_list_init_other (l n : node) (h : links) :
  n <> l ->
  next (t_list_init l h) n = next h n /\ prev (t_list_init l h) n = prev h n.
Proof.
  intros Hn. unfold t_list_init. cbn. split; apply upd_other; exact Hn.
Qed.

(** A [t_timer_check] that finds no timer due leaves the ready queues and
    the timer lists as they are. *)
Lemma t_timer_check_idle (fuel : nat) (k : kernel) (q : Z -> list nat)
    (c o : list timer_ref) :
  ready_queues k q ->
  timer_lists k c o ->
  (forall tm rest, c = tm :: rest -> s_tick k < timeout_tick (timers k tm)) ->
  exists k',
    t_timer_check (S fuel) k = Ok k' /\
    ready_queues k' q /\
    timer_lists k' c o /\
    threads k' = threads k /\
    t_current_thread k' = t_current_thread k /\
    s_tick k' = s_tick k /\
    trace k' = trace k /\
    timers k' = timers k /\
    primask k' = primask k.
Proof.
  intros Hq Hl Hdue.
  destruct (timer_lists_heads k c o Hl)
    as (Hsc & Hso & _ & _ & _ & _ & Hne).
  pose proof Hl as (Hc & Ho & Hap & Hheads).
  exists (with_links (t_list_init expired_list) k).
  split; [apply (t_timer_check_none_due fuel k c); assumption|].
  split; [|split].
  - apply (ready_queues_frame k); [| | |exact Hq].
    + intros p n Hp Hin. apply t_list_init_other.
      destruct Hin as [E|Hin]; [subst n; discriminate|].
      apply in_map_iff in Hin. destruct Hin as (y & E & _). subst n.
      discriminate.
    + intros p Hp. reflexivity.
    + intros p u Hp Hin. split; reflexivity.
  - unfold timer_lists.
    cbn [with_links set_lnk lnk g_cur_timer_list g_overflow_timer_list].
    assert (Hrows : forall s l, (s = s_timer_list \/ s = s_overflow_timer_list)
              -> forall n, In n (s :: map row l) -> n <> expired_list).
    { intros s l Hs n [E|Hin]; [subst n; destruct Hs; subst s; discriminate|].
      apply in_map_iff in Hin. destruct Hin as (y & E & _). subst n.
      discriminate. }
    split; [|split; [|split; assumption]].
    + apply (circular_ext (lnk k)); [|exact Hc].
      intros n Hin. apply t_list_init_other.
      apply (Hrows (g_cur_timer_list k) c); [|exact Hin].
      destruct Hheads as [[E _]|[E _]]; auto.
    + apply (circular_ext (lnk k)); [|exact Ho].
      intros n Hin. apply t_list_init_other.
      apply (Hrows (g_overflow_timer_list k) o); [|exact Hin].
      destruct Hheads as [[_ E]|[_ E]]; auto.
  - repeat split.
Qed.

(** Moving a queued thread to the tail of its ready queue leaves the timer
    lists as they are. *)
Lemma rotate_keeps_timer_lists (k : kernel) (q : Z -> list nat)
    (c o : list timer_ref) (p : Z) (t : nat) :
  ready_queues k q -> 0 <= p < TO_THREAD_PRIORITY_MAX -> In t (q p) ->
  timer_lists k c o ->
  timer_lists
    (with_links (t_list_insert_before (ready_list p) (tlist t))
       (with_links (t_list_delete (tlist t)) k)) c o.
Proof.
  intros Hq Hp Hin Hl.
  destruct (t_list_delete_thread_keeps_timers k q c o p t (thread_timer t)
              Hq Hp Hin Hl) as (Hc1 & Ho1 & _).
  destruct (ready_timer_apart k q c o p Hl) as [Ha Ha'].
  pose proof Hl as (_ & _ & Hap & Hheads).
  pose proof Hq as (Hcq & _). specialize (Hcq p Hp).
  destruct (in_split _ _ Hin) as (l1 & l2 & E).
  assert (Hcq1 : circular (t_list_delete (tlist t) (lnk k)) (ready_list p)
                   (map tlist l1 ++ map tlist l2)).
  { apply t_list_delete_member. rewrite E, map_app in Hcq. exact Hcq. }
  assert (Hsub : forall n, In n (ready_list p :: map tlist l1 ++ map tlist l2)
                   -> In n (ready_list p :: map tlist (q p))).
  { intros n [H|H]; [left; exact H|]. right. rewrite E, map_app.
    apply in_app_or in H. apply in_or_app. cbn [map].
    destruct H as [H|H]; [left; exact H | right; right; exact H]. }
  assert (Hnot : forall s l, ~ In (tlist t) (s :: map row l) \/ s = tlist t).
  { intros s l. destruct (node_eq_dec s (tlist t)) as [Es|Hs]; [auto|].
    left. intros [Es|Hn]; [contradiction|].
    apply in_map_iff in Hn. destruct Hn as (y & Ey & _). discriminate. }
  destruct (timer_lists_heads k c o Hl) as (_ & _ & H1 & H2 & _).
  unfold timer_lists.
  cbn [with_links set_lnk lnk g_cur_timer_list g_overflow_timer_list].
  split; [|split; [|split; assumption]].
  - apply (t_list_insert_before_apart _ (ready_list p) (tlist t)
             (ready_list p) _ (map tlist l1 ++ map tlist l2)); auto.
    + left. reflexivity.
    + destruct (Hnot (g_cur_timer_list k) c) as [H|H]; [exact H|].
      exfalso. apply (H1 t). exact H.
    + intros n Hn Hn'. apply (Ha n); [exact Hn' | apply Hsub; exact Hn].
  - apply (t_list_insert_before_apart _ (ready_list p) (tlist t)
             (ready_list p) _ (map tlist l1 ++ map tlist l2)); auto.
    + left. reflexivity.
    + destruct (Hnot (g_overflow_timer_list k) o) as [H|H]; [exact H|].
      exfalso. apply (H2 t). exact H.
    + intros n Hn Hn'. apply (Ha' n); [exact Hn' | apply Hsub; exact Hn].
Qed.

Lemma callbacks_called_switch (tr : list event) (from : option nat)
    (to : nat) :
  callbacks_called (tr ++ [normal_switch from to]) = callbacks_called tr.
Proof.
  induction tr as [|e tr IH]; [reflexivity|].
  destruct e; cbn; rewrite ?IH; reflexivity.
Qed.

Lemma t_sched_switch_remaining (k k' : kernel) (u : nat) :
  t_sched_switch k = Ok k' ->
  remaining_tick (threads k' u) = remaining_tick (threads k u).
Proof.
  unfold t_sched_switch.
  destruct (negb (t_schedulue_suspend k =? 0));
    [intros H; inversion H; auto|].
  destruct (get_highest_ready_priority (t_thread_ready_priority_group k)
            >=? TO_THREAD_PRIORITY_MAX);
    [intros H; inversion H; auto|].
  destruct (T_LIST_ENTRY_thread _) as [t|]; [|discriminate].
  destruct (option_nat_eqb (t_current_thread k) (Some t));
    [intros H; inversion H; auto|].
  intros H. inversion H; subst k'. clear H.
  destruct (t_current_thread k) as [pt|]; cbn;
    [destruct (status (threads k pt) =? TO_THREAD_RUNNING); cbn|];
    unfold upd;
    repeat (destruct (Nat.eq_dec _ _); [subst; cbn|]); reflexivity.
Qed.

(** [t_tick_increase] while a thread runs at the head of the
    highest-priority queue and no timer is due at the new tick.  The tick
    is counted and the time slice of the running thread is counted down.
    While ticks are left the thread keeps running.  When the slice is used
    up it is reloaded from [init_tick]; a thread that is alone at its
    priority keeps running, otherwise it goes to the tail of its queue,
    READY, and the thread behind it runs.  No callback is called and the
    timer lists are as before. *)
Theorem t_tick_increase_time_slice (fuel : nat) (k : kernel)
    (q : Z -> list nat) (cur : nat) (p : Z) (l2 : list nat)
    (c o : list timer_ref) :
  t_current_thread k = Some cur ->
  ready_queues k q ->
  0 <= p < TO_THREAD_PRIORITY_MAX ->
  q p = cur :: l2 ->
  (forall p', p < p' < TO_THREAD_PRIORITY_MAX -> q p' = []) ->
  (length (q p) < fuel)%nat ->
  Z.of_nat (length (q p)) < 2 ^ 32 ->
  t_schedulue_suspend k = 0 ->
  0 <= t_thread_ready_priority_group k < 2 ^ 32 ->
  0 <= s_tick k -> s_tick k + 1 < 2 ^ 32 ->
  0 < remaining_tick (threads k cur) < 2 ^ 32 ->
  status (threads k cur) = TO_THREAD_RUNNING ->
  timer_lists k c o ->
  (forall tm rest, c = tm :: rest ->
     s_tick k + 1 < timeout_tick (timers k tm)) ->
  exists k',
    t_tick_increase fuel k = Ok k' /\
    s_tick k' = s_tick k + 1 /\
    timer_lists k' c o /\
    callbacks_called (trace k') = callbacks_called (trace k) /\
    (1 < remaining_tick (threads k cur) ->
     remaining_tick (threads k' cur) = remaining_tick (threads k cur) - 1 /\
     t_current_thread k' = Some cur /\
     ready_queues k' q) /\
    (remaining_tick (threads k cur) = 1 ->
     remaining_tick (threads k' cur) = init_tick (threads k cur) /\
     (l2 = [] -> t_current_thread k' = Some cur /\ ready_queues k' q) /\
     (forall nxt l2', l2 = nxt :: l2' ->
        t_current_thread k' = Some nxt /\
        ready_queues k' (with_queue q p (l2 ++ [cur])) /\
        status (threads k' nxt) = TO_THREAD_RUNNING /\
        status (threads k' cur) = TO_THREAD_READY /\
        trace k' = trace k ++ [normal_switch (Some cur) nxt])).
Proof.
  intros Hcur Hq Hp Hqp Habove Hfuel Hlen Hs0 Hg Ht0 Ht1 Hrem Hrun Hl Hdue.
  destruct fuel as [|fuel]; [cbn in Hfuel; lia|].
  rewrite (t_tick_increase_steps (S fuel) k cur Hcur Ht0 Ht1).
  set (kd := with_thread cur
               (fun th =>
                  set_remaining_tick (wrap32 (remaining_tick th - 1)) th)
               (set_s_tick (s_tick k + 1) k)).
  set (kr := with_thread cur
               (fun th => set_remaining_tick (init_tick th) th) kd).
  assert (Hqd : ready_queues kd q).
  { apply (ready_queues_ext k kd q); [reflexivity | reflexivity | |exact Hq].
    intros u. unfold kd, with_thread. cbn [threads set_threads set_s_tick].
    unfold upd. destruct (Nat.eq_dec u cur) as [E|_]; [subst u|];
      split; reflexivity. }
  assert (Hqr : ready_queues kr q).
  { apply (ready_queues_ext kd kr q);
      [reflexivity | reflexivity | |exact Hqd].
    intros u. unfold kr, with_thread. cbn [threads set_threads].
    unfold upd. destruct (Nat.eq_dec u cur) as [E|_]; [subst u|];
      split; reflexivity. }
  assert (Hld : timer_lists kd c o) by exact Hl.
  assert (Hlr : timer_lists kr c o) by exact Hl.
  assert (Hdued : forall tm rest, c = tm :: rest ->
                    s_tick kd < timeout_tick (timers kd tm))
    by exact Hdue.
  assert (Hremd : remaining_tick (threads kd cur)
                  = wrap32 (remaining_tick (threads k cur) - 1)).
  { unfold kd. cbn. rewrite upd_same. reflexivity. }
  assert (Hremr : remaining_tick (threads kr cur) = init_tick (threads k cur)).
  { unfold kr, kd. cbn. rewrite !upd_same. reflexivity. }
  assert (Hstr : status (threads kr cur) = TO_THREAD_RUNNING).
  { unfold kr, kd. cbn. rewrite !upd_same. exact Hrun. }
  destruct (Z.eq_dec (remaining_tick (threads k cur)) 1) as [E1|Hne1].
  - (* the time slice is used up *)
    rewrite E1. change (wrap32 (1 - 1) =? 0) with true. cbv iota.
    destruct (t_thread_rotate_same_prio_moves kr q cur p [] l2 (S fuel)
                Hqr Hcur Hp Hqp Hfuel Hlen) as [Halone Hmove].
    destruct l2 as [|nxt l2'].
    + rewrite (Halone eq_refl). cbn [bind].
      destruct (t_timer_check_idle fuel kr q c o Hqr Hlr Hdued)
        as (k' & Hchk & Hq' & Hl' & Hth' & Hc' & Hs' & Htr' & _).
      exists k'. split; [exact Hchk|]. split; [exact Hs'|].
      split; [exact Hl'|]. split; [rewrite Htr'; reflexivity|].
      split; [intros H; lia|]. intros _.
      split; [rewrite Hth'; exact Hremr|].
      split; [intros _; split; [rewrite Hc'; exact Hcur | exact Hq']|].
      intros nxt l2' E. discriminate E.
    + rewrite (Hmove ltac:(discriminate)).
      pose proof (rotate_relinks kr q cur p [] (nxt :: l2') Hqr Hp Hqp
                    ltac:(discriminate)) as Hq1.
      cbn [app] in Hq1.
      assert (Hl1 : timer_lists
                      (with_links
                         (t_list_insert_before (ready_list p) (tlist cur))
                         (with_links (t_list_delete (tlist cur)) kr)) c o).
      { apply (rotate_keeps_timer_lists kr q c o p cur Hqr Hp); [|exact Hlr].
        rewrite Hqp. left. reflexivity. }
      assert (Hnc : nxt <> cur).
      { pose proof (ready_queues_once k q p Hq Hp) as Hnd.
        rewrite Hqp in Hnd. apply NoDup_cons_iff in Hnd.
        intros E. apply (proj1 Hnd). left. exact E. }
      set (k1 := with_links
                   (t_list_insert_before (ready_list p) (tlist cur))
                   (with_links (t_list_delete (tlist cur)) kr)) in *.
      assert (Hg1 : 0 <= t_thread_ready_priority_group k1 < 2 ^ 32)
        by exact Hg.
      destruct (ready_queues_highest_is k1 _ p Hq1 Hg1 Hp) as [H0 Ehp].
      { rewrite with_queue_same. discriminate. }
      { intros p' Hp'. rewrite with_queue_other by lia. apply Habove.
        exact Hp'. }
      destruct (t_sched_switch_over_queues k1 _ nxt (l2' ++ [cur]) Hq1
                  (conj H0 (proj2 Hg1)))
        as (k6 & Hsw & Hc6 & Hq6 & _ & _ & Hdiff).
      { exact Hs0. }
      { rewrite Ehp. apply with_queue_same. }
      destruct Hdiff as (Hst6 & _ & Htr6 & Hprev6).
      { change (t_current_thread k1) with (t_current_thread k).
        rewrite Hcur. congruence. }
      destruct (t_sched_switch_keeps_timers k1 k6 Hsw)
        as (El & Etm & Est & Egc & Ego & _).
      assert (Hl6 : timer_lists k6 c o).
      { unfold timer_lists. rewrite El, Egc, Ego. exact Hl1. }
      assert (Hdue6 : forall tm rest, c = tm :: rest ->
                        s_tick k6 < timeout_tick (timers k6 tm)).
      { intros tm rest E. rewrite Est, Etm. apply (Hdue tm rest E). }
      rewrite Hsw. cbn [bind].
      destruct (t_timer_check_idle fuel k6 _ c o Hq6 Hl6 Hdue6)
        as (k' & Hchk & Hq' & Hl' & Hth' & Hc' & Hs' & Htr' & _).
      assert (Hremr6 : remaining_tick (threads k6 cur)
                       = init_tick (threads k cur)).
      { rewrite (t_sched_switch_remaining k1 k6 cur Hsw). exact Hremr. }
      exists k'. split; [exact Hchk|].
      split; [rewrite Hs', Est; reflexivity|].
      split; [exact Hl'|]. split.
      { rewrite Htr', Htr6. change (trace k1) with (trace k).
        apply callbacks_called_switch. }
      split; [intros H; lia|]. intros _.
      split; [rewrite Hth'; exact Hremr6|].
      split; [intros E; discriminate E|].
      intros nxt0 l20 E. inversion E. subst nxt0 l20.
      split; [rewrite Hc'; exact Hc6|]. split; [exact Hq'|].
      split; [rewrite Hth'; exact Hst6|]. split.
      * rewrite Hth'.
        rewrite (Hprev6 cur); [|exact Hcur | congruence].
        change (status (threads k1 cur)) with (status (threads kr cur)).
        rewrite Hstr. reflexivity.
      * rewrite Htr', Htr6. change (trace k1) with (trace k).
        change (t_current_thread k1) with (t_current_thread k).
        rewrite Hcur. reflexivity.
  - (* ticks are left *)
    assert (Hw : wrap32 (remaining_tick (threads k cur) - 1)
                 = remaining_tick (threads k cur) - 1)
      by (apply wrap32_small; lia).
    rewrite Hw.
    destruct (Z.eqb_spec (remaining_tick (threads k cur) - 1) 0) as [E|_];
      [lia|].
    cbn [bind].
    destruct (t_timer_check_idle fuel kd q c o Hqd Hld Hdued)
      as (k' & Hchk & Hq' & Hl' & Hth' & Hc' & Hs' & Htr' & _).
    exists k'. split; [exact Hchk|]. split; [exact Hs'|].
    split; [exact Hl'|]. split; [rewrite Htr'; reflexivity|].
    split; [|intros H; contradiction].
    intros _. split; [rewrite Hth', Hremd; exact Hw|].
    split; [rewrite Hc'; exact Hcur | exact Hq'].
Qed.

Lemma slice_almost_up_queues : ready_queues slice_almost_up two_workers_q.
Proof. ready_queues_by_cases. Qed.

Lemma slice_almost_up_timer_lists : timer_lists slice_almost_up [] [].
Proof.
  assert (Ec : g_cur_timer_list slice_almost_up = s_timer_list)
    by (vm_compute; reflexivity).
  assert (Eo : g_overflow_timer_list slice_almost_up = s_overflow_timer_list)
    by (vm_compute; reflexivity).
  unfold timer_lists. rewrite Ec, Eo. split; [|split; [|split]].
  - split; [vm_compute; repeat split|]. repeat constructor. intros [].
  - split; [vm_compute; repeat split|]. repeat constructor. intros [].
  - intros n [E|[]] [E'|[]]; subst n; discriminate.
  - left. split; reflexivity.
Qed.

(** At the tenth tick of the time slice of the first worker, its peer of
    the same priority takes over. *)
Lemma t_tick_increase_time_slice_witness :
  exists k',
    t_tick_increase 8 slice_almost_up = Ok k' /\
    s_tick k' = 10 /\
    t_current_thread k' = Some peer /\
    ready_queues k' (with_queue two_workers_q 3 [peer; worker]) /\
    remaining_tick (threads k' worker) = 10.
Proof.
  destruct (t_tick_increase_time_slice 8 slice_almost_up two_workers_q
              worker 3 [peer] [] [])
    as (k' & Hrun & Hs & _ & _ & _ & Hup).
  - vm_compute. reflexivity.
  - exact slice_almost_up_queues.
  - unfold TO_THREAD_PRIORITY_MAX. lia.
  - reflexivity.
  - intros p' Hp'. unfold two_workers_q, with_queue, upd.
    repeat (destruct (Z.eq_dec _ _); [lia|]). reflexivity.
  - vm_compute. lia.
  - vm_compute. reflexivity.
  - vm_compute. reflexivity.
  - vm_compute. split; [discriminate | reflexivity].
  - vm_compute. discriminate.
  - vm_compute. reflexivity.
  - vm_compute. split; reflexivity.
  - vm_compute. reflexivity.
  - exact slice_almost_up_timer_lists.
  - intros tm rest E. discriminate E.
  - destruct Hup as (Hrem & _ & Hnext); [vm_compute; reflexivity|].
    destruct (Hnext peer [] eq_refl) as (Hc & Hq & _).
    exists k'. split; [exact Hrun|].
    split; [rewrite Hs; vm_compute; reflexivity|]. split; [exact Hc|].
    split; [exact Hq|]. rewrite Hrem. vm_compute. reflexivity.
Defined.

(** ** Wait lists *)

(** The scan of [t_ipc_suspend] in priority mode, from a node of the wait
    list on: it stops at the last waiter that the thread does not
    outrank. *)
Lemma t_ipc_suspend_scan_stops (k : kernel) (s : node) (t : nat) :
  forall (w : list nat) (fuel : nat) (p : node),
  chain (lnk k) p (map tlist w) s ->
  (forall x, s <> tlist x) ->
  (length w < fuel)%nat ->
  t_ipc_suspend_scan fuel s p t k
  = Ok (last (map tlist
                (ipc_scan_passed (threads k) (current_priority (threads k t))
                   w)) p) /\
  w = ipc_scan_passed (threads k) (current_priority (threads k t)) w
      ++ ipc_scan_left (threads k) (current_priority (threads k t)) w.
Proof.
  induction w as [|x w IH]; intros fuel p Hc Hs Hfuel;
    (destruct fuel as [|fuel]; [cbn in Hfuel; lia|]);
    cbn [t_ipc_suspend_scan ipc_scan_passed ipc_scan_left map chain] in *.
  - destruct Hc as [Hn _]. rewrite Hn.
    destruct (node_eq_dec s s) as [_|E]; [|congruence]. auto.
  - destruct Hc as (Hn & _ & Hc). rewrite Hn.
    destruct (node_eq_dec (tlist x) s) as [E|_];
      [exfalso; apply (Hs x); symmetry; exact E|].
    cbn [T_LIST_ENTRY_thread TO_LOWER_PRIORITY_NUM_HIGHER_PRIORITY].
    destruct (current_priority (threads k t)
              >? current_priority (threads k x)).
    + auto.
    + destruct (IH fuel (tlist x) Hc Hs) as [Hrun E];
        [cbn in Hfuel; lia|].
      split; [|cbn [app]; rewrite <- E; reflexivity].
      rewrite Hrun. f_equal. cbn [map].
      generalize (map tlist
                    (ipc_scan_passed (threads k)
                       (current_priority (threads k t)) w)).
      intros l0. destruct l0; [reflexivity|].
      cbn [last]. apply last_default.
Qed.

(** Insertion before the last node of a prefix of a circular list, or
    before its head when the prefix is empty. *)
Lemma t_list_insert_before_last (h : links) (s n : node)
    (l1 l2 : list node) :
  circular h s (l1 ++ l2) ->
  ~ In n (s :: l1 ++ l2) ->
  circular (t_list_insert_before (last l1 s) n h) s
    (match rev l1 with
     | [] => l2 ++ [n]
     | x :: r => rev r ++ n :: x :: l2
     end).
Proof.
  intros Hc Hn.
  destruct l1 as [|a l1].
  - cbn [last app rev] in *. apply t_list_insert_before_tail; assumption.
  - destruct (@exists_last _ (a :: l1)) as (l1' & x & E); [discriminate|].
    rewrite E in *. rewrite last_last, rev_app_distr. cbn [rev app].
    rewrite rev_involutive. rewrite <- app_assoc in *. cbn [app] in *.
    apply t_list_insert_before_member; assumption.
Qed.

Lemma rev_map_tlist (l : list nat) :
  rev (map tlist l) = map tlist (rev l).
Proof. symmetry. apply map_rev. Qed.

(** [t_ipc_suspend] of a queued thread on the wait list of an IPC object.
    The thread leaves its ready queue and is marked SUSPEND.  In FIFO mode,
    and for an unknown flag, it is appended to the wait list.  In priority
    mode the scan passes the waiters that the thread does not outrank, and
    the thread is linked before the last of them: a thread that outranks
    the first waiter is put behind all waiters, and a thread that outranks
    none of them is put before the last one. *)
Theorem t_ipc_suspend_queues_waiter (fuel : nat) (k : kernel)
    (q : Z -> list nat) (t : nat) (p : Z) (l1 l2 w : list nat) (i : nat)
    (flag : Z) :
  ready_queues k q ->
  0 <= p < TO_THREAD_PRIORITY_MAX ->
  q p = l1 ++ t :: l2 ->
  circular (lnk k) (wait_list i) (map tlist w) ->
  unqueued q w ->
  (length w < fuel)%nat ->
  exists k',
    t_ipc_suspend fuel (Some (wait_list i)) (Some t) flag k = Ok (T_OK, k') /\
    ready_queues k' (with_queue q p (l1 ++ l2)) /\
    status (threads k' t) = TO_THREAD_SUSPEND /\
    (flag <> TO_IPC_FLAG_PRIO ->
     circular (lnk k') (wait_list i) (map tlist (w ++ [t]))) /\
    (flag = TO_IPC_FLAG_PRIO ->
     circular (lnk k') (wait_list i)
       (map tlist (ipc_prio_insert (threads k) t w))) /\
    (forall x w', w = x :: w' ->
       current_priority (threads k t) > current_priority (threads k x) ->
       ipc_prio_insert (threads k) t w = w ++ [t]) /\
    (forall x w', w = w' ++ [x] ->
       (forall y, In y w ->
          current_priority (threads k t) <= current_priority (threads k y)) ->
       ipc_prio_insert (threads k) t w = w' ++ [t; x]) /\
    (forall u, u <> t -> threads k' u = threads k u) /\
    primask k' = primask k /\
    ipcs k' = ipcs k.
Proof.
  intros Hq Hp Hqp Hw Hu Hfuel.
  assert (Hinq : In t (q p))
    by (rewrite Hqp; apply in_or_app; right; left; reflexivity).
  assert (Htw : ~ In t w).
  { intros Hin. apply (Hu t p Hin Hp Hinq). }
  assert (Hsw : forall x, wait_list i <> tlist x) by (intros x; discriminate).
  assert (Hnr : ~ is_ready_list (wait_list i))
    by (intros [p' E]; discriminate E).
  (* consequences of the scan, independent of the state *)
  assert (Hfirst : forall x w', w = x :: w' ->
            current_priority (threads k t) > current_priority (threads k x) ->
            ipc_prio_insert (threads k) t w = w ++ [t]).
  { intros x w' E Hgt. subst w. unfold ipc_prio_insert.
    cbn [ipc_scan_passed ipc_scan_left].
    destruct (current_priority (threads k t)
              >? current_priority (threads k x)) eqn:Ec;
      [reflexivity|].
    rewrite Z.gtb_ltb, Z.ltb_ge in Ec. lia. }
  assert (Hnone : forall w0,
            (forall y, In y w0 ->
               current_priority (threads k t)
               <= current_priority (threads k y)) ->
            ipc_scan_passed (threads k) (current_priority (threads k t)) w0
            = w0 /\
            ipc_scan_left (threads k) (current_priority (threads k t)) w0
            = []).
  { induction w0 as [|y w0 IH]; intros Hall; [auto|].
    cbn [ipc_scan_passed ipc_scan_left].
    pose proof (Hall y (or_introl eq_refl)) as Hy.
    destruct (current_priority (threads k t)
              >? current_priority (threads k y)) eqn:Ec;
      [apply Z.gtb_lt in Ec; lia|].
    destruct IH as [E1 E2]; [intros z Hz; apply Hall; right; exact Hz|].
    rewrite E1, E2. auto. }
  assert (Hlast : forall x w', w = w' ++ [x] ->
            (forall y, In y w ->
               current_priority (threads k t)
               <= current_priority (threads k y)) ->
            ipc_prio_insert (threads k) t w = w' ++ [t; x]).
  { intros x w' E Hall. destruct (Hnone w Hall) as [E1 E2].
    unfold ipc_prio_insert. rewrite E1, E2, E, rev_app_distr.
    cbn [rev app]. rewrite rev_involutive. reflexivity. }
  (* after [t_sched_remove_thread] *)
  pose proof (t_sched_remove_thread_keeps_ready_queues k q t p l1 l2
                Hq Hp Hqp) as HqA.
  pose proof (unqueued_after_remove q w p l1 l2 t Hu Hqp) as HuA.
  assert (Hout : forall p', 0 <= p' < TO_THREAD_PRIORITY_MAX ->
                            ~ In t (with_queue q p (l1 ++ l2) p')).
  { intros p' Hp' Hin'.
    destruct (Z.eq_dec p' p) as [E|Hpp].
    - subst p'. rewrite with_queue_same in Hin'.
      pose proof (ready_queues_once k q p Hq Hp) as Hnd. rewrite Hqp in Hnd.
      apply (NoDup_remove_2 _ _ _ Hnd Hin').
    - rewrite with_queue_other in Hin' by exact Hpp.
      pose proof Hq as (_ & Hpr & _).
      destruct (Hpr _ t Hp' Hin') as [E1 _].
      destruct (Hpr p t Hp Hinq) as [E2 _]. congruence. }
  destruct (t_sched_remove_thread_fields (set_primask 1 k) t)
    as (HlA & HtA & HgA).
  destruct (t_sched_remove_thread_rest (set_primask 1 k) t)
    as (_ & _ & _ & HpmA & _ & _ & HipA & _).
  assert (HqA1 : ready_queues (t_sched_remove_thread (Some t) (set_primask 1 k))
                   (with_queue q p (l1 ++ l2))).
  { apply (t_sched_remove_thread_keeps_ready_queues (set_primask 1 k) q t p
             l1 l2); [|exact Hp|exact Hqp].
    apply (ready_queues_ext k); [reflexivity | reflexivity | |exact Hq].
    intros u. split; reflexivity. }
  assert (HwA : circular
                  (lnk (t_sched_remove_thread (Some t) (set_primask 1 k)))
                  (wait_list i) (map tlist w)).
  { rewrite HlA. pose proof Hq as (Hc & _).
    apply (t_list_delete_apart (lnk k) (ready_list p) (tlist t) _
             (map tlist (q p))); auto.
    - apply in_map. exact Hinq.
    - apply unqueued_apart; auto. }
  assert (Hnw : ~ In (tlist t) (wait_list i :: map tlist w)).
  { intros [E|Hin]; [discriminate|]. apply Htw. apply in_map_tlist.
    exact Hin. }
  unfold t_ipc_suspend. cbn [t_irq_disable].
  change (primask (set_primask 1 k)) with 1 in HpmA.
  generalize dependent (t_sched_remove_thread (Some t) (set_primask 1 k)).
  intros kA HlA HtA HgA HpmA HipA HqA1 HwA.
  set (kB := with_thread t (set_status TO_THREAD_SUSPEND) kA).
  assert (HwB : circular (lnk kB) (wait_list i) (map tlist w)) by exact HwA.
  assert (Hprio : forall u, current_priority (threads kB u)
                            = current_priority (threads k u)).
  { intros u. unfold kB, with_thread. cbn [threads set_threads].
    unfold upd. rewrite HtA.
    destruct (Nat.eq_dec u t) as [E|_]; [subst u|]; reflexivity. }
  (* whatever node of the wait list the thread is linked before *)
  assert (Hany : forall y l',
            In y (wait_list i :: map tlist w) ->
            circular (t_list_insert_before y (tlist t) (lnk kB))
              (wait_list i) (map tlist l') ->
            let k' := t_irq_enable (primask k)
                        (with_links (t_list_insert_before y (tlist t)) kB) in
            ready_queues k' (with_queue q p (l1 ++ l2)) /\
            status (threads k' t) = TO_THREAD_SUSPEND /\
            circular (lnk k') (wait_list i) (map tlist l') /\
            (forall u, u <> t -> threads k' u = threads k u) /\
            primask k' = primask k /\
            ipcs k' = ipcs k).
  { intros y l' Hy Hc' k'. split; [|split; [|split; [|split; [|split]]]].
    - apply (ready_queues_links kA k'); [| | |exact HqA1].
      + intros p' Hp'. pose proof HqA1 as (HcA & _).
        apply (t_list_insert_before_apart (lnk kA) (wait_list i) (tlist t)
                 y _ (map tlist w)); auto.
        * intros [E|Hin]; [discriminate|].
          apply (Hout p' Hp'). apply in_map_tlist. exact Hin.
        * apply apart_sym. apply unqueued_apart; auto.
      + reflexivity.
      + intros u. unfold k', kB, with_thread.
        cbn [t_irq_enable with_links set_lnk set_primask threads set_threads].
        unfold upd. destruct (Nat.eq_dec u t) as [E|_]; [subst u|];
          split; reflexivity.
    - unfold k', kB. cbn. rewrite upd_same. reflexivity.
    - exact Hc'.
    - intros u Hne. unfold k', kB. cbn. rewrite upd_other by exact Hne.
      rewrite HtA. reflexivity.
    - reflexivity.
    - unfold k', kB. cbn. exact HipA. }
  assert (Htail : circular (t_list_insert_before (wait_list i) (tlist t)
                              (lnk kB))
                    (wait_list i) (map tlist (w ++ [t]))).
  { rewrite map_app. cbn [map]. apply t_list_insert_before_tail; assumption. }
  destruct (Z.eqb_spec flag TO_IPC_FLAG_FIFO) as [Ef|Hnf].
  - specialize (Hany (wait_list i) (w ++ [t]) (or_introl eq_refl) Htail).
    cbv zeta in Hany.
    destruct Hany as (H1 & H2 & H3 & H4 & H5 & H6).
    eexists. split; [cbn [bind]; reflexivity|].
    split; [exact H1|]. split; [exact H2|]. split; [intros _; exact H3|].
    split; [intros E; subst flag; discriminate E|].
    split; [exact Hfirst|]. split; [exact Hlast|]. auto.
  - destruct (Z.eqb_spec flag TO_IPC_FLAG_PRIO) as [Epr|Hnp].
    + destruct (t_ipc_suspend_scan_stops kB (wait_list i) t w fuel
                  (wait_list i)) as [Hscan Esplit];
        [apply HwB | exact Hsw | exact Hfuel |].
      assert (Etk : forall w0 pr,
                ipc_scan_passed (threads kB) pr w0
                = ipc_scan_passed (threads k) pr w0 /\
                ipc_scan_left (threads kB) pr w0
                = ipc_scan_left (threads k) pr w0).
      { induction w0 as [|y w0 IH]; intros pr; [auto|].
        cbn [ipc_scan_passed ipc_scan_left]. rewrite (Hprio y).
        destruct (IH pr) as [E1 E2]. rewrite E1, E2. auto. }
      rewrite (Hprio t) in Hscan, Esplit.
      destruct (Etk w (current_priority (threads k t))) as [Ea Eb].
      rewrite Ea in Hscan. rewrite Ea, Eb in Esplit.
      rewrite Hscan. cbn [bind].
      set (a := ipc_scan_passed (threads k) (current_priority (threads k t))
                  w) in *.
      set (b := ipc_scan_left (threads k) (current_priority (threads k t))
                  w) in *.
      assert (Hc' : circular
                      (t_list_insert_before (last (map tlist a) (wait_list i))
                         (tlist t) (lnk kB))
                      (wait_list i)
                      (map tlist (ipc_prio_insert (threads k) t w))).
      { pose proof (t_list_insert_before_last (lnk kB) (wait_list i)
                      (tlist t) (map tlist a) (map tlist b)) as H.
        rewrite <- map_app, <- Esplit in H. specialize (H HwB Hnw).
        unfold ipc_prio_insert. fold a b.
        rewrite rev_map_tlist in H.
        destruct (rev a) as [|x r]; cbn [map] in H.
        - rewrite map_app. exact H.
        - rewrite rev_map_tlist in H. rewrite map_app. exact H. }
      assert (Hy : In (last (map tlist a) (wait_list i))
                     (wait_list i :: map tlist w)).
      { pose proof (last_in (wait_list i) (map tlist a)) as Hin.
        destruct Hin as [E|Hin]; [left; exact E|]. right.
        rewrite Esplit, map_app. apply in_or_app. left. exact Hin. }
      specialize (Hany _ _ Hy Hc'). cbv zeta in Hany.
      destruct Hany as (H1 & H2 & H3 & H4 & H5 & H6).
      eexists. split; [reflexivity|].
      split; [exact H1|]. split; [exact H2|].
      split; [intros Hne; contradiction|].
      split; [intros _; exact H3|].
      split; [exact Hfirst|]. split; [exact Hlast|]. auto.
    + specialize (Hany (wait_list i) (w ++ [t]) (or_introl eq_refl) Htail).
      cbv zeta in Hany.
      destruct Hany as (H1 & H2 & H3 & H4 & H5 & H6).
      eexists. split; [cbn [bind]; reflexivity|].
      split; [exact H1|]. split; [exact H2|]. split; [intros _; exact H3|].
      split; [intros E; contradiction|].
      split; [exact Hfirst|]. split; [exact Hlast|]. auto.
Qed.

Lemma peer_waiting_queues : ready_queues peer_waiting peer_waiting_q.
Proof. ready_queues_by_cases. Qed.

(** A thread of priority 5 waits in priority mode on a semaphore on which
    a thread of priority 3 waits already: it is put behind that thread. *)
Lemma t_ipc_suspend_queues_waiter_witness :
  exists k',
    t_ipc_suspend 8 (Some (wait_list sema_prio)) (Some urgent)
      TO_IPC_FLAG_PRIO peer_waiting = Ok (T_OK, k') /\
    circular (lnk k') (wait_list sema_prio) (map tlist [peer; urgent]) /\
    current_priority (threads peer_waiting urgent) = 5 /\
    current_priority (threads peer_waiting peer) = 3.
Proof.
  destruct (t_ipc_suspend_queues_waiter 8 peer_waiting peer_waiting_q urgent
              5 [] [] [peer] sema_prio TO_IPC_FLAG_PRIO peer_waiting_queues)
    as (k' & Hrun & _ & _ & _ & Hw & Hfirst & _).
  - unfold TO_THREAD_PRIORITY_MAX. lia.
  - reflexivity.
  - split; [vm_compute; repeat split|].
    repeat (constructor; [cbn; intuition discriminate|]). constructor.
  - intros u p' [E|[]] Hp'. subst u.
    unfold peer_waiting_q, with_queue, upd.
    repeat (destruct (Z.eq_dec _ _); cbn; [intuition discriminate|]).
    intros [].
  - cbn. lia.
  - specialize (Hw eq_refl).
    rewrite (Hfirst peer [] eq_refl) in Hw by (vm_compute; reflexivity).
    exists k'. split; [exact Hrun|]. split; [exact Hw|].
    split; vm_compute; reflexivity.
Defined.

(** ** The semaphore as a bounded counter *)

Lemma t_sema_recv_token (fuel : nat) (k : kernel) (i : nat) :
  ipc_status (ipcs k i) <> 0 ->
  ipc_type (ipcs k i) = IPC_SEMA ->
  0 < msg_waiting (ipcs k i) < 2 ^ 16 ->
  exists k',
    t_sema_recv fuel (Some i) 0 k = Ok (Done T_OK, k') /\
    ipcs k' i = set_msg_waiting (msg_waiting (ipcs k i) - 1) (ipcs k i) /\
    lnk k' = lnk k /\ primask k' = primask k.
Proof.
  intros Hs Ht Hn. unfold t_sema_recv.
  destruct (Z.eqb_spec (ipc_status (ipcs k i)) 0) as [E|_];
    [contradiction|].
  rewrite Ht. cbn [t_ipc_type_eqb negb t_irq_disable].
  cbn [set_primask ipcs].
  destruct (Z.eqb_spec (ipc_status (ipcs k i)) 0) as [E|_];
    [contradiction|].
  destruct (msg_waiting (ipcs k i) >? 0) eqn:Hgt;
    [|rewrite Z.gtb_ltb, Z.ltb_ge in Hgt; lia].
  eexists. split; [reflexivity|]. cbn. rewrite upd_same.
  rewrite wrap16_small by lia. auto.
Qed.

Lemma t_sema_recv_no_token (fuel : nat) (k : kernel) (i : nat) :
  ipc_status (ipcs k i) <> 0 ->
  ipc_type (ipcs k i) = IPC_SEMA ->
  msg_waiting (ipcs k i) = 0 ->
  t_sema_recv fuel (Some i) 0 k = Ok (Done T_ERR, k).
Proof.
  intros Hs Ht Hn. unfold t_sema_recv.
  destruct (Z.eqb_spec (ipc_status (ipcs k i)) 0) as [E|_];
    [contradiction|].
  rewrite Ht. cbn [t_ipc_type_eqb negb t_irq_disable].
  cbn [set_primask ipcs].
  destruct (Z.eqb_spec (ipc_status (ipcs k i)) 0) as [E|_];
    [contradiction|].
  rewrite Hn. cbn [Z.gtb Z.compare Z.eqb]. unfold t_irq_enable.
  rewrite set_primask_restore. reflexivity.
Qed.

Lemma t_sema_send_no_waiter (k : kernel) (i : nat) :
  ipc_status (ipcs k i) <> 0 ->
  ipc_type (ipcs k i) = IPC_SEMA ->
  0 <= msg_waiting (ipcs k i) < ipc_length (ipcs k i) ->
  ipc_length (ipcs k i) < 2 ^ 16 ->
  next (lnk k) (wait_list i) = wait_list i ->
  exists k',
    t_sema_send (Some i) k = Ok (T_OK, k') /\
    ipcs k' i = set_msg_waiting (msg_waiting (ipcs k i) + 1) (ipcs k i) /\
    lnk k' = lnk k /\ primask k' = primask k.
Proof.
  intros Hs Ht Hn Hlen Hw. unfold t_sema_send.
  destruct (Z.eqb_spec (ipc_status (ipcs k i)) 0) as [E|_];
    [contradiction|].
  rewrite Ht. cbn [t_ipc_type_eqb negb t_irq_disable].
  cbn [set_primask ipcs].
  destruct (Z.eqb_spec (ipc_status (ipcs k i)) 0) as [E|_];
    [contradiction|].
  destruct (msg_waiting (ipcs k i) <? ipc_length (ipcs k i)) eqn:Hlt;
    [|apply Z.ltb_ge in Hlt; lia].
  rewrite wake_first_waiter_empty by exact Hw.
  cbn [bind]. eexists. split; [reflexivity|]. cbn. rewrite upd_same.
  rewrite wrap16_small by lia. auto.
Qed.

(** A semaphore on which nobody waits, under any sequence of
    [t_sema_send] and of [t_sema_recv] with the timeout 0, is a counter
    between 0 and its capacity: a take succeeds exactly when the count is
    not 0 and a give exactly when it is below the capacity, a refused call
    changes no count, and nobody is made to wait.  Interrupts are as
    before unless a give was refused, after which they stay masked. *)
Theorem sema_calls_count (fuel : nat) (i : nat) (cs : list sema_call) :
  forall (k : kernel),
  ipc_status (ipcs k i) <> 0 ->
  ipc_type (ipcs k i) = IPC_SEMA ->
  0 <= msg_waiting (ipcs k i) <= ipc_length (ipcs k i) ->
  ipc_length (ipcs k i) < 2 ^ 16 ->
  next (lnk k) (wait_list i) = wait_list i ->
  exists k',
    run_sema_calls fuel i cs k
    = Ok (fst (fst (count_sema_calls (ipc_length (ipcs k i)) cs
                      (msg_waiting (ipcs k i)))), k') /\
    msg_waiting (ipcs k' i)
    = snd (fst (count_sema_calls (ipc_length (ipcs k i)) cs
                  (msg_waiting (ipcs k i)))) /\
    0 <= msg_waiting (ipcs k' i) <= ipc_length (ipcs k i) /\
    ipc_length (ipcs k' i) = ipc_length (ipcs k i) /\
    lnk k' = lnk k /\
    primask k'
    = (if snd (count_sema_calls (ipc_length (ipcs k i)) cs
                 (msg_waiting (ipcs k i)))
       then 1 else primask k).
Proof.
  induction cs as [|c cs IH]; intros k Hs Ht Hn Hlen Hw.
  - exists k. cbn. auto 10.
  - cbn [run_sema_calls count_sema_calls]. destruct c; cbn [do_sema_call].
    + (* give *)
      destruct (msg_waiting (ipcs k i) <? ipc_length (ipcs k i)) eqn:Hlt.
      * apply Z.ltb_lt in Hlt.
        destruct (t_sema_send_no_waiter k i Hs Ht ltac:(lia) Hlen Hw)
          as (k1 & Hrun & Hi & Hl & Hpm).
        rewrite Hrun. cbn [bind fst snd].
        destruct (IH k1) as (k' & Hrun' & Hc' & Hr' & Hlen' & Hl' & Hpm');
          try (rewrite Hi; cbn; auto; lia); [rewrite Hl; exact Hw|].
        rewrite Hi in Hrun', Hc', Hr', Hlen', Hpm'.
        cbn [msg_waiting ipc_length set_msg_waiting] in *.
        rewrite Hrun'. cbn [bind fst snd].
        destruct (count_sema_calls (ipc_length (ipcs k i)) cs
                    (msg_waiting (ipcs k i) + 1)) as [[rs n'] refused].
        cbn [fst snd] in *. exists k'.
        rewrite orb_false_r.
        split; [reflexivity|]. split; [exact Hc'|]. split; [exact Hr'|].
        split; [exact Hlen'|]. split; [congruence|].
        rewrite Hpm', Hpm. reflexivity.
      * apply Z.ltb_ge in Hlt.
        rewrite (t_sema_send_at_capacity k i Hs Ht Hlt).
        cbn [bind fst snd].
        destruct (IH (set_primask 1 k)) as
          (k' & Hrun' & Hc' & Hr' & Hlen' & Hl' & Hpm'); auto.
        change (ipcs (set_primask 1 k)) with (ipcs k) in *.
        change (lnk (set_primask 1 k)) with (lnk k) in *.
        change (primask (set_primask 1 k)) with 1 in *.
        rewrite Hrun'. cbn [bind fst snd].
        destruct (count_sema_calls (ipc_length (ipcs k i)) cs
                    (msg_waiting (ipcs k i))) as [[rs n'] refused].
        cbn [fst snd] in *. exists k'.
        rewrite orb_true_r.
        split; [reflexivity|]. split; [exact Hc'|]. split; [exact Hr'|].
        split; [exact Hlen'|]. split; [exact Hl'|].
        rewrite Hpm'. destruct refused; reflexivity.
    + (* take *)
      destruct (msg_waiting (ipcs k i) >? 0) eqn:Hgt.
      * apply Z.gtb_lt in Hgt.
        destruct (t_sema_recv_token fuel k i Hs Ht ltac:(lia))
          as (k1 & Hrun & Hi & Hl & Hpm).
        rewrite Hrun. cbn [bind fst snd].
        destruct (IH k1) as (k' & Hrun' & Hc' & Hr' & Hlen' & Hl' & Hpm');
          try (rewrite Hi; cbn; auto; lia); [rewrite Hl; exact Hw|].
        rewrite Hi in Hrun', Hc', Hr', Hlen', Hpm'.
        cbn [msg_waiting ipc_length set_msg_waiting] in *.
        rewrite Hrun'. cbn [bind fst snd].
        destruct (count_sema_calls (ipc_length (ipcs k i)) cs
                    (msg_waiting (ipcs k i) - 1)) as [[rs n'] refused].
        cbn [fst snd] in *. exists k'.
        split; [reflexivity|]. split; [exact Hc'|]. split; [exact Hr'|].
        split; [exact Hlen'|]. split; [congruence|].
        rewrite Hpm', Hpm. reflexivity.
      * rewrite Z.gtb_ltb, Z.ltb_ge in Hgt.
        rewrite (t_sema_recv_no_token fuel k i Hs Ht ltac:(lia)).
        cbn [bind fst snd].
        destruct (IH k) as (k' & Hrun' & Hc' & Hr' & Hlen' & Hl' & Hpm');
          auto.
        rewrite Hrun'. cbn [bind fst snd].
        destruct (count_sema_calls (ipc_length (ipcs k i)) cs
                    (msg_waiting (ipcs k i))) as [[rs n'] refused].
        cbn [fst snd] in *. exists k'.
        split; [reflexivity|]. auto 10.
Qed.

(** Three takes and a give on a semaphore of capacity 2 that is full: the
    third take is refused, and one token is left. *)
Lemma sema_calls_count_witness :
  exists k',
    run_sema_calls 8 sema1 [sema_take; sema_take; sema_take; sema_give]
      full_sema
    = Ok ([Done T_OK; Done T_OK; Done T_ERR; Done T_OK], k') /\
    msg_waiting (ipcs k' sema1) = 1.
Proof.
  destruct (sema_calls_count 8 sema1
              [sema_take; sema_take; sema_take; sema_give] full_sema)
    as (k' & Hrun & Hc & _).
  - vm_compute. discriminate.
  - reflexivity.
  - vm_compute. split; discriminate.
  - vm_compute. reflexivity.
  - reflexivity.
  - exists k'. split; [exact Hrun | exact Hc].
Defined.

(** ** Deleting an IPC object *)







(** ** Formatted output *)

(** *** What has been written stays, and stays before [end] *)

Lemma room_length (size : Z) (out : list Z) :
  room size out = true <-> Z.of_nat (length out) < size - 1.
Proof. unfold room. apply Z.ltb_lt. Qed.

Lemma put_appends (size c : Z) (out : list Z) :
  exists x, put size c out = out ++ x.
Proof.
  unfold put. destruct (room size out);
    [exists [c]; reflexivity | exists []; symmetry; apply app_nil_r].
Qed.

Lemma put_all_appends (size : Z) (cs : list Z) :
  forall out, exists x, put_all size cs out = out ++ x.
Proof.
  induction cs as [|c cs IH]; intros out; cbn [put_all].
  - exists []. symmetry. apply app_nil_r.
  - destruct (room size out).
    + destruct (IH (out ++ [c])) as [x E]. exists ([c] ++ x).
      rewrite E, app_assoc. reflexivity.
    + exists []. symmetry. apply app_nil_r.
Qed.

Lemma frac_digits_appends (size : Z) (n : nat) :
  forall frac out r,
  frac_digits n size frac out = Ok r -> exists x, r = out ++ x.
Proof.
  induction n as [|n IH]; intros frac out r; cbn [frac_digits].
  - intros H. inversion H. exists []. symmetry. apply app_nil_r.
  - destruct (room size out);
      [|intros H; inversion H; exists []; symmetry; apply app_nil_r].
    destruct (int_of_double _) as [digit| |]; cbn [bind]; try discriminate.
    intros H. apply IH in H. destruct H as [x E].
    destruct (put_appends size (wrap8 (48 + digit)) out) as [y Ey].
    rewrite Ey in E. exists (y ++ x). rewrite E, app_assoc. reflexivity.
Qed.

Lemma t_vsnprintf_conv_appends (size c : Z) (args args' : list va_arg_t)
    (out r : list Z) :
  t_vsnprintf_conv size c args out = Ok (args', r) ->
  exists x, r = out ++ x.
Proof.
  unfold t_vsnprintf_conv.
  destruct (c =? 100).
  { destruct (va_arg_int args) as [[value a]| |]; cbn [bind];
      try discriminate.
    destruct (value =? - 2 ^ 31); [discriminate|].
    intros H. inversion H. subst.
    match goal with
    | |- exists x, put_all ?s ?cs ?o = _ =>
        destruct (put_all_appends s cs o) as [x E]
    end.
    rewrite E. destruct (value <? 0).
    - destruct (put_appends size 45 out) as [y Ey]. rewrite Ey.
      exists (y ++ x). rewrite app_assoc. reflexivity.
    - exists x. reflexivity. }
  destruct (c =? 115).
  { destruct (va_arg_str args) as [[str a]| |]; cbn [bind];
      try discriminate.
    intros H. inversion H. subst. apply put_all_appends. }
  destruct (c =? 99).
  { destruct (va_arg_int args) as [[v a]| |]; cbn [bind];
      try discriminate.
    intros H. inversion H. subst. apply put_appends. }
  destruct (c =? 120).
  { destruct (va_arg_unsigned args) as [[value a]| |]; cbn [bind];
      try discriminate.
    intros H. inversion H. subst. apply put_all_appends. }
  destruct (c =? 102).
  { destruct (va_arg_double args) as [[value a]| |]; cbn [bind];
      try discriminate.
    destruct (int_of_double _) as [int_part| |]; cbn [bind];
      try discriminate.
    destruct (frac_digits 6 size _ _) as [o| |] eqn:Ef; cbn [bind];
      try discriminate.
    intros H. inversion H. subst.
    apply frac_digits_appends in Ef. destruct Ef as [x E]. rewrite E.
    match goal with
    | |- exists x0, put ?s ?c0 (put_all ?s ?cs ?o) ++ x = _ =>
        destruct (put_appends s c0 (put_all s cs o)) as [y Ey];
        destruct (put_all_appends s cs o) as [z Ez]
    end.
    rewrite Ey, Ez.
    destruct (PrimFloat.ltb value (double_of_int 0)).
    - destruct (put_appends size 45 out) as [w Ew]. rewrite Ew.
      exists (w ++ z ++ y ++ x). rewrite <- !app_assoc. reflexivity.
    - exists (z ++ y ++ x). rewrite <- !app_assoc. reflexivity. }
  intros H. inversion H. subst.
  destruct (put_appends size 37 out) as [y Ey].
  destruct (put_appends size c (put size 37 out)) as [z Ez].
  rewrite Ez, Ey. exists (y ++ z). rewrite app_assoc. reflexivity.
Qed.

(** Induction on a format, one character or one conversion at a time. *)
Lemma format_ind (P : list Z -> Prop) :
  P [] ->
  (forall c, P [c]) ->
  (forall c d fmt, P fmt -> P (d :: fmt) -> P (c :: d :: fmt)) ->
  forall fmt, P fmt.
Proof.
  intros H0 H1 H2.
  assert (H : forall fmt, P fmt /\ forall c, P (c :: fmt)).
  { induction fmt as [|d fmt [IH1 IH2]].
    - split; [exact H0 | exact H1].
    - split; [apply IH2|]. intros c. apply H2; [exact IH1 | apply IH2]. }
  intros fmt. apply H.
Qed.

Lemma t_vsnprintf_loop_appends (size : Z) (fmt : list Z) :
  forall args out r,
  t_vsnprintf_loop size fmt args out = Ok r -> exists x, r = out ++ x.
Proof.
  induction fmt as [|c|c d fmt IH IHd] using format_ind;
    intros args out r; cbn [t_vsnprintf_loop].
  - intros H. inversion H. exists []. symmetry. apply app_nil_r.
  - destruct (c =? 0);
      [intros H; inversion H; exists []; symmetry; apply app_nil_r|].
    destruct (negb (room size out));
      [intros H; inversion H; exists []; symmetry; apply app_nil_r|].
    destruct (c =? 37); [discriminate|].
    intros H. inversion H. apply put_appends.
  - destruct (c =? 0);
      [intros H; inversion H; exists []; symmetry; apply app_nil_r|].
    destruct (negb (room size out));
      [intros H; inversion H; exists []; symmetry; apply app_nil_r|].
    destruct (c =? 37).
    + destruct (t_vsnprintf_conv size d args out) as [[a o]| |] eqn:Ec;
        cbn [bind fst snd]; try discriminate.
      intros H. apply IH in H. destruct H as [x E].
      apply t_vsnprintf_conv_appends in Ec. destruct Ec as [y Ey].
      exists (y ++ x). rewrite E, Ey, app_assoc. reflexivity.
    + intros H. apply IHd in H. destruct H as [x E].
      destruct (put_appends size c out) as [y Ey]. rewrite Ey in E.
      exists (y ++ x). rewrite E, app_assoc. reflexivity.
Qed.

Lemma put_fits (size c : Z) (out : list Z) :
  fits size out -> fits size (put size c out).
Proof.
  unfold fits, put. intros H. destruct (room size out) eqn:E; [|exact H].
  apply room_length in E. rewrite length_app. cbn [length]. lia.
Qed.

Lemma put_all_fits (size : Z) (cs : list Z) :
  forall out, fits size out -> fits size (put_all size cs out).
Proof.
  induction cs as [|c cs IH]; intros out H; cbn [put_all]; [exact H|].
  destruct (room size out) eqn:E; [|exact H].
  apply IH. apply room_length in E. unfold fits in *.
  rewrite length_app. cbn [length]. lia.
Qed.

Lemma frac_digits_fits (size : Z) (n : nat) :
  forall frac out r,
  frac_digits n size frac out = Ok r -> fits size out -> fits size r.
Proof.
  induction n as [|n IH]; intros frac out r; cbn [frac_digits].
  - intros H. inversion H. auto.
  - destruct (room size out); [|intros H; inversion H; auto].
    destruct (int_of_double _) as [digit| |]; cbn [bind]; try discriminate.
    intros H Hf. apply (IH _ _ _ H). apply put_fits. exact Hf.
Qed.

Lemma t_vsnprintf_conv_fits (size c : Z) (args args' : list va_arg_t)
    (out r : list Z) :
  t_vsnprintf_conv size c args out = Ok (args', r) ->
  fits size out -> fits size r.
Proof.
  unfold t_vsnprintf_conv.
  destruct (c =? 100).
  { destruct (va_arg_int args) as [[value a]| |]; cbn [bind];
      try discriminate.
    destruct (value =? - 2 ^ 31); [discriminate|].
    intros H Hf. inversion H. subst. apply put_all_fits.
    destruct (value <? 0); [apply put_fits|]; exact Hf. }
  destruct (c =? 115).
  { destruct (va_arg_str args) as [[str a]| |]; cbn [bind];
      try discriminate.
    intros H Hf. inversion H. subst. apply put_all_fits. exact Hf. }
  destruct (c =? 99).
  { destruct (va_arg_int args) as [[v a]| |]; cbn [bind];
      try discriminate.
    intros H Hf. inversion H. subst. apply put_fits. exact Hf. }
  destruct (c =? 120).
  { destruct (va_arg_unsigned args) as [[value a]| |]; cbn [bind];
      try discriminate.
    intros H Hf. inversion H. subst. apply put_all_fits. exact Hf. }
  destruct (c =? 102).
  { destruct (va_arg_double args) as [[value a]| |]; cbn [bind];
      try discriminate.
    destruct (int_of_double _) as [int_part| |]; cbn [bind];
      try discriminate.
    destruct (frac_digits 6 size _ _) as [o| |] eqn:Ef; cbn [bind];
      try discriminate.
    intros H Hf. inversion H. subst.
    apply (frac_digits_fits _ _ _ _ _ Ef).
    apply put_fits. apply put_all_fits.
    destruct (PrimFloat.ltb value (double_of_int 0));
      [apply put_fits|]; exact Hf. }
  intros H Hf. inversion H. subst. apply put_fits. apply put_fits. exact Hf.
Qed.

Lemma t_vsnprintf_loop_fits (size : Z) (fmt : list Z) :
  forall args out r,
  t_vsnprintf_loop size fmt args out = Ok r -> fits size out -> fits size r.
Proof.
  induction fmt as [|c|c d fmt IH IHd] using format_ind;
    intros args out r; cbn [t_vsnprintf_loop].
  - intros H. inversion H. auto.
  - destruct (c =? 0); [intros H; inversion H; auto|].
    destruct (negb (room size out)); [intros H; inversion H; auto|].
    destruct (c =? 37); [discriminate|].
    intros H Hf. inversion H. apply put_fits. exact Hf.
  - destruct (c =? 0); [intros H; inversion H; auto|].
    destruct (negb (room size out)); [intros H; inversion H; auto|].
    destruct (c =? 37).
    + destruct (t_vsnprintf_conv size d args out) as [[a o]| |] eqn:Ec;
        cbn [bind fst snd]; try discriminate.
      intros H Hf. apply (IH _ _ _ H).
      apply (t_vsnprintf_conv_fits _ _ _ _ _ _ Ec). exact Hf.
    + intros H Hf. apply (IHd _ _ _ H). apply put_fits. exact Hf.
Qed.

(** Whatever the format and the arguments, [t_vsnprintf] writes inside a
    buffer of [size] bytes when [size] is not 0: at most [size - 1]
    characters from [buffer] on and the terminator behind them, and it
    returns the number of these characters.  So [t_printf], whose buffer
    has 128 bytes, hands at most 127 characters to [t_putc].  For the
    size 0 nothing but the terminator is written, which is then one byte
    behind the buffer. *)
Theorem t_vsnprintf_stays_in_buffer (size : Z) (fmt : list Z)
    (args : list va_arg_t) (out : list Z) (n : Z) :
  t_vsnprintf size fmt args = Ok (out, n) ->
  n = Z.of_nat (length out) /\
  (0 < size -> n <= size - 1) /\
  (size <= 1 -> out = []) /\
  (forall cs, t_printf fmt args = Ok cs ->
     (length cs <= 127)%nat /\
     t_vsnprintf TO_PRINTF_BUF_SIZE fmt args
     = Ok (cs, Z.of_nat (length cs))).
Proof.
  unfold t_vsnprintf.
  destruct (t_vsnprintf_loop size fmt args []) as [o| |] eqn:E;
    cbn [bind]; try discriminate.
  intros H. inversion H. subst o n. clear H.
  assert (Hf : fits size out).
  { apply (t_vsnprintf_loop_fits _ _ _ _ _ E). unfold fits. cbn. lia. }
  unfold fits in Hf.
  split; [reflexivity|]. split; [intros Hs; lia|]. split.
  - intros Hs. destruct out; [reflexivity|]. cbn [length] in Hf. lia.
  - intros cs. unfold t_printf, t_vsnprintf.
    destruct (t_vsnprintf_loop TO_PRINTF_BUF_SIZE fmt args []) as [o| |]
      eqn:E'; cbn [bind fst snd]; try discriminate.
    intros H. inversion H. clear H.
    rewrite Nat2Z.id, firstn_all.
    assert (Hf' : fits TO_PRINTF_BUF_SIZE o).
    { apply (t_vsnprintf_loop_fits _ _ _ _ _ E'). unfold fits. cbn. lia. }
    unfold fits, TO_PRINTF_BUF_SIZE in Hf'. split; [lia | reflexivity].
Qed.

(** A buffer of 8 bytes takes the first 7 characters of "i=-1234567". *)
Lemma t_vsnprintf_stays_in_buffer_witness :
  t_vsnprintf 8 [105; 61; 37; 100] [va_int (-1234567)]
  = Ok ([105; 61; 45; 49; 50; 51; 52], 7) /\
  7 <= 8 - 1.
Proof.
  split; [reflexivity|].
  apply (t_vsnprintf_stays_in_buffer 8 [105; 61; 37; 100]
           [va_int (-1234567)] [105; 61; 45; 49; 50; 51; 52] 7);
    [reflexivity | lia].
Defined.

(** *** A smaller buffer cuts the output and changes nothing else *)

Section Truncation.

Variables size size' : Z.
Hypothesis Hsize : size <= size'.

Lemma room_cut (o : list Z) :
  room size (firstn (cut_at size) o) = true <-> (length o < cut_at size)%nat.
Proof.
  rewrite room_length, length_firstn. unfold cut_at. lia.
Qed.

Lemma room_cut_larger (o : list Z) :
  room size (firstn (cut_at size) o) = true ->
  room size' o = true /\ firstn (cut_at size) o = o.
Proof.
  intros H. apply room_cut in H. split.
  - apply room_length. unfold cut_at in H. lia.
  - apply firstn_all2. lia.
Qed.

Lemma no_room_cut (o x : list Z) :
  room size (firstn (cut_at size) o) = false ->
  firstn (cut_at size) (o ++ x) = firstn (cut_at size) o.
Proof.
  intros H.
  assert (Hle : (cut_at size <= length o)%nat).
  { destruct (Nat.le_gt_cases (cut_at size) (length o)) as [Hl|Hg]; [exact Hl|].
    apply room_cut in Hg. congruence. }
  rewrite firstn_app. replace (cut_at size - length o)%nat with 0%nat by lia.
  cbn [firstn]. apply app_nil_r.
Qed.

Lemma no_room_larger (o : list Z) :
  room size' o = false -> room size (firstn (cut_at size) o) = false.
Proof.
  intros H. destruct (room size (firstn (cut_at size) o)) eqn:E; [|reflexivity].
  apply room_cut_larger in E. destruct E as [E _]. congruence.
Qed.

Lemma put_cut (c : Z) (o : list Z) :
  firstn (cut_at size) (put size' c o) = put size c (firstn (cut_at size) o).
Proof.
  unfold put at 2. destruct (room size (firstn (cut_at size) o)) eqn:E.
  - destruct (room_cut_larger o E) as [E' Eo].
    unfold put. rewrite E', Eo. apply firstn_all2.
    apply room_cut in E. rewrite length_app. cbn [length]. lia.
  - destruct (put_appends size' c o) as [x Ex]. rewrite Ex.
    apply no_room_cut. exact E.
Qed.

Lemma put_all_cut (cs : list Z) :
  forall o,
  firstn (cut_at size) (put_all size' cs o)
  = put_all size cs (firstn (cut_at size) o).
Proof.
  induction cs as [|c cs IH]; intros o; cbn [put_all]; [reflexivity|].
  destruct (room size (firstn (cut_at size) o)) eqn:E.
  - destruct (room_cut_larger o E) as [E' Eo]. rewrite E', IH.
    f_equal. rewrite Eo.
    apply firstn_all2. apply room_cut in E. rewrite length_app.
    cbn [length]. lia.
  - destruct (room size' o).
    + destruct (put_all_appends size' cs (o ++ [c])) as [x Ex].
      rewrite Ex, <- app_assoc. apply no_room_cut. exact E.
    + reflexivity.
Qed.

Lemma frac_digits_cut (n : nat) :
  forall frac o r,
  frac_digits n size' frac o = Ok r ->
  frac_digits n size frac (firstn (cut_at size) o)
  = Ok (firstn (cut_at size) r).
Proof.
  induction n as [|n IH]; intros frac o r; cbn [frac_digits].
  - intros H. inversion H. reflexivity.
  - destruct (room size (firstn (cut_at size) o)) eqn:E.
    + destruct (room_cut_larger o E) as [E' Eo]. rewrite E'.
      destruct (int_of_double _) as [digit| |]; cbn [bind];
        try discriminate.
      intros H. apply IH in H. rewrite put_cut in H. exact H.
    + intros H.
      assert (Hx : exists x, r = o ++ x).
      { destruct (room size' o).
        - destruct (int_of_double _) as [digit| |]; cbn [bind] in H;
            try discriminate.
          apply frac_digits_appends in H. destruct H as [x Ex].
          destruct (put_appends size' (wrap8 (48 + digit)) o) as [y Ey].
          rewrite Ey in Ex. exists (y ++ x). rewrite Ex, app_assoc.
          reflexivity.
        - inversion H. exists []. symmetry. apply app_nil_r. }
      destruct Hx as [x Ex]. rewrite Ex, no_room_cut by exact E.
      reflexivity.
Qed.

Lemma t_vsnprintf_conv_cut (c : Z) (args args' : list va_arg_t)
    (o r : list Z) :
  t_vsnprintf_conv size' c args o = Ok (args', r) ->
  t_vsnprintf_conv size c args (firstn (cut_at size) o)
  = Ok (args', firstn (cut_at size) r).
Proof.
  unfold t_vsnprintf_conv.
  destruct (c =? 100).
  { destruct (va_arg_int args) as [[value a]| |]; cbn [bind];
      try discriminate.
    destruct (value =? - 2 ^ 31); [discriminate|].
    intros H. inversion H. subst. rewrite put_all_cut.
    destruct (value <? 0); [rewrite put_cut|]; reflexivity. }
  destruct (c =? 115).
  { destruct (va_arg_str args) as [[str a]| |]; cbn [bind];
      try discriminate.
    intros H. inversion H. subst. rewrite put_all_cut. reflexivity. }
  destruct (c =? 99).
  { destruct (va_arg_int args) as [[v a]| |]; cbn [bind];
      try discriminate.
    intros H. inversion H. subst. rewrite put_cut. reflexivity. }
  destruct (c =? 120).
  { destruct (va_arg_unsigned args) as [[value a]| |]; cbn [bind];
      try discriminate.
    intros H. inversion H. subst. rewrite put_all_cut. reflexivity. }
  destruct (c =? 102).
  { destruct (va_arg_double args) as [[value a]| |]; cbn [bind];
      try discriminate.
    destruct (int_of_double _) as [int_part| |]; cbn [bind];
      try discriminate.
    destruct (frac_digits 6 size' _ _) as [o1| |] eqn:Ef; cbn [bind];
      try discriminate.
    intros H. inversion H. subst.
    apply frac_digits_cut in Ef. rewrite put_cut, put_all_cut in Ef.
    destruct (PrimFloat.ltb value (double_of_int 0));
      [rewrite put_cut in Ef|]; rewrite Ef; reflexivity. }
  intros H. inversion H. subst. rewrite !put_cut. reflexivity.
Qed.

Lemma t_vsnprintf_loop_cut (fmt : list Z) :
  forall args o r,
  t_vsnprintf_loop size' fmt args o = Ok r ->
  t_vsnprintf_loop size fmt args (firstn (cut_at size) o)
  = Ok (firstn (cut_at size) r).
Proof.
  induction fmt as [|c|c d fmt IH IHd] using format_ind;
    intros args o r H.
  - cbn [t_vsnprintf_loop] in *. inversion H. reflexivity.
  - pose proof (t_vsnprintf_loop_appends _ _ _ _ _ H) as [x Ex].
    cbn [t_vsnprintf_loop] in *.
    destruct (c =? 0); [inversion H; reflexivity|].
    destruct (room size (firstn (cut_at size) o)) eqn:E; cbn [negb].
    + destruct (room_cut_larger o E) as [E' Eo].
      rewrite E' in H. cbn [negb] in H.
      destruct (c =? 37); [discriminate|].
      inversion H. rewrite put_cut. reflexivity.
    + rewrite Ex, no_room_cut by exact E. reflexivity.
  - pose proof (t_vsnprintf_loop_appends _ _ _ _ _ H) as [x Ex].
    cbn [t_vsnprintf_loop] in *.
    destruct (c =? 0); [inversion H; reflexivity|].
    destruct (room size (firstn (cut_at size) o)) eqn:E; cbn [negb].
    + destruct (room_cut_larger o E) as [E' Eo].
      rewrite E' in H. cbn [negb] in H.
      destruct (c =? 37).
      * destruct (t_vsnprintf_conv size' d args o) as [[a o1]| |] eqn:Ec;
          cbn [bind fst snd] in H; try discriminate.
        apply t_vsnprintf_conv_cut in Ec. rewrite Ec. cbn [bind fst snd].
        apply IH. exact H.
      * apply IHd in H. rewrite put_cut in H. exact H.
    + rewrite Ex, no_room_cut by exact E. reflexivity.
Qed.

End Truncation.

(** With a smaller buffer [t_vsnprintf] writes the first [size - 1]
    characters of what it writes with a larger one, and returns their
    number: the output is cut, and nothing else depends on the size. *)
Theorem t_vsnprintf_truncates (size size' : Z) (fmt : list Z)
    (args : list va_arg_t) (out' : list Z) (n' : Z) :
  size <= size' ->
  t_vsnprintf size' fmt args = Ok (out', n') ->
  t_vsnprintf size fmt args
  = Ok (firstn (Z.to_nat (size - 1)) out', Z.min n' (Z.max 0 (size - 1))).
Proof.
  intros Hsize. unfold t_vsnprintf.
  destruct (t_vsnprintf_loop size' fmt args []) as [o| |] eqn:E;
    cbn [bind]; try discriminate.
  intros H. inversion H. subst o n'. clear H.
  pose proof (t_vsnprintf_loop_cut size size' Hsize fmt args [] out' E)
    as Hcut.
  unfold cut_at in Hcut. rewrite firstn_nil in Hcut. rewrite Hcut. cbn [bind].
  rewrite length_firstn. f_equal. f_equal. lia.
Qed.

(** What a buffer of 8 bytes gets is the first 7 characters of what a
    buffer of 128 bytes gets. *)
Lemma t_vsnprintf_truncates_witness :
  t_vsnprintf 8 [105; 61; 37; 100] [va_int (-1234567)]
  = Ok ([105; 61; 45; 49; 50; 51; 52], 7).
Proof.
  apply (t_vsnprintf_truncates 8 128 [105; 61; 37; 100]
           [va_int (-1234567)]
           [105; 61; 45; 49; 50; 51; 52; 53; 54; 55] 10);
    [lia | reflexivity].
Defined.

(** *** Numbers *)

Lemma number_value_snoc (base : Z) (digit_value : Z -> Z) (cs : list Z)
    (c : Z) :
  forall acc,
  number_value base digit_value acc (cs ++ [c])
  = base * number_value base digit_value acc cs + digit_value c.
Proof.
  induction cs as [|x cs IH]; intros acc; cbn [number_value app];
    [reflexivity|]. apply IH.
Qed.

(** The digits that the conversion loops leave in [temp], read from the
    last one back, stand for the value, and each one is a digit of the
    base. *)
Lemma digits_value (base : Z) (digit digit_value : Z -> Z) :
  1 < base ->
  (forall d, 0 <= d < base -> digit_value (digit d) = d) ->
  forall (n : nat) (value : Z),
  0 <= value < base ^ Z.of_nat (S n) ->
  number_value base digit_value 0 (rev (digits (S n) base digit value))
  = value /\
  (length (digits (S n) base digit value) <= S n)%nat /\
  digits (S n) base digit value <> [] /\
  (forall c, In c (digits (S n) base digit value) ->
     exists d, 0 <= d < base /\ c = digit d).
Proof.
  intros Hb Hd. induction n as [|n IH]; intros value Hv.
  - cbn [digits].
    assert (Hm : 0 <= value mod base < base) by (apply Z.mod_pos_bound; lia).
    assert (E : value / base = 0).
    { apply Z.div_small. change (Z.of_nat 1) with 1 in Hv.
      rewrite Z.pow_1_r in Hv. exact Hv. }
    rewrite E. cbn [Z.eqb rev app number_value length].
    rewrite Hd by exact Hm.
    split.
    { pose proof (Z.div_mod value base ltac:(lia)) as Hdm.
      rewrite E in Hdm. lia. }
    split; [lia|]. split; [discriminate|].
    intros c [Ec|[]]. exists (value mod base). auto.
  - assert (Hm : 0 <= value mod base < base) by (apply Z.mod_pos_bound; lia).
    assert (Hq : 0 <= value / base < base ^ Z.of_nat (S n)).
    { split; [apply Z.div_pos; lia|].
      apply Z.div_lt_upper_bound; [lia|].
      rewrite (Nat2Z.inj_succ (S n)), Z.pow_succ_r in Hv by lia. lia. }
    change (digits (S (S n)) base digit value)
      with (digit (value mod base)
            :: (if value / base =? 0 then []
                else digits (S n) base digit (value / base))).
    destruct (Z.eqb_spec (value / base) 0) as [E|Hne].
    + cbn [rev app number_value length]. rewrite Hd by exact Hm.
      split.
      { pose proof (Z.div_mod value base ltac:(lia)) as Hdm.
        rewrite E in Hdm. lia. }
      split; [lia|]. split; [discriminate|].
      intros c [Ec|[]]. exists (value mod base). auto.
    + destruct (IH (value / base) Hq) as (Hval & Hlen & _ & Hin).
      cbn [rev length]. rewrite number_value_snoc, Hval, Hd by exact Hm.
      split.
      { pose proof (Z.div_mod value base ltac:(lia)) as Hdm. lia. }
      split; [lia|]. split; [discriminate|].
      intros c [Ec|Hc]; [exists (value mod base); auto | apply Hin; exact Hc].
Qed.

(** A value of at most [k] digits does not use more of [temp]. *)
Lemma digits_enough (base : Z) (digit : Z -> Z) :
  1 < base ->
  forall (k n : nat) (value : Z),
  (k <= n)%nat ->
  0 <= value < base ^ Z.of_nat (S k) ->
  digits (S n) base digit value = digits (S k) base digit value.
Proof.
  intros Hb. induction k as [|k IH]; intros n value Hkn Hv.
  - assert (E : value / base = 0).
    { apply Z.div_small. change (Z.of_nat 1) with 1 in Hv.
      rewrite Z.pow_1_r in Hv. exact Hv. }
    cbn [digits]. rewrite E. reflexivity.
  - destruct n as [|n]; [lia|].
    assert (Hq : 0 <= value / base < base ^ Z.of_nat (S k)).
    { split; [apply Z.div_pos; lia|].
      apply Z.div_lt_upper_bound; [lia|].
      rewrite (Nat2Z.inj_succ (S k)), Z.pow_succ_r in Hv by lia. lia. }
    change (digits (S (S n)) base digit value)
      with (digit (value mod base)
            :: (if value / base =? 0 then []
                else digits (S n) base digit (value / base))).
    change (digits (S (S k)) base digit value)
      with (digit (value mod base)
            :: (if value / base =? 0 then []
                else digits (S k) base digit (value / base))).
    rewrite (IH n (value / base)) by (lia || exact Hq). reflexivity.
Qed.

Lemma put_all_room (size : Z) (cs : list Z) :
  forall out,
  Z.of_nat (length out) + Z.of_nat (length cs) <= size - 1 ->
  put_all size cs out = out ++ cs.
Proof.
  induction cs as [|c cs IH]; intros out H; cbn [put_all].
  - symmetry. apply app_nil_r.
  - cbn [length] in H.
    assert (E : room size out = true) by (apply room_length; lia).
    rewrite E, IH; [rewrite <- app_assoc; reflexivity|].
    rewrite length_app. cbn [length]. lia.
Qed.

Lemma dec_digit_value (d : Z) :
  0 <= d < 10 -> decimal_digit_value (dec_digit d) = d.
Proof.
  intros H. unfold decimal_digit_value, dec_digit.
  rewrite wrap8_small by lia. lia.
Qed.

Lemma hex_digit_value_digit (d : Z) :
  0 <= d < 16 -> hex_digit_value (hex_digit d) = d.
Proof.
  intros H. unfold hex_digit_value, hex_digit.
  destruct (Z.ltb_spec d 10) as [Hl|Hg]; rewrite wrap8_small by lia.
  - destruct (Z.ltb_spec (48 + d) 97); lia.
  - destruct (Z.ltb_spec (97 + d - 10) 97); lia.
Qed.

(** What [%d] leaves in [temp] for the absolute value of an [int], and
    [%x] for an [unsigned int]. *)
Lemma decimal_digits (value : Z) :
  0 <= value < 2 ^ 31 ->
  number_value 10 decimal_digit_value 0
    (rev (digits 12 10 dec_digit value)) = value /\
  (length (digits 12 10 dec_digit value) <= 10)%nat /\
  digits 12 10 dec_digit value <> [] /\
  (forall c, In c (digits 12 10 dec_digit value) -> 48 <= c <= 57).
Proof.
  intros Hv.
  assert (Hp : 0 <= value < 10 ^ Z.of_nat 10).
  { change (10 ^ Z.of_nat 10) with 10000000000.
    change (2 ^ 31) with 2147483648 in Hv. lia. }
  rewrite (digits_enough 10 dec_digit ltac:(lia) 9 11 value ltac:(lia) Hp).
  destruct (digits_value 10 dec_digit decimal_digit_value ltac:(lia)
              dec_digit_value 9 value Hp) as (Hval & Hlen & Hne & Hin).
  split; [exact Hval|]. split; [exact Hlen|]. split; [exact Hne|].
  intros c Hc. destruct (Hin c Hc) as (d & Hd & ->).
  unfold dec_digit. rewrite wrap8_small by lia. lia.
Qed.

Lemma hex_digits (value : Z) :
  0 <= value < 2 ^ 32 ->
  number_value 16 hex_digit_value 0
    (rev (digits 16 16 hex_digit value)) = value /\
  (length (digits 16 16 hex_digit value) <= 8)%nat /\
  digits 16 16 hex_digit value <> [] /\
  (forall c, In c (digits 16 16 hex_digit value) ->
     48 <= c <= 57 \/ 97 <= c <= 102).
Proof.
  intros Hv.
  assert (Hp : 0 <= value < 16 ^ Z.of_nat 8).
  { change (16 ^ Z.of_nat 8) with 4294967296.
    change (2 ^ 32) with 4294967296 in Hv. lia. }
  rewrite (digits_enough 16 hex_digit ltac:(lia) 7 15 value ltac:(lia) Hp).
  destruct (digits_value 16 hex_digit hex_digit_value ltac:(lia)
              hex_digit_value_digit 7 value Hp) as (Hval & Hlen & Hne & Hin).
  split; [exact Hval|]. split; [exact Hlen|]. split; [exact Hne|].
  intros c Hc. destruct (Hin c Hc) as (d & Hd & ->).
  unfold hex_digit.
  destruct (Z.ltb_spec d 10); rewrite wrap8_small by lia; lia.
Qed.

Lemma rev_not_nil {A : Type} (l : list A) : l <> [] -> rev l <> [].
Proof.
  intros H E. apply H. rewrite <- (rev_involutive l), E. reflexivity.
Qed.

Lemma number_value_digits_nonneg (cs : list Z) :
  (forall c, In c cs -> 48 <= c <= 57) ->
  forall acc, 0 <= acc ->
  0 <= number_value 10 decimal_digit_value acc cs.
Proof.
  induction cs as [|c cs IH]; intros Hcs acc Hacc; cbn [number_value];
    [exact Hacc|].
  apply IH; [intros x Hx; apply Hcs; right; exact Hx|].
  pose proof (Hcs c (or_introl eq_refl)). unfold decimal_digit_value. lia.
Qed.

(** [%d] and [%x] with room for the whole number.  An [int] other than the
    least one is written as an optional minus sign and decimal digits,
    at most 11 characters, that read back as the same [int]; for the least
    [int] the negation overflows.  An [unsigned int] is written as at most
    8 hexadecimal digits in lower case that read back as the same value. *)
Theorem t_vsnprintf_numbers_read_back (size v : Z) :
  12 <= size ->
  (- 2 ^ 31 < v < 2 ^ 31 ->
   exists out,
     t_vsnprintf size [37; 100] [va_int v]
     = Ok (out, Z.of_nat (length out)) /\
     parse_int out = v /\
     (length out <= 11)%nat /\
     (v < 0 -> exists ds, out = 45 :: ds /\ ds <> [] /\
                          forall c, In c ds -> 48 <= c <= 57) /\
     (0 <= v -> out <> [] /\ forall c, In c out -> 48 <= c <= 57)) /\
  t_vsnprintf size [37; 100] [va_int (- 2 ^ 31)] = Fault /\
  (0 <= v < 2 ^ 32 ->
   exists out,
     t_vsnprintf size [37; 120] [va_uint v]
     = Ok (out, Z.of_nat (length out)) /\
     parse_hex out = v /\
     (length out <= 8)%nat /\
     out <> [] /\
     forall c, In c out -> 48 <= c <= 57 \/ 97 <= c <= 102).
Proof.
  intros Hsize.
  assert (Hroom : room size [] = true) by (apply room_length; cbn; lia).
  split; [|split].
  - intros Hv.
    assert (Hin : va_arg_int [va_int v] = Ok (v, [])).
    { unfold va_arg_int.
      destruct (Z.leb_spec (- 2 ^ 31) v); [|lia].
      destruct (Z.ltb_spec v (2 ^ 31)); [reflexivity | lia]. }
    unfold t_vsnprintf. cbn [t_vsnprintf_loop Z.eqb Pos.eqb].
    rewrite Hroom. cbn [negb]. unfold t_vsnprintf_conv.
    cbn [Z.eqb Pos.eqb]. rewrite Hin. cbn [bind].
    destruct (Z.eqb_spec v (- 2 ^ 31)) as [E|_]; [lia|].
    cbn [fst snd t_vsnprintf_loop bind].
    destruct (Z.ltb_spec v 0) as [Hneg|Hpos].
    + destruct (decimal_digits (- v) ltac:(lia))
        as (Hval & Hlen & Hne & Hdig).
      unfold put. rewrite Hroom. cbn [app].
      rewrite put_all_room by (rewrite length_rev; cbn [length]; lia).
      cbn [app].
      exists (45 :: rev (digits 12 10 dec_digit (- v))).
      split; [reflexivity|].
      split; [cbn [parse_int]; rewrite Hval; lia|].
      split; [cbn [length]; rewrite length_rev; lia|].
      split.
      * intros _. eexists. split; [reflexivity|].
        split; [apply rev_not_nil; exact Hne|].
        intros c Hc. apply Hdig, in_rev. exact Hc.
      * intros Hge. lia.
    + destruct (decimal_digits v ltac:(lia)) as (Hval & Hlen & Hne & Hdig).
      rewrite put_all_room by (rewrite length_rev; cbn [length]; lia).
      cbn [app].
      exists (rev (digits 12 10 dec_digit v)).
      split; [reflexivity|].
      assert (Hdig' : forall c, In c (rev (digits 12 10 dec_digit v)) ->
                        48 <= c <= 57).
      { intros c Hc. apply Hdig, in_rev. exact Hc. }
      split.
      { unfold parse_int.
        destruct (rev (digits 12 10 dec_digit v)) as [|c cs] eqn:E;
          [exact Hval|].
        pose proof (Hdig' c (or_introl eq_refl)) as Hc.
        destruct (Z.eq_dec c 45) as [->|Hn]; [lia|].
        destruct c as [|p|p]; try exact Hval.
        repeat (destruct p as [p|p|]; try exact Hval). congruence. }
      split; [rewrite length_rev; lia|].
      split; [intros Hlt; lia|].
      intros _. split; [apply rev_not_nil; exact Hne | exact Hdig'].
  - unfold t_vsnprintf. cbn [t_vsnprintf_loop Z.eqb Pos.eqb].
    rewrite Hroom. reflexivity.
  - intros Hv.
    assert (Hin : va_arg_unsigned [va_uint v] = Ok (v, [])).
    { unfold va_arg_unsigned.
      destruct (Z.leb_spec 0 v); [|lia].
      destruct (Z.ltb_spec v (2 ^ 32)); [reflexivity | lia]. }
    unfold t_vsnprintf. cbn [t_vsnprintf_loop Z.eqb Pos.eqb].
    rewrite Hroom. cbn [negb]. unfold t_vsnprintf_conv.
    cbn [Z.eqb Pos.eqb]. rewrite Hin. cbn [bind fst snd t_vsnprintf_loop].
    destruct (hex_digits v Hv) as (Hval & Hlen & Hne & Hdig).
    rewrite put_all_room by (rewrite length_rev; cbn [length]; lia).
    cbn [app].
    exists (rev (digits 16 16 hex_digit v)).
    split; [reflexivity|]. split; [exact Hval|].
    split; [rewrite length_rev; exact Hlen|].
    split; [apply rev_not_nil; exact Hne|].
    intros c Hc. apply Hdig, in_rev. exact Hc.
Qed.

Lemma t_vsnprintf_numbers_read_back_witness :
  12 <= 16 /\
  (- 2 ^ 31 < - 1234 < 2 ^ 31) /\
  t_vsnprintf 16 [37; 100] [va_int (- 1234)] = Ok ([45; 49; 50; 51; 52], 5) /\
  parse_int [45; 49; 50; 51; 52] = - 1234.
Proof.
  assert (Hs : 12 <= 16) by lia.
  assert (Hv : - 2 ^ 31 < - 1234 < 2 ^ 31) by (cbn; lia).
  split; [exact Hs|]. split; [exact Hv|].
  destruct (t_vsnprintf_numbers_read_back 16 (- 1234) Hs) as (Hd & _ & _).
  destruct (Hd Hv) as (out & Hrun & Hparse & _).
  assert (E : t_vsnprintf 16 [37; 100] [va_int (- 1234)]
              = Ok ([45; 49; 50; 51; 52], 5)) by (vm_compute; reflexivity).
  rewrite E in Hrun. injection Hrun as Hout _. subst out.
  split; [reflexivity | exact Hparse].
Defined.

(** *** Suspending a thread and starting it again *)

(** A thread of a ready queue is in no other, and in its own once. *)
Lemma ready_queues_elsewhere (k : kernel) (q : Z -> list nat) (t : nat)
    (p : Z) (l1 l2 : list nat) :
  ready_queues k q ->
  0 <= p < TO_THREAD_PRIORITY_MAX ->
  q p = l1 ++ t :: l2 ->
  forall p', 0 <= p' < TO_THREAD_PRIORITY_MAX ->
  ~ In t (with_queue q p (l1 ++ l2) p').
Proof.
  intros Hq Hp Hqp p' Hp' Hin.
  pose proof (ready_queues_once k q p Hq Hp) as Hnd.
  destruct Hq as (_ & Hpr & _).
  destruct (Z.eq_dec p' p) as [->|Hne].
  - rewrite with_queue_same in Hin. rewrite Hqp in Hnd.
    apply NoDup_remove_2 in Hnd. contradiction.
  - rewrite with_queue_other in Hin by exact Hne.
    destruct (Hpr p' t Hp' Hin) as [E1 _].
    assert (Hint : In t (q p)) by (rewrite Hqp; apply in_elt).
    destruct (Hpr p t Hp Hint) as [E2 _]. congruence.
Qed.

(** [t_thread_suspend] takes a queued thread out of its ready queue and
    marks it SUSPEND, without asking for a context switch: if it is the
    running thread it stays the current one.  [t_thread_startup] puts it
    back, last in the queue of its initial priority and with its whole
    time slice; the count of ready tasks, which the removal decrements,
    is not incremented by the start and ends one lower than it was. *)
Theorem t_thread_suspend_then_startup (k : kernel) (q : Z -> list nat)
    (t : nat) (p : Z) (l1 l2 : list nat) :
  ready_queues k q ->
  0 <= p < TO_THREAD_PRIORITY_MAX ->
  q p = l1 ++ t :: l2 ->
  init_priority (threads k t) = p ->
  exists k1 k2,
    t_thread_suspend (Some t) k = (T_OK, k1) /\
    status (threads k1 t) = TO_THREAD_SUSPEND /\
    ready_queues k1 (with_queue q p (l1 ++ l2)) /\
    t_current_thread k1 = t_current_thread k /\
    trace k1 = trace k /\
    primask k1 = primask k /\
    t_cur_num_of_ready_tasks k1 = wrap8 (t_cur_num_of_ready_tasks k - 1) /\
    t_thread_startup (Some t) k1 = (T_OK, k2) /\
    ready_queues k2 (with_queue q p (l1 ++ l2 ++ [t])) /\
    status (threads k2 t) = TO_THREAD_READY /\
    remaining_tick (threads k2 t) = init_tick (threads k t) /\
    t_current_thread k2 = t_current_thread k /\
    t_cur_num_of_ready_tasks k2 = wrap8 (t_cur_num_of_ready_tasks k - 1).
Proof.
  intros Hq Hp Hqp Hip.
  assert (Hmask : number_mask (threads k t) = 2 ^ p).
  { destruct Hq as (_ & Hpr & _).
    apply (Hpr p t Hp). rewrite Hqp. apply in_elt. }
  pose proof (ready_queues_elsewhere k q t p l1 l2 Hq Hp Hqp) as Hout.
  assert (HqA : ready_queues (set_primask 1 k) q).
  { apply (ready_queues_ext k); [reflexivity | reflexivity | | exact Hq].
    intros u. split; reflexivity. }
  pose proof (t_sched_remove_thread_keeps_ready_queues (set_primask 1 k) q t
                p l1 l2 HqA Hp Hqp) as HqB.
  destruct (t_sched_remove_thread_fields (set_primask 1 k) t)
    as (_ & EtB & _).
  destruct (t_sched_remove_thread_rest (set_primask 1 k) t)
    as (EnB & EcB & _ & _ & ErB & _).
  unfold t_thread_suspend. cbn [t_irq_disable].
  revert HqB EtB EnB EcB ErB.
  generalize (t_sched_remove_thread (Some t) (set_primask 1 k)).
  intros kB HqB EtB EnB EcB ErB.
  cbn [threads set_primask t_cur_num_of_ready_tasks t_current_thread trace]
    in EtB, EnB, EcB, ErB.
  set (k1 := t_irq_enable (primask k)
               (with_thread t (set_status TO_THREAD_SUSPEND) kB)).
  assert (Et1 : threads k1 t = set_status TO_THREAD_SUSPEND (threads k t)).
  { unfold k1.
    cbn [t_irq_enable with_thread set_threads set_primask threads].
    rewrite upd_same, EtB. reflexivity. }
  assert (Hq1 : ready_queues k1 (with_queue q p (l1 ++ l2))).
  { apply (ready_queues_ext kB); [reflexivity | reflexivity | | exact HqB].
    intros u. unfold k1.
    cbn [t_irq_enable with_thread set_threads set_primask threads].
    destruct (Nat.eq_dec u t) as [->|Hne].
    - rewrite upd_same. split; reflexivity.
    - rewrite upd_other by exact Hne. split; reflexivity. }
  destruct (t_thread_startup_enqueues k1 (with_queue q p (l1 ++ l2)) t p
              Hq1 Hout Hp)
    as (k2 & Hrun & Hq2 & _ & Et2 & _ & En2 & Ec2 & _).
  { rewrite Et1. exact Hip. }
  { rewrite Et1. exact Hmask. }
  { rewrite Et1. cbn [set_status status]. discriminate. }
  exists k1, k2.
  split; [reflexivity|].
  split; [rewrite Et1; reflexivity|].
  split; [exact Hq1|].
  split; [exact EcB|]. split; [exact ErB|]. split; [reflexivity|].
  split; [exact EnB|].
  split; [exact Hrun|].
  split.
  { apply (ready_queues_same k2 (with_queue (with_queue q p (l1 ++ l2)) p
                                   (with_queue q p (l1 ++ l2) p ++ [t])));
      [|exact Hq2].
    intros p'. rewrite with_queue_same.
    destruct (Z.eq_dec p' p) as [->|Hne].
    - rewrite !with_queue_same. rewrite <- app_assoc. reflexivity.
    - rewrite !with_queue_other by exact Hne. reflexivity. }
  split; [rewrite Et2; reflexivity|].
  split; [rewrite Et2, Et1; reflexivity|].
  split; [rewrite Ec2; exact EcB|].
  rewrite En2. exact EnB.
Qed.

(** The running worker is suspended and started again: it is behind its
    peer in the queue of priority 3 and still the current thread. *)
Lemma t_thread_suspend_then_startup_witness :
  exists k1 k2,
    t_thread_suspend (Some worker) two_workers_running = (T_OK, k1) /\
    t_current_thread k1 = Some worker /\
    t_thread_startup (Some worker) k1 = (T_OK, k2) /\
    ready_queues k2 (with_queue two_workers_q 3 [peer; worker]) /\
    t_cur_num_of_ready_tasks k2
    = wrap8 (t_cur_num_of_ready_tasks two_workers_running - 1).
Proof.
  assert (Hp : 0 <= 3 < TO_THREAD_PRIORITY_MAX) by (vm_compute; split; congruence).
  assert (Hqp : two_workers_q 3 = [] ++ worker :: [peer])
    by (vm_compute; reflexivity).
  assert (Hip : init_priority (threads two_workers_running worker) = 3)
    by (vm_compute; reflexivity).
  assert (Hc : t_current_thread two_workers_running = Some worker)
    by (vm_compute; reflexivity).
  destruct (t_thread_suspend_then_startup two_workers_running two_workers_q
              worker 3 [] [peer] two_workers_running_queues Hp Hqp Hip)
    as (k1 & k2 & H1 & _ & _ & Hc1 & _ & _ & _ & H2 & Hq2 & _ & _ & _ & Hn2).
  exists k1, k2.
  split; [exact H1|]. split; [rewrite Hc1; exact Hc|].
  split; [exact H2|]. split; [exact Hq2 | exact Hn2].
Defined.
